(* ===== verification/_CoqProject ===== *)
-Q . S2P
Prelude.v
JsString.v
JsValue.v
Json.v
Normalizer.v
JsonRoundTrip.v
Transport.v
Format.v
Regex.v
Unicode.v
Action.v
Session.v
Controller.v
Playback.v
System.v
Invariants.v
Behaviour.v
Equivalence.v
Settle.v
SystemRefinement.v
PlaybackRefinement.v
Page.v
Interleaving.v
Render.v
Wire.v
Accounting.v
Typing.v
Agreement.v
PageRefinement.v
