(* ===== verification/Prelude.v ===== *)
(** * Ladki-AI-Agent chat front end: a verification development

    The program is the Angular chat client of the repository: one component
    class, [LoginComponent] (src/Frontend/src/app/login/login.component.ts),
    and one service, [ChatService]
    (src/Frontend/src/app/services/chat.service.ts).  The component keeps the
    message log, the session identity and the rolling "previous response"
    context; it sends a user turn through the service, turns whatever the
    server answers into a display value, and plays synthesized speech for a
    message.  The service builds the requests.

    ** Parts of the program and the files that model them

    - [Prelude] (this file): the completion monad that models JavaScript
      exceptions ([completion], [try_catch]), its notation, the scanning
      helpers [expect] and [strip_prefix], the hint databases of the
      development ([js], [js_rw], [handlers]), generic lemmas on
      strings, and the interface [Runs] of a step function with its run,
      with the lemmas every system of the development shares (the run of
      an append, invariants and measures along a run, forward simulation
      of runs).
    - [JsString]: the ECMAScript string operations the sources call:
      [trim] ([String.prototype.trim]), [startsWith], [substr], the white
      space and line terminator classes.
    - [JsValue]: JavaScript values as the sources see them ([value]), with
      [typeof], truthiness ([truthy], the test behind every [if (x)]),
      property reads ([get_field]) and the [String(x)] conversion
      ([to_string]).
    - [Json]: the interface [JsonPlatform] of [JSON.parse] and
      [JSON.stringify] with the laws the component relies on, and a reference
      implementation [RefJson] (an executable parser and printer) that
      discharges the interface and serves the concrete witnesses.
    - [Normalizer]: the payload normalisation inside the [next] callback of
      [sendUserMessage] (login.component.ts lines 123-169) as [normalize],
      one definition per source block ([parse_outer], [unwrap_inner],
      [handle_response]), and the algorithm of the written specification
      ([spec_normalize]) it is compared with.
    - [JsonRoundTrip]: the round trip of the reference parser and printer
      on the values JavaScript can print and read back ([canonical]), and
      what it means for the normalisation.
    - [Transport]: [ChatService.sendMessage] and [ChatService.getAudio]: the
      [FormData] entries a request carries ([sendMessage_form]) and the
      request itself ([http_request]).
    - [Format]: [formatMessage]: the replacement of bold pairs
      ([match_group], [replace_bold]) and of newlines ([replace_newlines]).
    - [Regex]: the two regular expressions of [formatMessage] as data
      ([bold_regex], [newline_regex]) with the backtracking matcher of
      ECMAScript for their operators ([match_re], [repeat_matcher]), the
      expansion of a replacement text ([get_substitution]) and the global
      [replace] ([regex_replace]).
    - [Unicode]: the same operations stated on code points ([trim_cp],
      [is_white_space], [formatMessage_cp]) and the encoding [utf8] that
      relates them to the bytes.
    - [Action]: handlers as state transformers: [action S E A] returns the
      state a handler leaves, the effects it asked for and a completion; a
      throw keeps the writes made before it.
    - [Session]: the component's fields as the record [component]; the
      handlers [ngOnInit], [generateSessionId], [sendUserMessage] (up to the
      subscription), its callbacks [sendUserMessage_next] and
      [sendUserMessage_error], [handleQuickReply], [resetSession],
      [openUploader], [onFileSelected], [scrollToBottom] and the three
      toggles.  A call of a collaborator is an [effect].
    - [Controller]: the session controller as the written specification
      describes it ([Turn], [SessionState], [spec_submit], [spec_success],
      [spec_failure], [spec_reset], the request [request_of] of a turn),
      written from the specification and not from the sources, and the
      relation [refines] between the fields of [LoginComponent] and a state
      of that controller.
    - [Playback]: [playTextToSpeech] (up to the subscription), its callbacks
      [playTextToSpeech_next] and [playTextToSpeech_error], and the
      [onended] handler.
    - [System]: the component among its collaborators: the [world] (the
      component, the requests in flight, the audio elements, the object
      URLs), the events of the user, of the network and of the audio
      elements, the executable [step] and the step relation [step_case]
      with one rule per branch of a handler, and reachability.
    - [Invariants]: the invariants of the handle and of the chat
      ([handle_inv], [chat_inv], [single_inv]) and the sample worlds of
      the witnesses.
    - [Behaviour]: what a step and an order of steps do: the facts the
      specification states of a turn, and the interleavings the sources
      allow.
    - [Equivalence]: the equivalence of worlds up to the scrolls and the
      log lines ([world_equiv], with [Proper] instances for [run], [step]
      and [steps]).
    - [Settle]: the run [settle] that resolves every request in flight.
    - [SystemRefinement]: the specification as a system ([spec_system]:
      the controller of [Controller] with the turns in flight), stepped by
      the events of [System] ([spec_step]), and the relation [sys_refines]
      between a world and it.
    - [PlaybackRefinement]: the playback controller of the specification
      ([playback], [spec_play], [spec_begin], [spec_complete],
      [spec_fail]) and the relation [plays] between a world and it.
    - [Page]: what the browser does with three requests of the component:
      the callback of the timer of [scrollToBottom] ([scroll_callback],
      lines 215-220) on the scroll container, the two [@ViewChild]
      references, and the promise of [play()] (line 241).  A [page] is a
      world with the view, the timers that have run and the errors nobody
      caught; [page_step] extends [step].  The refusal of a play
      ([reject]) is the browser's doing and is written from the DOM
      standard; the written specification does not consider it.
    - [Interleaving]: the events of the chat against those of the
      playback.
    - [Render]: the log as the page shows it, every entry formatted by
      [formatMessage].
    - [Wire]: what the HTTP client makes of the body of a response
      ([http_body]) and which callback it calls ([deliver]).
    - [Accounting]: the counts of the entries of the log ([user_turns],
      [assistant_turns]) against the requests in flight and the
      exceptions of the reply callback.
    - [Typing]: the types the sources declare for the log, [prevRes],
      [prevResMode] (login.component.ts lines 4-9 and 23-27) and for the
      body of a reply (chat.service.ts lines 5-8) as boolean judgements
      on the values of the model ([typed], [typed_payload],
      [typed_reply], [typed_event]).
    - [Agreement]: the payloads on which the source and the algorithm of
      the specification may part ([divergent]).
    - [PageRefinement]: the relation [conceals] between the world of a
      page and a world of [System], which differ in the elements the
      browser refused to play, and the invariant [refusal_inv] of the
      refused elements.

    ** Modelling choices

    - Strings are [string] (lists of bytes), read as the UTF-8 encoding of
      the JavaScript string.  Every character the sources test for (an open
      brace, a star, a newline, white space) is recognised by its UTF-8
      encoding; [Unicode] proves that the byte-wise operations agree with
      the operations on code points.  Lengths and positions are counted in
      bytes: [substr] is applied to ASCII text only.  A JavaScript string
      is a sequence of UTF-16 code units: a string with a lone surrogate
      has no UTF-8 text and is outside the model.
    - An object is the list of its properties in their order; a property
      read takes the first binding of a key.  The parser of [RefJson]
      builds lists without repeated keys; a list with a repeated key stands
      for the object of its first bindings.
    - The built-ins of the platform ([trim], [JSON.parse],
      [JSON.stringify], the matcher of regular expressions, the body the
      HTTP client hands over) are written from their specifications, not
      from the repository, which only calls them.
    - Numbers are integers ([Z]): the sources only test a number for
      truthiness and print it.  Fractions and exponents are outside the
      model, and the reference parser rejects them; so are the integers
      beyond 2^53, which ECMAScript rounds to a double (and prints with an
      exponent from 10^21 on) and the model keeps exact.  Theorems stated
      against [JsonPlatform] do not depend on what the reference parser
      does with a number.
    - An exception is a value: [completion A] is [Normal a] or [Throw e], and
      [try_catch] is the [try { } catch (e) { }] of the sources.
    - The fields the sources type [string] but fill with whatever a reply
      holds ([prevRes], [prevResMode], the text of a log entry) are
      [value]s.
    - A [subscribe] is an effect that puts a request in flight; the
      callbacks are handlers of their own, run by the event that delivers
      the reply.  Nothing orders the replies, and none is cancelled.
    - [Math.random().toString(36)] is an argument of the handlers that draw
      a session identifier; the object URL and the audio element the browser
      creates are arguments of the callback that asks for them, and [step]
      supplies fresh ones.

    ** What the theorems show

    - [Normalizer]: normalisation never throws; on each shape of payload it
      returns the value the source computes; on the payloads the server is
      expected to send it is the algorithm of the specification
      ([normalize_refines_spec]); two theorems give the payloads on which
      the source and the specification part.
    - [Json]: the reference parser never runs out of fuel, consumes input,
      and satisfies the interface.
    - [JsonRoundTrip]: [JSON.parse] of [JSON.stringify v] is [v], and a
      payload that is the JSON text of an object is parsed by the outer
      pass of the normaliser and normalised as the object
      ([ref_parse_stringify]).
    - [Transport]: the form carries exactly the fields the service appends,
      in order, and leaves out the falsy ones.
    - [Format]: formatting works line by line, the group of a bold pair is
      the shortest one, the scan does not depend on the fuel and leaves
      no match behind ([replace_bold_enough_fuel]); the scan is idempotent
      on every text, so formatting is on a text of one line
      ([formatMessage_idempotent_line]), and it is not on two lines: a pair
      of stars across a line break becomes a bold pair of the markup
      ([formatMessage_not_idempotent]).
    - [Regex]: the matcher moves forward and looks at the answers of its
      continuation only, so the fuel of a star is never used up
      ([star_enough_fuel]); the scanner of [Format] computes the two
      global replacements of the source, the expressions being run by the
      matcher ([formatMessage_regex]).
    - [Unicode]: on every sequence of code points the byte-wise [trim],
      the guard of [sendUserMessage], the test of the normaliser and
      [formatMessage] compute the encoding of what the operations on code
      points compute ([trim_utf8], [formatMessage_utf8]).
    - [Session] and [Playback]: the outcome of every handler on every
      branch: the state it leaves, the effects in order, whether it throws.
      A failed turn keeps the context; blank input is rejected with no
      change; a reset clears the context and draws an identifier.
    - [Controller]: the handlers of the chat side refine the controller
      of the specification along every sequence of events whose replies
      are well shaped ([conversation_refines], a forward simulation with
      [refines] as the relation), and the request of a submission is the
      one the specification describes when no optional field is empty.
    - [System]: [step] and [step_case] agree ([step_iff_case]), and an
      event is enabled exactly when its request is in flight or its
      element sounds.
    - [Invariants]: in every reachable world the handle is consistent
      with the audio store, a raised loading flag means a request is in
      flight, and every request in flight carries an identifier the
      component drew; with one speech request at a time at most one
      element plays.
    - [Behaviour]: a resolution appends one entry and takes one request
      out of flight; the log only grows; replies win in the order of
      arrival; a reset cancels nothing; without the discipline of one
      speech request at a time two blobs that arrive in a row give two
      elements that sound together ([playback_race]), and the one the
      component does not hold cannot be stopped by any run
      ([playback_orphan]).
    - [Equivalence]: the scrolls and the log lines influence nothing.
    - [Settle]: from any world the requests in flight can all settle,
      which lowers the loading flag ([requests_can_settle]).
    - [SystemRefinement] and [PlaybackRefinement]: forward simulations
      from the system to the specification.  On every run whose replies are
      of the expected shape the component holds the state of the
      specification's controller and the requests in flight are the turns
      it sent, the other events being stuttering steps
      ([system_refines]); on every run in which speech is asked for only
      while no speech request is in flight, the handle, the flag, the
      speech requests and the elements that sound are those of the
      playback controller ([playback_refines]).
    - [Interleaving]: an event of the chat and an event of the playback
      commute, so the interleaving of the two sides does not matter
      ([interleaving_irrelevant]).
    - [Page]: every mutation of the log sets a timer, and the timers
      bring the container to the bottom of the log; the [try] of
      [scrollToBottom] catches nothing; the element the next callback of
      [playTextToSpeech] creates can be refused, and the component then
      says it is playing and holds the silent element along every run
      that asks for no speech, brings no blob and ends no other element
      ([play_rejected_stuck]); the invariant of the page.
    - [Render]: on the runs the specification covers the render never
      throws; a reply whose display value is no string makes the render
      throw until a reset; the text of a reply reaches the render
      unescaped ([reply_markup_verbatim]).
    - [Wire]: every response resolves its request; the JSON text of a
      reply object reaches the log as the normalised payload
      ([wire_reply_displayed], through the round trip of [JsonRoundTrip]);
      an empty body reaches the callback as [null].
    - [Accounting]: conservation of turns.  Along every run without reset
      the entries of the assistant, the requests in flight and the replies
      lost to an exception are together one more than the entries of the
      user ([turns_conserved]); in every reachable world there are at
      least as many, and a reset leaves exactly the requests in flight
      and the lost replies as answers to turns that are no longer in the
      log ([reset_orphans]); a run costs one object URL and one audio
      element per blob that arrives and releases none
      ([object_urls_leak]), and adds at most one entry, one request and
      one scroll per event ([growth_bounded]).
    - [Typing]: the display value is a string exactly on the payloads
      [typed_payload] accepts ([normalize_string_iff]); a step from a
      well-typed component leads to a well-typed one exactly when the
      event is well typed ([step_typed]); the events the specification
      covers are; a reset restores the types; in a reachable world the
      render completes exactly when the log is well typed
      ([render_iff_typed]).
    - [Agreement]: outside [divergent] the value the source returns,
      converted by [String], is the text of the specification, and the
      string itself when the payload is well typed ([normalize_agrees]);
      the payloads the specification covers are not divergent, and each
      way of [divergent] has a payload on which the two texts differ.
    - [PageRefinement]: a forward simulation from the page to the system
      in which timers, changes of the view and refusals are stuttering
      steps ([rejection_invisible]): the component, the requests and the
      object URLs of the page are those of the system run on the
      handlers' events alone; without refusals the worlds are equal, and
      every run of the system is a run of the page.  The simulation holds
      of any handlers, since no handler reads the audio store; what
      depends on the handlers is the invariant it helps prove: on every
      reachable page the element the component holds sounds exactly when
      its play was not refused ([held_silent_iff_refused]).

    ** Bounds and fuel

    The reference JSON parser recurses on a fuel argument: [parse_fuel s],
    twice the length of the text plus two, is enough because every call
    consumes a byte or is followed by one that does
    ([parse_value_fuel_enough]).  The scan for bold pairs recurses on fuel
    too; the length of the text is enough because every round consumes a
    byte ([replace_bold_enough_fuel]).  The star of the matcher of [Regex]
    runs on fuel, one more than the length of the text: a round that reads
    nothing fails, so every round consumes a byte ([star_enough_fuel]).
    Everything else is structural.

    ** Not modelled

    Angular's change detection and dependency injection, the HTML template
    and the style sheet, the HTTP client, RxJS scheduling, the layout of
    the DOM, the audio device and the servers are outside the sources or
    are libraries the sources only call; the model keeps the calls'
    observable effects (a request in flight, an audio element created and
    played, a timer set and run, a line logged) and nothing of their
    implementation.  The view changes by an event of [Page] that may set
    any container: which elements the template renders, and when, is not
    modelled.  The delay of the timers is not modelled: a timer runs at any
    time after it is set; nor is the animation of a smooth scroll:
    [scrollTo] gives the position the scroll ends at.  That the template
    passes every entry of the log through [formatMessage] is taken from
    section 4.4 of the specification ([Render]).  Fractional numbers in JSON are left out, and
    with them the conversion between decimal text and doubles.  Of the
    regular expressions of ECMAScript [Regex] holds the operators the two
    expressions of the source are built from and their neighbours in the
    grammar; classes, anchors, look-around, back-references and the flags
    other than [g] are not modelled. *)

From Stdlib Require Import Ascii String ZArith Lia.
From stdpp Require Import base tactics option list strings.

Set Default Proof Using "Type".

(** ** Completions: a value or a thrown exception *)

Inductive js_error : Type :=
| TypeError
| SyntaxError.

#[export] Instance js_error_eq_dec : EqDecision js_error.
Proof. solve_decision. Defined.

Inductive completion (A : Type) : Type :=
| Normal (a : A)
| Throw (e : js_error).

Arguments Normal {A} a.
Arguments Throw {A} e.

#[export] Instance completion_eq_dec {A} `{EqDecision A} : EqDecision (completion A).
Proof. solve_decision. Defined.

Definition cbind {A B} (c : completion A) (k : A -> completion B) : completion B :=
  match c with
  | Normal a => k a
  | Throw e => Throw e
  end.

Definition try_catch {A} (c : completion A) (handler : js_error -> A) : A :=
  match c with
  | Normal a => a
  | Throw e => handler e
  end.

Definition is_normal {A} (c : completion A) : bool :=
  match c with
  | Normal _ => true
  | Throw _ => false
  end.

Declare Scope js_scope.
Delimit Scope js_scope with js.

Notation "'let!' x ':=' c 'in' k" := (cbind c (fun x => k))
  (at level 10, x name, c at level 100, k at level 200, only parsing) : js_scope.

Notation "'try!' c 'catch' h" := (try_catch c (fun _ => h))
  (at level 10, c at level 100, h at level 200, only parsing) : js_scope.

Open Scope js_scope.

(** ** String scanning *)

(** [expect c s]: the rest of [s] after its first byte [c]. *)
Definition expect (c : ascii) (s : string) : option string :=
  match s with
  | String d r => if bool_decide (d = c) then Some r else None
  | EmptyString => None
  end.

(** [strip_prefix p s]: the rest of [s] after its prefix [p]. *)
Fixpoint strip_prefix (p s : string) : option string :=
  match p with
  | EmptyString => Some s
  | String c p' =>
      match s with
      | String d s' => if bool_decide (d = c) then strip_prefix p' s' else None
      | EmptyString => None
      end
  end.

(** ** Hint databases

    [js] collects the lemmas that close the routine goals of the
    development; [js_rw] is its rewriting base. *)

Create HintDb js discriminated.
Create Rewrite HintDb js_rw.

(** [handlers] holds the outcome of each handler of the component: the
    state it leaves, its effects and its completion. *)
Create Rewrite HintDb handlers.

(** ** Completions: laws *)

Lemma cbind_normal {A B} (a : A) (k : A -> completion B) :
  cbind (Normal a) k = k a.
Proof. reflexivity. Qed.

Lemma cbind_throw {A B} e (k : A -> completion B) :
  cbind (Throw e) k = Throw e.
Proof. reflexivity. Qed.

Lemma cbind_ret {A} (c : completion A) : cbind c Normal = c.
Proof. by destruct c. Qed.

Lemma cbind_assoc {A B C} (c : completion A)
    (k : A -> completion B) (h : B -> completion C) :
  cbind (cbind c k) h = cbind c (fun a => cbind (k a) h).
Proof. by destruct c. Qed.

Lemma try_catch_normal {A} (a : A) h : try_catch (Normal a) h = a.
Proof. reflexivity. Qed.

Lemma try_catch_throw {A} e (h : js_error -> A) : try_catch (Throw e) h = h e.
Proof. reflexivity. Qed.

Lemma is_normal_true {A} (c : completion A) :
  is_normal c = true <-> exists a, c = Normal a.
Proof. destruct c; simpl; split; [eauto|done|done|by intros [a ?]]. Qed.

#[export] Hint Rewrite @cbind_normal @cbind_throw @cbind_ret
  @try_catch_normal @try_catch_throw : js_rw.

(** ** Strings as lists of bytes *)

Lemma string_app_nil_l (s : string) : "" +:+ s = s.
Proof. reflexivity. Qed.

Lemma string_app_cons (c : ascii) (s t : string) :
  String c s +:+ t = String c (s +:+ t).
Proof. reflexivity. Qed.

Lemma string_app_nil_r (s : string) : s +:+ "" = s.
Proof. induction s as [|c s IH]; [done|]. by rewrite string_app_cons, IH. Qed.

Lemma string_app_assoc (a b c : string) :
  (a +:+ b) +:+ c = a +:+ (b +:+ c).
Proof.
  induction a as [|x a IH]; [done|]. by rewrite !string_app_cons, IH.
Qed.

Lemma string_app_length (a b : string) :
  String.length (a +:+ b) = String.length a + String.length b.
Proof.
  induction a as [|x a IH]; [done|]. rewrite string_app_cons. simpl. by rewrite IH.
Qed.

Lemma string_app_eq_nil (a b : string) :
  a +:+ b = "" -> a = "" /\ b = "".
Proof. destruct a; [done|]. by rewrite string_app_cons. Qed.

#[export] Hint Rewrite string_app_nil_l string_app_cons string_app_nil_r
  string_app_assoc string_app_length : js_rw.
#[export] Hint Resolve string_app_nil_r string_app_assoc : js.

(** [String.prefix p s] is the [s.startsWith(p)] of the sources. *)

Lemma prefix_app (p s : string) : String.prefix p (p +:+ s) = true.
Proof.
  induction p as [|c p IH]; [by destruct s|].
  rewrite string_app_cons. simpl. by destruct (ascii_dec c c).
Qed.

Lemma prefix_inv (p s : string) :
  String.prefix p s = true -> exists r, s = p +:+ r.
Proof.
  revert s. induction p as [|c p IH]; intros s H.
  - by exists s.
  - destruct s as [|d s]; simpl in H; [done|].
    destruct (ascii_dec c d) as [->|]; [|done].
    destruct (IH _ H) as [r ->]. by exists r.
Qed.

Lemma prefix_iff (p s : string) :
  String.prefix p s = true <-> exists r, s = p +:+ r.
Proof.
  split; [apply prefix_inv|]. intros [r ->]. apply prefix_app.
Qed.

Lemma prefix_cons (c d : ascii) (p s : string) :
  String.prefix (String c p) (String d s) = bool_decide (c = d) && String.prefix p s.
Proof. simpl. destruct (ascii_dec c d); by case_bool_decide. Qed.

#[export] Hint Resolve prefix_app : js.

Lemma expect_Some (c : ascii) (s r : string) :
  expect c s = Some r <-> s = String c r.
Proof.
  destruct s as [|d s]; simpl; [done|].
  case_bool_decide; split; intros; simplify_eq; done.
Qed.

Lemma strip_prefix_Some (p s r : string) :
  strip_prefix p s = Some r <-> s = p +:+ r.
Proof.
  revert s. induction p as [|c p IH]; intros s; simpl.
  - split; intros; by simplify_eq.
  - destruct s as [|d s]; [done|]. rewrite string_app_cons.
    case_bool_decide; [rewrite IH|]; split; intros; simplify_eq; done.
Qed.

Lemma strip_prefix_None (p s : string) :
  strip_prefix p s = None <-> String.prefix p s = false.
Proof.
  revert s. induction p as [|c p IH]; intros s; simpl.
  - by destruct s.
  - destruct s as [|d s]; [done|]. rewrite prefix_cons.
    destruct (decide (d = c)) as [->|Hne].
    + rewrite !bool_decide_true by done. apply IH.
    + by rewrite !bool_decide_false by congruence.
Qed.

Lemma strip_prefix_app (p s : string) : strip_prefix p (p +:+ s) = Some s.
Proof. by apply strip_prefix_Some. Qed.

(** ** Lists *)

Lemma forallb_Forall {A} (f : A -> bool) (l : list A) :
  forallb f l = true <-> Forall (fun x => f x = true) l.
Proof.
  induction l as [|x l IH]; simpl; [by split|].
  rewrite andb_true_iff, Forall_cons, IH. done.
Qed.

Lemma length_snoc {A} (l : list A) (x : A) : length (l ++ [x]) = S (length l).
Proof. rewrite length_app. simpl. lia. Qed.

#[export] Hint Rewrite @length_snoc @length_app : js_rw.

(** ** Runs of a step function

    The systems of the development ([System], [Page]) are executable
    step functions [step : E -> S -> option S] with the run of a list of
    events beside them.  [Runs step steps] says that [steps] is that run;
    what follows holds of every such pair. *)

Class Runs {E S : Type} (step : E -> S -> option S)
    (steps : list E -> S -> option S) : Prop := {
  run_nil : forall s, steps [] s = Some s;
  run_cons : forall e es s, steps (e :: es) s = step e s ≫= steps es;
}.

Section runs.
Context {E S : Type} {step : E -> S -> option S} {steps : list E -> S -> option S}.
Context `{!Runs step steps}.

Lemma run_app (es1 es2 : list E) (s : S) :
  steps (es1 ++ es2) s = steps es1 s ≫= steps es2.
Proof using All.
  revert s. induction es1 as [|e es1 IH]; intros s; simpl.
  - by rewrite run_nil.
  - rewrite !run_cons. destruct (step e s); simpl; [apply IH|done].
Qed.

Lemma run_one (e : E) (s : S) : steps [e] s = step e s.
Proof using All. rewrite run_cons. destruct (step e s); simpl; [apply run_nil|done]. Qed.

(** A property that the steps of the events [ok] accepts preserve holds
    along every run of such events. *)
Lemma run_invariant (P : S -> Prop) (ok : E -> bool) :
  (forall e s s', ok e = true -> P s -> step e s = Some s' -> P s') ->
  forall es s s', forallb ok es = true -> P s -> steps es s = Some s' -> P s'.
Proof using All.
  intros Hstep es. induction es as [|e es IH]; intros s s'; simpl.
  - rewrite run_nil. by intros _ Hs [= <-].
  - rewrite run_cons. intros [He Hes]%andb_true_iff Hs.
    destruct (step e s) as [s1|] eqn:E1; [|done]. simpl. eauto.
Qed.

Lemma run_preserves (P : S -> Prop) :
  (forall e s s', P s -> step e s = Some s' -> P s') ->
  forall es s s', P s -> steps es s = Some s' -> P s'.
Proof using All.
  intros Hstep es s s'. apply (run_invariant P (fun _ => true)); [eauto|].
  by induction es.
Qed.

(** A measure that every step raises by the cost of its event, or by no
    more, is raised by the cost of the run, or by no more. *)
Lemma run_counts (m : S -> nat) (c : E -> nat) :
  (forall e s s', step e s = Some s' -> m s' = m s + c e) ->
  forall es s s', steps es s = Some s' -> m s' = m s + sum_list (c <$> es).
Proof using All.
  intros Hstep es. induction es as [|e es IH]; intros s s'.
  - rewrite run_nil. intros [= <-]. simpl. lia.
  - rewrite run_cons, fmap_cons. destruct (step e s) as [s1|] eqn:E1; [|done].
    intros Hs%IH. rewrite Hs, (Hstep e s s1 E1).
    change (sum_list (c e :: (c <$> es))) with (c e + sum_list (c <$> es)). lia.
Qed.

Lemma run_grows (m : S -> nat) (c : E -> nat) :
  (forall e s s', step e s = Some s' -> m s' <= m s + c e) ->
  forall es s s', steps es s = Some s' -> m s' <= m s + sum_list (c <$> es).
Proof using All.
  intros Hstep es. induction es as [|e es IH]; intros s s'.
  - rewrite run_nil. intros [= <-]. simpl. lia.
  - rewrite run_cons, fmap_cons. destruct (step e s) as [s1|] eqn:E1; [|done].
    intros Hs%IH. pose proof (Hstep e s s1 E1).
    change (sum_list (c e :: (c <$> es))) with (c e + sum_list (c <$> es)). lia.
Qed.

End runs.

Section simulation.
Context {E S : Type} {step : E -> S -> option S} {steps : list E -> S -> option S}.
Context {E' S' : Type} {step' : E' -> S' -> option S'}
  {steps' : list E' -> S' -> option S'}.
Context `{!Runs step steps, !Runs step' steps'}.

(** Forward simulation: when every step of one system is matched by a run
    of another that keeps the relation [R], so is every run. *)
Lemma run_simulation (R : S -> S' -> Prop) (f : E -> list E') :
  (forall e s s' a, R s a -> step e s = Some s' ->
     exists a', steps' (f e) a = Some a' /\ R s' a') ->
  forall es s s' a, R s a -> steps es s = Some s' ->
    exists a', steps' (es ≫= f) a = Some a' /\ R s' a'.
Proof using All.
  intros Hstep es. induction es as [|e es IH]; intros s s' a HR.
  - rewrite run_nil. intros [= <-]. exists a. simpl. by rewrite run_nil.
  - rewrite run_cons. destruct (step e s) as [s1|] eqn:E1; [|done]. simpl.
    intros Hs. destruct (Hstep e s s1 a HR E1) as (a1 & Ha1 & HR1).
    destruct (IH s1 s' a1 HR1 Hs) as (a' & Ha' & HR').
    exists a'. split; [|done]. simpl. by rewrite run_app, Ha1.
Qed.

End simulation.
