(* ===== verification/JsString.v ===== *)
(** * JsString: the ECMAScript string operations the sources call

    [trim] is [String.prototype.trim] (login.component.ts lines 93, 130 and
    150), [startsWith] is [String.prototype.startsWith] (lines 130 and 150)
    and [substr] is [String.prototype.substr] (line 63).  A string is the
    UTF-8 encoding of the JavaScript string, so the white space and line
    terminator code points of ECMAScript are recognised by their one, two or
    three byte encodings. *)

From Stdlib Require Import Ascii String NArith Lia.
From stdpp Require Import base tactics option list strings.
From S2P Require Import Prelude.

(** ** Character classes *)

Definition byte_is (n : N) (c : ascii) : bool := N.eqb (N_of_ascii c) n.

(** One-byte white space and line terminators: TAB, LF, VT, FF, CR, SP. *)
Definition is_ws1 (c : ascii) : bool :=
  let n := N_of_ascii c in
  (N.leb 9 n && N.leb n 13) || N.eqb n 32.

(** Two-byte white space: U+00A0 (C2 A0). *)
Definition is_ws2 (c1 c2 : ascii) : bool :=
  byte_is 194 c1 && byte_is 160 c2.

(** Three-byte white space and line terminators: U+1680 (E1 9A 80),
    U+2000..U+200A (E2 80 80..8A), U+2028 and U+2029 (E2 80 A8, A9),
    U+202F (E2 80 AF), U+205F (E2 81 9F), U+3000 (E3 80 80) and
    U+FEFF (EF BB BF). *)
Definition is_ws3 (c1 c2 c3 : ascii) : bool :=
  let n3 := N_of_ascii c3 in
  (byte_is 225 c1 && byte_is 154 c2 && byte_is 128 c3)
  || (byte_is 226 c1 && byte_is 128 c2
      && ((N.leb 128 n3 && N.leb n3 138) || N.eqb n3 168 || N.eqb n3 169
          || N.eqb n3 175))
  || (byte_is 226 c1 && byte_is 129 c2 && byte_is 159 c3)
  || (byte_is 227 c1 && byte_is 128 c2 && byte_is 128 c3)
  || (byte_is 239 c1 && byte_is 187 c2 && byte_is 191 c3).

(** The line terminators, which the [.] of a regular expression does not
    match: LF, CR, U+2028 and U+2029. *)
Definition is_lt1 (c : ascii) : bool := byte_is 10 c || byte_is 13 c.

Definition is_lt3 (c1 c2 c3 : ascii) : bool :=
  byte_is 226 c1 && byte_is 128 c2 && (byte_is 168 c3 || byte_is 169 c3).

(** [starts_with_lt s]: [s] begins with a line terminator. *)
Definition starts_with_lt (s : string) : bool :=
  match s with
  | String c1 (String c2 (String c3 _)) => is_lt1 c1 || is_lt3 c1 c2 c3
  | String c1 _ => is_lt1 c1
  | EmptyString => false
  end.

(** ** trim *)

(** [trimStart s] drops the white space and line terminators at the head. *)
Fixpoint trimStart (s : string) : string :=
  match s with
  | EmptyString => s
  | String c1 s1 =>
      if is_ws1 c1 then trimStart s1
      else match s1 with
           | EmptyString => s
           | String c2 s2 =>
               if is_ws2 c1 c2 then trimStart s2
               else match s2 with
                    | EmptyString => s
                    | String c3 s3 =>
                        if is_ws3 c1 c2 c3 then trimStart s3 else s
                    end
           end
  end.

(** [all_ws s]: [s] is white space only. *)
Definition all_ws (s : string) : bool := bool_decide (trimStart s = "").

(** [trimEnd s] drops the white space and line terminators at the end. *)
Fixpoint trimEnd (s : string) : string :=
  match s with
  | EmptyString => ""
  | String c s' => if all_ws s then "" else String c (trimEnd s')
  end.

Definition trim (s : string) : string := trimEnd (trimStart s).

(** [startsWith s p] is [s.startsWith(p)]. *)
Definition startsWith (s p : string) : bool := String.prefix p s.

(** [substr s start len] is [s.substr(start, len)] for the non-negative
    arguments of the sources. *)
Definition substr (s : string) (start len : nat) : string :=
  String.substring start len s.

(** [is_blank s] is the test [!s.trim()]: the empty string is the only
    falsy string. *)
Definition is_blank (s : string) : bool := bool_decide (trim s = "").

(** ** Lemmas *)

Lemma trimStart_cases (s : string) :
  trimStart s = s \/ exists s', String.length s' < String.length s /\ trimStart s = trimStart s'.
Proof.
  destruct s as [|c1 s1]; [by left|]. simpl.
  destruct (is_ws1 c1); [right; exists s1; simpl; split; [lia|done]|].
  destruct s1 as [|c2 s2]; [by left|].
  destruct (is_ws2 c1 c2); [right; exists s2; simpl; split; [lia|done]|].
  destruct s2 as [|c3 s3]; [by left|].
  destruct (is_ws3 c1 c2 c3); [right; exists s3; simpl; split; [lia|done]|].
  by left.
Qed.

Lemma trimStart_idem (s : string) : trimStart (trimStart s) = trimStart s.
Proof.
  remember (String.length s) as n eqn:Hn. revert s Hn.
  induction (lt_wf n) as [n _ IH]; intros s ->.
  destruct (trimStart_cases s) as [H|(s' & Hlt & H)]; [by rewrite !H|].
  rewrite H. by eapply IH.
Qed.

Lemma trimStart_length (s : string) :
  String.length (trimStart s) <= String.length s.
Proof.
  remember (String.length s) as n eqn:Hn. revert s Hn.
  induction (lt_wf n) as [n _ IH]; intros s ->.
  destruct (trimStart_cases s) as [H|(s' & Hlt & H)]; rewrite H; [done|].
  specialize (IH _ Hlt s' eq_refl). lia.
Qed.

Lemma trimStart_nil : trimStart "" = "".
Proof. reflexivity. Qed.

Lemma all_ws_nil : all_ws "" = true.
Proof. reflexivity. Qed.

Lemma all_ws_iff (s : string) : all_ws s = true <-> trimStart s = "".
Proof. unfold all_ws. by rewrite bool_decide_eq_true. Qed.

Lemma all_ws_trimStart (s : string) : all_ws (trimStart s) = all_ws s.
Proof. unfold all_ws. by rewrite trimStart_idem. Qed.

Lemma trimEnd_nil_iff (s : string) : trimEnd s = "" <-> all_ws s = true.
Proof.
  destruct s as [|c s]; simpl; [done|].
  destruct (all_ws (String c s)); naive_solver.
Qed.

Lemma trimEnd_cons (c : ascii) (s : string) :
  all_ws (String c s) = false -> trimEnd (String c s) = String c (trimEnd s).
Proof. simpl. by intros ->. Qed.

(** [trim s] is empty exactly when [s] is white space only. *)
Lemma trim_nil_iff (s : string) : trim s = "" <-> trimStart s = "".
Proof.
  unfold trim. rewrite trimEnd_nil_iff, all_ws_trimStart. apply all_ws_iff.
Qed.

Lemma is_blank_iff (s : string) : is_blank s = true <-> trimStart s = "".
Proof. unfold is_blank. rewrite bool_decide_eq_true. apply trim_nil_iff. Qed.

Lemma is_blank_nil : is_blank "" = true.
Proof. reflexivity. Qed.

(** Trimming keeps the first byte that [trimStart] reaches. *)
Lemma trim_head (s : string) (c : ascii) (r : string) :
  trimStart s = String c r -> trim s = String c (trimEnd r).
Proof.
  intros H. unfold trim. rewrite H. apply trimEnd_cons.
  apply not_true_is_false. rewrite all_ws_iff, <- H, trimStart_idem. by rewrite H.
Qed.

Lemma startsWith_cons (s : string) (c d : ascii) (p : string) :
  startsWith (String d s) (String c p) = bool_decide (c = d) && startsWith s p.
Proof. apply prefix_cons. Qed.

Lemma startsWith_nil (s : string) : startsWith s "" = true.
Proof. by destruct s. Qed.

(** The right trim does not change whether the text starts with a given
    byte: [s.trim().startsWith(p)] can be decided on [trimStart s]. *)
Lemma startsWith_trim (s : string) (c : ascii) :
  startsWith (trim s) (String c "") = startsWith (trimStart s) (String c "").
Proof.
  destruct (trimStart s) as [|d r] eqn:E.
  - by rewrite (proj2 (trim_nil_iff s) E).
  - by rewrite (trim_head _ _ _ E), !startsWith_cons, !startsWith_nil.
Qed.

(** A string that starts with a byte that is no white space is its own
    left trim. *)
Lemma trimStart_not_ws (c : ascii) (s : string) :
  is_ws1 c = false -> N.ltb (N_of_ascii c) 128 = true ->
  trimStart (String c s) = String c s.
Proof.
  intros H1 H2. simpl. rewrite H1.
  assert (Hb : forall n, N.leb 194 n = true -> byte_is n c = false).
  { intros n Hn. unfold byte_is. apply N.eqb_neq. apply N.ltb_lt in H2.
    apply N.leb_le in Hn. lia. }
  destruct s as [|c2 [|c3 s3]]; [done|..];
    unfold is_ws2, is_ws3; rewrite ?Hb by done; done.
Qed.

Lemma substr_length_exact (s : string) (start len : nat) :
  String.length (substr s start len) = Nat.min len (String.length s - start).
Proof.
  unfold substr. revert start len.
  induction s as [|c s IH]; intros [|start] [|len]; simpl; try lia.
  - specialize (IH 0 len). simpl in IH. lia.
  - apply (IH start 0).
  - apply (IH start (S len)).
Qed.

Lemma substr_length (s : string) (start len : nat) :
  String.length (substr s start len) <= len.
Proof. rewrite substr_length_exact. lia. Qed.

#[export] Hint Rewrite trimStart_idem all_ws_trimStart startsWith_nil : js_rw.
