(* ===== verification/JsValue.v ===== *)
(** * JsValue: JavaScript values as the sources see them

    The payload of a reply ([res.response], chat.service.ts lines 5-8) is
    typed [string | any]: whatever the JSON body of the reply holds.  [value]
    is that universe: the values JSON can denote, and [undefined] for a
    property that is absent.  The operations are the ones the component
    applies to such a value: [typeof] (login.component.ts lines 127, 140,
    148, 157), the truthiness test behind [if (x)] (lines 141, 143, 152,
    157; chat.service.ts lines 30-42), the property reads [.message],
    [.response] and [.mode], and the conversion [String(x)] (line 168). *)

From Stdlib Require Import Ascii String ZArith Lia DecimalString.
From stdpp Require Import base tactics option list strings.
From S2P Require Import Prelude JsString.

(** ** Values *)

Unset Elimination Schemes.

Inductive value : Type :=
| VUndefined
| VNull
| VBool (b : bool)
| VNum (n : Z)
| VStr (s : string)
| VArr (items : list value)
| VObj (props : list (string * value)).

Set Elimination Schemes.

(** The induction principle that reaches the items of an array and the
    property values of an object. *)
Section value_induction.
Context (P : value -> Prop).
Context (Hundef : P VUndefined) (Hnull : P VNull).
Context (Hbool : forall b, P (VBool b)) (Hnum : forall n, P (VNum n)).
Context (Hstr : forall s, P (VStr s)).
Context (Harr : forall items, Forall P items -> P (VArr items)).
Context (Hobj : forall props, Forall (fun kv => P (snd kv)) props -> P (VObj props)).

Fixpoint value_ind' (v : value) : P v :=
  match v with
  | VUndefined => Hundef
  | VNull => Hnull
  | VBool b => Hbool b
  | VNum n => Hnum n
  | VStr s => Hstr s
  | VArr items =>
      Harr items
        ((fix go (l : list value) : Forall P l :=
            match l with
            | [] => @List.Forall_nil _ P
            | x :: l' => @List.Forall_cons _ P x l' (value_ind' x) (go l')
            end) items)
  | VObj props =>
      Hobj props
        ((fix go (l : list (string * value)) : Forall (fun kv => P (snd kv)) l :=
            match l with
            | [] => @List.Forall_nil _ _
            | kv :: l' => @List.Forall_cons _ _ kv l' (value_ind' (snd kv)) (go l')
            end) props)
  end.

End value_induction.

(** ** Equality is decidable *)

Fixpoint value_eqb (v w : value) : bool :=
  match v, w with
  | VUndefined, VUndefined => true
  | VNull, VNull => true
  | VBool a, VBool b => bool_decide (a = b)
  | VNum a, VNum b => bool_decide (a = b)
  | VStr a, VStr b => bool_decide (a = b)
  | VArr l1, VArr l2 =>
      (fix go (l1 l2 : list value) : bool :=
         match l1, l2 with
         | [], [] => true
         | x :: l1', y :: l2' => value_eqb x y && go l1' l2'
         | _, _ => false
         end) l1 l2
  | VObj l1, VObj l2 =>
      (fix go (l1 l2 : list (string * value)) : bool :=
         match l1, l2 with
         | [], [] => true
         | (k1, x) :: l1', (k2, y) :: l2' =>
             bool_decide (k1 = k2) && value_eqb x y && go l1' l2'
         | _, _ => false
         end) l1 l2
  | _, _ => false
  end.

(** ** typeof *)

Inductive js_type : Type :=
| TUndefined
| TObject
| TBoolean
| TNumber
| TString.

#[export] Instance js_type_eq_dec : EqDecision js_type.
Proof. solve_decision. Defined.

(** [typeof null] is ["object"], and so is [typeof] of an array. *)
Definition typeof (v : value) : js_type :=
  match v with
  | VUndefined => TUndefined
  | VNull => TObject
  | VBool _ => TBoolean
  | VNum _ => TNumber
  | VStr _ => TString
  | VArr _ => TObject
  | VObj _ => TObject
  end.

(** ** Truthiness: the test of [if (x)] and of [!x] *)

Definition truthy (v : value) : bool :=
  match v with
  | VUndefined => false
  | VNull => false
  | VBool b => b
  | VNum n => negb (Z.eqb n 0)
  | VStr s => negb (bool_decide (s = ""))
  | VArr _ => true
  | VObj _ => true
  end.

(** ** Property reads

    The sources read three properties, none of which a built-in prototype
    defines, so a read finds an own property of an object or nothing. *)

Inductive field : Type :=
| Message
| Response
| Mode.

#[export] Instance field_eq_dec : EqDecision field.
Proof. solve_decision. Defined.

Definition field_name (f : field) : string :=
  match f with
  | Message => "message"
  | Response => "response"
  | Mode => "mode"
  end.

(** The own property [k] of an object, [undefined] when it has none.  The
    keys of an object are distinct; in a list that repeats a key the first
    binding is the property. *)
Fixpoint lookup_prop (k : string) (props : list (string * value)) : value :=
  match props with
  | [] => VUndefined
  | (k', v) :: rest => if bool_decide (k = k') then v else lookup_prop k rest
  end.

(** [get_field v f] is [v.f]: a [TypeError] on [undefined] and [null],
    the own property of an object, [undefined] on everything else. *)
Definition get_field (v : value) (f : field) : completion value :=
  match v with
  | VUndefined => Throw TypeError
  | VNull => Throw TypeError
  | VObj props => Normal (lookup_prop (field_name f) props)
  | VBool _ => Normal VUndefined
  | VNum _ => Normal VUndefined
  | VStr _ => Normal VUndefined
  | VArr _ => Normal VUndefined
  end.

(** ** String(x) *)

Definition Z_to_string (n : Z) : string :=
  NilEmpty.string_of_int (Z.to_int n).

Fixpoint join_with (sep : string) (l : list string) : string :=
  match l with
  | [] => ""
  | [s] => s
  | s :: rest => s +:+ sep +:+ join_with sep rest
  end.

(** An array prints as its items joined by commas, [null] and [undefined]
    items as nothing; an object prints as ["[object Object]"]. *)
Fixpoint to_string (v : value) : string :=
  match v with
  | VUndefined => "undefined"
  | VNull => "null"
  | VBool true => "true"
  | VBool false => "false"
  | VNum n => Z_to_string n
  | VStr s => s
  | VArr items =>
      join_with ","
        (List.map (fun x => match x with
                            | VUndefined => ""
                            | VNull => ""
                            | _ => to_string x
                            end) items)
  | VObj _ => "[object Object]"
  end.

(** ** Shapes *)

Definition is_string (v : value) : bool :=
  match v with VStr _ => true | _ => false end.

Definition is_plain_object (v : value) : bool :=
  match v with VObj _ => true | _ => false end.

(** [is_object v] is the test [typeof v === 'object' && v !== null]. *)
Definition is_object (v : value) : bool :=
  bool_decide (typeof v = TObject) && negb (value_eqb v VNull).

(** ** Lemmas *)

Lemma value_eqb_refl (v : value) : value_eqb v v = true.
Proof.
  induction v using value_ind'; simpl; try by rewrite ?bool_decide_eq_true.
  - induction H as [|x l Hx _ IH]; [done|]. by rewrite Hx, IH.
  - induction H as [|[k x] l Hx _ IH]; [done|].
    simpl in Hx. rewrite Hx, IH. by rewrite bool_decide_true.
Qed.

Lemma value_eqb_eq (v w : value) : value_eqb v w = true -> v = w.
Proof.
  revert w. induction v using value_ind'; intros [] Hw; simpl in Hw;
    try done; try (apply bool_decide_eq_true in Hw; by subst).
  - f_equal. revert items0 Hw.
    induction H as [|x l Hx _ IH]; intros [|y l2] Hw; try done.
    apply andb_true_iff in Hw as [H1 H2]. f_equal; auto.
  - f_equal. revert props0 Hw.
    induction H as [|[k x] l Hx _ IH]; intros [|[k2 y] l2] Hw; try done.
    apply andb_true_iff in Hw as [H1 H2]. apply andb_true_iff in H1 as [H0 H1].
    apply bool_decide_eq_true in H0. simpl in Hx. f_equal; [f_equal|]; auto.
Qed.

Lemma value_eqb_iff (v w : value) : value_eqb v w = true <-> v = w.
Proof. split; [apply value_eqb_eq|intros ->; apply value_eqb_refl]. Qed.

#[export] Instance value_eq_dec : EqDecision value.
Proof.
  intros v w. destruct (value_eqb v w) eqn:E.
  - left. by apply value_eqb_eq.
  - right. intros ->. by rewrite value_eqb_refl in E.
Defined.

Lemma is_object_spec (v : value) :
  is_object v = true <-> (exists items, v = VArr items) \/ (exists props, v = VObj props).
Proof.
  destruct v; simpl; split; try done; try (intros [[? ?]|[? ?]]; done); eauto.
Qed.

Lemma truthy_is_object (v : value) : is_object v = true -> truthy v = true.
Proof. by destruct v. Qed.

Lemma truthy_str (s : string) : truthy (VStr s) = true <-> s <> "".
Proof. simpl. rewrite negb_true_iff, bool_decide_eq_false. done. Qed.

Lemma truthy_num (n : Z) : truthy (VNum n) = true <-> n <> 0%Z.
Proof. simpl. rewrite negb_true_iff. apply Z.eqb_neq. Qed.

Lemma get_field_obj (props : list (string * value)) (f : field) :
  get_field (VObj props) f = Normal (lookup_prop (field_name f) props).
Proof. reflexivity. Qed.

(** A property read throws on [undefined] and [null] only. *)
Lemma get_field_throws (v : value) (f : field) :
  is_normal (get_field v f) = false <-> v = VUndefined \/ v = VNull.
Proof.
  destruct v; simpl; split; try done; try (intros [?|?]; done); auto.
Qed.

Lemma get_field_non_object (v : value) (f : field) :
  is_object v = false -> v <> VUndefined -> v <> VNull ->
  get_field v f = Normal VUndefined.
Proof. by destruct v. Qed.

Lemma lookup_prop_cons_eq k v rest : lookup_prop k ((k, v) :: rest) = v.
Proof. simpl. by rewrite bool_decide_true. Qed.

Lemma lookup_prop_cons_ne k k' v rest :
  k <> k' -> lookup_prop k ((k', v) :: rest) = lookup_prop k rest.
Proof. intros. simpl. by rewrite bool_decide_false. Qed.

Lemma lookup_prop_absent k props :
  k ∉ props.*1 -> lookup_prop k props = VUndefined.
Proof.
  induction props as [|[k' v] rest IH]; [done|]. simpl.
  intros H. apply not_elem_of_cons in H as [? ?].
  rewrite bool_decide_false by done. auto.
Qed.

Lemma to_string_str (s : string) : to_string (VStr s) = s.
Proof. reflexivity. Qed.

#[export] Hint Rewrite lookup_prop_cons_eq get_field_obj to_string_str : js_rw.
#[export] Hint Rewrite lookup_prop_cons_ne using done : js_rw.
#[export] Hint Resolve truthy_is_object : js.
