(* ===== verification/Json.v ===== *)
(** * Json: JSON.parse and JSON.stringify

    The component calls [JSON.parse] (login.component.ts lines 131 and 151)
    inside [try] blocks and [JSON.stringify] (line 164) on an object.
    [JsonPlatform] is what the component may rely on: the two operations and
    their laws.  [RefJson] is a reference implementation, an executable
    recursive-descent parser and a printer over UTF-8 bytes, which
    discharges the laws and evaluates the concrete examples.

    The reference parser accepts the JSON grammar with integer number
    literals; a literal with a fraction or an exponent is outside the model
    and is rejected.  Object members are stored in the property order of
    ECMAScript: array-index keys first in ascending order, then the other
    keys in the order of their first occurrence; a repeated key keeps its
    place and takes the last value. *)

From Stdlib Require Import Ascii String ZArith NArith Lia DecimalString.
From stdpp Require Import base tactics option list strings.
From S2P Require Import Prelude JsString JsValue.

(** ** The interface *)

(** [wf_json v]: [v] is a value [JSON.parse] can return: no [undefined]
    inside, and no object with a repeated key. *)
Fixpoint wf_json (v : value) : bool :=
  match v with
  | VUndefined => false
  | VNull => true
  | VBool _ => true
  | VNum _ => true
  | VStr _ => true
  | VArr items => forallb wf_json items
  | VObj props =>
      bool_decide (NoDup props.*1) && forallb (fun kv => wf_json (snd kv)) props
  end.

Class JsonPlatform : Type := {
  JSON_parse : string -> completion value;
  JSON_stringify : value -> value;
  (** a failed parse is a [SyntaxError] *)
  parse_throws : forall s e, JSON_parse s = Throw e -> e = SyntaxError;
  (** a text whose first non-blank character is an open brace parses to a
      plain object or not at all *)
  parse_brace : forall s v,
    startsWith (trim s) "{" = true -> JSON_parse s = Normal v ->
    is_plain_object v = true;
  (** a parsed value is well formed *)
  parse_wf : forall s v, JSON_parse s = Normal v -> wf_json v = true;
  (** an object or an array prints as a string *)
  stringify_object : forall v,
    is_object v = true -> is_string (JSON_stringify v) = true;
}.

(** ** Lexical layer of the reference parser *)

(** The result of a parsing function: a value and the rest of the input, a
    syntax error, or fuel exhausted. *)
Inductive presult (A : Type) : Type :=
| POk (a : A) (rest : string)
| PErr
| PFuel.

Arguments POk {A} a rest.
Arguments PErr {A}.
Arguments PFuel {A}.

Definition pmap {A B} (f : A -> B) (r : presult A) : presult B :=
  match r with
  | POk a rest => POk (f a) rest
  | PErr => PErr
  | PFuel => PFuel
  end.

Definition dquote : ascii := ascii_of_N 34.
Definition backslash : ascii := ascii_of_N 92.

(** JSON white space: space, tab, line feed, carriage return. *)
Definition is_json_ws (c : ascii) : bool :=
  byte_is 32 c || byte_is 9 c || byte_is 10 c || byte_is 13 c.

Fixpoint skip_ws (s : string) : string :=
  match s with
  | String c r => if is_json_ws c then skip_ws r else s
  | EmptyString => s
  end.

Definition is_digit (c : ascii) : bool :=
  let n := N_of_ascii c in N.leb 48 n && N.leb n 57.

Definition digit_val (c : ascii) : Z := Z.of_N (N_of_ascii c) - 48.

(** [take_digits s] splits the longest prefix of decimal digits off [s]. *)
Fixpoint take_digits (s : string) : string * string :=
  match s with
  | String c r =>
      if is_digit c then let '(d, rest) := take_digits r in (String c d, rest)
      else ("", s)
  | EmptyString => ("", "")
  end.

Fixpoint digits_val (acc : Z) (d : string) : Z :=
  match d with
  | String c r => digits_val (10 * acc + digit_val c) r
  | EmptyString => acc
  end.

(** The digits of a JSON integer: one zero, or a non-zero digit first. *)
Definition valid_int_digits (d : string) : bool :=
  match d with
  | EmptyString => false
  | String c EmptyString => true
  | String c _ => negb (byte_is 48 c)
  end.

(** A fraction or an exponent follows: outside the model. *)
Definition starts_frac_or_exp (s : string) : bool :=
  match s with
  | String c _ => byte_is 46 c || byte_is 101 c || byte_is 69 c
  | EmptyString => false
  end.

Definition parse_unsigned (s : string) : presult Z :=
  let '(d, rest) := take_digits s in
  if valid_int_digits d && negb (starts_frac_or_exp rest)
  then POk (digits_val 0 d) rest
  else PErr.

Definition parse_number (s : string) : presult Z :=
  match s with
  | String "-" r => pmap Z.opp (parse_unsigned r)
  | _ => parse_unsigned s
  end.

(** *** Strings *)

Definition hex_val (c : ascii) : option N :=
  let n := N_of_ascii c in
  if N.leb 48 n && N.leb n 57 then Some (n - 48)%N
  else if N.leb 97 n && N.leb n 102 then Some (n - 87)%N
  else if N.leb 65 n && N.leb n 70 then Some (n - 55)%N
  else None.

Definition hex4 (a b c d : ascii) : option N :=
  match hex_val a, hex_val b, hex_val c, hex_val d with
  | Some x, Some y, Some z, Some w => Some (((x * 16 + y) * 16 + z) * 16 + w)%N
  | _, _, _, _ => None
  end.

(** What a string literal holds: bytes copied from the input, and the
    UTF-16 code units written as [\uXXXX]. *)
Inductive unit16 : Type :=
| UByte (c : ascii)
| UEsc (cu : N).

Definition simple_escape (c : ascii) : option ascii :=
  match c with
  | "b"%char => Some (ascii_of_N 8)
  | "f"%char => Some (ascii_of_N 12)
  | "n"%char => Some (ascii_of_N 10)
  | "r"%char => Some (ascii_of_N 13)
  | "t"%char => Some (ascii_of_N 9)
  | "/"%char => Some "/"%char
  | _ => if bool_decide (c = dquote) then Some dquote
         else if bool_decide (c = backslash) then Some backslash
         else None
  end.

(** [parse_units s] reads the body of a string literal, after its opening
    quote, up to and including the closing quote. *)
Fixpoint parse_units (s : string) : presult (list unit16) :=
  match s with
  | EmptyString => PErr
  | String c r =>
      if bool_decide (c = dquote) then POk [] r
      else if N.ltb (N_of_ascii c) 32 then PErr
      else if bool_decide (c = backslash) then
        match r with
        | String "u" (String h1 (String h2 (String h3 (String h4 r')))) =>
            match hex4 h1 h2 h3 h4 with
            | Some cu => pmap (cons (UEsc cu)) (parse_units r')
            | None => PErr
            end
        | String e r' =>
            match simple_escape e with
            | Some b => pmap (cons (UByte b)) (parse_units r')
            | None => PErr
            end
        | EmptyString => PErr
        end
      else pmap (cons (UByte c)) (parse_units r)
  end.

(** UTF-8 encoding of a code point. *)
Definition utf8_encode (cp : N) : string :=
  if N.ltb cp 128 then String (ascii_of_N cp) ""
  else if N.ltb cp 2048 then
    String (ascii_of_N (192 + cp / 64)) (String (ascii_of_N (128 + cp mod 64)) "")
  else if N.ltb cp 65536 then
    String (ascii_of_N (224 + cp / 4096))
      (String (ascii_of_N (128 + (cp / 64) mod 64))
         (String (ascii_of_N (128 + cp mod 64)) ""))
  else
    String (ascii_of_N (240 + cp / 262144))
      (String (ascii_of_N (128 + (cp / 4096) mod 64))
         (String (ascii_of_N (128 + (cp / 64) mod 64))
            (String (ascii_of_N (128 + cp mod 64)) ""))).

Definition is_high_surrogate (cu : N) : bool := N.leb 55296 cu && N.leb cu 56319.
Definition is_low_surrogate (cu : N) : bool := N.leb 56320 cu && N.leb cu 57343.

(** [encode_units us]: the UTF-8 text of a literal; a high surrogate
    followed by a low one is one code point. *)
Fixpoint encode_units (us : list unit16) : string :=
  match us with
  | [] => ""
  | UByte c :: rest => String c (encode_units rest)
  | UEsc hi :: rest =>
      match rest with
      | UEsc lo :: rest' =>
          if is_high_surrogate hi && is_low_surrogate lo
          then utf8_encode (65536 + (hi - 55296) * 1024 + (lo - 56320)) +:+ encode_units rest'
          else utf8_encode hi +:+ encode_units rest
      | _ => utf8_encode hi +:+ encode_units rest
      end
  end.

Definition parse_str (s : string) : presult string :=
  pmap encode_units (parse_units s).

(** ** Objects in property order *)

(** [is_array_index k]: [k] is the canonical decimal text of an integer
    below 2^32 - 1, the keys ECMAScript enumerates first. *)
Definition is_array_index (k : string) : bool :=
  let '(d, rest) := take_digits k in
  bool_decide (rest = "") && valid_int_digits d && Z.ltb (digits_val 0 d) 4294967295.

Definition index_val (k : string) : Z := digits_val 0 k.

Fixpoint replace_prop (k : string) (v : value) (props : list (string * value))
    : list (string * value) :=
  match props with
  | [] => []
  | (k', v') :: rest =>
      if bool_decide (k = k') then (k, v) :: rest
      else (k', v') :: replace_prop k v rest
  end.

Fixpoint insert_index (k : string) (v : value) (props : list (string * value))
    : list (string * value) :=
  match props with
  | [] => [(k, v)]
  | (k', v') :: rest =>
      if is_array_index k' && Z.ltb (index_val k') (index_val k)
      then (k', v') :: insert_index k v rest
      else (k, v) :: props
  end.

(** [obj_set k v props] defines the property [k] of an object. *)
Definition obj_set (k : string) (v : value) (props : list (string * value))
    : list (string * value) :=
  if bool_decide (k ∈ props.*1) then replace_prop k v props
  else if is_array_index k then insert_index k v props
  else props ++ [(k, v)].

(** ** The reference parser *)

Fixpoint parse_value (fuel : nat) (s : string) : presult value :=
  match fuel with
  | 0 => PFuel
  | S fuel' =>
      let s' := skip_ws s in
      match expect "{" s' with
      | Some r =>
          match expect "}" (skip_ws r) with
          | Some r' => POk (VObj []) r'
          | None => parse_members fuel' r []
          end
      | None =>
      match expect "[" s' with
      | Some r =>
          match expect "]" (skip_ws r) with
          | Some r' => POk (VArr []) r'
          | None => parse_elements fuel' r []
          end
      | None =>
      match expect dquote s' with
      | Some r => pmap VStr (parse_str r)
      | None =>
      match strip_prefix "true" s' with
      | Some r => POk (VBool true) r
      | None =>
      match strip_prefix "false" s' with
      | Some r => POk (VBool false) r
      | None =>
      match strip_prefix "null" s' with
      | Some r => POk VNull r
      | None => pmap VNum (parse_number s')
      end end end end end end
  end

with parse_elements (fuel : nat) (s : string) (acc : list value) : presult value :=
  match fuel with
  | 0 => PFuel
  | S fuel' =>
      match parse_value fuel' s with
      | POk v r =>
          match expect "," (skip_ws r) with
          | Some r' => parse_elements fuel' r' (v :: acc)
          | None =>
              match expect "]" (skip_ws r) with
              | Some r' => POk (VArr (rev (v :: acc))) r'
              | None => PErr
              end
          end
      | PErr => PErr
      | PFuel => PFuel
      end
  end

with parse_members (fuel : nat) (s : string) (acc : list (string * value))
    : presult value :=
  match fuel with
  | 0 => PFuel
  | S fuel' =>
      match expect dquote (skip_ws s) with
      | None => PErr
      | Some r =>
          match parse_str r with
          | POk k r1 =>
              match expect ":" (skip_ws r1) with
              | None => PErr
              | Some r2 =>
                  match parse_value fuel' r2 with
                  | POk v r3 =>
                      match expect "," (skip_ws r3) with
                      | Some r4 => parse_members fuel' r4 (obj_set k v acc)
                      | None =>
                          match expect "}" (skip_ws r3) with
                          | Some r4 => POk (VObj (obj_set k v acc)) r4
                          | None => PErr
                          end
                      end
                  | PErr => PErr
                  | PFuel => PFuel
                  end
              end
          | PErr => PErr
          | PFuel => PFuel
          end
      end
  end.

(** The fuel [ref_parse] supplies: two units per byte of input. *)
Definition parse_fuel (s : string) : nat := 2 * String.length s + 2.

(** [ref_parse s]: the whole of [s] is one JSON value, white space around
    it allowed; anything else is a [SyntaxError]. *)
Definition ref_parse (s : string) : completion value :=
  match parse_value (parse_fuel s) s with
  | POk v rest => if bool_decide (skip_ws rest = "") then Normal v else Throw SyntaxError
  | PErr => Throw SyntaxError
  | PFuel => Throw SyntaxError
  end.

(** ** The reference printer *)

Definition hex_digit (n : N) : ascii :=
  if N.ltb n 10 then ascii_of_N (48 + n) else ascii_of_N (87 + n).

(** The escape of one byte inside a string literal. *)
Definition escape_byte (c : ascii) : string :=
  let n := N_of_ascii c in
  if bool_decide (c = dquote) then String backslash (String dquote "")
  else if bool_decide (c = backslash) then String backslash (String backslash "")
  else if N.eqb n 8 then String backslash "b"
  else if N.eqb n 12 then String backslash "f"
  else if N.eqb n 10 then String backslash "n"
  else if N.eqb n 13 then String backslash "r"
  else if N.eqb n 9 then String backslash "t"
  else if N.ltb n 32 then
    String backslash
      (String "u" (String "0" (String "0"
         (String (hex_digit (n / 16)) (String (hex_digit (n mod 16)) "")))))
  else String c "".

Fixpoint escape (s : string) : string :=
  match s with
  | EmptyString => ""
  | String c r => escape_byte c +:+ escape r
  end.

Definition quote (s : string) : string :=
  String dquote (escape s +:+ String dquote "").

(** [stringify_value v]: the JSON text of [v].  An [undefined] item of an
    array prints as [null]; an [undefined] property is left out. *)
Fixpoint stringify_value (v : value) : string :=
  match v with
  | VUndefined => "null"
  | VNull => "null"
  | VBool true => "true"
  | VBool false => "false"
  | VNum n => Z_to_string n
  | VStr s => quote s
  | VArr items => "[" +:+ join_with "," (List.map stringify_value items) +:+ "]"
  | VObj props =>
      "{" +:+
      join_with ","
        ((fix members (l : list (string * value)) : list string :=
            match l with
            | [] => []
            | (k, x) :: rest =>
                match x with
                | VUndefined => members rest
                | _ => (quote k +:+ ":" +:+ stringify_value x) :: members rest
                end
            end) props)
      +:+ "}"
  end.

(** [ref_stringify v] is [JSON.stringify(v)]: [undefined] for [undefined]. *)
Definition ref_stringify (v : value) : value :=
  match v with
  | VUndefined => VUndefined
  | _ => VStr (stringify_value v)
  end.

(** [jq s] writes a JSON text with apostrophes in the place of the double
    quotes, which a string literal of this development cannot hold. *)
Fixpoint jq (s : string) : string :=
  match s with
  | EmptyString => ""
  | String c r => String (if bool_decide (c = "'"%char) then dquote else c) (jq r)
  end.

(** ** Lemmas on the lexical layer *)

Arguments parse_value : simpl never.
Arguments parse_elements : simpl never.
Arguments parse_members : simpl never.

Lemma pmap_ok {A B} (f : A -> B) (r : presult A) (b : B) (rest : string) :
  pmap f r = POk b rest -> exists a, r = POk a rest /\ b = f a.
Proof. destruct r; simpl; intros; simplify_eq; eauto. Qed.

Lemma pmap_fuel {A B} (f : A -> B) (r : presult A) :
  pmap f r = PFuel -> r = PFuel.
Proof. by destruct r. Qed.

Lemma is_json_ws_ws1 (c : ascii) : is_json_ws c = true -> is_ws1 c = true.
Proof.
  unfold is_json_ws, is_ws1, byte_is. intros H.
  repeat (apply orb_true_iff in H as [H|H]); apply N.eqb_eq in H; by rewrite H.
Qed.

Lemma skip_ws_length (s : string) : String.length (skip_ws s) <= String.length s.
Proof. induction s as [|c s IH]; simpl; [done|]. destruct (is_json_ws c); simpl; lia. Qed.

Lemma skip_ws_idem (s : string) : skip_ws (skip_ws s) = skip_ws s.
Proof.
  induction s as [|c s IH]; simpl; [done|].
  destruct (is_json_ws c) eqn:E; [done|]. simpl. by rewrite E.
Qed.

Lemma skip_ws_head (s : string) (c : ascii) (r : string) :
  skip_ws s = String c r -> is_json_ws c = false.
Proof.
  induction s as [|d s IH]; simpl; [done|].
  destruct (is_json_ws d) eqn:E; [done|]. by intros [= <- _].
Qed.

(** The left trim of the component strips at least the JSON white space. *)
Lemma trimStart_skip_ws (s : string) : trimStart (skip_ws s) = trimStart s.
Proof.
  induction s as [|c s IH]; [done|]. simpl skip_ws.
  destruct (is_json_ws c) eqn:E; [|done].
  rewrite IH. simpl. by rewrite (is_json_ws_ws1 _ E).
Qed.

Lemma take_digits_length (s d rest : string) :
  take_digits s = (d, rest) ->
  String.length s = String.length d + String.length rest.
Proof.
  revert d rest. induction s as [|c s IH]; simpl; intros d rest H.
  - by simplify_eq.
  - destruct (is_digit c); [|by simplify_eq].
    destruct (take_digits s) as [d' rest'] eqn:E. simplify_eq. simpl.
    by rewrite (IH _ _ eq_refl).
Qed.

Lemma parse_unsigned_length (s : string) (n : Z) (rest : string) :
  parse_unsigned s = POk n rest -> String.length rest < String.length s.
Proof.
  unfold parse_unsigned. destruct (take_digits s) as [d r] eqn:E.
  destruct (valid_int_digits d) eqn:Ev; simpl; [|done].
  destruct (starts_frac_or_exp r); simpl; [done|]. intros [= _ <-].
  apply take_digits_length in E. destruct d; [done|]. simpl in E. lia.
Qed.

Lemma parse_number_length (s : string) (n : Z) (rest : string) :
  parse_number s = POk n rest -> String.length rest < String.length s.
Proof.
  unfold parse_number. intros H.
  assert (Hu : forall s', pmap Z.opp (parse_unsigned s') = POk n rest ->
                     String.length rest < String.length s').
  { intros s' (m & Hm & _)%pmap_ok. by eapply parse_unsigned_length. }
  destruct s as [|c s]; [done|].
  destruct (decide (c = "-"%char)) as [->|Hc].
  - apply Hu in H. simpl. lia.
  - assert (parse_unsigned (String c s) = POk n rest) as H'.
    { revert H. destruct c as [[] [] [] [] [] [] [] []]; try done. }
    by eapply parse_unsigned_length.
Qed.

Lemma parse_units_length (s : string) (us : list unit16) (rest : string) :
  parse_units s = POk us rest -> String.length rest < String.length s.
Proof.
  remember (String.length s) as n eqn:Hn. revert s us rest Hn.
  induction (lt_wf n) as [n _ IH]; intros s us rest -> H.
  destruct s as [|c r]; [done|]. simpl in H.
  case_bool_decide; [simplify_eq; simpl; lia|].
  destruct (N.ltb (N_of_ascii c) 32); [done|].
  assert (Hrec : forall r' f, String.length r' < S (String.length r) ->
            pmap f (parse_units r') = POk us rest ->
            String.length rest < S (String.length r)).
  { intros r' f Hlt (a & Ha & _)%pmap_ok.
    specialize (IH _ Hlt r' a rest eq_refl Ha). lia. }
  simpl. case_bool_decide; [|eapply Hrec; [|done]; lia].
  destruct r as [|e r']; [done|].
  destruct (decide (e = "u"%char)) as [->|He].
  - destruct r' as [|h1 [|h2 [|h3 [|h4 r'']]]]; simpl in *; try done.
    destruct (hex4 h1 h2 h3 h4); [|done]. eapply Hrec; [|done]. simpl; lia.
  - assert (match simple_escape e with
            | Some b => pmap (cons (UByte b)) (parse_units r')
            | None => PErr
            end = POk us rest) as H'.
    { revert H. destruct e as [[] [] [] [] [] [] [] []]; try done. }
    destruct (simple_escape e); [|done]. eapply Hrec; [|done]. simpl; lia.
Qed.

Lemma parse_str_length (s k rest : string) :
  parse_str s = POk k rest -> String.length rest < String.length s.
Proof. intros (us & H & _)%pmap_ok. by eapply parse_units_length. Qed.

Lemma parse_str_no_fuel (s : string) : parse_str s <> PFuel.
Proof.
  unfold parse_str. intros H%pmap_fuel. revert H.
  remember (String.length s) as n eqn:Hn. revert s Hn.
  induction (lt_wf n) as [n _ IH]; intros s ->.
  assert (Hrec : forall r' f, String.length r' < String.length s ->
            pmap (B:=list unit16) f (parse_units r') <> PFuel).
  { intros r' f Hlt H%pmap_fuel. by eapply IH. }
  destruct s as [|c r]; [done|]. simpl.
  repeat case_match; try done; try (apply Hrec; simpl; lia).
Qed.

Lemma parse_number_no_fuel (s : string) : parse_number s <> PFuel.
Proof.
  assert (Hu : forall s', parse_unsigned s' <> PFuel).
  { intros s'. unfold parse_unsigned. by repeat case_match. }
  unfold parse_number. repeat case_match; try apply Hu.
  intros Hp%pmap_fuel. by eapply Hu.
Qed.


(** ** Inversion of the parser *)

(** The ways [parse_value] succeeds. *)
Inductive value_case (fuel : nat) (s : string) (v : value) (rest : string) : Prop :=
| case_empty_object r :
    expect "{" (skip_ws s) = Some r -> expect "}" (skip_ws r) = Some rest ->
    v = VObj [] -> value_case fuel s v rest
| case_object r :
    expect "{" (skip_ws s) = Some r -> parse_members fuel r [] = POk v rest ->
    value_case fuel s v rest
| case_empty_array r :
    expect "{" (skip_ws s) = None ->
    expect "[" (skip_ws s) = Some r -> expect "]" (skip_ws r) = Some rest ->
    v = VArr [] -> value_case fuel s v rest
| case_array r :
    expect "{" (skip_ws s) = None ->
    expect "[" (skip_ws s) = Some r -> parse_elements fuel r [] = POk v rest ->
    value_case fuel s v rest
| case_string r k :
    expect "{" (skip_ws s) = None ->
    expect dquote (skip_ws s) = Some r -> parse_str r = POk k rest ->
    v = VStr k -> value_case fuel s v rest
| case_literal lit :
    expect "{" (skip_ws s) = None ->
    In (lit, v) [("true", VBool true); ("false", VBool false); ("null", VNull)] ->
    strip_prefix lit (skip_ws s) = Some rest -> value_case fuel s v rest
| case_number n :
    expect "{" (skip_ws s) = None ->
    parse_number (skip_ws s) = POk n rest -> v = VNum n ->
    value_case fuel s v rest.

Lemma parse_value_inv (fuel : nat) (s : string) (v : value) (rest : string) :
  parse_value (S fuel) s = POk v rest -> value_case fuel s v rest.
Proof.
  unfold parse_value; fold parse_members; fold parse_elements. cbv zeta.
  destruct (expect "{" (skip_ws s)) as [r|] eqn:E1.
  { destruct (expect "}" (skip_ws r)) eqn:E2; intros; simplify_eq;
      [by econstructor 1|by econstructor 2]. }
  destruct (expect "[" (skip_ws s)) as [r|] eqn:E2.
  { destruct (expect "]" (skip_ws r)) eqn:E3; intros; simplify_eq;
      [by econstructor 3|by econstructor 4]. }
  destruct (expect dquote (skip_ws s)) as [r|] eqn:E3.
  { intros (k & Hk & ->)%pmap_ok. by econstructor 5. }
  destruct (strip_prefix "true" (skip_ws s)) eqn:E4.
  { intros [= <- <-]. econstructor 6; [done| |done]. simpl; auto. }
  destruct (strip_prefix "false" (skip_ws s)) eqn:E5.
  { intros [= <- <-]. econstructor 6; [done| |done]. simpl; auto. }
  destruct (strip_prefix "null" (skip_ws s)) eqn:E6.
  { intros [= <- <-]. econstructor 6; [done| |done]. simpl; auto. }
  intros (n & Hn & ->)%pmap_ok. by econstructor 7.
Qed.

(** Fuel runs out inside an object or an array only. *)
Lemma parse_value_fuel_inv (fuel : nat) (s : string) :
  parse_value (S fuel) s = PFuel ->
  (exists r, expect "{" (skip_ws s) = Some r /\ parse_members fuel r [] = PFuel)
  \/ (exists r, expect "[" (skip_ws s) = Some r /\ parse_elements fuel r [] = PFuel).
Proof.
  unfold parse_value; fold parse_members; fold parse_elements. cbv zeta.
  destruct (expect "{" (skip_ws s)) as [r|] eqn:E1.
  { destruct (expect "}" (skip_ws r)); [done|]. eauto. }
  destruct (expect "[" (skip_ws s)) as [r|] eqn:E2.
  { destruct (expect "]" (skip_ws r)); [done|]. eauto. }
  repeat case_match; try done.
  - intros Hf%pmap_fuel. by apply parse_str_no_fuel in Hf.
  - intros Hf%pmap_fuel. by apply parse_number_no_fuel in Hf.
Qed.

Inductive elements_case (fuel : nat) (s : string) (acc : list value)
    (v : value) (rest : string) : Prop :=
| case_more_elements x r r' :
    parse_value fuel s = POk x r -> expect "," (skip_ws r) = Some r' ->
    parse_elements fuel r' (x :: acc) = POk v rest ->
    elements_case fuel s acc v rest
| case_last_element x r :
    parse_value fuel s = POk x r -> expect "]" (skip_ws r) = Some rest ->
    v = VArr (rev (x :: acc)) -> elements_case fuel s acc v rest.

Lemma parse_elements_inv fuel s acc v rest :
  parse_elements (S fuel) s acc = POk v rest -> elements_case fuel s acc v rest.
Proof.
  unfold parse_elements; fold parse_value; fold parse_elements.
  destruct (parse_value fuel s) as [x r| |] eqn:Ev; [|done..].
  destruct (expect "," (skip_ws r)) eqn:E1; [intros; by econstructor 1|].
  destruct (expect "]" (skip_ws r)) eqn:E2; [|done].
  intros [= <- <-]. by econstructor 2.
Qed.

Inductive members_case (fuel : nat) (s : string) (acc : list (string * value))
    (v : value) (rest : string) : Prop :=
| case_more_members r k r1 r2 x r3 r4 :
    expect dquote (skip_ws s) = Some r -> parse_str r = POk k r1 ->
    expect ":" (skip_ws r1) = Some r2 -> parse_value fuel r2 = POk x r3 ->
    expect "," (skip_ws r3) = Some r4 ->
    parse_members fuel r4 (obj_set k x acc) = POk v rest ->
    members_case fuel s acc v rest
| case_last_member r k r1 r2 x r3 :
    expect dquote (skip_ws s) = Some r -> parse_str r = POk k r1 ->
    expect ":" (skip_ws r1) = Some r2 -> parse_value fuel r2 = POk x r3 ->
    expect "}" (skip_ws r3) = Some rest -> v = VObj (obj_set k x acc) ->
    members_case fuel s acc v rest.

Lemma parse_members_inv fuel s acc v rest :
  parse_members (S fuel) s acc = POk v rest -> members_case fuel s acc v rest.
Proof.
  unfold parse_members; fold parse_value; fold parse_members.
  destruct (expect dquote (skip_ws s)) as [r|] eqn:E1; [|done].
  destruct (parse_str r) as [k r1| |] eqn:Ek; [|done..].
  destruct (expect ":" (skip_ws r1)) as [r2|] eqn:E2; [|done].
  destruct (parse_value fuel r2) as [x r3| |] eqn:Ev; [|done..].
  destruct (expect "," (skip_ws r3)) eqn:E3; [intros; by econstructor 1|].
  destruct (expect "}" (skip_ws r3)) eqn:E4; [|done].
  intros [= <- <-]. by econstructor 2.
Qed.

(** ** Every successful parse consumes input *)

Lemma expect_skip_length (c : ascii) (s r : string) :
  expect c (skip_ws s) = Some r -> String.length r < String.length s.
Proof.
  intros H%expect_Some. pose proof (skip_ws_length s) as Hl.
  rewrite H in Hl. simpl in Hl. lia.
Qed.

Lemma strip_prefix_skip_length (p s r : string) :
  p <> "" -> strip_prefix p (skip_ws s) = Some r ->
  String.length r < String.length s.
Proof.
  intros Hp H%strip_prefix_Some. pose proof (skip_ws_length s) as Hl.
  rewrite H, string_app_length in Hl. destruct p; [done|]. simpl in Hl. lia.
Qed.

Lemma parse_number_skip_length (s : string) (n : Z) (rest : string) :
  parse_number (skip_ws s) = POk n rest -> String.length rest < String.length s.
Proof.
  intros H%parse_number_length. pose proof (skip_ws_length s). lia.
Qed.

(** [lengths] turns the parsing facts of the context into facts on the
    lengths of the texts and closes the goal by arithmetic. *)
Ltac lengths :=
  repeat match goal with
    | H : expect _ (skip_ws _) = Some _ |- _ => apply expect_skip_length in H
    | H : strip_prefix _ (skip_ws _) = Some _ |- _ =>
        apply strip_prefix_skip_length in H; [|done]
    | H : parse_number (skip_ws _) = POk _ _ |- _ =>
        apply parse_number_skip_length in H
    | H : parse_str _ = POk _ _ |- _ => apply parse_str_length in H
    end;
  simpl in *; lia.

Definition consumes {A} (r : presult A) (s : string) : Prop :=
  forall a rest, r = POk a rest -> String.length rest < String.length s.

Lemma parse_consumes (fuel : nat) :
  (forall s, consumes (parse_value fuel s) s)
  /\ (forall s acc, consumes (parse_elements fuel s acc) s)
  /\ (forall s acc, consumes (parse_members fuel s acc) s).
Proof.
  induction fuel as [|fuel (IHv & IHe & IHm)]; [by repeat split|].
  repeat split; intros s; [|intros acc..]; intros v rest H.
  - destruct (parse_value_inv _ _ _ _ H) as
      [r ? ? ?|r ? Hm|r ? ? ? ?|r ? ? He|r k ? ? Hk ?|lit ? Hin ?|n ? Hn ?].
    + lengths.
    + apply IHm in Hm. lengths.
    + lengths.
    + apply IHe in He. lengths.
    + lengths.
    + simpl in Hin. destruct Hin as [?|[?|[?|[]]]]; simplify_eq; lengths.
    + lengths.
  - destruct (parse_elements_inv _ _ _ _ _ H) as [x r r' Hv ? He|x r Hv ? ?];
      apply IHv in Hv; [apply IHe in He|]; lengths.
  - destruct (parse_members_inv _ _ _ _ _ H) as
      [r k r1 r2 x r3 r4 ? ? ? Hv ? Hm|r k r1 r2 x r3 ? ? ? Hv ? ?];
      apply IHv in Hv; [apply IHm in Hm|]; lengths.
Qed.

Lemma parse_value_consumes fuel s v rest :
  parse_value fuel s = POk v rest -> String.length rest < String.length s.
Proof. apply parse_consumes. Qed.

(** ** Termination: the fuel of [ref_parse] is enough *)

Lemma parse_fuel_enough (fuel : nat) :
  (forall s, 2 * String.length s < fuel -> parse_value fuel s <> PFuel)
  /\ (forall s acc, 2 * String.length s + 1 < fuel ->
        parse_elements fuel s acc <> PFuel)
  /\ (forall s acc, 2 * String.length s + 1 < fuel ->
        parse_members fuel s acc <> PFuel).
Proof.
  induction fuel as [|fuel (IHv & IHe & IHm)]; [repeat split; intros; lia|].
  repeat split; intros s; [|intros acc..]; intros Hlt H.
  - destruct (parse_value_fuel_inv _ _ H) as [(r & ? & Hm)|(r & ? & He)].
    + eapply IHm; [|done]. lengths.
    + eapply IHe; [|done]. lengths.
  - revert H. unfold parse_elements; fold parse_value; fold parse_elements.
    destruct (parse_value fuel s) as [x r| |] eqn:Ev; [|done|].
    + apply parse_value_consumes in Ev.
      destruct (expect "," (skip_ws r)) eqn:E1; [|by repeat case_match].
      apply IHe. lengths.
    + intros _. eapply IHv; [|done]. lia.
  - revert H. unfold parse_members; fold parse_value; fold parse_members.
    destruct (expect dquote (skip_ws s)) as [r|] eqn:E1; [|done].
    destruct (parse_str r) as [k r1| |] eqn:Ek; [|done|by apply parse_str_no_fuel in Ek].
    destruct (expect ":" (skip_ws r1)) as [r2|] eqn:E2; [|done].
    destruct (parse_value fuel r2) as [x r3| |] eqn:Ev; [|done|].
    + apply parse_value_consumes in Ev.
      destruct (expect "," (skip_ws r3)) eqn:E3; [|by repeat case_match].
      apply IHm. lengths.
    + intros _. eapply IHv; [|done]. lengths.
Qed.

Lemma ref_parse_fuel (s : string) : parse_value (parse_fuel s) s <> PFuel.
Proof. apply parse_fuel_enough. unfold parse_fuel. lia. Qed.

(** ** More fuel never changes a result *)

Lemma parse_fuel_stable (fuel : nat) :
  (forall s fuel', parse_value fuel s <> PFuel -> fuel <= fuel' ->
     parse_value fuel' s = parse_value fuel s)
  /\ (forall s acc fuel', parse_elements fuel s acc <> PFuel ->
        fuel <= fuel' -> parse_elements fuel' s acc = parse_elements fuel s acc)
  /\ (forall s acc fuel', parse_members fuel s acc <> PFuel ->
        fuel <= fuel' -> parse_members fuel' s acc = parse_members fuel s acc).
Proof.
  induction fuel as [|fuel (IHv & IHe & IHm)]; [by repeat split|].
  repeat split; intros s; [|intros acc..]; intros [|fuel'] H Hle;
    try lia; assert (fuel <= fuel') as Hle' by lia.
  - revert H. unfold parse_value; fold parse_members; fold parse_elements.
    cbv zeta. repeat case_match; try done; intros Hp; eauto.
  - revert H. unfold parse_elements; fold parse_value; fold parse_elements.
    destruct (parse_value fuel s) as [x r| |] eqn:Ev; [| |done].
    + rewrite (IHv s fuel') by (by rewrite ?Ev). rewrite Ev.
      repeat case_match; try done; eauto.
    + rewrite (IHv s fuel') by (by rewrite ?Ev). by rewrite Ev.
  - revert H. unfold parse_members; fold parse_value; fold parse_members.
    destruct (expect dquote (skip_ws s)) as [r|]; [|done].
    destruct (parse_str r) as [k r1| |]; [|done..].
    destruct (expect ":" (skip_ws r1)) as [r2|]; [|done].
    destruct (parse_value fuel r2) as [x r3| |] eqn:Ev; [| |done].
    + rewrite (IHv r2 fuel') by (by rewrite ?Ev). rewrite Ev.
      repeat case_match; try done; eauto.
    + rewrite (IHv r2 fuel') by (by rewrite ?Ev). by rewrite Ev.
Qed.

Lemma parse_fuel_mono (fuel : nat) :
  (forall s v rest fuel', parse_value fuel s = POk v rest -> fuel <= fuel' ->
     parse_value fuel' s = POk v rest)
  /\ (forall s acc v rest fuel', parse_elements fuel s acc = POk v rest ->
        fuel <= fuel' -> parse_elements fuel' s acc = POk v rest)
  /\ (forall s acc v rest fuel', parse_members fuel s acc = POk v rest ->
        fuel <= fuel' -> parse_members fuel' s acc = POk v rest).
Proof.
  destruct (parse_fuel_stable fuel) as (Hv & He & Hm).
  repeat split; intros; [rewrite Hv|rewrite He|rewrite Hm]; congruence.
Qed.

(** The fuel of the reference parser is enough: the parser never runs
    out with the fuel [ref_parse] supplies, and any larger fuel gives the
    same result, a value or a syntax error. *)
Theorem parse_value_fuel_enough (s : string) (fuel : nat) :
  parse_fuel s <= fuel ->
  parse_value fuel s = parse_value (parse_fuel s) s /\ parse_value fuel s <> PFuel.
Proof.
  intros Hle.
  assert (parse_value fuel s = parse_value (parse_fuel s) s) as ->.
  { apply parse_fuel_stable; [apply ref_parse_fuel|done]. }
  split; [done|apply ref_parse_fuel].
Qed.

(** ** The shape of a parsed value *)

Lemma parse_members_object fuel s acc v rest :
  parse_members fuel s acc = POk v rest -> is_plain_object v = true.
Proof.
  revert s acc. induction fuel as [|fuel IH]; intros s acc H; [done|].
  destruct (parse_members_inv _ _ _ _ _ H); subst; eauto.
Qed.

Lemma parse_value_brace fuel s v rest r :
  parse_value fuel s = POk v rest -> expect "{" (skip_ws s) = Some r ->
  is_plain_object v = true.
Proof.
  destruct fuel as [|fuel]; [done|]. intros H Hb.
  destruct (parse_value_inv _ _ _ _ H); subst; simplify_eq;
    eauto using parse_members_object.
Qed.

(** The bytes a JSON value starts with. *)
Definition is_value_start (c : ascii) : bool :=
  bool_decide (c ∈ ["{"; "["; "t"; "f"; "n"; "-"; dquote]%char) || is_digit c.

Lemma value_start_plain (c : ascii) :
  is_value_start c = true ->
  is_ws1 c = false /\ N.ltb (N_of_ascii c) 128 = true.
Proof. destruct c as [[] [] [] [] [] [] [] []]; vm_compute; done. Qed.

Lemma take_digits_start (c : ascii) (s d rest : string) :
  take_digits (String c s) = (d, rest) -> d <> "" -> is_digit c = true.
Proof.
  simpl. destruct (is_digit c); [done|]. by intros [= <- _].
Qed.

Lemma parse_unsigned_start (s : string) (n : Z) (rest : string) :
  parse_unsigned s = POk n rest ->
  exists c r, s = String c r /\ is_digit c = true.
Proof.
  unfold parse_unsigned. destruct (take_digits s) as [d r] eqn:E.
  destruct (valid_int_digits d) eqn:Ev; [|done]. intros _.
  destruct s as [|c s]; [by simplify_eq/=|]. exists c, s. split; [done|].
  eapply take_digits_start; [done|]. by destruct d.
Qed.

Lemma parse_number_start (s : string) (n : Z) (rest : string) :
  parse_number s = POk n rest ->
  exists c r, s = String c r /\ is_value_start c = true.
Proof.
  intros H. destruct s as [|c r]; [done|]. exists c, r. split; [done|].
  destruct (decide (c = "-"%char)) as [->|Hc]; [done|].
  assert (parse_unsigned (String c r) = POk n rest) as H'.
  { revert H. unfold parse_number. destruct c as [[] [] [] [] [] [] [] []]; done. }
  apply parse_unsigned_start in H' as (? & ? & [= <- <-] & Hd).
  unfold is_value_start. by rewrite Hd, orb_true_r.
Qed.

Lemma parse_value_start fuel s v rest :
  parse_value fuel s = POk v rest ->
  exists c r, skip_ws s = String c r /\ is_value_start c = true.
Proof.
  destruct fuel as [|fuel]; [done|]. intros H.
  destruct (parse_value_inv _ _ _ _ H) as
    [r Hr ? ?|r Hr ?|r ? Hr ? ?|r ? Hr ?|r k ? Hr ? ?|lit ? Hin Hr|n ? Hn ?];
    try (apply expect_Some in Hr; rewrite Hr; by eexists _, _).
  - simpl in Hin. destruct Hin as [?|[?|[?|[]]]]; simplify_eq;
      apply strip_prefix_Some in Hr; rewrite Hr; by eexists _, _.
  - by eapply parse_number_start.
Qed.

(** A text that the component's [trim] shows to start with an open brace
    starts with one for the parser too. *)
Lemma parse_value_trim_brace fuel s v rest :
  parse_value fuel s = POk v rest -> startsWith (trim s) "{" = true ->
  exists r, expect "{" (skip_ws s) = Some r.
Proof.
  intros (c & r & Hs & Hc)%parse_value_start Ht.
  apply value_start_plain in Hc as [Hw Hlt].
  rewrite startsWith_trim, <- trimStart_skip_ws, Hs in Ht.
  rewrite trimStart_not_ws, startsWith_cons in Ht by done.
  apply andb_true_iff in Ht as [Hb%bool_decide_eq_true _]. subst c.
  exists r. by rewrite Hs.
Qed.

(** ** A parsed value is well formed *)

Definition wf_props (props : list (string * value)) : Prop :=
  NoDup props.*1 /\ Forall (fun kv => wf_json kv.2 = true) props.

Lemma wf_json_arr (items : list value) :
  wf_json (VArr items) = true <-> Forall (fun x => wf_json x = true) items.
Proof. simpl. apply forallb_Forall. Qed.

Lemma wf_json_obj (props : list (string * value)) :
  wf_json (VObj props) = true <-> wf_props props.
Proof.
  unfold wf_props. simpl.
  by rewrite andb_true_iff, bool_decide_eq_true, forallb_Forall.
Qed.

Lemma replace_prop_keys k v props : (replace_prop k v props).*1 = props.*1.
Proof.
  induction props as [|[k' v'] rest IH]; [done|]. simpl.
  case_bool_decide; csimpl; [by subst|by rewrite IH].
Qed.

Lemma replace_prop_Forall (P : string * value -> Prop) k v props :
  P (k, v) -> Forall P props -> Forall P (replace_prop k v props).
Proof.
  intros Hk. induction 1 as [|[k' v'] rest Hx Hrest IH]; [done|]. simpl.
  case_bool_decide; constructor; auto.
Qed.

Lemma insert_index_keys k v props : (insert_index k v props).*1 ≡ₚ k :: props.*1.
Proof.
  induction props as [|[k' v'] rest IH]; [done|]. simpl.
  case_match; csimpl; [|done]. rewrite IH. apply Permutation_swap.
Qed.

Lemma insert_index_Forall (P : string * value -> Prop) k v props :
  P (k, v) -> Forall P props -> Forall P (insert_index k v props).
Proof.
  intros Hk. induction 1 as [|[k' v'] rest Hx Hrest IH]; simpl.
  - by constructor.
  - case_match; repeat constructor; auto.
Qed.

Lemma obj_set_wf k v props :
  wf_props props -> wf_json v = true -> wf_props (obj_set k v props).
Proof.
  intros [Hnd Hall] Hv. unfold obj_set. case_bool_decide as Hin.
  - split; [by rewrite replace_prop_keys|by apply replace_prop_Forall].
  - case_match.
    + split; [|by apply insert_index_Forall].
      rewrite insert_index_keys. by constructor.
    + split.
      * rewrite fmap_app. simpl. apply NoDup_app. repeat split; [done| |].
        -- intros x Hx ->%list_elem_of_singleton. done.
        -- apply NoDup_singleton.
      * apply Forall_app. split; [done|]. by constructor.
Qed.

Lemma wf_props_nil : wf_props [].
Proof. split; [apply NoDup_nil_2|done]. Qed.

Lemma parse_wf_all (fuel : nat) :
  (forall s v rest, parse_value fuel s = POk v rest -> wf_json v = true)
  /\ (forall s acc v rest, Forall (fun x => wf_json x = true) acc ->
        parse_elements fuel s acc = POk v rest -> wf_json v = true)
  /\ (forall s acc v rest, wf_props acc ->
        parse_members fuel s acc = POk v rest -> wf_json v = true).
Proof.
  induction fuel as [|fuel (IHv & IHe & IHm)]; [by repeat split|].
  repeat split; intros s; [|intros acc..]; intros v rest.
  - intros H. destruct (parse_value_inv _ _ _ _ H) as
      [r ? ? ?|r ? Hm|r ? ? ? ?|r ? ? He|r k ? ? Hk ?|lit ? Hin ?|n ? Hn ?];
      subst; try done.
    + eapply IHm; [apply wf_props_nil|done].
    + by eapply IHe.
    + simpl in Hin. by destruct Hin as [?|[?|[?|[]]]]; simplify_eq.
  - intros Hacc H.
    destruct (parse_elements_inv _ _ _ _ _ H) as [x r r' Hv ? He|x r Hv ? ->];
      apply IHv in Hv.
    + eapply IHe; [|done]. by constructor.
    + apply wf_json_arr, Forall_rev. by constructor.
  - intros Hacc H.
    destruct (parse_members_inv _ _ _ _ _ H) as
      [r k r1 r2 x r3 r4 ? ? ? Hv ? Hm|r k r1 r2 x r3 ? ? ? Hv ? ->];
      apply IHv in Hv.
    + eapply IHm; [|done]. by apply obj_set_wf.
    + by apply wf_json_obj, obj_set_wf.
Qed.

(** ** The reference implementation discharges the interface *)

Lemma ref_parse_ok (s : string) (v : value) :
  ref_parse s = Normal v ->
  exists rest, parse_value (parse_fuel s) s = POk v rest /\ skip_ws rest = "".
Proof.
  unfold ref_parse. destruct (parse_value (parse_fuel s) s) as [x rest| |]; [|done..].
  case_bool_decide; [|done]. intros [= ->]. eauto.
Qed.

Lemma ref_parse_throws (s : string) (e : js_error) :
  ref_parse s = Throw e -> e = SyntaxError.
Proof.
  unfold ref_parse. destruct (parse_value (parse_fuel s) s); [|congruence..].
  case_bool_decide; congruence.
Qed.

Lemma ref_parse_brace (s : string) (v : value) :
  startsWith (trim s) "{" = true -> ref_parse s = Normal v ->
  is_plain_object v = true.
Proof.
  intros Ht (rest & Hp & _)%ref_parse_ok.
  destruct (parse_value_trim_brace _ _ _ _ Hp Ht) as [r Hr].
  by eapply parse_value_brace.
Qed.

Lemma ref_parse_wf (s : string) (v : value) :
  ref_parse s = Normal v -> wf_json v = true.
Proof.
  intros (rest & Hp & _)%ref_parse_ok. by eapply (proj1 (parse_wf_all _)).
Qed.

Lemma ref_stringify_object (v : value) :
  is_object v = true -> is_string (ref_stringify v) = true.
Proof. by destruct v. Qed.

#[export] Instance RefJson : JsonPlatform := {|
  JSON_parse := ref_parse;
  JSON_stringify := ref_stringify;
  parse_throws := ref_parse_throws;
  parse_brace := ref_parse_brace;
  parse_wf := ref_parse_wf;
  stringify_object := ref_stringify_object;
|}.

(** ** Witnesses *)

Lemma parse_value_fuel_enough_witness :
  let s := jq "{'a': [1, 2, {'b': null}]}" in
  parse_value 1000 s = parse_value (parse_fuel s) s /\ parse_value 1000 s <> PFuel.
Proof. apply parse_value_fuel_enough. vm_compute. lia. Defined.
