(* ===== verification/Normalizer.v ===== *)
(** * Normalizer: from the payload of a reply to the value displayed

    The [next] callback of [sendUserMessage] (login.component.ts lines
    123-169) turns [res.response] into [botText].  The source does it in
    three blocks, each a definition here:

    - lines 127-137, [parse_outer]: a string that starts with an open
      brace, blanks apart, is parsed; a failed parse leaves it as it was;
    - lines 148-159, [unwrap_inner]: the one extra pass over the value of
      a [response] property;
    - lines 140-169, [handle_response]: the choice between [message],
      [response], [JSON.stringify] and [String].

    [normalize] composes them.  [spec_normalize] is the algorithm as the
    written specification words it (section 4.1), which tests a field for
    presence where the source tests its value for truthiness and coerces
    the result to a string where the source does not; the theorems say
    where the two agree and where they part.

    The definitions are stated against [JsonPlatform]; the closed examples
    run on [RefJson]. *)

From Stdlib Require Import Ascii String ZArith Lia.
From stdpp Require Import base tactics option list strings.
From S2P Require Import Prelude JsString JsValue Json.

Section normalizer.
Context `{JP : JsonPlatform}.

(** [looks_like_object s] is [s.trim().startsWith('{')]. *)
Definition looks_like_object (s : string) : bool := startsWith (trim s) "{".

(** Lines 127-137.  The [try] block assigns [responseObj] after the parse
    has succeeded, so the [catch] finds it unchanged. *)
Definition parse_outer (responseObj : value) : value :=
  match responseObj with
  | VStr s =>
      try_catch
        (if looks_like_object s
         then let! parsed := JSON_parse s in Normal parsed
         else Normal responseObj)
        (fun _ => responseObj)
  | _ => responseObj
  end.

(** Lines 148-159, on the value [botText] just read from [.response].  The
    read of [.message] in the [else if] stands outside any [try]. *)
Definition unwrap_inner (botText : value) : completion value :=
  match botText with
  | VStr s =>
      Normal
        (try_catch
           (if looks_like_object s
            then
              let! parsedInner := JSON_parse s in
              let! message := get_field parsedInner Message in
              Normal (if truthy message then message else botText)
            else Normal botText)
           (fun _ => botText))
  | _ =>
      if bool_decide (typeof botText = TObject)
      then
        let! message := get_field botText Message in
        Normal (if truthy message then message else botText)
      else Normal botText
  end.

(** Lines 140-169. *)
Definition handle_response (responseObj : value) : completion value :=
  if is_object responseObj
  then
    let! message := get_field responseObj Message in
    if truthy message then Normal message
    else
      let! response := get_field responseObj Response in
      if truthy response then unwrap_inner response
      else Normal (JSON_stringify responseObj)
  else Normal (VStr (to_string responseObj)).

(** Lines 123-169: [botText] for the payload [res.response]. *)
Definition normalize (payload : value) : completion value :=
  handle_response (parse_outer payload).

(** ** The algorithm of the written specification (section 4.1) *)

Definition has_prop (k : string) (v : value) : bool :=
  match v with
  | VObj props => bool_decide (k ∈ props.*1)
  | _ => false
  end.

Definition prop_of (k : string) (v : value) : value :=
  match v with
  | VObj props => lookup_prop k props
  | _ => VUndefined
  end.

(** Step 1: a string whose left trim begins with an open brace is parsed;
    a failed parse leaves the string. *)
Definition spec_step1 (payload : value) : value :=
  match payload with
  | VStr s =>
      if startsWith (trimStart s) "{"
      then match JSON_parse s with Normal v => v | Throw _ => payload end
      else payload
  | _ => payload
  end.

(** The one additional unwrap pass of step 2. *)
Definition spec_unwrap (candidate : value) : value :=
  match candidate with
  | VStr s =>
      if startsWith s "{"
      then match JSON_parse s with
           | Normal v => if has_prop "message" v then prop_of "message" v else candidate
           | Throw _ => candidate
           end
      else candidate
  | _ => if has_prop "message" candidate then prop_of "message" candidate else candidate
  end.

Definition spec_step2 (v : value) : value :=
  if is_object v
  then if has_prop "message" v then prop_of "message" v
       else if has_prop "response" v then spec_unwrap (prop_of "response" v)
       else JSON_stringify v
  else v.

(** Step 3: whatever is not a string is converted to one. *)
Definition spec_normalize (payload : value) : string :=
  to_string (spec_step2 (spec_step1 payload)).

(** ** The payloads the server is expected to send *)

(** [plain_text v]: a non-empty string. *)
Definition plain_text (v : value) : bool :=
  match v with
  | VStr s => negb (bool_decide (s = ""))
  | _ => false
  end.

(** [field_ok k v]: the property [k] of [v] is absent or a non-empty
    string. *)
Definition field_ok (k : string) (v : value) : bool :=
  negb (has_prop k v) || plain_text (prop_of k v).

(** [inner_ok c]: the value of a [response] property is a non-empty string
    with no leading blank, and the object it may hold has a [message] that
    is absent or a non-empty string. *)
Definition inner_ok (c : value) : bool :=
  match c with
  | VStr s =>
      negb (bool_decide (s = "")) && bool_decide (trimStart s = s)
      && (negb (looks_like_object s)
          || match JSON_parse s with
             | Normal v => field_ok "message" v
             | Throw _ => true
             end)
  | _ => false
  end.

Definition object_ok (v : value) : bool :=
  field_ok "message" v
  && (has_prop "message" v || negb (has_prop "response" v)
      || inner_ok (prop_of "response" v)).

(** [well_shaped payload]: the payload is no object, or an object whose
    [message] and [response] are as the server sends them. *)
Definition well_shaped (payload : value) : bool :=
  negb (is_object (spec_step1 payload)) || object_ok (spec_step1 payload).

End normalizer.

(** ** Lemmas: the branches of the source, one by one *)

Section normalizer_facts.
Context `{JP : JsonPlatform}.

Lemma get_field_object (v : value) (f : field) :
  is_object v = true -> get_field v f = Normal (prop_of (field_name f) v).
Proof. by destruct v. Qed.

Lemma prop_of_absent (k : string) (v : value) :
  has_prop k v = false -> prop_of k v = VUndefined.
Proof.
  destruct v; try done. simpl. intros H%bool_decide_eq_false.
  by apply lookup_prop_absent.
Qed.

Lemma truthy_has_prop (k : string) (v : value) :
  truthy (prop_of k v) = true -> has_prop k v = true.
Proof.
  destruct (has_prop k v) eqn:E; [done|]. by rewrite prop_of_absent.
Qed.

Lemma plain_text_truthy (v : value) : plain_text v = true -> truthy v = true.
Proof. by destruct v. Qed.

Lemma plain_text_string (v : value) :
  plain_text v = true -> v = VStr (to_string v).
Proof. by destruct v. Qed.

Lemma truthy_not_nullish (v : value) :
  truthy v = true -> v <> VUndefined /\ v <> VNull.
Proof. by destruct v. Qed.

(** The code's test on the trimmed text and the specification's test on the
    left-trimmed text are one test. *)
Lemma looks_like_object_trimStart (s : string) :
  looks_like_object s = startsWith (trimStart s) "{".
Proof. apply startsWith_trim. Qed.

Lemma parse_outer_non_string (v : value) :
  is_string v = false -> parse_outer v = v.
Proof. by destruct v. Qed.

Lemma parse_outer_plain (s : string) :
  looks_like_object s = false -> parse_outer (VStr s) = VStr s.
Proof. simpl. by intros ->. Qed.

Lemma parse_outer_parsed (s : string) (v : value) :
  looks_like_object s = true -> JSON_parse s = Normal v ->
  parse_outer (VStr s) = v.
Proof. simpl. by intros -> ->. Qed.

Lemma parse_outer_failed (s : string) (e : js_error) :
  JSON_parse s = Throw e -> parse_outer (VStr s) = VStr s.
Proof. simpl. intros ->. by destruct (looks_like_object s). Qed.

(** After the first block the value is the payload itself or a plain
    object that [JSON.parse] made of it. *)
Lemma parse_outer_cases (payload : value) :
  parse_outer payload = payload
  \/ exists s props, payload = VStr s /\ looks_like_object s = true
       /\ JSON_parse s = Normal (VObj props) /\ parse_outer payload = VObj props.
Proof.
  destruct payload as [| | | |s| |]; try by left.
  destruct (looks_like_object s) eqn:El; [|left; by apply parse_outer_plain].
  destruct (JSON_parse s) as [v|e] eqn:Ep; [|left; by eapply parse_outer_failed].
  pose proof (parse_brace s v El Ep) as Hv.
  destruct v as [| | | | | |props]; try done.
  right. exists s, props. by rewrite (parse_outer_parsed _ _ El Ep).
Qed.

Lemma handle_response_primitive (v : value) :
  is_object v = false -> handle_response v = Normal (VStr (to_string v)).
Proof. unfold handle_response. by intros ->. Qed.

Lemma handle_response_message (v : value) :
  is_object v = true -> truthy (prop_of "message" v) = true ->
  handle_response v = Normal (prop_of "message" v).
Proof.
  intros Ho Hm. unfold handle_response.
  rewrite Ho, (get_field_object _ Message Ho). simpl. by rewrite Hm.
Qed.

Lemma handle_response_response (v : value) :
  is_object v = true -> truthy (prop_of "message" v) = false ->
  truthy (prop_of "response" v) = true ->
  handle_response v = unwrap_inner (prop_of "response" v).
Proof.
  intros Ho Hm Hr. unfold handle_response.
  rewrite Ho, !(get_field_object _ _ Ho). simpl. by rewrite Hm, Hr.
Qed.

Lemma handle_response_fallback (v : value) :
  is_object v = true -> truthy (prop_of "message" v) = false ->
  truthy (prop_of "response" v) = false ->
  handle_response v = Normal (JSON_stringify v).
Proof.
  intros Ho Hm Hr. unfold handle_response.
  rewrite Ho, !(get_field_object _ _ Ho). simpl. by rewrite Hm, Hr.
Qed.

(** The inner pass on a string: the [message] of the object it parses to,
    when that is truthy, and the string itself in every other case. *)
Lemma unwrap_inner_string (s : string) :
  unwrap_inner (VStr s) =
  Normal (if looks_like_object s
          then match JSON_parse s with
               | Normal v =>
                   if truthy (prop_of "message" v) then prop_of "message" v
                   else VStr s
               | Throw _ => VStr s
               end
          else VStr s).
Proof.
  simpl. destruct (looks_like_object s) eqn:El; [|done].
  destruct (JSON_parse s) as [v|e] eqn:Ep; [|done].
  pose proof (parse_brace s v El Ep) as Hv.
  by destruct v.
Qed.

Lemma unwrap_inner_object (v : value) :
  is_object v = true ->
  unwrap_inner v =
  Normal (if truthy (prop_of "message" v) then prop_of "message" v else v).
Proof. by destruct v. Qed.

Lemma unwrap_inner_primitive (v : value) :
  typeof v <> TObject -> is_string v = false -> unwrap_inner v = Normal v.
Proof. by destruct v. Qed.

(** The read outside the [try] is safe because line 143 has tested the
    value: a truthy value is neither [null] nor [undefined]. *)
Lemma unwrap_inner_truthy (v : value) :
  truthy v = true -> exists w, unwrap_inner v = Normal w.
Proof.
  intros Ht. destruct v; try done; try by eexists.
  all: rewrite unwrap_inner_object by done; by eexists.
Qed.

End normalizer_facts.

(** ** Theorems *)

Section normalizer_theorems.
Context `{JP : JsonPlatform}.

Lemma handle_response_total (v : value) : exists w, handle_response v = Normal w.
Proof.
  destruct (is_object v) eqn:Ho; [|rewrite handle_response_primitive; eauto].
  destruct (truthy (prop_of "message" v)) eqn:Hm;
    [rewrite handle_response_message; eauto|].
  destruct (truthy (prop_of "response" v)) eqn:Hr;
    [|rewrite handle_response_fallback; eauto].
  rewrite handle_response_response by done. by apply unwrap_inner_truthy.
Qed.

(** C1: normalisation never fails: for every payload, whatever its shape,
    the block of lines 123-169 completes normally with a value for
    [botText].  Malformed JSON and unexpected shapes degrade to the literal
    or the stringified payload. *)
Theorem normalize_total (payload : value) :
  exists botText, normalize payload = Normal botText.
Proof. apply handle_response_total. Qed.

(** A string payload that does not look like an object is displayed as
    it is. *)
Theorem normalize_plain_string (s : string) :
  looks_like_object s = false -> normalize (VStr s) = Normal (VStr s).
Proof.
  intros Hl. unfold normalize. rewrite parse_outer_plain by done.
  by apply handle_response_primitive.
Qed.

(** A string payload that [JSON.parse] rejects is displayed as the
    literal text: the parse error is swallowed by the [catch] of line 134
    and never reaches the user. *)
Theorem normalize_malformed (s : string) (e : js_error) :
  JSON_parse s = Throw e -> normalize (VStr s) = Normal (VStr s).
Proof.
  intros Hp. unfold normalize. rewrite (parse_outer_failed _ _ Hp).
  by apply handle_response_primitive.
Qed.

(** A string payload that parses is handled as the object it denotes:
    the text and the object have the same display value. *)
Theorem normalize_parsed (s : string) (v : value) :
  looks_like_object s = true -> JSON_parse s = Normal v ->
  normalize (VStr s) = normalize v.
Proof.
  intros Hl Hp. unfold normalize. rewrite (parse_outer_parsed _ _ Hl Hp).
  pose proof (parse_brace s v Hl Hp) as Hv.
  by rewrite (parse_outer_non_string v) by by destruct v.
Qed.

(** An object whose [message] is truthy is displayed as that value,
    whatever else it holds and whatever the type of the value. *)
Theorem normalize_message (props : list (string * value)) :
  truthy (lookup_prop "message" props) = true ->
  normalize (VObj props) = Normal (lookup_prop "message" props).
Proof. intros Hm. by apply (handle_response_message (VObj props)). Qed.

(** An object with neither a truthy [message] nor a truthy [response]
    is displayed as its JSON text. *)
Theorem normalize_fallback (props : list (string * value)) :
  truthy (lookup_prop "message" props) = false ->
  truthy (lookup_prop "response" props) = false ->
  normalize (VObj props) = Normal (JSON_stringify (VObj props)).
Proof. intros Hm Hr. by apply (handle_response_fallback (VObj props)). Qed.

(** A payload that is neither a string nor an object (a number, a
    boolean, [null], or [undefined] when the reply has no [response]) is
    displayed through [String]. *)
Theorem normalize_primitive (payload : value) :
  is_string payload = false -> is_object payload = false ->
  normalize payload = Normal (VStr (to_string payload)).
Proof.
  intros Hs Ho. unfold normalize. rewrite parse_outer_non_string by done.
  by apply handle_response_primitive.
Qed.

Lemma spec_step1_parse_outer (payload : value) :
  spec_step1 payload = parse_outer payload.
Proof.
  destruct payload as [| | | |s| |]; try done. simpl.
  rewrite <- looks_like_object_trimStart.
  destruct (looks_like_object s); [|done]. by destruct (JSON_parse s).
Qed.

Lemma is_string_to_string (v : value) :
  is_string v = true -> v = VStr (to_string v).
Proof. by destruct v. Qed.

Lemma field_ok_cases (k : string) (v : value) :
  field_ok k v = true ->
  (has_prop k v = false /\ truthy (prop_of k v) = false)
  \/ (has_prop k v = true /\ plain_text (prop_of k v) = true).
Proof.
  unfold field_ok. destruct (has_prop k v) eqn:E; simpl; intros H.
  - by right.
  - left. by rewrite prop_of_absent.
Qed.

Lemma unwrap_inner_spec (c : value) :
  inner_ok c = true -> unwrap_inner c = Normal (VStr (to_string (spec_unwrap c))).
Proof.
  destruct c as [| | | |s| |]; try done. intros H.
  apply andb_true_iff in H as [H Hp]. apply andb_true_iff in H as [_ Hs].
  apply bool_decide_eq_true in Hs.
  rewrite unwrap_inner_string. unfold spec_unwrap.
  assert (startsWith s "{" = looks_like_object s) as ->
    by by rewrite looks_like_object_trimStart, Hs.
  destruct (looks_like_object s); [|done]. simpl in Hp.
  destruct (JSON_parse s) as [v|]; [|done].
  destruct (field_ok_cases _ _ Hp) as [[-> ->]|[-> Hpt]]; [done|].
  by rewrite (plain_text_truthy _ Hpt), <- (plain_text_string _ Hpt).
Qed.

Lemma inner_ok_truthy (c : value) : inner_ok c = true -> truthy c = true.
Proof.
  destruct c; try done. simpl. by destruct (bool_decide (s = "")).
Qed.

Lemma handle_response_spec (v : value) :
  negb (is_object v) || object_ok v = true ->
  handle_response v = Normal (VStr (to_string (spec_step2 v))).
Proof.
  unfold spec_step2. destruct (is_object v) eqn:Ho; simpl;
    [|intros _; by apply handle_response_primitive].
  intros [Hm H]%andb_true_iff.
  destruct (field_ok_cases _ _ Hm) as [[Hh Ht]|[Hh Hpt]]; rewrite Hh in *.
  - simpl in H. destruct (has_prop "response" v) eqn:Hr; simpl in H.
    + rewrite handle_response_response by eauto using inner_ok_truthy.
      by rewrite unwrap_inner_spec.
    + rewrite handle_response_fallback; try done; [|by rewrite prop_of_absent].
      by rewrite <- is_string_to_string by by apply stringify_object.
  - rewrite handle_response_message by by auto using plain_text_truthy.
    by rewrite <- (plain_text_string _ Hpt).
Qed.

(** C2: on the payloads the server is expected to send, the source
    implements the written specification: [normalize] completes with the
    string that the algorithm of section 4.1 computes. *)
Theorem normalize_refines_spec (payload : value) :
  well_shaped payload = true ->
  normalize payload = Normal (VStr (spec_normalize payload)).
Proof.
  unfold well_shaped, normalize, spec_normalize.
  rewrite spec_step1_parse_outer. apply handle_response_spec.
Qed.

End normalizer_theorems.

(** ** Where the source and the written specification part *)

Section normalizer_divergence.
Context `{JP : JsonPlatform}.

(** The inner pass is one level deep: when the text under [response]
    parses to an object with no truthy [message], the text itself is the
    result; a [response] property of that inner object is never read. *)
Theorem unwrap_inner_one_level (s : string) (v : value) :
  looks_like_object s = true -> JSON_parse s = Normal v ->
  truthy (prop_of "message" v) = false ->
  unwrap_inner (VStr s) = Normal (VStr s).
Proof. intros Hl Hp Hm. by rewrite unwrap_inner_string, Hl, Hp, Hm. Qed.

(** C35: the source tests the value of [message], not its presence: an
    object whose [message] is present and falsy (the empty string, zero,
    [false], [null]) is not displayed as that message, as the
    specification has it, but falls through: to the inner pass on its
    [response] when that is truthy, and to the JSON text of the whole
    object when it is not. *)
Theorem normalize_falsy_message (props : list (string * value)) :
  has_prop "message" (VObj props) = true ->
  truthy (lookup_prop "message" props) = false ->
  normalize (VObj props)
  = (if truthy (lookup_prop "response" props)
     then unwrap_inner (lookup_prop "response" props)
     else Normal (JSON_stringify (VObj props)))
  /\ spec_normalize (VObj props) = to_string (lookup_prop "message" props).
Proof.
  intros Hh Hm. split.
  - destruct (truthy (lookup_prop "response" props)) eqn:Hr;
      [by apply (handle_response_response (VObj props))|by apply normalize_fallback].
  - unfold spec_normalize, spec_step2. simpl in *. by rewrite Hh.
Qed.

(** The source does not convert [botText] to a string: an object whose
    [message] is truthy and not a string (a number, [true], an array, an
    object) is displayed as that very value, which is not the string the
    specification promises. *)
Theorem normalize_not_coerced (props : list (string * value)) :
  truthy (lookup_prop "message" props) = true ->
  is_string (lookup_prop "message" props) = false ->
  exists botText, normalize (VObj props) = Normal botText
    /\ is_string botText = false
    /\ botText <> VStr (spec_normalize (VObj props)).
Proof.
  intros Hm Hs. eexists. split; [by apply normalize_message|].
  split; [done|]. by destruct (lookup_prop "message" props).
Qed.

Lemma lookup_prop_wf (k : string) (props : list (string * value)) :
  wf_json (VObj props) = true ->
  lookup_prop k props = VUndefined \/ wf_json (lookup_prop k props) = true.
Proof.
  intros [_ Hall]%wf_json_obj.
  induction Hall as [|[k' x] rest Hx _ IH]; [by left|]. simpl.
  case_bool_decide; [by right|done].
Qed.

Lemma prop_of_truthy_wf (k : string) (v : value) :
  wf_json v = true -> truthy (prop_of k v) = true -> wf_json (prop_of k v) = true.
Proof.
  destruct v; try done. intros Hw Ht. simpl in *.
  destruct (lookup_prop_wf k props Hw) as [E|]; [|done]. by rewrite E in Ht.
Qed.

Lemma unwrap_inner_wf (c w : value) :
  wf_json c = true -> unwrap_inner c = Normal w -> wf_json w = true.
Proof.
  intros Hc.
  assert (Hobj : is_object c = true -> unwrap_inner c = Normal w -> wf_json w = true).
  { intros Ho. rewrite unwrap_inner_object by done. intros [= <-].
    destruct (truthy (prop_of "message" c)) eqn:Ht; [|done].
    by apply prop_of_truthy_wf. }
  destruct c as [| | | |s| |]; try done; try (by intros [= <-]); try by apply Hobj.
  rewrite unwrap_inner_string. intros [= <-].
  destruct (looks_like_object s); [|done].
  destruct (JSON_parse s) as [v|] eqn:Ep; [|done].
  destruct (truthy (prop_of "message" v)) eqn:Ht; [|done].
  apply prop_of_truthy_wf; [|done]. by eapply parse_wf.
Qed.

Lemma handle_response_wf (v w : value) :
  wf_json v = true -> handle_response v = Normal w -> wf_json w = true.
Proof.
  intros Hv. destruct (is_object v) eqn:Ho;
    [|rewrite handle_response_primitive by done; by intros [= <-]].
  destruct (truthy (prop_of "message" v)) eqn:Hm.
  { rewrite handle_response_message by done. intros [= <-].
    by apply prop_of_truthy_wf. }
  destruct (truthy (prop_of "response" v)) eqn:Hr.
  - rewrite handle_response_response by done.
    apply unwrap_inner_wf. by apply prop_of_truthy_wf.
  - rewrite handle_response_fallback by done. intros [= <-].
    pose proof (stringify_object v Ho). by destruct (JSON_stringify v).
Qed.

(** The value displayed for a JSON payload is a JSON value: no
    [undefined] reaches the message log through a reply, and a missing
    [response] is displayed as the text "undefined". *)
Theorem normalize_wf (payload botText : value) :
  wf_json payload = true \/ payload = VUndefined ->
  normalize payload = Normal botText -> wf_json botText = true.
Proof.
  intros [Hw| ->]; [|by intros [= <-]]. unfold normalize.
  destruct (parse_outer_cases payload) as [->|(s & props & -> & Hl & Hp & ->)].
  - by apply handle_response_wf.
  - apply handle_response_wf. by eapply parse_wf.
Qed.

End normalizer_divergence.

(** ** Examples on the reference platform *)

(** The examples of the specification (section 8, item 2): a
    [message], a [message] inside a JSON text under [response], a plain
    [response], an object with neither, plain text and the empty string. *)
Theorem normalize_examples :
  normalize (VStr (jq "{'message':'hi'}")) = Normal (VStr "hi")
  /\ normalize (VStr (jq "{'response':'{\'message\':\'ok\'}'}")) = Normal (VStr "ok")
  /\ normalize (VStr (jq "{'response':'plain'}")) = Normal (VStr "plain")
  /\ normalize (VStr (jq "{'foo':'bar'}")) = Normal (VStr (jq "{'foo':'bar'}"))
  /\ normalize (VStr "just text") = Normal (VStr "just text")
  /\ normalize (VStr "") = Normal (VStr "").
Proof. vm_compute. by repeat split. Qed.

Lemma normalize_plain_string_witness :
  normalize (VStr "just text") = Normal (VStr "just text").
Proof. by apply (normalize_plain_string (JP:=RefJson)). Defined.

Lemma normalize_malformed_witness :
  normalize (VStr "{broken") = Normal (VStr "{broken").
Proof. by apply (normalize_malformed (JP:=RefJson) _ SyntaxError). Defined.

Lemma normalize_parsed_witness :
  normalize (VStr (jq " {'message':'hi'} ")) = normalize (VObj [("message", VStr "hi")]).
Proof. by apply (normalize_parsed (JP:=RefJson)). Defined.

Lemma normalize_message_witness :
  normalize (VObj [("response", VStr "x"); ("message", VArr [VNum 1])])
  = Normal (VArr [VNum 1]).
Proof. by apply (normalize_message (JP:=RefJson)). Defined.

Lemma normalize_fallback_witness :
  normalize (VObj [("foo", VStr "bar"); ("response", VNum 0)])
  = Normal (VStr (jq "{'foo':'bar','response':0}")).
Proof. by apply (normalize_fallback (JP:=RefJson)). Defined.

Lemma normalize_primitive_witness :
  normalize VUndefined = Normal (VStr "undefined")
  /\ normalize (VNum (-12)) = Normal (VStr "-12").
Proof. split; by apply (normalize_primitive (JP:=RefJson)). Defined.

Lemma normalize_refines_spec_witness :
  normalize (VStr (jq "{'response':'{\'message\':\'ok\'}'}"))
  = Normal (VStr (spec_normalize (VStr (jq "{'response':'{\'message\':\'ok\'}'}")))).
Proof. by apply (normalize_refines_spec (JP:=RefJson)). Defined.

Lemma unwrap_inner_one_level_witness :
  unwrap_inner (VStr (jq "{'response':'{\'message\':\'deep\'}'}"))
  = Normal (VStr (jq "{'response':'{\'message\':\'deep\'}'}")).
Proof.
  by apply (unwrap_inner_one_level (JP:=RefJson) _
              (VObj [("response", VStr (jq "{'message':'deep'}"))])).
Defined.

Lemma normalize_falsy_message_witness :
  normalize (VObj [("message", VStr "")]) = Normal (VStr (jq "{'message':''}"))
  /\ spec_normalize (VObj [("message", VStr "")]) = "".
Proof. by apply (normalize_falsy_message (JP:=RefJson)). Defined.

Lemma normalize_not_coerced_witness :
  exists botText, normalize (VObj [("message", VNum 5)]) = Normal botText
    /\ is_string botText = false
    /\ botText <> VStr (spec_normalize (VObj [("message", VNum 5)])).
Proof. by apply (normalize_not_coerced (JP:=RefJson)). Defined.

Lemma normalize_wf_witness :
  wf_json (VStr (jq "{'message':[1,{'a':null}]}")) = true
  /\ wf_json (VArr [VNum 1; VObj [("a", VNull)]]) = true.
Proof.
  split; [done|].
  by apply (normalize_wf (JP:=RefJson) (VStr (jq "{'message':[1,{'a':null}]}"))); [left|].
Defined.
