(* ===== verification/JsonRoundTrip.v ===== *)
(** * JSON round trip

    The reference printer and the reference parser of [Json] are inverse on
    the values JavaScript can print and read back: [JSON.parse] of
    [JSON.stringify v] is [v] for every value without [undefined] whose
    objects keep their properties in ECMAScript's order.  The file proves
    it layer by layer (integers, string literals with their escapes, arrays
    and objects by induction on the value) and derives what it means for
    the component: a payload that is the JSON text of an object is
    normalised as the object itself. *)

From Stdlib Require Import Ascii String ZArith Lia DecimalString DecimalPos DecimalFacts.
From stdpp Require Import base tactics option list strings.
From S2P Require Import Prelude JsString JsValue Json Normalizer.

Set Default Proof Using "Type".

(** ** Numbers *)

(** What may follow a value inside a JSON text: the end, a comma, or a
    closing bracket or brace. *)
Definition delimited (rest : string) : bool :=
  match rest with
  | EmptyString => true
  | String c _ => byte_is 44 c || byte_is 93 c || byte_is 125 c
  end.

Lemma digits_val_acc (d : Decimal.uint) (acc : positive) :
  digits_val (Z.pos acc) (NilEmpty.string_of_uint d) = Z.pos (Pos.of_uint_acc d acc).
Proof.
  revert acc. induction d; intros acc; simpl; [done|..];
    (etrans; [|apply IHd]); f_equal; unfold digit_val; simpl; lia.
Qed.

Lemma digits_val_uint (d : Decimal.uint) :
  digits_val 0 (NilEmpty.string_of_uint d) = Z.of_N (Pos.of_uint d).
Proof. induction d; simpl; [done|done|..]; apply digits_val_acc. Qed.

Lemma take_digits_uint (d : Decimal.uint) (rest : string) :
  delimited rest = true ->
  take_digits (NilEmpty.string_of_uint d +:+ rest) = (NilEmpty.string_of_uint d, rest).
Proof.
  intros Hr. induction d; simpl; rewrite ?IHd; try done.
  destruct rest as [|c r]; [done|]. simpl in *.
  destruct (is_digit c) eqn:Ed; [|done]. exfalso.
  unfold is_digit, byte_is in *.
  destruct (N_of_ascii c) as [|p]; [done|].
  repeat (apply orb_prop in Hr as [Hr|Hr]); apply N.eqb_eq in Hr; by simplify_eq.
Qed.

Lemma nzhead_head (d : Decimal.uint) :
  match Decimal.nzhead d with Decimal.D0 _ => False | _ => True end.
Proof. by induction d. Qed.

Lemma valid_int_digits_unorm (d : Decimal.uint) :
  valid_int_digits (NilEmpty.string_of_uint (Decimal.unorm d)) = true.
Proof.
  unfold Decimal.unorm. pose proof (nzhead_head d) as H.
  destruct (Decimal.nzhead d) as [|u|u|u|u|u|u|u|u|u|u]; try done; by destruct u.
Qed.

Lemma to_uint_unorm (p : positive) : Decimal.unorm (Pos.to_uint p) = Pos.to_uint p.
Proof. by rewrite <- (DecimalPos.Unsigned.to_of (Pos.to_uint p)), DecimalPos.Unsigned.of_to. Qed.

Lemma delimited_not_frac (rest : string) :
  delimited rest = true -> starts_frac_or_exp rest = false.
Proof.
  destruct rest as [|c r]; [done|]. simpl. unfold byte_is.
  intros Hr. repeat (apply orb_prop in Hr as [Hr|Hr]); apply N.eqb_eq in Hr; by rewrite Hr.
Qed.

Lemma parse_unsigned_uint (d : Decimal.uint) (rest : string) :
  delimited rest = true -> Decimal.unorm d = d ->
  parse_unsigned (NilEmpty.string_of_uint d +:+ rest) = POk (Z.of_N (Pos.of_uint d)) rest.
Proof.
  intros Hr Hd. unfold parse_unsigned. rewrite take_digits_uint by done.
  by rewrite <- Hd at 1; rewrite valid_int_digits_unorm, delimited_not_frac, digits_val_uint.
Qed.

Lemma parse_number_uint (d : Decimal.uint) (rest : string) :
  d <> Decimal.Nil ->
  parse_number (NilEmpty.string_of_uint d +:+ rest)
  = parse_unsigned (NilEmpty.string_of_uint d +:+ rest).
Proof. by destruct d. Qed.

Lemma parse_number_Z (n : Z) (rest : string) :
  delimited rest = true -> parse_number (Z_to_string n +:+ rest) = POk n rest.
Proof.
  intros Hr. unfold Z_to_string. destruct n as [|p|p]; simpl.
  - by rewrite (parse_unsigned_uint (Decimal.D0 Decimal.Nil)).
  - rewrite parse_number_uint by apply Unsigned.to_uint_nonnil.
    rewrite parse_unsigned_uint by (done || apply to_uint_unorm).
    by rewrite DecimalPos.Unsigned.of_to.
  - rewrite parse_unsigned_uint by (done || apply to_uint_unorm).
    by rewrite DecimalPos.Unsigned.of_to.
Qed.

(** ** Strings *)

(** The unit the parser reads back for the escape of one byte. *)
Definition unit_of (c : ascii) : unit16 :=
  match escape_byte c with
  | String _ (String "u" _) => UEsc (N_of_ascii c)
  | _ => UByte c
  end.

Lemma parse_units_escape_byte (c : ascii) (r : string) :
  parse_units (escape_byte c +:+ r) = pmap (cons (unit_of c)) (parse_units r).
Proof. destruct c as [[] [] [] [] [] [] [] []]; reflexivity. Qed.

Lemma encode_units_unit_of (c : ascii) (us : list unit16) :
  encode_units (unit_of c :: us) = String c (encode_units us).
Proof.
  destruct c as [[] [] [] [] [] [] [] []]; try reflexivity;
    by destruct us as [|[] us].
Qed.

Lemma parse_str_escape (s rest : string) :
  parse_str (escape s +:+ String dquote rest) = POk s rest.
Proof.
  unfold parse_str.
  enough (exists us, parse_units (escape s +:+ String dquote rest) = POk us rest
                     /\ encode_units us = s) as (us & -> & Hus) by (by simpl; rewrite Hus).
  induction s as [|c s (us & IH & Hus)]; [by exists []|].
  exists (unit_of c :: us).
  change (escape (String c s)) with (escape_byte c +:+ escape s).
  by rewrite string_app_assoc, parse_units_escape_byte, IH, encode_units_unit_of, Hus.
Qed.

Lemma parse_str_quote (s rest : string) :
  quote s +:+ rest = String dquote (escape s +:+ String dquote rest).
Proof. unfold quote. by rewrite string_app_cons, string_app_assoc. Qed.

(** ** The first byte of a JSON text *)

(** The bytes a printed value starts with. *)
Definition is_start (c : ascii) : bool :=
  is_digit c || byte_is 45 c || byte_is 123 c || byte_is 91 c || byte_is 34 c
  || byte_is 116 c || byte_is 102 c || byte_is 110 c.

Definition starts (s : string) : bool :=
  match s with
  | String c _ => is_start c
  | EmptyString => false
  end.

Lemma uint_starts (d : Decimal.uint) (rest : string) :
  d <> Decimal.Nil -> starts (NilEmpty.string_of_uint d +:+ rest) = true.
Proof. by destruct d. Qed.

Lemma Z_to_string_starts (n : Z) (rest : string) :
  starts (Z_to_string n +:+ rest) = true
  /\ match Z_to_string n +:+ rest with
     | String c _ => is_digit c || byte_is 45 c
     | EmptyString => false
     end = true.
Proof.
  unfold Z_to_string. destruct n as [|p|p]; simpl; [done| |done].
  pose proof (Unsigned.to_uint_nonnil p). by destruct (Pos.to_uint p).
Qed.

Lemma stringify_starts (v : value) (rest : string) :
  starts (stringify_value v +:+ rest) = true.
Proof.
  destruct v as [| |[]|n|s|items|props]; try done.
  apply Z_to_string_starts.
Qed.

(** ** The equations of the parser on printed text *)

Lemma parse_value_number (fuel : nat) (c : ascii) (r : string) :
  is_digit c || byte_is 45 c = true ->
  parse_value (S fuel) (String c r) = pmap VNum (parse_number (String c r)).
Proof. destruct c as [[] [] [] [] [] [] [] []]; try done; reflexivity. Qed.

Lemma parse_value_string (fuel : nat) (r : string) :
  parse_value (S fuel) (String dquote r) = pmap VStr (parse_str r).
Proof. reflexivity. Qed.

Lemma parse_value_array (fuel : nat) (s : string) :
  starts s = true ->
  parse_value (S fuel) (String "[" s) = parse_elements fuel s [].
Proof.
  destruct s as [|c r]; [done|]. simpl.
  destruct c as [[] [] [] [] [] [] [] []]; try done; reflexivity.
Qed.

Lemma parse_value_object (fuel : nat) (r : string) :
  parse_value (S fuel) (String "{" (String dquote r))
  = parse_members fuel (String dquote r) [].
Proof. reflexivity. Qed.

Lemma parse_elements_S (fuel : nat) (s : string) (acc : list value) :
  parse_elements (S fuel) s acc
  = match parse_value fuel s with
    | POk v r =>
        match expect "," (skip_ws r) with
        | Some r' => parse_elements fuel r' (v :: acc)
        | None =>
            match expect "]" (skip_ws r) with
            | Some r' => POk (VArr (rev (v :: acc))) r'
            | None => PErr
            end
        end
    | PErr => PErr
    | PFuel => PFuel
    end.
Proof. reflexivity. Qed.

Lemma parse_members_S (fuel : nat) (k r2 : string) (acc : list (string * value)) :
  parse_members (S fuel) (quote k +:+ String ":" r2) acc
  = match parse_value fuel r2 with
    | POk v r3 =>
        match expect "," (skip_ws r3) with
        | Some r4 => parse_members fuel r4 (obj_set k v acc)
        | None =>
            match expect "}" (skip_ws r3) with
            | Some r4 => POk (VObj (obj_set k v acc)) r4
            | None => PErr
            end
        end
    | PErr => PErr
    | PFuel => PFuel
    end.
Proof.
  rewrite parse_str_quote.
  change (parse_members (S fuel) (String dquote ?x) acc) with
    (match parse_str x with
     | POk k r1 =>
         match expect ":" (skip_ws r1) with
         | None => PErr
         | Some r2 =>
             match parse_value fuel r2 with
             | POk v r3 =>
                 match expect "," (skip_ws r3) with
                 | Some r4 => parse_members fuel r4 (obj_set k v acc)
                 | None =>
                     match expect "}" (skip_ws r3) with
                     | Some r4 => POk (VObj (obj_set k v acc)) r4
                     | None => PErr
                     end
                 end
             | PErr => PErr
             | PFuel => PFuel
             end
         end
     | PErr => PErr
     | PFuel => PFuel
     end).
  by rewrite parse_str_escape.
Qed.

(** ** Values *)

(** The values [JSON.stringify] prints and [JSON.parse] reads back:
    no [undefined], and the properties of every object in the order in
    which ECMAScript keeps them (array indices first, in ascending order,
    then the other keys in the order of their creation, none twice):
    the order in which defining them one by one leaves them. *)
Definition define_all (props : list (string * value)) : list (string * value) :=
  foldl (fun acc kv => obj_set kv.1 kv.2 acc) [] props.

Fixpoint canonical (v : value) : bool :=
  match v with
  | VUndefined => false
  | VNull | VBool _ | VNum _ | VStr _ => true
  | VArr items => forallb canonical items
  | VObj props =>
      bool_decide (define_all props = props) && forallb (fun kv => canonical kv.2) props
  end.

Definition member_text (kv : string * value) : string :=
  quote kv.1 +:+ String ":" (stringify_value kv.2).

Lemma stringify_members (props : list (string * value)) :
  forallb (fun kv => canonical kv.2) props = true ->
  stringify_value (VObj props) = "{" +:+ join_with "," (member_text <$> props) +:+ "}".
Proof.
  intros H. simpl. do 3 f_equal. induction props as [|[k x] props IH]; [done|].
  simpl in H. apply andb_prop in H as [Hx H]. rewrite fmap_cons, <- IH by done.
  by destruct x.
Qed.

(** [parses v]: the parser reads the text of [v] back, with any fuel from
    some bound on, and stops where the text ends. *)
Definition parses (v : value) : Prop :=
  forall rest, delimited rest = true ->
    exists F, forall fuel, F <= fuel ->
      parse_value fuel (stringify_value v +:+ rest) = POk v rest.

Lemma parses_elements (items : list value) :
  items <> [] -> Forall parses items ->
  forall acc rest, delimited rest = true ->
    exists F, forall fuel, F <= fuel ->
      parse_elements fuel
        (join_with "," (stringify_value <$> items) +:+ String "]" rest) acc
      = POk (VArr (rev acc ++ items)) rest.
Proof.
  intros Hne Hall. induction Hall as [|x items Hx Hall IH]; [done|].
  intros acc rest Hr. destruct items as [|y items].
  - destruct (Hx (String "]" rest) eq_refl) as [F HF].
    exists (S F). intros [|fuel] Hle; [lia|].
    rewrite parse_elements_S. simpl join_with. simpl fmap. rewrite HF by lia. done.
  - destruct (Hx (String "," (join_with "," (stringify_value <$> y :: items)
                              +:+ String "]" rest)) eq_refl) as [F HF].
    destruct (IH ltac:(done) (x :: acc) rest Hr) as [G HG].
    exists (S (F `max` G)). intros [|fuel] Hle; [lia|].
    rewrite parse_elements_S.
    change (join_with "," (stringify_value <$> x :: y :: items))
      with (stringify_value x +:+ "," +:+ join_with "," (stringify_value <$> y :: items)).
    rewrite !string_app_assoc. rewrite HF by lia.
    change (expect "," (skip_ws (String "," ?r))) with (Some r). cbv iota beta.
    rewrite HG by lia. simpl. by rewrite <- app_assoc.
Qed.

Lemma member_text_app (kv : string * value) (rest : string) :
  member_text kv +:+ rest = quote kv.1 +:+ String ":" (stringify_value kv.2 +:+ rest).
Proof. unfold member_text. by rewrite string_app_assoc, string_app_cons. Qed.

Lemma parses_members (props : list (string * value)) :
  props <> [] -> Forall (fun kv => parses kv.2) props ->
  forall acc rest, delimited rest = true ->
    exists F, forall fuel, F <= fuel ->
      parse_members fuel
        (join_with "," (member_text <$> props) +:+ String "}" rest) acc
      = POk (VObj (foldl (fun acc kv => obj_set kv.1 kv.2 acc) acc props)) rest.
Proof.
  intros Hne Hall. induction Hall as [|kv props Hx Hall IH]; [done|].
  intros acc rest Hr. destruct props as [|kv' props].
  - destruct (Hx (String "}" rest) eq_refl) as [F HF].
    exists (S F). intros [|fuel] Hle; [lia|].
    simpl join_with. simpl fmap.
    by rewrite member_text_app, parse_members_S, HF by lia.
  - destruct (Hx (String "," (join_with "," (member_text <$> kv' :: props)
                              +:+ String "}" rest)) eq_refl) as [F HF].
    destruct (IH ltac:(done) (obj_set kv.1 kv.2 acc) rest Hr) as [G HG].
    exists (S (F `max` G)). intros [|fuel] Hle; [lia|].
    change (join_with "," (member_text <$> kv :: kv' :: props))
      with (member_text kv +:+ "," +:+ join_with "," (member_text <$> kv' :: props)).
    rewrite !string_app_assoc, member_text_app, parse_members_S, HF by lia.
    change (expect "," (skip_ws (String "," ?r))) with (Some r). cbv iota beta.
    by rewrite HG by lia.
Qed.

Lemma join_starts (f : string) (l : list string) (rest : string) :
  (forall r, starts (f +:+ r) = true) ->
  starts (join_with "," (f :: l) +:+ rest) = true.
Proof.
  intros Hf. destruct l as [|g l]; [apply Hf|].
  change (join_with "," (f :: g :: l)) with (f +:+ "," +:+ join_with "," (g :: l)).
  rewrite string_app_assoc. apply Hf.
Qed.

Lemma canonical_items (items : list value) :
  Forall (fun v => canonical v = true -> parses v) items ->
  forallb canonical items = true -> Forall parses items.
Proof.
  induction 1 as [|x items Hx Hall IH]; simpl; [done|].
  intros [? ?]%andb_prop. constructor; auto.
Qed.

Lemma canonical_props (props : list (string * value)) :
  Forall (fun kv => canonical kv.2 = true -> parses kv.2) props ->
  forallb (fun kv => canonical kv.2) props = true ->
  Forall (fun kv => parses kv.2) props.
Proof.
  induction 1 as [|x items Hx Hall IH]; simpl; [done|].
  intros [? ?]%andb_prop. constructor; auto.
Qed.

Lemma parses_array (items : list value) :
  Forall parses items -> parses (VArr items).
Proof.
  intros Hall rest Hr. destruct items as [|x items].
  { exists 1. by intros [|fuel] Hle; [lia|]. }
  destruct (parses_elements (x :: items) ltac:(done) Hall [] rest Hr) as [F HF].
  exists (S F). intros [|fuel] Hle; [lia|].
  change (stringify_value (VArr (x :: items)) +:+ rest)
    with (String "[" ((join_with "," (stringify_value <$> x :: items) +:+ "]") +:+ rest)).
  rewrite string_app_assoc. change ("]" +:+ rest) with (String "]" rest).
  rewrite parse_value_array by (apply join_starts, stringify_starts).
  by rewrite HF by lia.
Qed.

Lemma parses_object (props : list (string * value)) :
  define_all props = props -> forallb (fun kv => canonical kv.2) props = true ->
  Forall (fun kv => parses kv.2) props -> parses (VObj props).
Proof.
  intros Hdef Hcan Hall rest Hr. destruct props as [|kv props].
  { exists 1. by intros [|fuel] Hle; [lia|]. }
  destruct (parses_members (kv :: props) ltac:(done) Hall [] rest Hr) as [F HF].
  exists (S F). intros [|fuel] Hle; [lia|].
  rewrite stringify_members by done.
  change (("{" +:+ ?j +:+ "}") +:+ rest) with (String "{" ((j +:+ "}") +:+ rest)).
  rewrite string_app_assoc.
  assert (exists r, join_with "," (member_text <$> kv :: props) +:+ String "}" rest
                    = String dquote r) as [r Er].
  { destruct props as [|kv' props]; simpl join_with; simpl fmap.
    - rewrite member_text_app, parse_str_quote. eauto.
    - rewrite string_app_assoc, member_text_app, parse_str_quote. eauto. }
  change ("}" +:+ rest) with (String "}" rest).
  rewrite Er, parse_value_object, <- Er, HF by lia. by rewrite <- Hdef at 2.
Qed.

Lemma canonical_parses (v : value) : canonical v = true -> parses v.
Proof.
  induction v as [| |b|n|s|items IH|props IH] using value_ind'; intros Hc.
  - done.
  - intros rest Hr. exists 1. by intros [|fuel] Hle; [lia|].
  - intros rest Hr. exists 1. by intros [|fuel] Hle; [lia|]; destruct b.
  - intros rest Hr. exists 1. intros [|fuel] Hle; [lia|]. simpl stringify_value.
    pose proof (Z_to_string_starts n rest) as [_ Hs].
    destruct (Z_to_string n +:+ rest) as [|c r] eqn:E; [done|].
    by rewrite parse_value_number, <- E, parse_number_Z.
  - intros rest Hr. exists 1. intros [|fuel] Hle; [lia|]. simpl stringify_value.
    by rewrite parse_str_quote, parse_value_string, parse_str_escape.
  - by apply parses_array, canonical_items.
  - simpl in Hc. apply andb_prop in Hc as [Hd%bool_decide_eq_true Hc].
    by apply parses_object; [..|apply canonical_props].
Qed.

Lemma parse_stringify_value (v : value) :
  canonical v = true -> ref_parse (stringify_value v) = Normal v.
Proof.
  intros Hc. destruct (canonical_parses v Hc "" eq_refl) as [F HF].
  rewrite string_app_nil_r in HF. unfold ref_parse.
  pose proof (ref_parse_fuel (stringify_value v)) as Hne.
  pose proof (proj1 (parse_fuel_stable _) _ (F `max` parse_fuel (stringify_value v)) Hne
                ltac:(lia)) as Hst.
  rewrite HF in Hst by lia. by rewrite <- Hst.
Qed.

(** ** Objects in the order of their creation *)

(** Properties with distinct keys, none of them an array index, are kept
    in the order in which they are defined. *)
Lemma define_all_app (props acc : list (string * value)) :
  NoDup (acc.*1 ++ props.*1) ->
  Forall (fun kv => is_array_index kv.1 = false) props ->
  foldl (fun acc kv => obj_set kv.1 kv.2 acc) acc props = acc ++ props.
Proof.
  revert acc. induction props as [|[k v] props IH]; intros acc Hnd Hni; simpl.
  { by rewrite app_nil_r. }
  apply Forall_cons in Hni as [Hk Hni]. simpl in Hk.
  assert (k ∉ acc.*1) as Hin.
  { apply NoDup_app in Hnd as (_ & Hd & _). intros Hin. apply (Hd _ Hin). simpl. by left. }
  unfold obj_set at 2. rewrite bool_decide_eq_false_2, Hk by done.
  rewrite IH, <- app_assoc; [done| |done].
  by rewrite fmap_app, <- app_assoc.
Qed.

Lemma define_all_plain (props : list (string * value)) :
  NoDup props.*1 -> Forall (fun kv => is_array_index kv.1 = false) props ->
  define_all props = props.
Proof. intros Hnd Hni. by apply (define_all_app props []). Qed.

(** ** What the round trip means for the component *)

Lemma looks_like_object_brace (r : string) : looks_like_object (String "{" r) = true.
Proof.
  rewrite looks_like_object_trimStart, trimStart_not_ws by done.
  by rewrite startsWith_cons, startsWith_nil.
Qed.

(** The normalisation does not depend on how the server encodes an
    object: a payload that is the JSON text of an object yields the display
    value of the object itself, whatever its fields. *)
Theorem normalize_stringified (props : list (string * value)) :
  canonical (VObj props) = true ->
  normalize (JP := RefJson) (VStr (stringify_value (VObj props)))
  = normalize (JP := RefJson) (VObj props).
Proof.
  intros Hc. unfold normalize. f_equal.
  apply (parse_outer_parsed (JP := RefJson)); [|by apply parse_stringify_value].
  apply looks_like_object_brace.
Qed.

(** C37: the round trip of the reference implementation, and what the
    normaliser makes of it: for a value without [undefined] whose objects
    keep their properties in ECMAScript's order, [JSON.stringify] returns
    a string and [JSON.parse] reads that string back as the value; and when
    the value is an object, the outer pass of the normaliser (lines
    127-137) parses the string, so a server that sends the text of an
    object is displayed as one that sends the object. *)
Theorem ref_parse_stringify (v : value) :
  canonical v = true ->
  exists s,
    ref_stringify v = VStr s /\ ref_parse s = Normal v
    /\ (is_plain_object v = true ->
        parse_outer (JP := RefJson) (VStr s) = v
        /\ normalize (JP := RefJson) (VStr s) = normalize (JP := RefJson) v).
Proof.
  intros Hc. exists (stringify_value v).
  split; [by destruct v|]. split; [by apply parse_stringify_value|].
  destruct v as [| | | | | |props]; try done. intros _.
  split; [|by apply normalize_stringified].
  apply (parse_outer_parsed (JP := RefJson)); [|by apply parse_stringify_value].
  apply looks_like_object_brace.
Qed.

(** ** Witnesses *)

Definition sample_object : value :=
  VObj [("0", VNum (-12)); ("message", VStr ("line" +:+ String (ascii_of_N 10) "two"));
        ("items", VArr [VNull; VBool true; VObj []; VStr "{"])].

Lemma ref_parse_stringify_witness :
  exists s,
    ref_stringify sample_object = VStr s /\ ref_parse s = Normal sample_object
    /\ (is_plain_object sample_object = true ->
        parse_outer (JP := RefJson) (VStr s) = sample_object
        /\ normalize (JP := RefJson) (VStr s) = normalize (JP := RefJson) sample_object).
Proof. apply ref_parse_stringify. by vm_compute. Defined.

Lemma normalize_stringified_witness :
  normalize (JP := RefJson)
    (VStr (stringify_value (VObj [("response", VStr "namaskar"); ("mode", VStr "chat")])))
  = normalize (JP := RefJson) (VObj [("response", VStr "namaskar"); ("mode", VStr "chat")]).
Proof. apply normalize_stringified. by vm_compute. Defined.
