(* ===== verification/Transport.v ===== *)
(** * Transport: the requests ChatService builds

    [ChatService] (chat.service.ts) has two operations.  [sendMessage]
    (lines 18-47) fills a [FormData] and posts it to the chat router;
    [getAudio] (lines 49-53) posts a JSON body to the speech service and
    asks for a blob.  The model keeps what the component hands to the HTTP
    client: the address, the body, and the expected kind of reply.

    The parameters [prevRes] and [prevResMode] are typed [string | null] in
    the source, but the component passes whatever the previous reply made
    of them, so they are [value]s here; [FormData.append] converts a value
    that is no file to a string. *)

From Stdlib Require Import Ascii String ZArith Lia.
From stdpp Require Import base tactics option list strings.
From S2P Require Import Prelude JsString JsValue.

(** ** Data *)

(** A file picked in the browser: its name, and an identity standing for
    its content. *)
Record File : Type := mkFile {
  file_name : string;
  file_id : nat;
}.

#[export] Instance File_eq_dec : EqDecision File.
Proof. solve_decision. Defined.

Inductive form_value : Type :=
| FText (s : string)
| FFile (f : File).

#[export] Instance form_value_eq_dec : EqDecision form_value.
Proof. solve_decision. Defined.

(** A [FormData]: its entries in the order of the [append] calls. *)
Definition FormData : Type := list (string * form_value).

Definition form_append (fd : FormData) (name : string) (v : form_value) : FormData :=
  fd ++ [(name, v)].

(** [FormData.append(name, value)] for a value that is no file. *)
Definition form_append_value (fd : FormData) (name : string) (v : value) : FormData :=
  form_append fd name (FText (to_string v)).

Inductive request_body : Type :=
| BodyForm (fd : FormData)
| BodyJson (v : value).

#[export] Instance request_body_eq_dec : EqDecision request_body.
Proof. solve_decision. Defined.

Inductive response_type : Type :=
| RespJson
| RespBlob.

#[export] Instance response_type_eq_dec : EqDecision response_type.
Proof. solve_decision. Defined.

Record http_request : Type := mkRequest {
  req_url : string;
  req_body : request_body;
  req_response_type : response_type;
}.

#[export] Instance http_request_eq_dec : EqDecision http_request.
Proof. solve_decision. Defined.

(** ** ChatService *)

Definition apiUrl : string := "http://localhost:9015/smart-chat-router-ladki-bahin".

Definition ttsUrl : string := "http://localhost:9015/api/tts".

(** chat.service.ts lines 26-44: the entries of the form. *)
Definition sendMessage_form (message sessionId : string) (prevRes prevResMode : value)
    (file : option File) (docType : value) : FormData :=
  let fd := form_append [] "message" (FText message) in
  let fd := form_append fd "session_id" (FText sessionId) in
  let fd := if truthy prevRes then form_append_value fd "prev_res" prevRes else fd in
  let fd := if truthy prevResMode then form_append_value fd "prev_res_mode" prevResMode else fd in
  let fd := match file with
            | Some f => form_append fd "file" (FFile f)
            | None => fd
            end in
  let fd := if truthy docType then form_append_value fd "doc_type" docType else fd in
  fd.

(** chat.service.ts lines 18-47. *)
Definition sendMessage (message sessionId : string) (prevRes prevResMode : value)
    (file : option File) (docType : value) : http_request :=
  {| req_url := apiUrl;
     req_body := BodyForm (sendMessage_form message sessionId prevRes prevResMode file docType);
     req_response_type := RespJson |}.

(** chat.service.ts lines 49-53. *)
Definition getAudio (text : value) : http_request :=
  {| req_url := ttsUrl;
     req_body := BodyJson (VObj [("text", text)]);
     req_response_type := RespBlob |}.

(** ** Reading a form *)

Definition form_names (fd : FormData) : list string := fd.*1.

Fixpoint form_get (name : string) (fd : FormData) : option form_value :=
  match fd with
  | [] => None
  | (n, v) :: rest => if bool_decide (n = name) then Some v else form_get name rest
  end.

(** The names a chat request may carry, in the order of the source. *)
Definition chat_fields : list string :=
  ["message"; "session_id"; "prev_res"; "prev_res_mode"; "file"; "doc_type"].

(** ** Lemmas *)

Lemma form_names_append fd name v :
  form_names (form_append fd name v) = form_names fd ++ [name].
Proof. unfold form_names, form_append. by rewrite fmap_app. Qed.

Lemma form_get_append_ne fd name name' v :
  name <> name' -> form_get name' (form_append fd name v) = form_get name' fd.
Proof.
  intros Hne. unfold form_append. induction fd as [|[n x] rest IH]; simpl.
  - by rewrite bool_decide_false.
  - by rewrite IH.
Qed.

Lemma form_get_append_fresh fd name v :
  name ∉ form_names fd -> form_get name (form_append fd name v) = Some v.
Proof.
  unfold form_append, form_names. induction fd as [|[n x] rest IH]; simpl.
  - intros _. by rewrite bool_decide_true.
  - intros [Hne Hin]%not_elem_of_cons. rewrite bool_decide_false by done. auto.
Qed.

Lemma form_get_None name fd : form_get name fd = None <-> name ∉ form_names fd.
Proof.
  unfold form_names. induction fd as [|[n x] rest IH]; simpl.
  - split; [intros _; apply not_elem_of_nil|done].
  - rewrite not_elem_of_cons. case_bool_decide as Hn.
    + split; [done|]. by intros [? _].
    + rewrite IH. split; [by split|by intros [_ ?]].
Qed.

(** The names of a chat form: the two constant fields, then each optional
    field when its guard holds. *)
Lemma sendMessage_form_names message sessionId prevRes prevResMode file docType :
  form_names (sendMessage_form message sessionId prevRes prevResMode file docType)
  = ["message"; "session_id"]
    ++ (if truthy prevRes then ["prev_res"] else [])
    ++ (if truthy prevResMode then ["prev_res_mode"] else [])
    ++ (if file is Some _ then ["file"] else [])
    ++ (if truthy docType then ["doc_type"] else []).
Proof.
  unfold sendMessage_form, form_append_value.
  destruct (truthy prevRes), (truthy prevResMode), file, (truthy docType);
    by rewrite ?form_names_append.
Qed.

(** A chat request names each field at most once, and only fields of
    the protocol, in the order of the source. *)
Theorem sendMessage_form_fields message sessionId prevRes prevResMode file docType :
  let fd := sendMessage_form message sessionId prevRes prevResMode file docType in
  NoDup (form_names fd) /\ sublist (form_names fd) chat_fields.
Proof.
  cbv zeta. rewrite sendMessage_form_names. unfold chat_fields.
  destruct (truthy prevRes), (truthy prevResMode), file, (truthy docType);
    simpl; (split; [compute_done|]);
    repeat first [apply sublist_nil | apply sublist_skip | apply sublist_cons].
Qed.

(** Every chat request carries the text of the turn and the session
    identifier, unchanged. *)
Theorem sendMessage_form_required message sessionId prevRes prevResMode file docType :
  let fd := sendMessage_form message sessionId prevRes prevResMode file docType in
  form_get "message" fd = Some (FText message)
  /\ form_get "session_id" fd = Some (FText sessionId).
Proof.
  cbv zeta. unfold sendMessage_form, form_append_value.
  destruct (truthy prevRes), (truthy prevResMode), file, (truthy docType);
    split; reflexivity.
Qed.

(** C9: the previous response travels with the request exactly when it is
    truthy, and as the text [String] makes of it: [null], [undefined] and
    the empty string are left out. *)
Theorem sendMessage_form_prev_res message sessionId prevRes prevResMode file docType :
  form_get "prev_res" (sendMessage_form message sessionId prevRes prevResMode file docType)
  = if truthy prevRes then Some (FText (to_string prevRes)) else None.
Proof.
  unfold sendMessage_form, form_append_value.
  destruct (truthy prevRes), (truthy prevResMode), file, (truthy docType);
    reflexivity.
Qed.

(** The mode of the previous response travels exactly when it is
    truthy. *)
Theorem sendMessage_form_prev_res_mode message sessionId prevRes prevResMode file docType :
  form_get "prev_res_mode"
    (sendMessage_form message sessionId prevRes prevResMode file docType)
  = if truthy prevResMode then Some (FText (to_string prevResMode)) else None.
Proof.
  unfold sendMessage_form, form_append_value.
  destruct (truthy prevRes), (truthy prevResMode), file, (truthy docType);
    reflexivity.
Qed.

(** The file and its document type: the file travels when there is
    one, the document type when it is a non-empty string. *)
Theorem sendMessage_form_file message sessionId prevRes prevResMode file docType :
  let fd := sendMessage_form message sessionId prevRes prevResMode file docType in
  form_get "file" fd = FFile <$> file
  /\ form_get "doc_type" fd
     = if truthy docType then Some (FText (to_string docType)) else None.
Proof.
  cbv zeta. unfold sendMessage_form, form_append_value.
  destruct (truthy prevRes), (truthy prevResMode), file, (truthy docType);
    split; reflexivity.
Qed.

(** The first turn of a session, with no previous response and no
    file, carries the two constant fields and nothing else. *)
Theorem sendMessage_first_turn (message sessionId : string) :
  sendMessage message sessionId VNull VNull None VNull
  = {| req_url := apiUrl;
       req_body := BodyForm [("message", FText message); ("session_id", FText sessionId)];
       req_response_type := RespJson |}.
Proof. reflexivity. Qed.

(** A previous response that is no string reaches the server as the
    text of [String]: an object as "[object Object]". *)
Theorem sendMessage_object_context (message sessionId : string)
    (props : list (string * value)) :
  form_get "prev_res"
    (sendMessage_form message sessionId (VObj props) VNull None VNull)
  = Some (FText "[object Object]").
Proof. reflexivity. Qed.

(** The speech request carries the text under the key [text] and asks
    for a blob. *)
Theorem getAudio_request (text : value) :
  req_url (getAudio text) = ttsUrl
  /\ req_body (getAudio text) = BodyJson (VObj [("text", text)])
  /\ req_response_type (getAudio text) = RespBlob.
Proof. done. Qed.
