(* ===== verification/Format.v ===== *)
(** * Format: formatMessage

    [formatMessage] (login.component.ts lines 253-261) applies two
    replacements to the text of a message: the regular expression
    [/\*\*(.*?)\*\*/g] by [<b>$1</b>], then [/\n/g] by [<br>].

    The first expression is matched as ECMAScript matches it: from left to
    right, at each position two stars, then the shortest run of characters
    that are no line terminators up to the next two stars ([match_group]);
    a match is replaced and the scan goes on after it, a failure copies one
    character and the scan goes on at the next ([replace_bold]).  The scan
    recurses on fuel; the length of the text is enough.

    The scan leaves no match behind, so it is idempotent; formatting is
    idempotent on a text of one line and not on two, where the line break
    tag joins what the newline kept apart.

    [Regex] holds the two expressions as data and proves that this scan
    computes what the matcher of ECMAScript computes on them; [Unicode]
    proves that the scan on the bytes of a text is the scan on its code
    points. *)

From Stdlib Require Import Ascii String NArith ZArith Lia.
From stdpp Require Import base tactics option list strings.
From S2P Require Import Prelude JsString JsValue.

(** ** Definitions *)

Definition newline : string := String (ascii_of_N 10) "".

(** The lazy group [(.*?)] followed by [\*\*]: the group and the text after
    the closing stars. *)
Fixpoint match_group (s : string) : option (string * string) :=
  match strip_prefix "**" s with
  | Some rest => Some ("", rest)
  | None =>
      match s with
      | String c r =>
          if starts_with_lt s then None
          else match match_group r with
               | Some (g, rest) => Some (String c g, rest)
               | None => None
               end
      | EmptyString => None
      end
  end.

(** [match_bold s]: a match of the whole expression at the head of [s]. *)
Definition match_bold (s : string) : option (string * string) :=
  match strip_prefix "**" s with
  | Some after => match_group after
  | None => None
  end.

(** Line 257: [formatted.replace(/\*\*(.*?)\*\*/g, '<b>$1</b>')]. *)
Fixpoint replace_bold (fuel : nat) (s : string) : string :=
  match fuel with
  | 0 => s
  | S fuel' =>
      match s with
      | EmptyString => ""
      | String c r =>
          match match_bold s with
          | Some (g, rest) => "<b>" +:+ g +:+ "</b>" +:+ replace_bold fuel' rest
          | None => String c (replace_bold fuel' r)
          end
      end
  end.

(** The whole scan: the fuel is the length of the text. *)
Definition replace_bold_all (s : string) : string :=
  replace_bold (String.length s) s.

(** Line 259: [formatted.replace(/\n/g, '<br>')]. *)
Fixpoint replace_newlines (s : string) : string :=
  match s with
  | EmptyString => ""
  | String c r =>
      if byte_is 10 c then "<br>" +:+ replace_newlines r
      else String c (replace_newlines r)
  end.

(** Lines 253-261, on a string. *)
Definition formatMessage (text : string) : string :=
  if bool_decide (text = "") then ""
  else replace_newlines (replace_bold_all text).

(** Lines 253-261, on whatever the message log holds: a falsy value gives
    the empty string, and a truthy value that is no string has no [replace]
    method. *)
Definition formatMessage_value (text : value) : completion string :=
  if negb (truthy text) then Normal ""
  else match text with
       | VStr s => Normal (formatMessage s)
       | _ => Throw TypeError
       end.

(** ** Predicates on texts *)

Fixpoint has_byte (n : N) (s : string) : bool :=
  match s with
  | EmptyString => false
  | String c r => byte_is n c || has_byte n r
  end.

(** [has_lt s]: a line terminator occurs in [s]. *)
Fixpoint has_lt (s : string) : bool :=
  match s with
  | EmptyString => false
  | String c r => starts_with_lt s || has_lt r
  end.

(** A byte that continues no three-byte line terminator. *)
Definition plain_byte (d : ascii) : bool :=
  negb (byte_is 128 d || byte_is 168 d || byte_is 169 d).

(** [starts_star s]: the first byte of [s] is a star. *)
Definition starts_star (s : string) : bool :=
  if s is String c _ then bool_decide (c = "*"%char) else false.

(** [bold_free s]: the expression matches at no position of [s]. *)
Fixpoint bold_free (s : string) : bool :=
  match s with
  | EmptyString => true
  | String c r => bool_decide (match_bold s = None) && bold_free r
  end.

(** ** Lemmas *)

Lemma has_byte_app (n : N) (a b : string) :
  has_byte n (a +:+ b) = has_byte n a || has_byte n b.
Proof.
  induction a as [|c a IH]; [done|]. rewrite string_app_cons. simpl.
  by rewrite IH, orb_assoc.
Qed.

Lemma replace_newlines_app (a b : string) :
  replace_newlines (a +:+ b) = replace_newlines a +:+ replace_newlines b.
Proof.
  induction a as [|c a IH]; [done|]. rewrite string_app_cons. simpl.
  destruct (byte_is 10 c); rewrite IH; [|done].
  by rewrite !string_app_cons.
Qed.

Lemma replace_newlines_no_newline (s : string) :
  has_byte 10 (replace_newlines s) = false.
Proof.
  induction s as [|c s IH]; [done|]. simpl.
  destruct (byte_is 10 c) eqn:E; [by rewrite has_byte_app, IH|].
  simpl. by rewrite E.
Qed.

Lemma replace_newlines_id (s : string) :
  has_byte 10 s = false -> replace_newlines s = s.
Proof.
  induction s as [|c s IH]; [done|]. simpl.
  intros [-> Hs]%orb_false_iff. by rewrite IH.
Qed.

(** *** The group *)

Lemma match_group_eq (s : string) :
  match_group s
  = match strip_prefix "**" s with
    | Some rest => Some ("", rest)
    | None =>
        match s with
        | String c r =>
            if starts_with_lt s then None
            else prod_map (String c) id <$> match_group r
        | EmptyString => None
        end
    end.
Proof.
  destruct s as [|c r]; [done|]. cbn [match_group].
  destruct (strip_prefix _ _); [done|]. destruct (starts_with_lt _); [done|].
  by destruct (match_group r) as [[??]|].
Qed.

Lemma match_group_sound (s g rest : string) :
  match_group s = Some (g, rest) -> s = g +:+ "**" +:+ rest.
Proof.
  revert g rest. induction s as [|c s IH]; intros g rest; [done|].
  rewrite match_group_eq. destruct (strip_prefix "**" (String c s)) as [r|] eqn:E.
  - intros [= <- <-]. by apply strip_prefix_Some in E.
  - destruct (starts_with_lt (String c s)); [done|].
    destruct (match_group s) as [[g' rest']|]; [|done].
    intros [= <- <-]. by rewrite (IH _ _ eq_refl).
Qed.

Lemma match_group_length (s g rest : string) :
  match_group s = Some (g, rest) -> String.length rest < String.length s.
Proof.
  intros ->%match_group_sound. autorewrite with js_rw. simpl. lia.
Qed.

Lemma match_bold_sound (s g rest : string) :
  match_bold s = Some (g, rest) -> s = "**" +:+ g +:+ "**" +:+ rest.
Proof.
  unfold match_bold. destruct (strip_prefix "**" s) as [after|] eqn:E; [|done].
  intros ->%match_group_sound. by apply strip_prefix_Some in E.
Qed.

Lemma match_bold_length (s g rest : string) :
  match_bold s = Some (g, rest) -> String.length rest < String.length s.
Proof.
  intros ->%match_bold_sound. autorewrite with js_rw. simpl. lia.
Qed.

(** A text with no star holds no match. *)
Lemma match_bold_no_star (s : string) :
  has_byte 42 s = false -> match_bold s = None.
Proof.
  unfold match_bold. destruct (strip_prefix "**" s) as [after|] eqn:E; [|done].
  apply strip_prefix_Some in E as ->. by rewrite has_byte_app.
Qed.

Lemma replace_bold_no_star (fuel : nat) (s : string) :
  has_byte 42 s = false -> replace_bold fuel s = s.
Proof.
  revert s. induction fuel as [|fuel IH]; intros s Hs; [done|].
  destruct s as [|c r]; [done|]. simpl replace_bold.
  rewrite match_bold_no_star by done.
  simpl in Hs. apply orb_false_iff in Hs as [_ Hr]. by rewrite IH.
Qed.

(** *** Fuel *)

Lemma replace_bold_fuel (fuel fuel' : nat) (s : string) :
  String.length s <= fuel -> String.length s <= fuel' ->
  replace_bold fuel s = replace_bold fuel' s.
Proof.
  revert fuel' s. induction fuel as [|fuel IH]; intros fuel' s H1 H2.
  - destruct s; [|simpl in H1; lia]. by destruct fuel'.
  - destruct fuel' as [|fuel'].
    + destruct s; [done|simpl in H2; lia].
    + destruct s as [|c r]; [done|]. simpl replace_bold.
      destruct (match_bold (String c r)) as [[g rest]|] eqn:E.
      * apply match_bold_length in E. simpl in *.
        by rewrite (IH fuel' rest) by lia.
      * simpl in *. by rewrite (IH fuel' r) by lia.
Qed.

(** The unfolding of the scan, free of fuel. *)
Lemma replace_bold_step (c : ascii) (r : string) :
  replace_bold_all (String c r)
  = match match_bold (String c r) with
    | Some (g, rest) => "<b>" +:+ g +:+ "</b>" +:+ replace_bold_all rest
    | None => String c (replace_bold_all r)
    end.
Proof.
  unfold replace_bold_all. simpl replace_bold at 1.
  destruct (match_bold (String c r)) as [[g rest]|] eqn:E; [|done].
  apply match_bold_length in E. simpl in E.
  by rewrite (replace_bold_fuel (String.length r) (String.length rest)) by lia.
Qed.

Lemma formatMessage_eq (s : string) :
  formatMessage s = replace_newlines (replace_bold_all s).
Proof. unfold formatMessage. by case_bool_decide as E; [rewrite E|]. Qed.

(** *** Line terminators and appended text *)

Lemma starts_with_lt_app (a b : string) (d : ascii) :
  a <> "" -> plain_byte d = true ->
  starts_with_lt (a +:+ String d b) = starts_with_lt a.
Proof.
  unfold plain_byte. intros Ha Hd.
  apply negb_true_iff in Hd. apply orb_false_iff in Hd as [Hd H169].
  apply orb_false_iff in Hd as [H128 H168].
  destruct a as [|c1 [|c2 [|c3 a]]]; [done| | |done].
  - rewrite string_app_cons, string_app_nil_l.
    destruct b; simpl; [done|]. unfold is_lt3. by rewrite H128, andb_false_r, orb_false_r.
  - rewrite !string_app_cons, string_app_nil_l. simpl. unfold is_lt3.
    by rewrite H168, H169, andb_false_r, orb_false_r.
Qed.

Lemma starts_with_lt_stars (a rest : string) :
  a <> "" -> starts_with_lt (a +:+ "**" +:+ rest) = starts_with_lt a.
Proof. intros Ha. by apply (starts_with_lt_app a (String "*" rest) "*"). Qed.

Lemma starts_with_lt_newline (a rest : string) :
  a <> "" -> starts_with_lt (a +:+ newline +:+ rest) = starts_with_lt a.
Proof. intros Ha. by apply (starts_with_lt_app a rest (ascii_of_N 10)). Qed.

(** *** The group is the shortest one *)

Lemma match_group_no_lt (s g rest : string) :
  match_group s = Some (g, rest) -> has_lt g = false.
Proof.
  revert g rest. induction s as [|c s IH]; intros g rest; [done|].
  rewrite match_group_eq. destruct (strip_prefix "**" (String c s)) as [r|].
  { by intros [= <- <-]. }
  destruct (starts_with_lt (String c s)) eqn:Hlt; [done|].
  destruct (match_group s) as [[g' rest']|] eqn:E; [|done].
  intros [= <- <-]. cbn [has_lt]. rewrite (IH _ _ eq_refl), orb_false_r.
  apply match_group_sound in E as ->.
  by rewrite <- string_app_cons, starts_with_lt_stars in Hlt.
Qed.

Lemma match_group_least (s g rest g2 rest2 : string) :
  match_group s = Some (g, rest) -> s = g2 +:+ "**" +:+ rest2 ->
  String.length g <= String.length g2.
Proof.
  revert g rest g2. induction s as [|c s IH]; intros g rest g2; [done|].
  rewrite match_group_eq.
  destruct (strip_prefix "**" (String c s)) as [r|] eqn:Hp.
  { intros [= <- <-] _. simpl. lia. }
  destruct (starts_with_lt (String c s)); [done|].
  destruct (match_group s) as [[g' rest']|] eqn:E; [|done].
  intros [= <- <-] Hs. destruct g2 as [|c2 g2].
  - rewrite string_app_nil_l in Hs. by rewrite Hs, strip_prefix_app in Hp.
  - rewrite string_app_cons in Hs. injection Hs as _ Hs.
    specialize (IH _ _ _ eq_refl Hs). simpl. lia.
Qed.

Lemma match_group_complete (g rest : string) :
  has_lt g = false -> is_Some (match_group (g +:+ "**" +:+ rest)).
Proof.
  induction g as [|c g IH]; intros Hg.
  { rewrite string_app_nil_l, match_group_eq, strip_prefix_app. by eexists. }
  rewrite match_group_eq.
  destruct (strip_prefix "**" _); [by eexists|].
  cbn [has_lt] in Hg. apply orb_false_iff in Hg as [Hlt Hg].
  rewrite starts_with_lt_stars, Hlt by done. rewrite string_app_cons.
  destruct (IH Hg) as [[g' rest'] ->]. by eexists.
Qed.

(** *** The scan works line by line *)

Lemma strip_prefix_line (a b : string) :
  strip_prefix "**" (a +:+ newline +:+ b)
  = (fun r => r +:+ newline +:+ b) <$> strip_prefix "**" a.
Proof.
  destruct a as [|c1 [|c2 a]]; [done| |];
    rewrite ?string_app_cons, ?string_app_nil_l; simpl;
    repeat case_bool_decide; reflexivity.
Qed.

Lemma match_group_line (a b : string) :
  match_group (a +:+ newline +:+ b)
  = prod_map id (fun r => r +:+ newline +:+ b) <$> match_group a.
Proof.
  induction a as [|c a IH]; [by destruct b as [|? [|? ?]]|].
  rewrite (match_group_eq (String c a)), match_group_eq, strip_prefix_line.
  destruct (strip_prefix "**" (String c a)); [done|].
  rewrite starts_with_lt_newline by done. rewrite string_app_cons.
  destruct (starts_with_lt (String c a)); [reflexivity|]. rewrite IH.
  destruct (match_group a) as [[??]|]; reflexivity.
Qed.

Lemma match_bold_line (a b : string) :
  match_bold (a +:+ newline +:+ b)
  = prod_map id (fun r => r +:+ newline +:+ b) <$> match_bold a.
Proof.
  unfold match_bold. rewrite strip_prefix_line.
  destruct (strip_prefix "**" a); [apply match_group_line|done].
Qed.

Lemma replace_bold_line (a b : string) :
  replace_bold_all (a +:+ newline +:+ b)
  = replace_bold_all a +:+ newline +:+ replace_bold_all b.
Proof.
  remember (String.length a) as n eqn:Hn. revert a Hn.
  induction (lt_wf n) as [n _ IH]; intros a ->.
  destruct a as [|c a]; [apply replace_bold_step|].
  rewrite (replace_bold_step c a), string_app_cons, replace_bold_step.
  rewrite <- string_app_cons, match_bold_line.
  destruct (match_bold (String c a)) as [[g rest]|] eqn:E; simpl.
  - apply match_bold_length in E. rewrite (IH _ E rest eq_refl).
    by rewrite !string_app_assoc.
  - by rewrite (IH _ (Nat.lt_succ_diag_r _) a eq_refl).
Qed.

(** *** The scan is idempotent

    The proof goes through a normal form: the scan is the identity on a
    text that holds no match ([bold_free_id]), and its result holds none
    ([bold_free_replace]). *)

Lemma strip_stars_None (c : ascii) (r : string) :
  strip_prefix "**" (String c r) = None <-> c <> "*"%char \/ starts_star r = false.
Proof.
  simpl. case_bool_decide as Hc; [|by split; [left|]].
  destruct r as [|d r]; simpl; [by split; [right|]|].
  case_bool_decide as Hd; [|by split; [right|]].
  split; [done|]. by intros [?|?].
Qed.

Lemma match_bold_plain (c : ascii) (r : string) :
  c <> "*"%char \/ starts_star r = false -> match_bold (String c r) = None.
Proof. intros H%strip_stars_None. unfold match_bold. by rewrite H. Qed.

Lemma replace_bold_plain (c : ascii) (r : string) :
  c <> "*"%char \/ starts_star r = false ->
  replace_bold_all (String c r) = String c (replace_bold_all r).
Proof. intros H. by rewrite replace_bold_step, match_bold_plain. Qed.

(** The scan puts no star where none was. *)
Lemma starts_star_replace (s : string) :
  starts_star s = false -> starts_star (replace_bold_all s) = false.
Proof.
  destruct s as [|c r]; [done|]. simpl. intros Hc%bool_decide_eq_false.
  rewrite replace_bold_plain by auto. simpl. by apply bool_decide_eq_false.
Qed.

Lemma bold_free_id (s : string) : bold_free s = true -> replace_bold_all s = s.
Proof.
  induction s as [|c s IH]; [done|]. simpl.
  intros [Hm%bool_decide_eq_true Hs]%andb_true_iff.
  by rewrite replace_bold_step, Hm, IH.
Qed.

(** *** Line terminators stay where they are *)

Lemma starts_with_lt_star (r : string) : starts_with_lt (String "*" r) = false.
Proof. by destruct r as [|c2 [|c3 r]]. Qed.

Lemma starts_with_lt1 (c : ascii) (r : string) :
  is_lt1 c = true -> starts_with_lt (String c r) = true.
Proof. intros H. destruct r as [|c2 [|c3 r]]; simpl; by rewrite H. Qed.

Lemma starts_with_lt_replace (s : string) :
  starts_with_lt s = true -> starts_with_lt (replace_bold_all s) = true.
Proof.
  destruct s as [|c1 r]; [done|]. intros H.
  assert (c1 <> "*"%char) as H1 by (intros ->; by rewrite starts_with_lt_star in H).
  rewrite replace_bold_plain by auto.
  destruct (is_lt1 c1) eqn:E1; [by apply starts_with_lt1|].
  destruct r as [|c2 [|c3 r]]; simpl in H; rewrite E1 in H; try done. simpl in H.
  apply andb_true_iff in H as [[H1' H2]%andb_true_iff H3].
  assert (c2 <> "*"%char) by (intros ->; done).
  assert (c3 <> "*"%char) by (intros ->; done).
  rewrite !replace_bold_plain by auto. simpl. unfold is_lt3.
  by rewrite H1', H2, H3, orb_true_r.
Qed.

(** *** The scan leaves no match *)

(** Where the group fails, it fails after the scan. *)
Lemma match_group_replace (s : string) :
  match_group s = None -> match_group (replace_bold_all s) = None.
Proof.
  induction s as [|c r IH]; [done|]. rewrite match_group_eq.
  destruct (strip_prefix "**" (String c r)) as [x|] eqn:Hp; [done|].
  apply strip_stars_None in Hp as Hc. rewrite replace_bold_plain by done.
  intros H. rewrite match_group_eq.
  replace (strip_prefix "**" (String c (replace_bold_all r))) with (@None string)
    by (symmetry; apply strip_stars_None; destruct Hc; auto using starts_star_replace).
  destruct (starts_with_lt (String c r)) eqn:Hlt.
  - apply starts_with_lt_replace in Hlt. rewrite replace_bold_plain in Hlt by done.
    by rewrite Hlt.
  - revert H. destruct (match_group r); [done|]. intros _. rewrite IH by done.
    by case_match.
Qed.

(** Where the group fails after a star, no match begins at the star. *)
Lemma match_bold_star (r : string) :
  match_group r = None -> match_bold (String "*" r) = None.
Proof.
  destruct r as [|d r]; [done|]. unfold match_bold. simpl strip_prefix.
  case_bool_decide as Hd; [subst d|done]. rewrite match_group_eq.
  destruct (strip_prefix _ _); [done|]. rewrite starts_with_lt_star.
  by destruct (match_group r).
Qed.

(** Where no match begins, none begins after the scan. *)
Lemma match_bold_replace (s : string) :
  match_bold s = None -> match_bold (replace_bold_all s) = None.
Proof.
  destruct s as [|c r]; [done|]. intros H.
  rewrite replace_bold_step, H. unfold match_bold in *.
  destruct (strip_prefix "**" (String c r)) as [x|] eqn:Hp.
  - apply strip_prefix_Some in Hp. injection Hp as -> ->.
    rewrite string_app_cons, string_app_nil_l, replace_bold_step, match_bold_star by done.
    change (strip_prefix "**" _) with (Some (replace_bold_all x)).
    by apply match_group_replace.
  - apply strip_stars_None in Hp as Hc.
    replace (strip_prefix "**" (String c (replace_bold_all r))) with (@None string); [done|].
    symmetry; apply strip_stars_None; destruct Hc; auto using starts_star_replace.
Qed.

(** The group holds no match, and none begins in it. *)
Lemma strip_stars_two (c d : ascii) (x y : string) :
  strip_prefix "**" (String c (String d x)) = None ->
  strip_prefix "**" (String c (String d y)) = None.
Proof. simpl. by repeat case_bool_decide. Qed.

Lemma match_group_free (s g rest z : string) :
  match_group s = Some (g, rest) -> starts_star z = false -> bold_free z = true ->
  bold_free (g +:+ z) = true.
Proof.
  intros Hm Hz Hf. revert g rest Hm. induction s as [|c s IH]; intros g rest; [done|].
  rewrite match_group_eq. destruct (strip_prefix "**" (String c s)) as [x|] eqn:Hp.
  { by intros [= <- <-]. }
  destruct (starts_with_lt _); [done|].
  destruct (match_group s) as [[g' rest']|] eqn:E; [|done]. intros [= <- <-].
  rewrite string_app_cons. cbn [bold_free]. rewrite (IH _ _ eq_refl), andb_true_r.
  apply bool_decide_eq_true. unfold match_bold.
  replace (strip_prefix "**" (String c (g' +:+ z))) with (@None string); [done|].
  symmetry. apply match_group_sound in E as ->. destruct g' as [|d g'].
  - apply strip_stars_None. by right.
  - rewrite string_app_cons in *. by eapply strip_stars_two.
Qed.

Lemma bold_free_plain (c : ascii) (s : string) :
  c <> "*"%char -> bold_free s = true -> bold_free (String c s) = true.
Proof.
  intros Hc Hs. cbn [bold_free]. rewrite Hs, andb_true_r.
  apply bool_decide_eq_true, match_bold_plain. by left.
Qed.

(** The scan leaves no match. *)
Lemma bold_free_replace (s : string) : bold_free (replace_bold_all s) = true.
Proof.
  remember (String.length s) as n eqn:Hn. revert s Hn.
  induction (lt_wf n) as [n _ IH]; intros s ->.
  destruct s as [|c r]; [done|]. rewrite replace_bold_step.
  destruct (match_bold (String c r)) as [[g rest]|] eqn:E.
  - pose proof (match_bold_length _ _ _ E) as Hlen. unfold match_bold in E.
    destruct (strip_prefix "**" (String c r)) as [after|]; [|done].
    repeat (rewrite string_app_cons; apply bold_free_plain; [done|]).
    rewrite string_app_nil_l. eapply match_group_free; [done|done|].
    repeat (rewrite string_app_cons; apply bold_free_plain; [done|]).
    by apply (IH _ Hlen).
  - pose proof (match_bold_replace _ E) as E'. rewrite replace_bold_step, E in E'.
    cbn [bold_free]. rewrite E', (IH _ (Nat.lt_succ_diag_r _) r eq_refl).
    by rewrite bool_decide_eq_true_2.
Qed.

Lemma replace_bold_no_newline (s : string) :
  has_byte 10 s = false -> has_byte 10 (replace_bold_all s) = false.
Proof.
  remember (String.length s) as n eqn:Hn. revert s Hn.
  induction (lt_wf n) as [n _ IH]; intros s -> Hs.
  destruct s as [|c r]; [done|]. rewrite replace_bold_step.
  destruct (match_bold (String c r)) as [[g rest]|] eqn:E.
  - pose proof (match_bold_length _ _ _ E) as Hlen.
    apply match_bold_sound in E. rewrite E in Hs.
    rewrite !has_byte_app in Hs. rewrite !has_byte_app.
    repeat (apply orb_false_iff in Hs as [? Hs]).
    rewrite (IH _ Hlen rest eq_refl Hs). by repeat (apply orb_false_iff; split).
  - simpl in *. apply orb_false_iff in Hs as [-> Hs].
    by apply (IH _ (Nat.lt_succ_diag_r _)).
Qed.

(** *** A pair of stars across a line break *)

Lemma replace_bold_app_plain (a s : string) :
  has_byte 42 a = false -> replace_bold_all (a +:+ s) = a +:+ replace_bold_all s.
Proof.
  induction a as [|c a IH]; [done|]. simpl. intros [Hc Ha]%orb_false_iff.
  rewrite !string_app_cons, replace_bold_plain, IH; [done|done|].
  left. by intros ->.
Qed.

Lemma has_lt_newline (s : string) : has_lt s = false -> has_byte 10 s = false.
Proof.
  induction s as [|c s IH]; [done|]. cbn [has_lt has_byte].
  intros [Hc Hs]%orb_false_iff. rewrite IH, orb_false_r by done.
  destruct (byte_is 10 c) eqn:E; [|done]. rewrite starts_with_lt1 in Hc; [done|].
  unfold is_lt1. by rewrite E.
Qed.

Lemma has_lt_app (a b : string) (d : ascii) :
  plain_byte d = true -> has_lt (a +:+ String d b) = has_lt a || has_lt (String d b).
Proof.
  intros Hd. induction a as [|c a IH]; [done|].
  rewrite string_app_cons. cbn [has_lt]. rewrite IH, <- string_app_cons.
  by rewrite starts_with_lt_app, orb_assoc.
Qed.

(** The group of a text without stars and line terminators is the text. *)
Lemma match_group_exact (g rest : string) :
  has_byte 42 g = false -> has_lt g = false ->
  match_group (g +:+ "**" +:+ rest) = Some (g, rest).
Proof.
  induction g as [|c g IH]; [by intros _ _; rewrite string_app_nil_l, match_group_eq|].
  cbn [has_byte has_lt]. intros [Hc Hg]%orb_false_iff [Hlt Hl]%orb_false_iff.
  rewrite match_group_eq, starts_with_lt_stars, Hlt by done.
  rewrite string_app_cons, IH by done.
  replace (strip_prefix "**" _) with (@None string); [done|].
  symmetry. apply strip_stars_None. left. by intros ->.
Qed.

Lemma match_group_no_star (s : string) : has_byte 42 s = false -> match_group s = None.
Proof.
  induction s as [|c s IH]; [done|]. simpl has_byte. intros [Hc Hs]%orb_false_iff.
  rewrite match_group_eq, IH by done.
  replace (strip_prefix "**" _) with (@None string); [by case_match|].
  symmetry. apply strip_stars_None. left. by intros ->.
Qed.

Lemma starts_star_no_star (s : string) : has_byte 42 s = false -> starts_star s = false.
Proof.
  destruct s as [|c s]; [done|]. simpl. intros [Hc _]%orb_false_iff.
  apply bool_decide_eq_false. by intros ->.
Qed.

Lemma match_bold_stars (s : string) :
  match_bold (String "*" (String "*" s)) = match_group s.
Proof. reflexivity. Qed.

(** An opening pair of stars with no closing pair on its line stays. *)
Lemma formatMessage_open (a : string) :
  has_byte 42 a = false -> has_byte 10 a = false ->
  formatMessage ("**" +:+ a) = "**" +:+ a.
Proof.
  intros Ha Hn. rewrite formatMessage_eq.
  change ("**" +:+ a) with (String "*" (String "*" a)).
  rewrite replace_bold_step, match_bold_stars, match_group_no_star by done.
  rewrite replace_bold_plain by (right; by apply starts_star_no_star).
  unfold replace_bold_all. rewrite replace_bold_no_star by done.
  apply replace_newlines_id. simpl. by rewrite Hn.
Qed.

Lemma formatMessage_close (b : string) :
  has_byte 42 b = false -> has_byte 10 b = false ->
  formatMessage (b +:+ "**") = b +:+ "**".
Proof.
  intros Hb Hn. rewrite formatMessage_eq, replace_bold_app_plain by done.
  apply replace_newlines_id. by rewrite has_byte_app, Hn.
Qed.

Lemma formatMessage_pair (g : string) :
  has_byte 42 g = false -> has_lt g = false ->
  formatMessage ("**" +:+ g +:+ "**") = "<b>" +:+ g +:+ "</b>".
Proof.
  intros Hg Hl. rewrite formatMessage_eq.
  change ("**" +:+ g +:+ "**") with (String "*" (String "*" (g +:+ "**" +:+ ""))).
  rewrite replace_bold_step, match_bold_stars, match_group_exact by done. apply replace_newlines_id.
  rewrite !has_byte_app. by rewrite (has_lt_newline g).
Qed.

Lemma has_lt_plain (c : ascii) (s : string) :
  is_lt1 c = false -> byte_is 226 c = false -> has_lt (String c s) = has_lt s.
Proof.
  intros H1 H2. cbn [has_lt].
  replace (starts_with_lt (String c s)) with false; [done|].
  destruct s as [|c2 [|c3 s]]; simpl; unfold is_lt3; by rewrite ?H1, ?H2.
Qed.

Lemma has_lt_br (a b : string) :
  has_lt a = false -> has_lt b = false -> has_lt (a +:+ "<br>" +:+ b) = false.
Proof.
  intros Ha Hb.
  change ("<br>" +:+ b) with (String "<" (String "b" (String "r" (String ">" b)))).
  by rewrite has_lt_app, Ha, !has_lt_plain.
Qed.

Lemma formatMessage_split (a b : string) :
  formatMessage (a +:+ newline +:+ b)
  = formatMessage a +:+ "<br>" +:+ formatMessage b.
Proof.
  by rewrite !formatMessage_eq, replace_bold_line, !replace_newlines_app.
Qed.

(** ** Theorems *)

(** The example of the specification: a bold pair and a newline. *)
Theorem formatMessage_example :
  formatMessage ("**bold** line1" +:+ newline +:+ "line2")
  = "<b>bold</b> line1<br>line2".
Proof. reflexivity. Qed.

(** C10: formatting works line by line: the markup of two lines is the
    markup of each, with a line break between; no bold pair spans a
    newline. *)
Theorem formatMessage_lines (a b : string) :
  formatMessage (a +:+ newline +:+ b)
  = formatMessage a +:+ "<br>" +:+ formatMessage b.
Proof. apply formatMessage_split. Qed.

(** The markup holds no newline. *)
Theorem formatMessage_no_newline (text : string) :
  has_byte 10 (formatMessage text) = false.
Proof. rewrite formatMessage_eq. apply replace_newlines_no_newline. Qed.

(** A text with no star and no newline is its own markup. *)
Theorem formatMessage_plain (text : string) :
  has_byte 42 text = false -> has_byte 10 text = false ->
  formatMessage text = text.
Proof.
  intros Hstar Hnl. rewrite formatMessage_eq. unfold replace_bold_all.
  rewrite replace_bold_no_star by done. by apply replace_newlines_id.
Qed.

(** The group of a bold pair is the text up to the first closing pair
    of stars: it splits the input, holds no line terminator, and no
    shorter split exists. *)
Theorem match_group_shortest (s g rest : string) :
  match_group s = Some (g, rest) ->
  s = g +:+ "**" +:+ rest /\ has_lt g = false
  /\ forall g2 rest2, s = g2 +:+ "**" +:+ rest2 -> String.length g <= String.length g2.
Proof.
  intros E. split; [by apply match_group_sound|].
  split; [by eapply match_group_no_lt|].
  intros g2 rest2. by eapply match_group_least.
Qed.

(** A closing pair of stars after a text free of line terminators is
    found. *)
Theorem match_group_found (g rest : string) :
  has_lt g = false ->
  exists g' rest', match_group (g +:+ "**" +:+ rest) = Some (g', rest')
                   /\ String.length g' <= String.length g.
Proof.
  intros [[g' rest'] E]%(match_group_complete g rest).
  exists g', rest'. split; [done|]. by eapply match_group_least.
Qed.

(** The scan of the bold pairs is idempotent: its result holds no match,
    on any text, line terminators included. *)
Theorem replace_bold_idempotent (s : string) :
  replace_bold_all (replace_bold_all s) = replace_bold_all s.
Proof. apply bold_free_id, bold_free_replace. Qed.

(** C39: the scan of the bold pairs ends, and with the fuel it is given it
    ends for no lack of fuel: any fuel that is at least the length of the
    text gives the markup of [replace_bold_all], and that markup holds no
    match any more, where a scan cut short would return the rest of the
    text unread. *)
Theorem replace_bold_enough_fuel (fuel : nat) (s : string) :
  String.length s <= fuel ->
  replace_bold fuel s = replace_bold_all s
  /\ bold_free (replace_bold fuel s) = true.
Proof.
  intros H. rewrite (replace_bold_fuel fuel (String.length s)) by done.
  split; [done|apply bold_free_replace].
Qed.

(** C38: formatting a text of one line twice is formatting it once, as
    section 4.4 of the specification says of every text: on a text without
    newline the markup holds no bold pair, since the scan leaves none, and
    no newline. *)
Theorem formatMessage_idempotent_line (text : string) :
  has_byte 10 text = false ->
  formatMessage (formatMessage text) = formatMessage text.
Proof.
  intros H%replace_bold_no_newline. rewrite !formatMessage_eq.
  rewrite (replace_newlines_id _ H), replace_bold_idempotent.
  by apply replace_newlines_id.
Qed.

(** C40: formatting is not idempotent on a text of two lines: a pair of
    stars that opens on one line and closes on the next is left alone,
    since the dot stops at the newline, and it is a bold pair of the
    markup, where the line break tag stands for the newline.  The stored
    log must keep the raw text. *)
Theorem formatMessage_not_idempotent (a b : string) :
  has_byte 42 a = false -> has_lt a = false ->
  has_byte 42 b = false -> has_lt b = false ->
  let text := "**" +:+ a +:+ newline +:+ b +:+ "**" in
  formatMessage text = "**" +:+ a +:+ "<br>" +:+ b +:+ "**"
  /\ formatMessage (formatMessage text) = "<b>" +:+ a +:+ "<br>" +:+ b +:+ "</b>".
Proof.
  intros Ha Hla Hb Hlb text.
  assert (formatMessage text = "**" +:+ a +:+ "<br>" +:+ b +:+ "**") as ->.
  { unfold text. rewrite <- (string_app_assoc "**" a), formatMessage_split.
    rewrite formatMessage_open, formatMessage_close by auto using has_lt_newline.
    by rewrite !string_app_assoc. }
  split; [done|].
  rewrite <- (string_app_assoc a), <- (string_app_assoc _ b).
  rewrite formatMessage_pair; [by rewrite !string_app_assoc| |].
  - by rewrite !has_byte_app, Ha, Hb.
  - rewrite string_app_assoc. by apply has_lt_br.
Qed.

(** On the values a log entry may hold: a falsy text gives the empty
    markup, a string its markup, and any other truthy value raises a
    TypeError, since it has no [replace]. *)
Theorem formatMessage_value_cases (text : value) :
  formatMessage_value text
  = match text with
    | VStr s => Normal (formatMessage s)
    | VUndefined | VNull | VBool false => Normal ""
    | VNum n => if Z.eqb n 0 then Normal "" else Throw TypeError
    | _ => Throw TypeError
    end.
Proof.
  destruct text as [| |[]|n|s| |]; try done.
  - unfold formatMessage_value. simpl. by destruct (Z.eqb n 0).
  - unfold formatMessage_value, formatMessage. simpl. by destruct s.
Qed.

(** Witnesses. *)

Lemma formatMessage_plain_witness : formatMessage "Hello, world" = "Hello, world".
Proof. by apply formatMessage_plain. Defined.

Lemma match_group_shortest_witness :
  "a*b**c**" = "a*b" +:+ "**" +:+ "c**" /\ has_lt "a*b" = false
  /\ forall g2 rest2, "a*b**c**" = g2 +:+ "**" +:+ rest2 -> String.length "a*b" <= String.length g2.
Proof. by apply match_group_shortest. Defined.

Lemma match_group_found_witness :
  exists g' rest', match_group ("bold" +:+ "**" +:+ " rest") = Some (g', rest')
                   /\ String.length g' <= String.length "bold".
Proof. by apply match_group_found. Defined.

Lemma replace_bold_enough_fuel_witness :
  replace_bold 100 "**a** b" = replace_bold_all "**a** b"
  /\ bold_free (replace_bold 100 "**a** b") = true.
Proof. apply replace_bold_enough_fuel. simpl. lia. Defined.

Lemma formatMessage_idempotent_line_witness :
  formatMessage (formatMessage "a ***b** c** d") = formatMessage "a ***b** c** d".
Proof. by apply formatMessage_idempotent_line. Defined.

Lemma formatMessage_not_idempotent_witness :
  let text := "**" +:+ "bold" +:+ newline +:+ "text" +:+ "**" in
  formatMessage text = "**" +:+ "bold" +:+ "<br>" +:+ "text" +:+ "**"
  /\ formatMessage (formatMessage text) = "<b>" +:+ "bold" +:+ "<br>" +:+ "text" +:+ "</b>".
Proof. by apply formatMessage_not_idempotent. Defined.
