(* ===== verification/Regex.v ===== *)
(** * Regex: the regular expressions of formatMessage, as ECMAScript runs them

    [formatMessage] calls [String.prototype.replace] twice, with the
    expressions [/\*\*(.*?)\*\*/g] and [/\n/g] (login.component.ts lines
    257 and 259).  This file holds the expressions as data ([bold_regex],
    [newline_regex]), the matcher of ECMAScript for the operators they are
    built from ([match_re]: a backtracking matcher in continuation-passing
    style, with [repeat_matcher] for the star), the expansion of a
    replacement text ([get_substitution]) and the global replacement
    ([regex_replace]).  The scanner of [Format], written by hand for the
    one expression, is proved to compute what the general matcher computes
    ([formatMessage_regex]).

    The matcher works on the bytes of the UTF-8 text.  The two expressions
    begin with an ASCII character and their dot stands under a star that an
    ASCII character ends, so their matches on bytes are their matches on
    the code units of the JavaScript string. *)

From Stdlib Require Import Ascii String NArith Lia.
From stdpp Require Import base tactics option list strings gmap.
From S2P Require Import Prelude JsString JsValue Format.

(** ** Expressions *)

(** The operators of the two expressions, and the ones next to them in
    the grammar: a pattern character, the dot, the empty alternative, a
    sequence, a disjunction, a capturing group with its number, and the
    star, greedy or lazy. *)
Inductive regex : Type :=
| RChar (c : ascii)
| RDot
| REmpty
| RSeq (r1 r2 : regex)
| RAlt (r1 r2 : regex)
| RGroup (n : nat) (r : regex)
| RStar (greedy : bool) (r : regex).

#[export] Instance regex_eq_dec : EqDecision regex.
Proof. solve_decision. Defined.

(** A sequence of terms. *)
Definition rseq (rs : list regex) : regex := foldr RSeq REmpty rs.

(** The numbers of the groups of an expression. *)
Fixpoint groups (r : regex) : list nat :=
  match r with
  | RChar _ | RDot | REmpty => []
  | RSeq r1 r2 | RAlt r1 r2 => groups r1 ++ groups r2
  | RGroup n r1 => n :: groups r1
  | RStar _ r1 => groups r1
  end.

(** Line 257: [/\*\*(.*?)\*\*/]. *)
Definition bold_regex : regex :=
  rseq [RChar "*"; RChar "*"; RGroup 1 (RStar false RDot); RChar "*"; RChar "*"].

(** Line 259: [/\n/]. *)
Definition newline_regex : regex := RChar (ascii_of_N 10).

(** Line 257: the replacement text of the bold pairs. *)
Definition bold_template : string := "<b>$1</b>".

(** Line 259: the replacement text of a newline. *)
Definition br_template : string := "<br>".

(** ** The matcher *)

(** The captures of a match: the text of each group that took part. *)
Abbreviation captures := (gmap nat string).

(** The state of a match: the text still to read and the captures. *)
Definition match_state : Type := string * captures.

(** A continuation takes the state a matcher reached and gives the end of
    the whole match, or fails. *)
Definition continuation : Type := string -> captures -> option match_state.

Definition matcher : Type := string -> captures -> continuation -> option match_state.

(** [taken s s1]: the text read between [s] and its suffix [s1]. *)
Definition taken (s s1 : string) : string :=
  String.substring 0 (String.length s - String.length s1) s.

(** [clear_groups ns caps]: the captures of the groups [ns] forgotten. *)
Definition clear_groups (ns : list nat) (caps : captures) : captures :=
  foldr delete caps ns.

(** RepeatMatcher for a star: a lazy star tries the continuation first
    and one more round of [m] after it, a greedy star the other way
    round.  A round that reads nothing fails; the captures of the groups
    under the star are forgotten when a round begins.  The fuel bounds the
    rounds: every round reads a byte. *)
Fixpoint repeat_matcher (m : matcher) (greedy : bool) (ns : list nat)
    (fuel : nat) (s : string) (caps : captures) (k : continuation)
    : option match_state :=
  match fuel with
  | 0 => None
  | S fuel' =>
      let d : continuation := fun s1 caps1 =>
        if String.length s1 <? String.length s
        then repeat_matcher m greedy ns fuel' s1 caps1 k else None in
      if greedy then
        match m s (clear_groups ns caps) d with
        | Some z => Some z
        | None => k s caps
        end
      else
        match k s caps with
        | Some z => Some z
        | None => m s (clear_groups ns caps) d
        end
  end.

(** The matcher of an expression. *)
Fixpoint match_re (r : regex) : matcher :=
  match r with
  | RChar c => fun s caps k =>
      match s with
      | String d s' => if bool_decide (d = c) then k s' caps else None
      | EmptyString => None
      end
  | RDot => fun s caps k =>
      match s with
      | String d s' => if starts_with_lt s then None else k s' caps
      | EmptyString => None
      end
  | REmpty => fun s caps k => k s caps
  | RSeq r1 r2 => fun s caps k =>
      match_re r1 s caps (fun s1 caps1 => match_re r2 s1 caps1 k)
  | RAlt r1 r2 => fun s caps k =>
      match match_re r1 s caps k with
      | Some z => Some z
      | None => match_re r2 s caps k
      end
  | RGroup n r1 => fun s caps k =>
      match_re r1 s caps (fun s1 caps1 => k s1 (<[n := taken s s1]> caps1))
  | RStar greedy r1 => fun s caps k =>
      repeat_matcher (match_re r1) greedy (groups r1) (S (String.length s)) s caps k
  end.

(** [regex_match r s]: a match of [r] at the head of [s]: the text after
    the match and the captures. *)
Definition regex_match (r : regex) (s : string) : option match_state :=
  match_re r s ∅ (fun rest caps => Some (rest, caps)).

(** ** The replacement text *)

Definition is_dec_digit (c : ascii) : bool :=
  let n := N_of_ascii c in N.leb 48 n && N.leb n 57.

Definition dec_val (c : ascii) : nat := N.to_nat (N_of_ascii c) - 48.

(** The text of group [n], empty when the group took no part. *)
Definition capture (caps : captures) (n : nat) : string :=
  default "" (caps !! n).

(** A reference to group [n] is one when the expression has that group. *)
Definition valid_ref (count n : nat) : bool := (1 <=? n) && (n <=? count).

(** GetSubstitution: a dollar followed by a dollar, an ampersand, a
    backquote, an apostrophe or the number of a group stands for a dollar,
    the match, the text before it, the text after it or the text of the
    group; two digits are read when they number a group, one digit
    otherwise; anything else stands for itself. *)
Fixpoint get_substitution (count : nat) (matched before after : string)
    (caps : captures) (tpl : string) : string :=
  match tpl with
  | EmptyString => ""
  | String c t =>
      let go := get_substitution count matched before after caps in
      if negb (byte_is 36 c) then String c (go t) else
      match t with
      | EmptyString => "$"
      | String d1 t1 =>
          if byte_is 36 d1 then String "$" (go t1)
          else if byte_is 38 d1 then matched +:+ go t1
          else if byte_is 96 d1 then before +:+ go t1
          else if byte_is 39 d1 then after +:+ go t1
          else if is_dec_digit d1 then
            match t1 with
            | String d2 t2 =>
                if is_dec_digit d2 && valid_ref count (10 * dec_val d1 + dec_val d2)
                then capture caps (10 * dec_val d1 + dec_val d2) +:+ go t2
                else if valid_ref count (dec_val d1)
                     then capture caps (dec_val d1) +:+ go t1
                     else String "$" (String d1 (go t1))
            | EmptyString =>
                if valid_ref count (dec_val d1) then capture caps (dec_val d1)
                else String "$" (String d1 "")
            end
          else String "$" (go t)
      end
  end.

(** ** Global replacement *)

(** [replace_from r tpl before skip s]: the replacement from the text [s]
    on, [before] being the text already passed and [skip] the bytes of
    [s] that belong to the match found last.  At each position the
    expression is tried; a match is replaced and the scan goes on after
    it, or one byte further when the match is empty. *)
Fixpoint replace_from (r : regex) (tpl : string) (before : string)
    (skip : nat) (s : string) : string :=
  match skip, s with
  | S n, String c s' => replace_from r tpl (before +:+ String c "") n s'
  | S n, EmptyString => ""
  | 0, _ =>
      match regex_match r s with
      | Some (rest, caps) =>
          let matched := taken s rest in
          get_substitution (length (groups r)) matched before rest caps tpl
          +:+ match s with
              | String c s' =>
                  match String.length matched with
                  | 0 => String c (replace_from r tpl (before +:+ String c "") 0 s')
                  | S n => replace_from r tpl (before +:+ String c "") n s'
                  end
              | EmptyString => ""
              end
      | None =>
          match s with
          | String c s' => String c (replace_from r tpl (before +:+ String c "") 0 s')
          | EmptyString => ""
          end
      end
  end.

(** [regex_replace r tpl s] is [s.replace(r, tpl)] for [r] with the global
    flag. *)
Definition regex_replace (r : regex) (tpl : string) (s : string) : string :=
  replace_from r tpl "" 0 s.

(** ** Properties of matchers *)

(** [suffix_of s1 s]: [s1] is what is left of [s] after some text. *)
Definition suffix_of (s1 s : string) : Prop := exists m, s = m +:+ s1.

(** A forward matcher answers with the answer of its continuation on a
    suffix of the text. *)
Definition forward (m : matcher) : Prop :=
  forall s caps k z, m s caps k = Some z ->
    exists s1 caps1, suffix_of s1 s /\ k s1 caps1 = Some z.

(** An extensional matcher looks at the answers of its continuation
    only. *)
Definition extensional (m : matcher) : Prop :=
  forall s caps k1 k2, (forall s1 caps1, k1 s1 caps1 = k2 s1 caps1) ->
    m s caps k1 = m s caps k2.

(** What the scan does with the text that no match covers. *)
Definition replace_next (r : regex) (tpl before s : string) : string :=
  match s with
  | String c s' => String c (replace_from r tpl (before +:+ String c "") 0 s')
  | EmptyString => ""
  end.

(** ** Lemmas *)

(** *** The text read *)

Lemma substring_app (m rest : string) :
  String.substring 0 (String.length m) (m +:+ rest) = m.
Proof.
  induction m as [|c m IH]; [by destruct rest|].
  rewrite string_app_cons. simpl. by rewrite IH.
Qed.

Lemma taken_app (m rest : string) : taken (m +:+ rest) rest = m.
Proof.
  unfold taken. rewrite string_app_length.
  replace (_ + _ - _) with (String.length m) by lia. apply substring_app.
Qed.

Lemma taken_refl (s : string) : taken s s = "".
Proof. apply (taken_app "" s). Qed.

Lemma suffix_of_refl (s : string) : suffix_of s s.
Proof. by exists "". Qed.

Lemma suffix_of_trans (s2 s1 s : string) :
  suffix_of s2 s1 -> suffix_of s1 s -> suffix_of s2 s.
Proof.
  intros [m2 ->] [m1 ->]. exists (m1 +:+ m2). by rewrite string_app_assoc.
Qed.

Lemma suffix_of_tail (c : ascii) (s : string) : suffix_of s (String c s).
Proof. by exists (String c ""). Qed.

Lemma suffix_of_taken (s1 s : string) : suffix_of s1 s -> s = taken s s1 +:+ s1.
Proof. intros [m ->]. by rewrite taken_app. Qed.

#[export] Hint Resolve suffix_of_refl suffix_of_tail : js.

(** *** The matcher moves forward *)

Lemma repeat_matcher_forward (m : matcher) (greedy : bool) (ns : list nat)
    (fuel : nat) :
  forward m -> forward (fun s caps k => repeat_matcher m greedy ns fuel s caps k).
Proof.
  intros Hm. induction fuel as [|fuel IH]; intros s caps k z; [done|].
  assert (Hround : forall c, m s c (fun s1 caps1 =>
             if String.length s1 <? String.length s
             then repeat_matcher m greedy ns fuel s1 caps1 k else None) = Some z ->
           exists s1 caps1, suffix_of s1 s /\ k s1 caps1 = Some z).
  { intros c (s1 & caps1 & Hs1 & Hd)%Hm.
    destruct (_ <? _); [|done]. apply IH in Hd as (s2 & caps2 & Hs2 & Hk).
    exists s2, caps2. eauto using suffix_of_trans. }
  simpl. destruct greedy.
  - destruct (m s _ _) eqn:E; [intros [= <-]; eauto|].
    intros Hk. exists s, caps. auto with js.
  - destruct (k s caps) eqn:E; [intros [= <-]; exists s, caps; auto with js|].
    eauto.
Qed.

Lemma match_re_forward (r : regex) : forward (match_re r).
Proof.
  induction r as [c| | |r1 IH1 r2 IH2|r1 IH1 r2 IH2|n r1 IH1|greedy r1 IH1];
    intros s caps k z; cbn [match_re].
  - destruct s as [|d s']; [done|]. case_bool_decide; [|done]. eauto with js.
  - destruct s as [|d s']; [done|]. destruct (starts_with_lt _); [done|].
    eauto with js.
  - eauto with js.
  - intros (s1 & caps1 & Hs1 & (s2 & caps2 & Hs2 & Hk)%IH2)%IH1.
    exists s2, caps2. eauto using suffix_of_trans.
  - destruct (match_re r1 s caps k) eqn:E; [intros [= <-]; eauto|]. eauto.
  - intros (s1 & caps1 & Hs1 & Hk)%IH1. eauto.
  - by apply (repeat_matcher_forward (match_re r1)).
Qed.

(** The text after a match is a suffix of the text, after the text
    read. *)
Lemma regex_match_forward (r : regex) (s rest : string) (caps : captures) :
  regex_match r s = Some (rest, caps) -> s = taken s rest +:+ rest.
Proof.
  intros (s1 & caps1 & Hs1 & [= -> ->])%match_re_forward.
  by apply suffix_of_taken.
Qed.

(** *** The matcher is extensional *)

Lemma repeat_matcher_ext (m : matcher) (greedy : bool) (ns : list nat)
    (fuel : nat) :
  extensional m ->
  extensional (fun s caps k => repeat_matcher m greedy ns fuel s caps k).
Proof.
  intros Hm. induction fuel as [|fuel IH]; intros s caps k1 k2 Hk; [done|].
  simpl. rewrite (Hk s caps).
  rewrite (Hm s (clear_groups ns caps) _ (fun s1 caps1 =>
    if String.length s1 <? String.length s
    then repeat_matcher m greedy ns fuel s1 caps1 k2 else None)); [done|].
  intros s1 caps1. destruct (_ <? _); [|done]. by apply IH.
Qed.

Lemma match_re_ext (r : regex) : extensional (match_re r).
Proof.
  induction r as [c| | |r1 IH1 r2 IH2|r1 IH1 r2 IH2|n r1 IH1|greedy r1 IH1];
    intros s caps k1 k2 Hk; cbn [match_re].
  - destruct s; [done|]. by rewrite Hk.
  - destruct s; [done|]. by rewrite Hk.
  - apply Hk.
  - apply IH1. intros s1 caps1. by apply IH2.
  - by rewrite (IH1 s caps k1 k2 Hk), (IH2 s caps k1 k2 Hk).
  - apply IH1. intros s1 caps1. apply Hk.
  - by apply (repeat_matcher_ext (match_re r1)).
Qed.

(** *** Fuel

    The rounds of a star read a byte each, so fuel above the length of
    the text is never used up. *)

Lemma repeat_matcher_fuel (m : matcher) (greedy : bool) (ns : list nat)
    (f1 f2 : nat) (s : string) (caps : captures) (k : continuation) :
  extensional m -> String.length s < f1 -> String.length s < f2 ->
  repeat_matcher m greedy ns f1 s caps k = repeat_matcher m greedy ns f2 s caps k.
Proof.
  intros Hm. revert f2 s caps. induction f1 as [|f1 IH]; intros f2 s caps H1 H2; [lia|].
  destruct f2 as [|f2]; [lia|]. simpl.
  rewrite (Hm s (clear_groups ns caps) _ (fun s1 caps1 =>
    if String.length s1 <? String.length s
    then repeat_matcher m greedy ns f2 s1 caps1 k else None)); [done|].
  intros s1 caps1. destruct (_ <? _) eqn:E; [|done].
  apply Nat.ltb_lt in E. apply IH; lia.
Qed.

(** The star, free of fuel: the continuation and one more round, in the
    order of the star's kind. *)
Lemma match_star_eq (greedy : bool) (r1 : regex) (s : string) (caps : captures)
    (k : continuation) :
  match_re (RStar greedy r1) s caps k
  = let d : continuation := fun s1 caps1 =>
      if String.length s1 <? String.length s
      then match_re (RStar greedy r1) s1 caps1 k else None in
    if greedy then
      match match_re r1 s (clear_groups (groups r1) caps) d with
      | Some z => Some z
      | None => k s caps
      end
    else
      match k s caps with
      | Some z => Some z
      | None => match_re r1 s (clear_groups (groups r1) caps) d
      end.
Proof.
  cbn [match_re repeat_matcher].
  rewrite (match_re_ext r1 s (clear_groups (groups r1) caps) _ (fun s1 caps1 =>
    if String.length s1 <? String.length s
    then match_re (RStar greedy r1) s1 caps1 k else None)); [done|].
  intros s1 caps1. destruct (_ <? _) eqn:E; [|done]. apply Nat.ltb_lt in E.
  cbn [match_re]. apply repeat_matcher_fuel; [apply match_re_ext|lia..].
Qed.

(** *** The expression of the bold pairs *)

Lemma byte_is_decide (n : N) (c : ascii) :
  (n < 256)%N -> bool_decide (c = ascii_of_N n) = byte_is n c.
Proof.
  intros Hn. unfold byte_is. case_bool_decide as E.
  - subst c. rewrite N_ascii_embedding by done. symmetry. apply N.eqb_refl.
  - symmetry. apply N.eqb_neq. intros <-. by rewrite ascii_N_embedding in E.
Qed.

(** Two stars, then the continuation. *)
Lemma match_stars (s : string) (caps : captures) (k : continuation) :
  match_re (rseq [RChar "*"; RChar "*"]) s caps k
  = match strip_prefix "**" s with
    | Some rest => k rest caps
    | None => None
    end.
Proof.
  destruct s as [|c1 [|c2 s]]; simpl; repeat case_bool_decide; done.
Qed.

Lemma match_seq (r1 r2 : regex) (s : string) (caps : captures) (k : continuation) :
  match_re (RSeq r1 r2) s caps k
  = match_re r1 s caps (fun s1 caps1 => match_re r2 s1 caps1 k).
Proof. reflexivity. Qed.

Lemma match_char (c : ascii) (s : string) (caps : captures) (k : continuation) :
  match_re (RChar c) s caps k
  = match expect c s with
    | Some s' => k s' caps
    | None => None
    end.
Proof. destruct s; [done|]. simpl. by case_bool_decide. Qed.

Lemma match_group_re (n : nat) (r1 : regex) (s : string) (caps : captures)
    (k : continuation) :
  match_re (RGroup n r1) s caps k
  = match_re r1 s caps (fun s1 caps1 => k s1 (<[n := taken s s1]> caps1)).
Proof. reflexivity. Qed.

Lemma match_dot (s : string) (caps : captures) (k : continuation) :
  match_re RDot s caps k
  = match s with
    | String d s' => if starts_with_lt s then None else k s' caps
    | EmptyString => None
    end.
Proof. reflexivity. Qed.

(** The lazy star of the dot before two stars is [match_group]: [pre] is
    the text the group has read so far. *)
Lemma match_lazy_dot (s0 pre s : string) (caps : captures) :
  s0 = pre +:+ s ->
  match_re (RStar false RDot) s caps (fun s1 caps1 =>
    match strip_prefix "**" s1 with
    | Some rest => Some (rest, <[1 := taken s0 s1]> caps1)
    | None => None
    end)
  = (fun gr => (gr.2, <[1 := pre +:+ gr.1]> caps)) <$> match_group s.
Proof.
  revert pre. induction s as [|c s IH]; intros pre ->;
    rewrite match_star_eq, match_group_eq; cbn zeta; rewrite taken_app.
  { by rewrite string_app_nil_r. }
  destruct (strip_prefix "**" (String c s)) as [rest|]; cbn [fmap option_fmap option_map].
  { by rewrite string_app_nil_r. }
  rewrite match_dot. destruct (starts_with_lt (String c s)); [done|].
  change (clear_groups (groups RDot) caps) with caps.
  replace (String.length s <? String.length (String c s)) with true
    by (symmetry; apply Nat.ltb_lt; simpl; lia).
  rewrite (IH (pre +:+ String c "")) by (by rewrite string_app_assoc).
  destruct (match_group s) as [[g rest]|]; [|done]. simpl.
  by rewrite string_app_assoc.
Qed.

(** A match of the expression is a match of the scanner of [Format], and
    the text of group 1 is the group the scanner returns. *)
Lemma regex_match_bold (s : string) :
  regex_match bold_regex s
  = (fun gr => (gr.2, {[1 := gr.1]})) <$> match_bold s.
Proof.
  unfold regex_match, match_bold, bold_regex, rseq. cbn [foldr].
  rewrite match_seq, match_char.
  destruct s as [|c1 s]; [done|]. cbn [expect strip_prefix].
  case_bool_decide; [|done]. rewrite match_seq, match_char.
  destruct s as [|c2 s]; [done|]. cbn [expect strip_prefix].
  case_bool_decide; [|done].
  rewrite match_seq, match_group_re.
  rewrite (match_re_ext _ _ _ _ (fun s1 caps1 =>
    match strip_prefix "**" s1 with
    | Some rest => Some (rest, <[1 := taken s s1]> caps1)
    | None => None
    end)) by (intros; apply match_stars).
  rewrite (match_lazy_dot s "" s) by done.
  by destruct (match_group s) as [[g rest]|].
Qed.

Lemma regex_match_newline (s : string) :
  regex_match newline_regex s
  = match s with
    | String c s' => if byte_is 10 c then Some (s', ∅) else None
    | EmptyString => None
    end.
Proof.
  destruct s as [|c s']; [done|]. unfold regex_match, newline_regex.
  cbn [match_re]. by rewrite byte_is_decide.
Qed.

(** *** The scan *)

(** The bytes of a match are passed without a try. *)
Lemma replace_from_skip (r : regex) (tpl before m rest : string) :
  replace_from r tpl before (String.length m) (m +:+ rest)
  = replace_from r tpl (before +:+ m) 0 rest.
Proof.
  revert before. induction m as [|c m IH]; intros before.
  { by rewrite string_app_nil_r. }
  rewrite string_app_cons. simpl. rewrite IH. by rewrite string_app_assoc.
Qed.

(** The scan, position by position: a match that read text is replaced
    and the scan goes on after it; an empty match is replaced and the
    scan goes on one byte further. *)
Lemma replace_from_eq (r : regex) (tpl before s : string) :
  replace_from r tpl before 0 s
  = match regex_match r s with
    | Some (rest, caps) =>
        get_substitution (length (groups r)) (taken s rest) before rest caps tpl
        +:+ (if bool_decide (taken s rest = "") then replace_next r tpl before s
             else replace_from r tpl (before +:+ taken s rest) 0 rest)
    | None => replace_next r tpl before s
    end.
Proof.
  destruct s as [|c s']; simpl;
    destruct (regex_match r _) as [[rest caps]|] eqn:E; try done.
  f_equal. apply regex_match_forward in E.
  destruct (taken (String c s') rest) as [|c' m] eqn:Em; [done|].
  rewrite string_app_cons in E. injection E as <- ->.
  rewrite bool_decide_false by done. simpl.
  by rewrite replace_from_skip, string_app_assoc.
Qed.

Lemma bold_template_eq (matched before after : string) (caps : captures) :
  get_substitution 1 matched before after caps bold_template
  = "<b>" +:+ capture caps 1 +:+ "</b>".
Proof. reflexivity. Qed.

Lemma match_bold_taken (s g rest : string) :
  match_bold s = Some (g, rest) -> taken s rest = "**" +:+ g +:+ "**".
Proof.
  intros ->%match_bold_sound.
  rewrite <- (string_app_assoc g), <- (string_app_assoc "**"). apply taken_app.
Qed.

Lemma regex_replace_bold (before s : string) :
  replace_from bold_regex bold_template before 0 s = replace_bold_all s.
Proof.
  remember (String.length s) as n eqn:Hn. revert before s Hn.
  induction (lt_wf n) as [n _ IH]; intros before s ->.
  rewrite replace_from_eq, regex_match_bold.
  destruct s as [|c r]; [done|]. rewrite replace_bold_step. unfold replace_next.
  change (length (groups bold_regex)) with 1.
  destruct (match_bold (String c r)) as [[g rest]|] eqn:E;
    cbn [fmap option_fmap option_map fst snd].
  - rewrite (match_bold_taken _ _ _ E), bold_template_eq, bool_decide_false by done.
    unfold capture. rewrite lookup_singleton_eq. cbn [default].
    rewrite (IH _ (match_bold_length _ _ _ E) _ rest eq_refl).
    by rewrite !string_app_assoc.
  - by rewrite (IH _ (Nat.lt_succ_diag_r _) _ r eq_refl).
Qed.

Lemma regex_replace_newlines (before s : string) :
  replace_from newline_regex br_template before 0 s = replace_newlines s.
Proof.
  revert before. induction s as [|c s IH]; intros before; [done|].
  rewrite replace_from_eq, regex_match_newline. simpl.
  destruct (byte_is 10 c).
  - change (String c s) with (String c "" +:+ s).
    rewrite taken_app, bool_decide_false by done. by rewrite IH.
  - by rewrite IH.
Qed.

(** ** Theorems *)

(** The fuel of the star is enough: with any fuel above the length of
    the text the star gives the match it gives in [match_re]. *)
Theorem star_enough_fuel (greedy : bool) (r1 : regex) (fuel : nat) (s : string)
    (caps : captures) (k : continuation) :
  String.length s < fuel ->
  repeat_matcher (match_re r1) greedy (groups r1) fuel s caps k
  = match_re (RStar greedy r1) s caps k.
Proof. intros H. apply repeat_matcher_fuel; [apply match_re_ext|lia..]. Qed.

(** A match reads a prefix of the text, and the text of every group is
    read inside it. *)
Theorem regex_match_prefix (r : regex) (s rest : string) (caps : captures) :
  regex_match r s = Some (rest, caps) ->
  s = taken s rest +:+ rest /\ String.length rest <= String.length s.
Proof.
  intros E%regex_match_forward. split; [done|].
  apply (f_equal String.length) in E. rewrite string_app_length in E. lia.
Qed.

(** The matcher on expressions beyond the two of the source, as
    ECMAScript answers: an empty match is replaced once at every position,
    the end of the text included; a greedy star reads all it can and a
    lazy one nothing; a round of a star forgets the groups of the round
    before; a reference to a group the expression lacks stands for
    itself. *)
Theorem regex_replace_examples :
  regex_replace (RStar true (RChar "x")) "[$&]" "axxb" = "[]a[xx][]b[]"
  /\ regex_replace (RStar false (RChar "x")) "-" "xx" = "-x-x-"
  /\ regex_replace (RStar true (RAlt (RGroup 1 (RChar "a")) (RGroup 2 (RChar "b"))))
       "[$1$2]" "ab" = "[b][]"
  /\ regex_replace (RGroup 1 (RChar "b")) "<$`|$'|$1|$2|$01|$10|$$>" "abc"
     = "a<a|c|b|$2|b|b0|$>c"
  /\ regex_replace bold_regex bold_template "a **b** c **d*e** **"
     = "a <b>b</b> c <b>d*e</b> **".
Proof. repeat split; by vm_compute. Qed.

(** C11: the scanner of formatMessage is the regular expressions of the
    source: the markup is the global replacement of [/\n/] by [<br>] in
    the global replacement of [/\*\*(.*?)\*\*/] by [<b>$1</b>], both
    matched by the backtracking matcher of ECMAScript. *)
Theorem formatMessage_regex (text : string) :
  formatMessage text
  = regex_replace newline_regex br_template
      (regex_replace bold_regex bold_template text).
Proof.
  unfold regex_replace.
  by rewrite formatMessage_eq, regex_replace_newlines, regex_replace_bold.
Qed.

(** Witnesses. *)

Lemma star_enough_fuel_witness :
  repeat_matcher (match_re RDot) false (groups RDot) 10 "ab**" ∅
    (fun rest caps => Some (rest, caps))
  = match_re (RStar false RDot) "ab**" ∅ (fun rest caps => Some (rest, caps)).
Proof. apply star_enough_fuel. simpl. lia. Defined.

Lemma regex_match_prefix_witness :
  "**a** b" = taken "**a** b" " b" +:+ " b"
  /\ String.length " b" <= String.length "**a** b".
Proof. by apply (regex_match_prefix bold_regex "**a** b" " b" {[1 := "a"]}). Defined.
