(* ===== verification/Unicode.v ===== *)
(** * Unicode: the bytes of a string against its code points

    The development reads a [string] as the UTF-8 encoding of a JavaScript
    string, and [JsString] and [Format] recognise the white space, the line
    terminators, the stars and the newlines by their encodings.  This file
    states the operations on the code points themselves: [trim_cp] is
    [String.prototype.trim] as ECMAScript defines it, over [is_white_space]
    (WhiteSpace and LineTerminator), and [formatMessage_cp] is the scan of
    [formatMessage] over code points.  The theorems say that the operations
    on bytes compute the encoding of what the operations on code points
    compute, for every sequence of code points: no byte of a longer
    encoding is taken for white space, a brace, a star or a newline, and
    every code point is kept or dropped whole.

    A code point above U+FFFF is two code units of the JavaScript string;
    neither is white space, a line terminator, a star, a newline or a
    brace, so what holds of the code points holds of the code units. *)

From Stdlib Require Import Ascii String NArith Lia.
From stdpp Require Import base tactics option list strings.
From S2P Require Import Prelude JsString JsValue Json Normalizer Format.

Local Open Scope N_scope.

(** ** Code points *)

(** The UTF-8 text of a sequence of code points. *)
Definition utf8 (cps : list N) : string :=
  foldr (fun cp s => utf8_encode cp +:+ s) "" cps.

(** Every number of the sequence is a code point: below 0x110000. *)
Definition code_points (cps : list N) : Prop := Forall (fun cp => cp < 1114112) cps.

#[export] Instance code_points_dec (cps : list N) : Decision (code_points cps).
Proof. unfold code_points. apply _. Defined.

(** LineTerminator: LF, CR, U+2028, U+2029. *)
Definition is_line_terminator (cp : N) : bool :=
  (cp =? 10) || (cp =? 13) || (cp =? 8232) || (cp =? 8233).

(** WhiteSpace or LineTerminator, what [trim] strips: TAB, LF, VT, FF, CR,
    SP, U+00A0, U+1680, U+2000 to U+200A, U+2028, U+2029, U+202F, U+205F,
    U+3000 and U+FEFF. *)
Definition is_white_space (cp : N) : bool :=
  ((9 <=? cp) && (cp <=? 13)) || (cp =? 32) || (cp =? 160) || (cp =? 5760)
  || ((8192 <=? cp) && (cp <=? 8202)) || (cp =? 8232) || (cp =? 8233)
  || (cp =? 8239) || (cp =? 8287) || (cp =? 12288) || (cp =? 65279).

(** The encodings by their length: one to four bytes, with the six-bit
    digits of the code point. *)
Inductive encoding (cp : N) : string -> Prop :=
| encoding1 :
    cp < 128 -> encoding cp (String (ascii_of_N cp) "")
| encoding2 (a d : N) :
    cp = 64 * a + d -> 2 <= a < 32 -> d < 64 ->
    encoding cp (String (ascii_of_N (192 + a)) (String (ascii_of_N (128 + d)) ""))
| encoding3 (a b d : N) :
    cp = 4096 * a + 64 * b + d -> 2048 <= cp -> a < 16 -> b < 64 -> d < 64 ->
    encoding cp
      (String (ascii_of_N (224 + a))
         (String (ascii_of_N (128 + b)) (String (ascii_of_N (128 + d)) "")))
| encoding4 (a b c d : N) :
    cp = 262144 * a + 4096 * b + 64 * c + d -> 65536 <= cp ->
    a < 5 -> b < 64 -> c < 64 -> d < 64 ->
    encoding cp
      (String (ascii_of_N (240 + a))
         (String (ascii_of_N (128 + b))
            (String (ascii_of_N (128 + c)) (String (ascii_of_N (128 + d)) "")))).

(** ** trim on code points *)

Fixpoint trimStart_cp (cps : list N) : list N :=
  match cps with
  | cp :: rest => if is_white_space cp then trimStart_cp rest else cps
  | [] => []
  end.

Fixpoint trimEnd_cp (cps : list N) : list N :=
  match cps with
  | cp :: rest => if forallb is_white_space cps then [] else cp :: trimEnd_cp rest
  | [] => []
  end.

Definition trim_cp (cps : list N) : list N := trimEnd_cp (trimStart_cp cps).

(** ** formatMessage on code points *)

(** Two stars at the head. *)
Definition strip_stars_cp (cps : list N) : option (list N) :=
  match cps with
  | c1 :: c2 :: rest => if (c1 =? 42) && (c2 =? 42) then Some rest else None
  | _ => None
  end.

(** The lazy group and the closing stars: code points that are no line
    terminators, up to the first two stars. *)
Fixpoint match_group_cp (cps : list N) : option (list N * list N) :=
  match strip_stars_cp cps with
  | Some rest => Some ([], rest)
  | None =>
      match cps with
      | cp :: r =>
          if is_line_terminator cp then None
          else prod_map (cons cp) id <$> match_group_cp r
      | [] => None
      end
  end.

Definition match_bold_cp (cps : list N) : option (list N * list N) :=
  match strip_stars_cp cps with
  | Some after => match_group_cp after
  | None => None
  end.

(** The code points of [<b>], [</b>] and [<br>]. *)
Definition b_open : list N := [60; 98; 62].
Definition b_close : list N := [60; 47; 98; 62].
Definition br : list N := [60; 98; 114; 62].

(** The replacement of the bold pairs; [skip] counts the code points of
    the pair found last that are still to pass. *)
Fixpoint replace_bold_cp (skip : nat) (cps : list N) : list N :=
  match skip, cps with
  | S n, _ :: r => replace_bold_cp n r
  | _, [] => []
  | O, cp :: r =>
      match match_bold_cp cps with
      | Some (g, rest) =>
          b_open ++ g ++ b_close ++ replace_bold_cp (length g + 3) r
      | None => cp :: replace_bold_cp 0 r
      end
  end.

Fixpoint replace_newlines_cp (cps : list N) : list N :=
  match cps with
  | cp :: r => if cp =? 10 then br ++ replace_newlines_cp r else cp :: replace_newlines_cp r
  | [] => []
  end.

Definition formatMessage_cp (cps : list N) : list N :=
  replace_newlines_cp (replace_bold_cp 0 cps).

(** ** Lemmas *)

(** *** Bytes of an encoding *)

Lemma byte_is_of_N (n x : N) : x < 256 -> byte_is n (ascii_of_N x) = (x =? n).
Proof. intros H. unfold byte_is. by rewrite N_ascii_embedding. Qed.

Lemma ascii_of_N_inj (x y : N) :
  x < 256 -> y < 256 -> ascii_of_N x = ascii_of_N y -> x = y.
Proof.
  intros Hx Hy H%(f_equal N_of_ascii). by rewrite !N_ascii_embedding in H.
Qed.

Lemma is_ws1_of_N (x : N) :
  x < 256 -> is_ws1 (ascii_of_N x) = ((9 <=? x) && (x <=? 13)) || (x =? 32).
Proof. intros H. unfold is_ws1. by rewrite N_ascii_embedding. Qed.

Lemma is_ws2_of_N (x y : N) :
  x < 256 -> y < 256 ->
  is_ws2 (ascii_of_N x) (ascii_of_N y) = (x =? 194) && (y =? 160).
Proof. intros. unfold is_ws2. by rewrite !byte_is_of_N. Qed.

Lemma is_ws3_of_N (x y z : N) :
  x < 256 -> y < 256 -> z < 256 ->
  is_ws3 (ascii_of_N x) (ascii_of_N y) (ascii_of_N z)
  = ((x =? 225) && (y =? 154) && (z =? 128))
    || ((x =? 226) && (y =? 128)
        && (((128 <=? z) && (z <=? 138)) || (z =? 168) || (z =? 169) || (z =? 175)))
    || ((x =? 226) && (y =? 129) && (z =? 159))
    || ((x =? 227) && (y =? 128) && (z =? 128))
    || ((x =? 239) && (y =? 187) && (z =? 191)).
Proof. intros. unfold is_ws3. by rewrite !byte_is_of_N, N_ascii_embedding. Qed.

Lemma is_lt1_of_N (x : N) :
  x < 256 -> is_lt1 (ascii_of_N x) = (x =? 10) || (x =? 13).
Proof. intros. unfold is_lt1. by rewrite !byte_is_of_N. Qed.

(** A goal between boolean combinations of comparisons, by arithmetic. *)
Ltac barith :=
  apply Bool.eq_true_iff_eq;
  repeat first [rewrite orb_true_iff | rewrite andb_true_iff];
  rewrite ?N.eqb_eq, ?N.leb_le, ?N.ltb_lt;
  lia.

(** The tests on bytes given by their numbers, as comparisons. *)
Ltac bytes :=
  rewrite ?is_ws1_of_N, ?is_ws2_of_N, ?is_ws3_of_N, ?is_lt1_of_N, ?byte_is_of_N by lia.

(** The six-bit digits of a code point. *)
Lemma digits64 (cp : N) :
  exists a b c d,
    cp = 262144 * a + 4096 * b + 64 * c + d /\ b < 64 /\ c < 64 /\ d < 64
    /\ cp / 64 = 4096 * a + 64 * b + c /\ cp mod 64 = d
    /\ cp / 4096 = 64 * a + b /\ (cp / 64) mod 64 = c
    /\ cp / 262144 = a /\ (cp / 4096) mod 64 = b.
Proof.
  exists (cp / 262144), ((cp / 4096) mod 64), ((cp / 64) mod 64), (cp mod 64).
  pose proof (N.div_mod cp 64). pose proof (N.mod_lt cp 64).
  pose proof (N.div_mod (cp / 64) 64). pose proof (N.mod_lt (cp / 64) 64).
  pose proof (N.div_mod (cp / 4096) 64). pose proof (N.mod_lt (cp / 4096) 64).
  assert (cp / 4096 = cp / 64 / 64) by (by rewrite N.Div0.div_div).
  assert (cp / 262144 = cp / 4096 / 64) by (by rewrite N.Div0.div_div).
  lia.
Qed.

(** The encoding of a code point is one of the four. *)
Lemma utf8_encode_spec (cp : N) : cp < 1114112 -> encoding cp (utf8_encode cp).
Proof.
  intros Hcp. unfold utf8_encode.
  destruct (digits64 cp) as (a & b & c & d & E & Hb & Hc & Hd & -> & -> & -> & -> & -> & ->).
  destruct (N.ltb_spec cp 128); [by constructor|].
  destruct (N.ltb_spec cp 2048); [apply encoding2; lia|].
  destruct (N.ltb_spec cp 65536); [|apply encoding4; lia].
  assert (a = 0) as -> by lia. apply encoding3; lia.
Qed.

Lemma utf8_encode_cons (cp : N) : exists c s, utf8_encode cp = String c s.
Proof. unfold utf8_encode. repeat case_match; eauto. Qed.

Lemma utf8_cons (cp : N) (cps : list N) :
  utf8 (cp :: cps) = utf8_encode cp +:+ utf8 cps.
Proof. reflexivity. Qed.

Lemma utf8_app (l1 l2 : list N) : utf8 (l1 ++ l2) = utf8 l1 +:+ utf8 l2.
Proof.
  induction l1 as [|cp l1 IH]; [done|]. rewrite <- app_comm_cons.
  by rewrite !utf8_cons, IH, string_app_assoc.
Qed.

Lemma code_points_cons (cp : N) (cps : list N) :
  code_points (cp :: cps) <-> cp < 1114112 /\ code_points cps.
Proof. unfold code_points. by rewrite Forall_cons. Qed.

Lemma code_points_app (l1 l2 : list N) :
  code_points (l1 ++ l2) <-> code_points l1 /\ code_points l2.
Proof. unfold code_points. by rewrite Forall_app. Qed.

(** *** The left trim, one code point at a time *)

(** A byte that begins no white space is where the left trim stops. *)
Lemma trimStart_lead (c : ascii) (r : string) :
  is_ws1 c = false -> byte_is 194 c = false -> byte_is 225 c = false ->
  byte_is 226 c = false -> byte_is 227 c = false -> byte_is 239 c = false ->
  trimStart (String c r) = String c r.
Proof.
  intros H1 H2 H3 H4 H5 H6. simpl. rewrite H1.
  destruct r as [|c2 [|c3 r]]; [done|..]; unfold is_ws2, is_ws3;
    by rewrite ?H2, ?H3, ?H4, ?H5, ?H6.
Qed.

(** The bytes from 128 on, but for five lead bytes, begin no white space. *)
Lemma trimStart_of_N (x : N) (r : string) :
  x < 256 -> 128 <= x -> x <> 194 -> x <> 225 -> x <> 226 -> x <> 227 -> x <> 239 ->
  trimStart (String (ascii_of_N x) r) = String (ascii_of_N x) r.
Proof. intros. apply trimStart_lead; bytes; barith. Qed.

Lemma trimStart_cons2 (c1 c2 : ascii) (r : string) :
  is_ws1 c1 = false ->
  trimStart (String c1 (String c2 r))
  = if is_ws2 c1 c2 then trimStart r
    else match r with
         | String c3 s3 =>
             if is_ws3 c1 c2 c3 then trimStart s3 else String c1 (String c2 r)
         | EmptyString => String c1 (String c2 r)
         end.
Proof. intros H. cbn [trimStart]. by rewrite H. Qed.

(** The bytes of a code point of three bytes are white space exactly when
    the code point is: each alternative of [is_ws3] is one code point or
    one range. *)
Lemma is_ws3_encode (b c d : N) :
  b < 16 -> c < 64 -> d < 64 -> 2048 <= 4096 * b + 64 * c + d ->
  is_ws3 (ascii_of_N (224 + b)) (ascii_of_N (128 + c)) (ascii_of_N (128 + d))
  = is_white_space (4096 * b + 64 * c + d).
Proof.
  intros Hb Hc Hd Hcp. bytes. unfold is_white_space.
  set (cp := 4096 * b + 64 * c + d) in *.
  replace ((224 + b =? 225) && _ && _) with (cp =? 5760) by barith.
  replace ((224 + b =? 226) && (128 + c =? 128) && _)
    with (((8192 <=? cp) && (cp <=? 8202)) || (cp =? 8232) || (cp =? 8233) || (cp =? 8239))
    by barith.
  replace ((224 + b =? 226) && _ && _) with (cp =? 8287) by barith.
  replace ((224 + b =? 227) && _ && _) with (cp =? 12288) by barith.
  replace ((224 + b =? 239) && _ && _) with (cp =? 65279) by barith.
  replace ((9 <=? cp) && (cp <=? 13)) with false by barith.
  replace (cp =? 32) with false by barith.
  replace (cp =? 160) with false by barith.
  by rewrite !orb_false_l, !orb_assoc.
Qed.

Lemma trimStart_encode (cp : N) (r : string) :
  cp < 1114112 ->
  trimStart (utf8_encode cp +:+ r)
  = if is_white_space cp then trimStart r else utf8_encode cp +:+ r.
Proof.
  intros Hcp.
  destruct (utf8_encode_spec cp Hcp) as [H|a d -> Ha Hd|a b d -> H Ha Hb Hd|a b c d -> H Ha Hb Hc Hd];
    rewrite ?string_app_cons, string_app_nil_l.
  - replace (is_white_space cp) with (is_ws1 (ascii_of_N cp))
      by (bytes; unfold is_white_space; barith).
    destruct (is_ws1 (ascii_of_N cp)) eqn:Ews; [by simpl; rewrite Ews|].
    apply trimStart_lead; [done|bytes; barith..].
  - rewrite trimStart_cons2 by (bytes; barith). bytes.
    replace (is_white_space _) with ((192 + a =? 194) && (128 + d =? 160))
      by (unfold is_white_space; barith).
    destruct (_ && _); [done|]. destruct r as [|c3 r]; [done|].
    unfold is_ws3. bytes.
    by replace (192 + a =? 225) with false by barith;
       replace (192 + a =? 226) with false by barith;
       replace (192 + a =? 227) with false by barith;
       replace (192 + a =? 239) with false by barith.
  - rewrite <- is_ws3_encode by lia.
    rewrite trimStart_cons2 by (bytes; barith). rewrite is_ws2_of_N by lia.
    by replace ((224 + a =? 194) && _) with false by barith.
  - replace (is_white_space _) with false by (unfold is_white_space; barith).
    apply trimStart_of_N; lia.
Qed.

Lemma code_points_trimStart (cps : list N) :
  code_points cps -> code_points (trimStart_cp cps).
Proof.
  unfold code_points. induction 1 as [|cp cps Hcp Hcps IH]; [done|]. simpl.
  destruct (is_white_space cp); [done|by constructor].
Qed.

Lemma trimStart_utf8_eq (cps : list N) :
  code_points cps -> trimStart (utf8 cps) = utf8 (trimStart_cp cps).
Proof.
  unfold code_points. induction 1 as [|cp cps Hcp Hcps IH]; [done|].
  rewrite utf8_cons, trimStart_encode by done. simpl.
  by destruct (is_white_space cp).
Qed.

(** *** White space only *)

Lemma all_ws_encode (cp : N) (r : string) :
  cp < 1114112 -> all_ws (utf8_encode cp +:+ r) = is_white_space cp && all_ws r.
Proof.
  intros Hcp. unfold all_ws. rewrite trimStart_encode by done.
  destruct (is_white_space cp); [done|].
  destruct (utf8_encode_cons cp) as (c & s & ->). by rewrite string_app_cons.
Qed.

Lemma all_ws_utf8 (cps : list N) :
  code_points cps -> all_ws (utf8 cps) = forallb is_white_space cps.
Proof.
  unfold code_points. induction 1 as [|cp cps Hcp Hcps IH]; [done|].
  by rewrite utf8_cons, all_ws_encode, IH.
Qed.

Lemma is_blank_all_ws (s : string) : is_blank s = all_ws s.
Proof. apply Bool.eq_true_iff_eq. by rewrite is_blank_iff, all_ws_iff. Qed.

(** *** The right trim *)

Lemma trimEnd_cons_eq (c : ascii) (s : string) :
  trimEnd (String c s) = if all_ws (String c s) then "" else String c (trimEnd s).
Proof. reflexivity. Qed.

(** A continuation byte is no white space and begins none. *)
Lemma trimEnd_continuation (x : N) (r : string) :
  128 <= x < 192 ->
  trimEnd (String (ascii_of_N x) r) = String (ascii_of_N x) (trimEnd r).
Proof.
  intros H. rewrite trimEnd_cons_eq. unfold all_ws.
  by rewrite trimStart_of_N by lia.
Qed.

Lemma trimEnd_encode (cp : N) (r : string) :
  cp < 1114112 ->
  trimEnd (utf8_encode cp +:+ r)
  = if is_white_space cp && all_ws r then "" else utf8_encode cp +:+ trimEnd r.
Proof.
  intros Hcp. rewrite <- all_ws_encode by done.
  destruct (utf8_encode_spec cp Hcp);
    rewrite ?string_app_cons, ?string_app_nil_l, trimEnd_cons_eq;
    (destruct (all_ws _); [done|]); by rewrite ?trimEnd_continuation by lia.
Qed.

Lemma trimEnd_utf8_eq (cps : list N) :
  code_points cps -> trimEnd (utf8 cps) = utf8 (trimEnd_cp cps).
Proof.
  unfold code_points. induction 1 as [|cp cps Hcp Hcps IH]; [done|].
  rewrite utf8_cons, trimEnd_encode, all_ws_utf8, IH by done.
  cbn [trimEnd_cp forallb]. by destruct (_ && _).
Qed.

(** *** The first byte and the first code point *)

(** The first byte of an encoding is the ASCII byte [c] exactly when the
    code point is [c]. *)
Lemma expect_encode (cp c : N) (r : string) :
  cp < 1114112 -> c < 128 ->
  expect (ascii_of_N c) (utf8_encode cp +:+ r) = if cp =? c then Some r else None.
Proof.
  intros Hcp Hc.
  assert (forall x, x < 256 -> x <> c -> bool_decide (ascii_of_N x = ascii_of_N c) = false)
    as Hne by (intros x ? ?; apply bool_decide_eq_false; intros ?%ascii_of_N_inj; lia).
  destruct (utf8_encode_spec cp Hcp) as [H|a d -> Ha Hd|a b d -> H Ha Hb Hd|a b c' d -> H Ha Hb Hc' Hd];
    rewrite ?string_app_cons, string_app_nil_l; cbn [expect].
  2-4: rewrite Hne by lia; symmetry; by replace (_ =? c) with false by barith.
  destruct (N.eqb_spec cp c) as [->|?]; [by rewrite bool_decide_true|].
  by rewrite Hne by lia.
Qed.

Lemma startsWith_encode (cp c : N) (r : string) :
  cp < 1114112 -> c < 128 ->
  startsWith (utf8_encode cp +:+ r) (String (ascii_of_N c) "") = (cp =? c).
Proof.
  intros Hcp Hc. pose proof (expect_encode cp c r Hcp Hc) as H.
  destruct (utf8_encode_cons cp) as (c0 & s0 & E). rewrite E, string_app_cons in *.
  rewrite startsWith_cons, startsWith_nil, andb_true_r. simpl in H.
  destruct (cp =? c); case_bool_decide; try done;
    [by rewrite bool_decide_true|by rewrite bool_decide_false by congruence].
Qed.

Lemma starts_with_lt_lead (c : ascii) (r : string) :
  byte_is 226 c = false -> starts_with_lt (String c r) = is_lt1 c.
Proof.
  intros H. destruct r as [|c2 [|c3 r]]; simpl; [done..|].
  unfold is_lt3. by rewrite H, orb_false_r.
Qed.

Lemma starts_with_lt_encode (cp : N) (r : string) :
  cp < 1114112 ->
  starts_with_lt (utf8_encode cp +:+ r) = is_line_terminator cp.
Proof.
  intros Hcp. unfold is_line_terminator.
  destruct (utf8_encode_spec cp Hcp) as [H|a d -> Ha Hd|a b d -> H Ha Hb Hd|a b c d -> H Ha Hb Hc Hd];
    rewrite ?string_app_cons, string_app_nil_l.
  1, 2, 4: rewrite starts_with_lt_lead by (bytes; barith); bytes; barith.
  cbn [starts_with_lt]. unfold is_lt3. bytes. barith.
Qed.

(** *** formatMessage, one code point at a time *)

Lemma expect_star (cp : N) (r : string) :
  cp < 1114112 ->
  expect "*" (utf8_encode cp +:+ r) = if cp =? 42 then Some r else None.
Proof. intros H. by apply (expect_encode cp 42). Qed.

Lemma strip_prefix_stars (s : string) :
  strip_prefix "**" s = expect "*" s ≫= expect "*".
Proof.
  destruct s as [|c1 s]; [done|]. simpl. case_bool_decide; [|done].
  destruct s as [|c2 s]; [done|]. simpl. by case_bool_decide.
Qed.

Lemma strip_stars_utf8 (cps : list N) :
  code_points cps ->
  strip_prefix "**" (utf8 cps) = utf8 <$> strip_stars_cp cps.
Proof.
  intros H. rewrite strip_prefix_stars.
  destruct cps as [|c1 cps]; [done|]. apply code_points_cons in H as [H1 H].
  rewrite utf8_cons, expect_star by done.
  destruct cps as [|c2 cps]; [by destruct (c1 =? 42)|].
  apply code_points_cons in H as [H2 H]. cbn [strip_stars_cp].
  destruct (c1 =? 42); [|done]. cbn [mbind option_bind andb].
  rewrite utf8_cons, expect_star by done.
  by destruct (c2 =? 42).
Qed.

(** A byte that is no star and begins no line terminator is read by the
    group. *)
Lemma match_group_byte (x : N) (r : string) :
  x < 256 -> x <> 42 -> x <> 10 -> x <> 13 -> x <> 226 ->
  match_group (String (ascii_of_N x) r)
  = prod_map (String (ascii_of_N x)) id <$> match_group r.
Proof.
  intros Hx H42 H10 H13 H226. rewrite match_group_eq.
  change "**"%string with (String (ascii_of_N 42) "*"). cbn [strip_prefix].
  rewrite bool_decide_false by (intros ?%ascii_of_N_inj; lia).
  rewrite starts_with_lt_lead by (bytes; barith). bytes.
  by replace ((x =? 10) || (x =? 13)) with false by barith.
Qed.

(** Where no two stars stand, the group reads a code point that is no
    line terminator whole. *)
Lemma match_group_encode (cp : N) (r : string) :
  cp < 1114112 -> strip_prefix "**" (utf8_encode cp +:+ r) = None ->
  match_group (utf8_encode cp +:+ r)
  = if is_line_terminator cp then None
    else prod_map (fun g => utf8_encode cp +:+ g) id <$> match_group r.
Proof.
  intros Hcp Hs. rewrite match_group_eq, Hs.
  pose proof (starts_with_lt_encode cp r Hcp) as Hlt. clear Hs.
  destruct (is_line_terminator cp) eqn:Elt.
  { destruct (utf8_encode_cons cp) as (c0 & s0 & E). rewrite E in *.
    rewrite string_app_cons in *. by rewrite Hlt. }
  unfold is_line_terminator in Elt.
  assert (cp <> 10 /\ cp <> 13 /\ cp <> 8232 /\ cp <> 8233) as (? & ? & ? & ?).
  { repeat (apply orb_false_iff in Elt as [Elt ?]). repeat split; by apply N.eqb_neq. }
  revert Hlt.
  destruct (utf8_encode_spec cp Hcp); rewrite ?string_app_cons, ?string_app_nil_l;
    intros ->; rewrite ?match_group_byte by lia;
    by destruct (match_group r) as [[??]|].
Qed.

(** The group on bytes is the group on code points. *)
Lemma match_group_utf8 (cps : list N) :
  code_points cps ->
  match_group (utf8 cps) = prod_map utf8 utf8 <$> match_group_cp cps.
Proof.
  unfold code_points. induction 1 as [|cp cps Hcp Hcps IH]; [done|].
  assert (code_points (cp :: cps)) as Hall by (by constructor).
  pose proof (strip_stars_utf8 _ Hall) as Hs. cbn [match_group_cp].
  destruct (strip_stars_cp (cp :: cps)) as [rest|] eqn:Es.
  { by rewrite match_group_eq, Hs. }
  rewrite utf8_cons in *. rewrite match_group_encode, IH by done.
  destruct (is_line_terminator cp); [done|].
  by destruct (match_group_cp cps) as [[??]|].
Qed.

Lemma match_bold_utf8 (cps : list N) :
  code_points cps ->
  match_bold (utf8 cps) = prod_map utf8 utf8 <$> match_bold_cp cps.
Proof.
  intros H. unfold match_bold, match_bold_cp. rewrite strip_stars_utf8 by done.
  destruct cps as [|c1 [|c2 rest]]; try done. cbn [strip_stars_cp].
  destruct (_ && _); [|done]. apply match_group_utf8.
  by apply code_points_cons in H as [_ [_ H]%code_points_cons].
Qed.

(** *** The scan *)

Lemma strip_stars_cp_Some (cps rest : list N) :
  strip_stars_cp cps = Some rest <-> cps = 42 :: 42 :: rest.
Proof.
  destruct cps as [|c1 [|c2 r]]; simpl; try done.
  destruct (N.eqb_spec c1 42), (N.eqb_spec c2 42); simpl; split; intros; simplify_eq; done.
Qed.

Lemma match_group_cp_sound (cps g rest : list N) :
  match_group_cp cps = Some (g, rest) -> cps = g ++ 42 :: 42 :: rest.
Proof.
  revert g. induction cps as [|cp r IH]; intros g; [done|]. cbn [match_group_cp].
  destruct (strip_stars_cp (cp :: r)) as [rest'|] eqn:Es.
  { intros [= <- <-]. by apply strip_stars_cp_Some in Es. }
  destruct (is_line_terminator cp); [done|].
  destruct (match_group_cp r) as [[g' rest']|]; [|done].
  intros [= <- <-]. by rewrite (IH g' eq_refl).
Qed.

Lemma match_bold_cp_sound (cps g rest : list N) :
  match_bold_cp cps = Some (g, rest) -> cps = 42 :: 42 :: g ++ 42 :: 42 :: rest.
Proof.
  unfold match_bold_cp. destruct (strip_stars_cp cps) as [after|] eqn:Es; [|done].
  apply strip_stars_cp_Some in Es as ->. by intros ->%match_group_cp_sound.
Qed.

(** The code points of a pair are passed without a try. *)
Lemma replace_bold_cp_skip (m rest : list N) :
  replace_bold_cp (length m) (m ++ rest) = replace_bold_cp 0 rest.
Proof. induction m as [|cp m IH]; [by destruct rest|]. apply IH. Qed.

(** The scan on code points, position by position. *)
Lemma replace_bold_cp_eq (cp : N) (r : list N) :
  replace_bold_cp 0 (cp :: r)
  = match match_bold_cp (cp :: r) with
    | Some (g, rest) => b_open ++ g ++ b_close ++ replace_bold_cp 0 rest
    | None => cp :: replace_bold_cp 0 r
    end.
Proof.
  cbn [replace_bold_cp]. destruct (match_bold_cp (cp :: r)) as [[g rest]|] eqn:E; [|done].
  apply match_bold_cp_sound in E. injection E as -> ->.
  do 3 f_equal. rewrite <- (replace_bold_cp_skip (42 :: g ++ [42; 42]) rest).
  f_equal; [simpl; rewrite length_app; simpl; lia|].
  simpl. by rewrite <- app_assoc.
Qed.

Lemma code_points_replace_bold (skip : nat) (cps : list N) :
  code_points cps -> code_points (replace_bold_cp skip cps).
Proof.
  intros H. revert skip. unfold code_points in *.
  induction H as [|cp r Hcp Hr IH]; intros [|n]; try done; [|apply IH].
  cbn [replace_bold_cp].
  destruct (match_bold_cp (cp :: r)) as [[g rest]|] eqn:E; [|by constructor].
  apply match_bold_cp_sound in E. injection E as -> ->.
  apply Forall_cons in Hr as [_ [Hg _]%Forall_app].
  repeat (apply Forall_app; split); try done; try apply IH; by repeat constructor.
Qed.

(** A byte that is no star is copied. *)
Lemma replace_bold_byte (x : N) (s : string) :
  x < 256 -> x <> 42 ->
  replace_bold_all (String (ascii_of_N x) s) = String (ascii_of_N x) (replace_bold_all s).
Proof.
  intros Hx H42. rewrite replace_bold_step. unfold match_bold.
  change "**"%string with (String (ascii_of_N 42) "*"). cbn [strip_prefix].
  by rewrite bool_decide_false by (intros ?%ascii_of_N_inj; lia).
Qed.

(** A code point at which no pair begins is copied whole. *)
Lemma replace_bold_encode (cp : N) (r : string) :
  cp < 1114112 -> match_bold (utf8_encode cp +:+ r) = None ->
  replace_bold_all (utf8_encode cp +:+ r) = utf8_encode cp +:+ replace_bold_all r.
Proof.
  intros Hcp. destruct (utf8_encode_spec cp Hcp);
    rewrite ?string_app_cons, ?string_app_nil_l; intros Hm;
    rewrite replace_bold_step, Hm; by rewrite ?replace_bold_byte by lia.
Qed.

Lemma replace_bold_utf8 (cps : list N) :
  code_points cps -> replace_bold_all (utf8 cps) = utf8 (replace_bold_cp 0 cps).
Proof.
  remember (length cps) as n eqn:Hn. revert cps Hn.
  induction (lt_wf n) as [n _ IH]; intros cps -> Hall.
  destruct cps as [|cp r]; [done|]. rewrite replace_bold_cp_eq.
  pose proof (match_bold_utf8 _ Hall) as Hm.
  destruct (match_bold_cp (cp :: r)) as [[g rest]|] eqn:E;
    cbn [fmap option_fmap option_map prod_map fst snd] in Hm.
  - destruct (utf8_encode_cons cp) as (c0 & s0 & E0).
    rewrite utf8_cons, E0, string_app_cons in *. rewrite replace_bold_step, Hm.
    apply match_bold_cp_sound in E. rewrite E in Hall.
    rewrite (IH (length rest)); [by rewrite !utf8_app| |done|].
    + rewrite E. simpl. rewrite length_app. simpl. lia.
    + apply code_points_cons in Hall as [_ [_ Hall]%code_points_cons].
      by apply code_points_app in Hall as [_ [_ [_ ?]%code_points_cons]%code_points_cons].
  - apply code_points_cons in Hall as [Hcp Hr].
    rewrite !utf8_cons, replace_bold_encode by done.
    by rewrite (IH (length r)) by (simpl; done || lia).
Qed.

Lemma replace_newlines_encode (cp : N) :
  cp < 1114112 ->
  replace_newlines (utf8_encode cp) = if cp =? 10 then "<br>" else utf8_encode cp.
Proof.
  intros Hcp. destruct (N.eqb_spec cp 10) as [->|Hne]; [done|].
  destruct (utf8_encode_spec cp Hcp); cbn [replace_newlines]; bytes;
    repeat (match goal with |- context [?x =? 10] =>
              replace (x =? 10) with false by barith end); done.
Qed.

Lemma replace_newlines_utf8 (cps : list N) :
  code_points cps -> replace_newlines (utf8 cps) = utf8 (replace_newlines_cp cps).
Proof.
  unfold code_points. induction 1 as [|cp r Hcp Hr IH]; [done|].
  rewrite utf8_cons, replace_newlines_app, replace_newlines_encode, IH by done.
  cbn [replace_newlines_cp]. by destruct (cp =? 10).
Qed.

(** ** Theorems *)

(** The left trim of the bytes is the encoding of the left trim of the
    code points. *)
Theorem trimStart_utf8 (cps : list N) :
  code_points cps -> trimStart (utf8 cps) = utf8 (trimStart_cp cps).
Proof. apply trimStart_utf8_eq. Qed.

(** The guard of [sendUserMessage] rejects exactly the texts whose code
    points are all white space or line terminators. *)
Theorem is_blank_utf8 (cps : list N) :
  code_points cps -> is_blank (utf8 cps) = forallb is_white_space cps.
Proof. intros H. by rewrite is_blank_all_ws, all_ws_utf8. Qed.

(** The test of the normaliser, [s.trim().startsWith('{')], holds exactly
    when the first code point that is no white space is an open brace. *)
Theorem looks_like_object_utf8 (cps : list N) :
  code_points cps ->
  looks_like_object (utf8 cps)
  = match trimStart_cp cps with
    | cp :: _ => cp =? 123
    | [] => false
    end.
Proof.
  intros H. unfold looks_like_object.
  rewrite (startsWith_trim _ "{"), trimStart_utf8_eq by done.
  apply code_points_trimStart in H.
  destruct (trimStart_cp cps) as [|cp rest]; [done|].
  apply code_points_cons in H as [Hcp _].
  rewrite utf8_cons. by apply (startsWith_encode cp 123).
Qed.

(** C34: [trim] on the bytes of a text is [trim] on its code points, and
    so are the two guards of the component that call it.  For every
    sequence of code points, trimming the UTF-8 text gives the UTF-8 text
    of the sequence without the white space and the line terminators of
    ECMAScript at its two ends; the guard of [sendUserMessage] (line 93)
    takes a text for blank exactly when all its code points are white
    space; and the test of the normaliser (lines 130 and 150) holds exactly
    when the first code point that is no white space is an open brace. *)
Theorem trim_utf8 (cps : list N) :
  code_points cps ->
  trim (utf8 cps) = utf8 (trim_cp cps)
  /\ is_blank (utf8 cps) = forallb is_white_space cps
  /\ looks_like_object (utf8 cps)
     = match trimStart_cp cps with
       | cp :: _ => cp =? 123
       | [] => false
       end.
Proof.
  intros H. split; [|by split; [apply is_blank_utf8|apply looks_like_object_utf8]].
  unfold trim, trim_cp. rewrite trimStart_utf8_eq by done.
  apply trimEnd_utf8_eq. by apply code_points_trimStart.
Qed.

(** The dot of a regular expression stops at the bytes of a line
    terminator, and at no other code point. *)
Theorem starts_with_lt_utf8 (cp : N) (cps : list N) :
  code_points (cp :: cps) ->
  starts_with_lt (utf8 (cp :: cps)) = is_line_terminator cp.
Proof.
  intros [Hcp _]%code_points_cons. rewrite utf8_cons. by apply starts_with_lt_encode.
Qed.

(** The markup of a text is the encoding of the markup of its code
    points: the scan on bytes takes no byte of a longer encoding for a
    star, a newline or a line terminator, and copies every code point
    whole. *)
Theorem formatMessage_utf8 (cps : list N) :
  code_points cps -> formatMessage (utf8 cps) = utf8 (formatMessage_cp cps).
Proof.
  intros H. rewrite formatMessage_eq, replace_bold_utf8 by done.
  by apply replace_newlines_utf8, code_points_replace_bold.
Qed.

(** Witnesses: a text in Devanagari between a no-break space, a line
    separator and a byte order mark. *)

Definition sample_points : list N := [160; 8232; 2344; 2350; 32; 123; 65279; 10].

Lemma trimStart_utf8_witness :
  trimStart (utf8 sample_points) = utf8 [2344; 2350; 32; 123; 65279; 10].
Proof. apply (trimStart_utf8 sample_points). by repeat constructor. Defined.

Lemma trim_utf8_witness :
  trim (utf8 sample_points) = utf8 [2344; 2350; 32; 123]
  /\ is_blank (utf8 sample_points) = false
  /\ looks_like_object (utf8 sample_points) = false.
Proof. apply (trim_utf8 sample_points). by repeat constructor. Defined.

Lemma is_blank_utf8_witness : is_blank (utf8 [160; 8232; 65279; 12288]) = true.
Proof. by apply (is_blank_utf8 [160; 8232; 65279; 12288]); repeat constructor. Defined.

Lemma looks_like_object_utf8_witness :
  looks_like_object (utf8 [160; 8232; 123; 125]) = true.
Proof. by apply (looks_like_object_utf8 [160; 8232; 123; 125]); repeat constructor. Defined.

Lemma starts_with_lt_utf8_witness : starts_with_lt (utf8 [8233; 97]) = true.
Proof. by apply (starts_with_lt_utf8 8233 [97]); repeat constructor. Defined.

Lemma formatMessage_utf8_witness :
  formatMessage (utf8 [42; 42; 2344; 8232; 42; 42; 10; 42; 42; 2350; 42; 42])
  = utf8 [42; 42; 2344; 8232; 42; 42; 60; 98; 114; 62; 60; 98; 62; 2350; 60; 47; 98; 62].
Proof.
  by apply (formatMessage_utf8 [42; 42; 2344; 8232; 42; 42; 10; 42; 42; 2350; 42; 42]);
    repeat constructor.
Defined.
