(* ===== verification/Action.v ===== *)
(** * Action: handlers as state transformers

    A handler of the component reads and writes the fields of [this], asks
    its collaborators for effects (a request, a scroll, a log line) and may
    throw.  [action S E A] is such a computation over a state [S] with
    effects [E]: it returns the state it leaves, the effects it asked for in
    order, and a completion.  A throw keeps the writes and the effects that
    came before it, as a JavaScript exception does. *)

From Stdlib Require Import String Lia.
From stdpp Require Import base tactics option list.
From S2P Require Import Prelude.

(** ** Definitions *)

Record outcome (S E A : Type) : Type := Outcome {
  out_state : S;
  out_effects : list E;
  out_result : completion A;
}.

Arguments Outcome {S E A} out_state out_effects out_result.
Arguments out_state {S E A} o.
Arguments out_effects {S E A} o.
Arguments out_result {S E A} o.

Definition action (S E A : Type) : Type := S -> outcome S E A.

Section action.
Context {S E : Type}.

Definition ret {A} (x : A) : action S E A :=
  fun s => Outcome s [] (Normal x).

Definition bind {A B} (m : action S E A) (k : A -> action S E B) : action S E B :=
  fun s =>
    match m s with
    | Outcome s1 e1 (Normal x) =>
        match k x s1 with
        | Outcome s2 e2 r => Outcome s2 (e1 ++ e2) r
        end
    | Outcome s1 e1 (Throw e) => Outcome s1 e1 (Throw e)
    end.

(** [gets f]: read a field. *)
Definition gets {A} (f : S -> A) : action S E A :=
  fun s => Outcome s [] (Normal (f s)).

(** [modify f]: write a field. *)
Definition modify (f : S -> S) : action S E unit :=
  fun s => Outcome (f s) [] (Normal tt).

(** [emit e]: ask a collaborator for an effect. *)
Definition emit (e : E) : action S E unit :=
  fun s => Outcome s [e] (Normal tt).

(** [lift c]: a computation that touches no field. *)
Definition lift {A} (c : completion A) : action S E A :=
  fun s => Outcome s [] c.

(** The state and the effects of a handler that returns nothing. *)
Definition exec (m : action S E unit) (s : S) : S := out_state (m s).

Definition effects (m : action S E unit) (s : S) : list E := out_effects (m s).

(** [completes m s]: the handler returns, it does not throw. *)
Definition completes {A} (m : action S E A) (s : S) : bool :=
  is_normal (out_result (m s)).
End action.

#[export] Instance action_ret {S E} : MRet (action S E) := @ret S E.
#[export] Instance action_bind {S E} : MBind (action S E) :=
fun A B k m => bind m k.

(** ** Lemmas *)

Section action_facts.
Context {S E : Type}.
Implicit Types s : S.

Lemma bind_ret_l {A B} (x : A) (k : A -> action S E B) s :
  (mret x ≫= k) s = k x s.
Proof.
  unfold mbind, action_bind, bind, mret, action_ret, ret. by destruct (k x s).
Qed.

Lemma bind_ret_r {A} (m : action S E A) s : (m ≫= mret) s = m s.
Proof.
  unfold mbind, action_bind, bind, mret, action_ret, ret.
  destruct (m s) as [s' es [x|e]]; simpl; [|done]. by rewrite app_nil_r.
Qed.

Lemma bind_assoc {A B C} (m : action S E A) (k : A -> action S E B)
    (h : B -> action S E C) s :
  ((m ≫= k) ≫= h) s = (m ≫= fun x => k x ≫= h) s.
Proof.
  unfold mbind, action_bind, bind.
  destruct (m s) as [s1 e1 [x|e]]; simpl; [|done].
  destruct (k x s1) as [s2 e2 [y|e]]; simpl; [|done].
  destruct (h y s2) as [s3 e3 r]; simpl. by rewrite app_assoc.
Qed.

(** A throw ends the handler: what follows it does not run. *)
Lemma bind_throw {A B} (m : action S E A) (k : A -> action S E B) s e :
  out_result (m s) = Throw e ->
  (m ≫= k) s = Outcome (out_state (m s)) (out_effects (m s)) (Throw e).
Proof. unfold mbind, action_bind, bind. destruct (m s); simpl. by intros ->. Qed.

Lemma bind_normal {A B} (m : action S E A) (k : A -> action S E B) s x :
  out_result (m s) = Normal x ->
  (m ≫= k) s
  = Outcome (out_state (k x (out_state (m s))))
      (out_effects (m s) ++ out_effects (k x (out_state (m s))))
      (out_result (k x (out_state (m s)))).
Proof.
  unfold mbind, action_bind, bind. destruct (m s) as [s1 e1 r]; simpl.
  intros ->. by destruct (k x s1).
Qed.
End action_facts.

(** [action_unfold]: open the combinators of a handler. *)
Ltac action_unfold :=
unfold exec, effects, completes, mbind, action_bind, bind, mret, action_ret,
  ret, gets, modify, emit, lift in *.
