(* ===== verification/Session.v ===== *)
(** * Session: the component's state and its chat handlers

    The fields of [LoginComponent] (login.component.ts lines 17-28, 46 and
    224-225) are the record [component].  Every method that serves the chat
    is a handler over it, an [action] that writes fields and asks for
    effects: [ngOnInit], [generateSessionId], [openUploader],
    [onFileSelected], [sendUserMessage] with its callbacks
    [sendUserMessage_next] and [sendUserMessage_error], [handleQuickReply],
    [resetSession], [scrollToBottom] and the three toggles.

    A call of [subscribe] is the effect [Subscribe]: the callbacks run
    later, as handlers of their own, when the system delivers the reply.
    [Math.random().toString(36)] is an argument of the handlers that draw a
    session identifier. *)

From Stdlib Require Import Ascii String ZArith Lia.
From stdpp Require Import base tactics option list strings.
From S2P Require Import Prelude JsString JsValue Json Normalizer Transport Action.

(** ** Data *)

(** Lines 4-9.  The text of an entry is typed [string], but the reply
    callback stores whatever normalisation returns; [type] is never
    written. *)
Record ChatMessage : Type := mkChatMessage {
  text : value;
  isUser : bool;
  file : option File;
}.

#[export] Instance ChatMessage_eq_dec : EqDecision ChatMessage.
Proof. solve_decision. Defined.

(** A reference to an [HTMLAudioElement], a blob and an object URL. *)
Definition audio : Type := nat.

Definition blob : Type := nat.

Definition object_url : Type := nat.

(** Lines 18-28, 46, 224-225: the fields.  The two [@ViewChild] references
    (lines 17 and 48) are set by the view, not by the handlers: they are
    fields of the [page] of [Page]. *)
Record component : Type := mkComponent {
  showPassword : bool;
  liveChat : bool;
  expandChatWindow : bool;
  messages : list ChatMessage;
  userMessage : string;
  sessionId : string;
  prevRes : value;
  prevResMode : value;
  isLoading : bool;
  selectedDocType : string;
  currentAudio : option audio;
  isPlaying : bool;
}.

#[export] Instance component_eq_dec : EqDecision component.
Proof. solve_decision. Defined.

(** What a handler logs. *)
Inductive log_arg : Type :=
| LogValue (v : value)
| LogFile (f : File)
| LogError.

(** What a handler asks of its collaborators. *)
Inductive effect : Type :=
| ScrollToBottom
| Subscribe (r : http_request)
| ClickFileInput
| ResetFileInput
| ConsoleLog (label : string) (arg : log_arg)
| ConsoleError (label : string) (arg : log_arg)
| AudioPause (a : audio)
| CreateObjectURL (b : blob) (u : object_url)
| NewAudio (a : audio) (u : object_url)
| AudioPlay (a : audio)
| SetOnEnded (a : audio).

#[export] Instance log_arg_eq_dec : EqDecision log_arg.
Proof. solve_decision. Defined.

#[export] Instance effect_eq_dec : EqDecision effect.
Proof. solve_decision. Defined.

Definition handler : Type := action component effect unit.

(** ** Field writes *)

Definition set_showPassword (b : bool) (s : component) : component :=
  mkComponent b (liveChat s) (expandChatWindow s) (messages s) (userMessage s)
    (sessionId s) (prevRes s) (prevResMode s) (isLoading s) (selectedDocType s)
    (currentAudio s) (isPlaying s).

Definition set_liveChat (b : bool) (s : component) : component :=
  mkComponent (showPassword s) b (expandChatWindow s) (messages s) (userMessage s)
    (sessionId s) (prevRes s) (prevResMode s) (isLoading s) (selectedDocType s)
    (currentAudio s) (isPlaying s).

Definition set_expandChatWindow (b : bool) (s : component) : component :=
  mkComponent (showPassword s) (liveChat s) b (messages s) (userMessage s)
    (sessionId s) (prevRes s) (prevResMode s) (isLoading s) (selectedDocType s)
    (currentAudio s) (isPlaying s).

Definition set_messages (l : list ChatMessage) (s : component) : component :=
  mkComponent (showPassword s) (liveChat s) (expandChatWindow s) l (userMessage s)
    (sessionId s) (prevRes s) (prevResMode s) (isLoading s) (selectedDocType s)
    (currentAudio s) (isPlaying s).

Definition set_userMessage (m : string) (s : component) : component :=
  mkComponent (showPassword s) (liveChat s) (expandChatWindow s) (messages s) m
    (sessionId s) (prevRes s) (prevResMode s) (isLoading s) (selectedDocType s)
    (currentAudio s) (isPlaying s).

Definition set_sessionId (i : string) (s : component) : component :=
  mkComponent (showPassword s) (liveChat s) (expandChatWindow s) (messages s)
    (userMessage s) i (prevRes s) (prevResMode s) (isLoading s) (selectedDocType s)
    (currentAudio s) (isPlaying s).

Definition set_prevRes (v : value) (s : component) : component :=
  mkComponent (showPassword s) (liveChat s) (expandChatWindow s) (messages s)
    (userMessage s) (sessionId s) v (prevResMode s) (isLoading s) (selectedDocType s)
    (currentAudio s) (isPlaying s).

Definition set_prevResMode (v : value) (s : component) : component :=
  mkComponent (showPassword s) (liveChat s) (expandChatWindow s) (messages s)
    (userMessage s) (sessionId s) (prevRes s) v (isLoading s) (selectedDocType s)
    (currentAudio s) (isPlaying s).

Definition set_isLoading (b : bool) (s : component) : component :=
  mkComponent (showPassword s) (liveChat s) (expandChatWindow s) (messages s)
    (userMessage s) (sessionId s) (prevRes s) (prevResMode s) b (selectedDocType s)
    (currentAudio s) (isPlaying s).

Definition set_selectedDocType (d : string) (s : component) : component :=
  mkComponent (showPassword s) (liveChat s) (expandChatWindow s) (messages s)
    (userMessage s) (sessionId s) (prevRes s) (prevResMode s) (isLoading s) d
    (currentAudio s) (isPlaying s).

Definition set_currentAudio (a : option audio) (s : component) : component :=
  mkComponent (showPassword s) (liveChat s) (expandChatWindow s) (messages s)
    (userMessage s) (sessionId s) (prevRes s) (prevResMode s) (isLoading s)
    (selectedDocType s) a (isPlaying s).

Definition set_isPlaying (b : bool) (s : component) : component :=
  mkComponent (showPassword s) (liveChat s) (expandChatWindow s) (messages s)
    (userMessage s) (sessionId s) (prevRes s) (prevResMode s) (isLoading s)
    (selectedDocType s) (currentAudio s) b.

(** [this.messages.push(m)]. *)
Definition push (m : ChatMessage) : handler :=
  modify (fun s => set_messages (messages s ++ [m]) s).

(** ** Constants of the source *)

(** Lines 33-44. *)
Definition documents : list string :=
  ["Aadhaar Card"; "Domicile Certificate"; "Birth Certificate"; "School Leaving Certificate"; "Income Certificate"; "Ration Card"; "Voter ID"; "Letter of Guarantee"; "Bank Passbook"; "Photograph"].

(** Line 56. *)
Definition greeting : string :=
  "नमस्कार, मी महाराष्ट्र शासनाचा एजंटिक एआय सेवा बॉट आहे. मी तुमची लाडकी बहीण योजनेच्या माहितीसाठी आणि अर्जासाठी मदत करू शकतो. तुम्ही कशा प्रकारे मदत करू इच्छिता?".

(** Line 185. *)
Definition apology : string :=
  "क्षमस्व, काहीतरी चूक झाली. कृपया पुन्हा प्रयत्न करा.".

(** Line 207. *)
Definition reset_notice : string :=
  "सत्र रीसेट. लाडकी बहिन योजनेबाबत मी तुम्हाला कशी मदत करू शकतो?".

(** Lines 18-28, 46, 224-225: the field initialisers. *)
Definition new_component : component :=
  {| showPassword := false; liveChat := false; expandChatWindow := false;
     messages := []; userMessage := ""; sessionId := "";
     prevRes := VNull; prevResMode := VNull; isLoading := false;
     selectedDocType := ""; currentAudio := None; isPlaying := false |}.

(** ** Handlers *)

(** Lines 213-222: a scroll is scheduled; the timer's callback belongs to
    the page.  The [try] of lines 214 and 221 encloses the call of
    [setTimeout] only, which does not throw: the handler has no catch. *)
Definition scrollToBottom : handler := emit ScrollToBottom.

(** Lines 62-64.  [rnd] is the text of [Math.random().toString(36)]. *)
Definition generateSessionId (rnd : string) : string :=
  "session_" +:+ substr rnd 2 9.

(** Lines 52-60. *)
Definition ngOnInit (rnd : string) : handler :=
  modify (set_sessionId (generateSessionId rnd));;
  push {| text := VStr greeting; isUser := false; file := None |};;
  scrollToBottom.

(** Lines 30-32. *)
Definition togglePassword : handler :=
  modify (fun s => set_showPassword (negb (showPassword s)) s).

(** Lines 85-87. *)
Definition openLiveChat : handler :=
  modify (fun s => set_liveChat (negb (liveChat s)) s).

(** Lines 88-90. *)
Definition toggleChatWindowSize : handler :=
  modify (fun s => set_expandChatWindow (negb (expandChatWindow s)) s).

(** Lines 66-69. *)
Definition openUploader (doc : string) : handler :=
  modify (set_selectedDocType doc);;
  emit ClickFileInput.

(** Line 97: the text of an upload entry. *)
Definition upload_text (f : File) (docType : string) : string :=
  "Uploaded: " +:+ file_name f +:+ " (" +:+ docType +:+ ")".

(** [!!file] for a [File | null]. *)
Definition has_file (file : option File) : bool :=
  if file is Some _ then true else false.

(** Lines 92-119: the synchronous part of [sendUserMessage], up to the
    subscription. *)
Definition sendUserMessage (file : option File) : handler :=
  userMessage0 ← gets userMessage;
  if is_blank userMessage0 && negb (has_file file) then mret tt
  else
    docType ← gets selectedDocType;
    let messageText :=
      match file with
      | Some f => upload_text f docType
      | None => userMessage0
      end in
    push (mkChatMessage (VStr messageText) true file);;
    currentMsg ← gets userMessage;
    modify (set_userMessage "");;
    modify (set_isLoading true);;
    scrollToBottom;;
    sessionId0 ← gets sessionId;
    prevRes0 ← gets prevRes;
    prevResMode0 ← gets prevResMode;
    docType0 ← gets selectedDocType;
    emit (Subscribe (sendMessage
      (if file is Some _ then "Uploaded document" else currentMsg)
      sessionId0 prevRes0 prevResMode0 file
      (if file is Some _ then VStr docType0 else VNull))).

(** Lines 181-189: the [error] callback. *)
Definition sendUserMessage_error : handler :=
  modify (set_isLoading false);;
  emit (ConsoleError "Chat error:" LogError);;
  push {| text := VStr apology; isUser := false; file := None |};;
  scrollToBottom.

(** Lines 193-196. *)
Definition handleQuickReply (reply : string) : handler :=
  modify (set_userMessage reply);;
  sendUserMessage None.

(** Lines 71-84.  [files] is [input.files]: [null], or the list of the
    files picked. *)
Definition onFileSelected (files : option (list File)) : handler :=
  match files with
  | Some (f :: _) =>
      docType ← gets selectedDocType;
      emit (ConsoleLog "Document Type:" (LogValue (VStr docType)));;
      emit (ConsoleLog "Uploaded File:" (LogFile f));;
      sendUserMessage (Some f);;
      emit ResetFileInput
  | _ => mret tt
  end.

(** Lines 198-211. *)
Definition resetSession (rnd : string) : handler :=
  modify (set_sessionId (generateSessionId rnd));;
  modify (set_prevRes VNull);;
  modify (set_prevResMode VNull);;
  modify (set_messages []);;
  modify (set_isLoading false);;
  push {| text := VStr reset_notice; isUser := false; file := None |};;
  scrollToBottom.

Section reply.
Context `{JP : JsonPlatform}.

(** Lines 120-180: the [next] callback.  [res] is the body of the reply;
    reading a field of [null] or [undefined] throws. *)
Definition sendUserMessage_next (res : value) : handler :=
  modify (set_isLoading false);;
  responseObj ← lift (get_field res Response);
  botText ← lift (normalize responseObj);
  push {| text := botText; isUser := false; file := None |};;
  scrollToBottom;;
  modify (set_prevRes botText);;
  mode ← lift (get_field res Mode);
  modify (set_prevResMode mode).

End reply.

Arguments sendUserMessage : simpl never.
Arguments handleQuickReply : simpl never.
Arguments onFileSelected : simpl never.
Arguments sendUserMessage_next : simpl never.

(** ** Observations *)

(** The session context a request carries. *)
Definition context (s : component) : value * value := (prevRes s, prevResMode s).

(** The requests among the effects of a handler. *)
Definition requests (es : list effect) : list http_request :=
  omap (fun e => if e is Subscribe r then Some r else None) es.

(** [nullish v]: [v] is [null] or [undefined]. *)
Definition nullish (v : value) : bool :=
  match v with
  | VUndefined | VNull => true
  | _ => false
  end.

(** The base-36 digits [Number.prototype.toString(36)] prints. *)
Definition is_radix36 (c : ascii) : bool :=
  let n := N_of_ascii c in
  (N.leb 48 n && N.leb n 57) || (N.leb 97 n && N.leb n 122).

Fixpoint all_radix36 (s : string) : bool :=
  match s with
  | EmptyString => true
  | String c r => is_radix36 c && all_radix36 r
  end.

(** ** Lemmas *)

(** [handler_simpl]: run a handler on a symbolic state. *)
Ltac handler_simpl :=
  action_unfold;
  cbn -[String.append substr is_blank normalize sendMessage upload_text generateSessionId].

(** The entry a submission puts in the log. *)
Definition user_entry (s : component) (file : option File) : ChatMessage :=
  mkChatMessage
    (VStr (match file with
           | Some f => upload_text f (selectedDocType s)
           | None => userMessage s
           end)) true file.

(** The request a submission sends. *)
Definition turn_request (s : component) (file : option File) : http_request :=
  sendMessage (if file is Some _ then "Uploaded document" else userMessage s)
    (sessionId s) (prevRes s) (prevResMode s) file
    (if file is Some _ then VStr (selectedDocType s) else VNull).

(** The state a submission leaves. *)
Definition submitted (s : component) (file : option File) : component :=
  set_isLoading true (set_userMessage "" (set_messages (messages s ++ [user_entry s file]) s)).

(** A submission is accepted when there is a file or text that is not
    blank. *)
Definition accepted (s : component) (file : option File) : bool :=
  negb (is_blank (userMessage s) && negb (has_file file)).

Lemma sendUserMessage_outcome (s : component) (file : option File) :
  sendUserMessage file s
  = if accepted s file
    then Outcome (submitted s file) [ScrollToBottom; Subscribe (turn_request s file)]
           (Normal tt)
    else Outcome s [] (Normal tt).
Proof.
  unfold sendUserMessage, accepted, push, scrollToBottom. handler_simpl.
  destruct (is_blank (userMessage s)), file; reflexivity.
Qed.

Lemma handleQuickReply_outcome (reply : string) (s : component) :
  handleQuickReply reply s = sendUserMessage None (set_userMessage reply s).
Proof.
  unfold handleQuickReply. handler_simpl.
  by destruct (sendUserMessage None (set_userMessage reply s)).
Qed.

Lemma accepted_file (s : component) (f : File) : accepted s (Some f) = true.
Proof. unfold accepted. simpl. by rewrite andb_false_r. Qed.

Lemma onFileSelected_outcome (files : option (list File)) (s : component) :
  onFileSelected files s
  = match files with
    | Some (f :: _) =>
        Outcome (submitted s (Some f))
          [ConsoleLog "Document Type:" (LogValue (VStr (selectedDocType s)));
           ConsoleLog "Uploaded File:" (LogFile f);
           ScrollToBottom; Subscribe (turn_request s (Some f)); ResetFileInput]
          (Normal tt)
    | _ => Outcome s [] (Normal tt)
    end.
Proof.
  destruct files as [[|f files]|]; try reflexivity.
  unfold onFileSelected.
  pose proof (sendUserMessage_outcome s (Some f)) as H.
  rewrite accepted_file in H.
  action_unfold. cbn -[sendUserMessage submitted turn_request]. by rewrite H.
Qed.

Lemma nullish_get_field (res : value) (f : field) :
  nullish res = true <-> get_field res f = Throw TypeError.
Proof. by destruct res. Qed.

Lemma get_field_normal (res : value) (f : field) :
  nullish res = false -> exists v, get_field res f = Normal v.
Proof. destruct res; intros; try done; by eexists. Qed.

Section reply_facts.
Context `{JP : JsonPlatform}.

(** The state a reply leaves, with its display value and its mode. *)
Definition replied (s : component) (botText mode : value) : component :=
  set_prevResMode mode
    (set_prevRes botText
       (set_messages (messages s ++ [mkChatMessage botText false None])
          (set_isLoading false s))).

Lemma sendUserMessage_next_outcome (s : component) (res responseObj botText mode : value) :
  get_field res Response = Normal responseObj ->
  normalize responseObj = Normal botText ->
  get_field res Mode = Normal mode ->
  sendUserMessage_next res s
  = Outcome (replied s botText mode) [ScrollToBottom] (Normal tt).
Proof.
  intros Hr Hn Hm. unfold sendUserMessage_next, push, scrollToBottom.
  handler_simpl. rewrite Hr. cbn -[normalize]. rewrite Hn. cbn. by rewrite Hm.
Qed.

Lemma sendUserMessage_next_throws (s : component) (res : value) :
  nullish res = true ->
  sendUserMessage_next res s = Outcome (set_isLoading false s) [] (Throw TypeError).
Proof.
  intros Hr%(nullish_get_field res Response).
  unfold sendUserMessage_next. handler_simpl. by rewrite Hr.
Qed.

(** The two ways the reply callback ends. *)
Lemma sendUserMessage_next_cases (s : component) (res : value) :
  (nullish res = true
   /\ sendUserMessage_next res s = Outcome (set_isLoading false s) [] (Throw TypeError))
  \/ (exists botText mode,
        nullish res = false
        /\ sendUserMessage_next res s
           = Outcome (replied s botText mode) [ScrollToBottom] (Normal tt)).
Proof.
  destruct (nullish res) eqn:Hres; [left; by rewrite sendUserMessage_next_throws|].
  right.
  destruct (get_field_normal res Response Hres) as [responseObj Hr].
  destruct (get_field_normal res Mode Hres) as [mode Hm].
  destruct (handle_response_total (parse_outer responseObj)) as [botText Hn].
  exists botText, mode. split; [done|].
  by apply (sendUserMessage_next_outcome s res responseObj).
Qed.

(** What the reply callback stored is what it read from the body. *)
Lemma sendUserMessage_next_inv (s : component) (res botText mode : value) :
  sendUserMessage_next res s
  = Outcome (replied s botText mode) [ScrollToBottom] (Normal tt) ->
  exists responseObj,
    get_field res Response = Normal responseObj
    /\ normalize responseObj = Normal botText
    /\ get_field res Mode = Normal mode.
Proof.
  intros Hs.
  destruct (nullish res) eqn:Hres; [by rewrite sendUserMessage_next_throws in Hs|].
  destruct (get_field_normal res Response Hres) as [responseObj Hr].
  destruct (get_field_normal res Mode Hres) as [mode' Hm].
  destruct (handle_response_total (parse_outer responseObj)) as [botText' Hn].
  rewrite (sendUserMessage_next_outcome s res responseObj botText' mode') in Hs by done.
  apply (f_equal (fun o => context (out_state o))) in Hs. simpl in Hs.
  exists responseObj. by simplify_eq.
Qed.

(** The reply callback does the same to every component. *)
Lemma sendUserMessage_next_uniform (s s' : component) (res botText mode : value) :
  sendUserMessage_next res s
  = Outcome (replied s botText mode) [ScrollToBottom] (Normal tt) ->
  sendUserMessage_next res s'
  = Outcome (replied s' botText mode) [ScrollToBottom] (Normal tt).
Proof.
  intros (responseObj & Hr & Hn & Hm)%sendUserMessage_next_inv.
  by apply (sendUserMessage_next_outcome s' res responseObj).
Qed.

End reply_facts.

Lemma generateSessionId_prefix (rnd : string) :
  startsWith (generateSessionId rnd) "session_" = true.
Proof. apply prefix_app. Qed.

Lemma substr_radix36 (digits : string) (n : nat) :
  all_radix36 digits = true -> all_radix36 (substr digits 0 n) = true.
Proof.
  revert n. induction digits as [|c r IH]; intros [|n]; simpl; try done.
  intros [-> Hr]%andb_true_iff. simpl. by apply IH.
Qed.

(** ** Theorems *)

(** C7: a submission with blank text and no file is rejected: no field
    changes, no request is sent, nothing is logged. *)
Theorem sendUserMessage_rejects_blank (s : component) :
  is_blank (userMessage s) = true ->
  sendUserMessage None s = Outcome s [] (Normal tt).
Proof. intros H. rewrite sendUserMessage_outcome. unfold accepted. by rewrite H. Qed.

(** C5: an accepted submission appends exactly one entry, authored by the
    user, clears the input, raises the loading flag, asks for a scroll and
    sends one request that carries the session identifier and the context
    as they stand. *)
Theorem sendUserMessage_submits (s : component) (file : option File) :
  accepted s file = true ->
  sendUserMessage file s
  = Outcome (submitted s file) [ScrollToBottom; Subscribe (turn_request s file)]
      (Normal tt)
  /\ messages (submitted s file) = messages s ++ [user_entry s file]
  /\ isUser (user_entry s file) = true
  /\ userMessage (submitted s file) = ""
  /\ isLoading (submitted s file) = true.
Proof. intros H. by rewrite sendUserMessage_outcome, H. Qed.

(** A text turn sends the text as typed, with no file and no document
    type. *)
Theorem sendUserMessage_text_request (s : component) :
  turn_request s None
  = sendMessage (userMessage s) (sessionId s) (prevRes s) (prevResMode s) None VNull.
Proof. reflexivity. Qed.

(** A file turn sends the marker text in place of the input, the file
    and the selected document type; the log shows the file's name and the
    document type; the text typed in the input is cleared and sent
    nowhere. *)
Theorem sendUserMessage_file_request (s : component) (f : File) :
  sendUserMessage (Some f) s
  = Outcome (submitted s (Some f))
      [ScrollToBottom;
       Subscribe (sendMessage "Uploaded document" (sessionId s) (prevRes s)
                    (prevResMode s) (Some f) (VStr (selectedDocType s)))]
      (Normal tt)
  /\ text (user_entry s (Some f)) = VStr (upload_text f (selectedDocType s))
  /\ userMessage (submitted s (Some f)) = "".
Proof. by rewrite sendUserMessage_outcome, accepted_file. Qed.

(** C3: a failed turn appends the apology, lowers the loading flag and
    leaves the previous response, its mode and the session identifier as
    they were. *)
Theorem sendUserMessage_error_keeps_context (s : component) :
  let s' := exec sendUserMessage_error s in
  context s' = context s
  /\ sessionId s' = sessionId s
  /\ messages s' = messages s ++ [mkChatMessage (VStr apology) false None]
  /\ isLoading s' = false
  /\ completes sendUserMessage_error s = true.
Proof. done. Qed.

(** C6: [resetSession] leaves exactly the reset notice in the log, draws a
    new identifier, clears the context and the loading flag, and asks for a
    scroll; the input, the document type and the playback fields stay. *)
Theorem resetSession_post (rnd : string) (s : component) :
  let s' := exec (resetSession rnd) s in
  messages s' = [mkChatMessage (VStr reset_notice) false None]
  /\ sessionId s' = generateSessionId rnd
  /\ context s' = (VNull, VNull)
  /\ isLoading s' = false
  /\ userMessage s' = userMessage s
  /\ currentAudio s' = currentAudio s
  /\ effects (resetSession rnd) s = [ScrollToBottom].
Proof. done. Qed.

(** A session identifier is the prefix [session_] and at most nine
    characters of the random text after its first two; nine exactly when
    the text has eleven or more. *)
Theorem generateSessionId_shape (rnd : string) :
  exists suffix,
    generateSessionId rnd = "session_" +:+ suffix
    /\ String.length suffix = Nat.min 9 (String.length rnd - 2)
    /\ (forall digits, rnd = "0." +:+ digits -> all_radix36 digits = true ->
        all_radix36 suffix = true).
Proof.
  exists (substr rnd 2 9). split; [done|]. split.
  - apply substr_length_exact.
  - intros digits -> Hd. by apply (substr_radix36 digits).
Qed.

(** [ngOnInit] on the fresh component: the identifier is drawn, the
    log holds the greeting, nothing is loading and there is no context. *)
Theorem ngOnInit_initial (rnd : string) :
  let s := exec (ngOnInit rnd) new_component in
  sessionId s = generateSessionId rnd
  /\ messages s = [mkChatMessage (VStr greeting) false None]
  /\ context s = (VNull, VNull)
  /\ isLoading s = false
  /\ effects (ngOnInit rnd) new_component = [ScrollToBottom].
Proof. done. Qed.

(** Picking files submits the first one: the log gains one entry that
    names the file and the document type, one request carries the file, and
    the file input is cleared last; picking none does nothing. *)
Theorem onFileSelected_submits_first (f : File) (files : list File) (s : component) :
  messages (exec (onFileSelected (Some (f :: files))) s)
  = messages s ++ [mkChatMessage (VStr (upload_text f (selectedDocType s))) true (Some f)]
  /\ requests (effects (onFileSelected (Some (f :: files))) s)
     = [turn_request s (Some f)]
  /\ last (effects (onFileSelected (Some (f :: files))) s) = Some ResetFileInput
  /\ onFileSelected None s = Outcome s [] (Normal tt)
  /\ onFileSelected (Some []) s = Outcome s [] (Normal tt).
Proof. unfold exec, effects. by rewrite onFileSelected_outcome. Qed.

(** [openUploader] records the document type and opens the file
    picker. *)
Theorem openUploader_outcome (doc : string) (s : component) :
  openUploader doc s = Outcome (set_selectedDocType doc s) [ClickFileInput] (Normal tt).
Proof. reflexivity. Qed.

Section reply_theorems.
Context `{JP : JsonPlatform}.

(** C4: a reply with a body appends exactly one assistant entry holding the
    normalised response, makes that value the previous response and the
    reply's mode the previous mode, lowers the loading flag, and does not
    throw. *)
Theorem sendUserMessage_next_success (s : component) (res : value) :
  nullish res = false ->
  exists responseObj botText mode,
    get_field res Response = Normal responseObj
    /\ normalize responseObj = Normal botText
    /\ get_field res Mode = Normal mode
    /\ sendUserMessage_next res s
       = Outcome (replied s botText mode) [ScrollToBottom] (Normal tt).
Proof.
  intros Hres.
  destruct (get_field_normal res Response Hres) as [responseObj Hr].
  destruct (get_field_normal res Mode Hres) as [mode Hm].
  destruct (handle_response_total (parse_outer responseObj)) as [botText Hn].
  exists responseObj, botText, mode. repeat split; try done.
  by apply (sendUserMessage_next_outcome s res responseObj).
Qed.

(** C36: a reply whose body is [null] or [undefined] throws a TypeError out
    of the callback after the loading flag is lowered: nothing is appended
    and the context stays. *)
Theorem sendUserMessage_next_null_body (s : component) (res : value) :
  nullish res = true ->
  out_result (sendUserMessage_next res s) = Throw TypeError
  /\ exec (sendUserMessage_next res) s = set_isLoading false s
  /\ effects (sendUserMessage_next res) s = [].
Proof. intros H. unfold exec, effects. by rewrite sendUserMessage_next_throws. Qed.

End reply_theorems.

(** Whatever object the reply is, the context after it is the pair of
    the displayed value and the reply's mode, and the displayed value is
    the last entry of the log. *)
Theorem sendUserMessage_next_context `{JP : JsonPlatform} (s : component)
    (props : list (string * value)) :
  exists botText,
    normalize (lookup_prop "response" props) = Normal botText
    /\ context (exec (sendUserMessage_next (VObj props)) s)
       = (botText, lookup_prop "mode" props)
    /\ last (messages (exec (sendUserMessage_next (VObj props)) s))
       = Some (mkChatMessage botText false None).
Proof.
  destruct (handle_response_total (parse_outer (lookup_prop "response" props)))
    as [botText Hn].
  exists botText. split; [done|]. unfold exec.
  rewrite (sendUserMessage_next_outcome s _ _ botText (lookup_prop "mode" props))
    by done.
  split; [done|]. simpl. by rewrite last_snoc.
Qed.

(** A reset draws a new identifier without looking at the old one: the
    identifier after the reset is the one before it exactly when the two
    random texts agree on the nine characters the identifier keeps. *)
Theorem resetSession_identifier (rnd rnd' : string) (s : component) :
  sessionId s = generateSessionId rnd ->
  sessionId (exec (resetSession rnd') s) = sessionId s
  <-> substr rnd' 2 9 = substr rnd 2 9.
Proof.
  intros ->. change (sessionId (exec (resetSession rnd') s)) with (generateSessionId rnd').
  unfold generateSessionId. split; [|by intros ->].
  intros H. by simplify_eq/=.
Qed.

(** ** Witnesses *)

Lemma resetSession_identifier_witness :
  let s := exec (ngOnInit "0.4fzyo82mvyr") new_component in
  sessionId (exec (resetSession "0.4fzyo82mzzz") s) = sessionId s
  <-> substr "0.4fzyo82mzzz" 2 9 = substr "0.4fzyo82mvyr" 2 9.
Proof. by apply resetSession_identifier. Defined.


Lemma sendUserMessage_rejects_blank_witness :
  sendUserMessage None (set_userMessage "   " new_component)
  = Outcome (set_userMessage "   " new_component) [] (Normal tt).
Proof. by apply sendUserMessage_rejects_blank. Defined.

Lemma sendUserMessage_submits_witness :
  let s := set_userMessage "hello" (exec (ngOnInit "0.4fzyo82mvyr") new_component) in
  sendUserMessage None s
  = Outcome (submitted s None) [ScrollToBottom; Subscribe (turn_request s None)]
      (Normal tt)
  /\ messages (submitted s None) = messages s ++ [user_entry s None]
  /\ isUser (user_entry s None) = true
  /\ userMessage (submitted s None) = ""
  /\ isLoading (submitted s None) = true.
Proof. by apply sendUserMessage_submits. Defined.

Lemma sendUserMessage_next_success_witness :
  let res := VObj [("response", VStr "namaskar"); ("mode", VStr "chat")] in
  exists responseObj botText mode,
    get_field res Response = Normal responseObj
    /\ normalize (JP := RefJson) responseObj = Normal botText
    /\ get_field res Mode = Normal mode
    /\ sendUserMessage_next (JP := RefJson) res new_component
       = Outcome (replied new_component botText mode) [ScrollToBottom] (Normal tt).
Proof. by apply (sendUserMessage_next_success (JP := RefJson)). Defined.

Lemma sendUserMessage_next_null_body_witness :
  out_result (sendUserMessage_next (JP := RefJson) VNull new_component) = Throw TypeError
  /\ exec (sendUserMessage_next (JP := RefJson) VNull) new_component
     = set_isLoading false new_component
  /\ effects (sendUserMessage_next (JP := RefJson) VNull) new_component = [].
Proof. by apply (sendUserMessage_next_null_body (JP := RefJson)). Defined.

(** ** Hints *)

#[export] Hint Rewrite sendUserMessage_outcome handleQuickReply_outcome
  onFileSelected_outcome : handlers.
