(* ===== verification/Controller.v ===== *)
(** * Controller: the session controller of the specification

    The written specification (sections 3 and 4.2) describes the chat as a
    controller over a session state: a submission is validated, appended to
    an append-only log and sent; a reply is normalised, appended and
    becomes the context of the next turn; a failure appends an apology and
    leaves the context; a reset starts over.  This file states that
    controller ([controller], [spec_submit], [spec_success], [spec_failure],
    [spec_reset]) and proves that the handlers of [LoginComponent] refine
    it: on the replies the server is expected to send, each handler takes
    related states to related states ([refines]), and sends the request the
    specification describes. *)

From Stdlib Require Import String ZArith Lia.
From stdpp Require Import base tactics option list strings.
From S2P Require Import Prelude JsString JsValue Json Normalizer Transport Action Session.

(** ** The data of the specification (section 3) *)

Inductive turn_content : Type :=
| Text (t : string)
| FileRef (f : File).

Record Turn : Type := mkTurn {
  content : turn_content;
  docType : option string;
  isUserAuthored : bool;
}.

Record SessionState : Type := mkSessionState {
  state_sessionId : string;
  previousResponseText : option string;
  previousResponseMode : option string;
}.

Record controller : Type := mkController {
  session : SessionState;
  log : list Turn;
  loading : bool;
}.

(** [Transport.sendTurn] (section 6): the optional fields are sent only if
    present. *)
Record sendTurn : Type := mkSendTurn {
  turn_text : string;
  turn_sessionId : string;
  turn_previousText : option string;
  turn_previousMode : option string;
  turn_file : option File;
  turn_docType : option string;
}.

(** The marker sent in place of text when a file is attached. *)
Definition uploaded_marker : string := "Uploaded document".

Definition assistant_turn (t : string) : Turn := mkTurn (Text t) None false.

(** ** The operations of the specification (section 4.2) *)

(** Validation: blank text and no file is rejected. *)
Definition valid_turn (t : Turn) : bool :=
  match content t with
  | Text s => negb (is_blank s)
  | FileRef _ => true
  end.

Definition request_of (t : Turn) (st : SessionState) : sendTurn :=
  match content t with
  | Text s =>
      mkSendTurn s (state_sessionId st) (previousResponseText st)
        (previousResponseMode st) None None
  | FileRef f =>
      mkSendTurn uploaded_marker (state_sessionId st) (previousResponseText st)
        (previousResponseMode st) (Some f) (docType t)
  end.

Definition spec_submit (t : Turn) (c : controller) : controller * option sendTurn :=
  if valid_turn t
  then (mkController (session c) (log c ++ [t]) true, Some (request_of t (session c)))
  else (c, None).

Definition spec_failure (c : controller) : controller :=
  mkController (session c) (log c ++ [assistant_turn apology]) false.

Definition spec_reset (id : string) (c : controller) : controller :=
  mkController (mkSessionState id None None) [assistant_turn reset_notice] false.

Definition spec_start (id : string) : controller :=
  mkController (mkSessionState id None None) [assistant_turn greeting] false.

Section controller.
Context `{JP : JsonPlatform}.

Definition spec_success (payload : value) (mode : string) (c : controller) : controller :=
  let displayText := spec_normalize payload in
  mkController
    (mkSessionState (state_sessionId (session c)) (Some displayText) (Some mode))
    (log c ++ [assistant_turn displayText]) false.

End controller.

(** ** The component as a controller *)

(** An optional text as the component holds it: [null] when absent. *)
Definition opt_text (o : option string) : value :=
  match o with
  | Some t => VStr t
  | None => VNull
  end.

(** The log entry of a turn. *)
Definition entry_of (t : Turn) : ChatMessage :=
  match content t with
  | Text s => mkChatMessage (VStr s) (isUserAuthored t) None
  | FileRef f =>
      mkChatMessage (VStr (upload_text f (default "" (docType t)))) (isUserAuthored t)
        (Some f)
  end.

(** The turn the page submits: the file with the selected document type,
    or the pending input. *)
Definition turn_of (s : component) (file : option File) : Turn :=
  match file with
  | Some f => mkTurn (FileRef f) (Some (selectedDocType s)) true
  | None => mkTurn (Text (userMessage s)) None true
  end.

(** The form of a [sendTurn]: the optional fields only if present. *)
Definition form_of (r : sendTurn) : FormData :=
  [("message", FText (turn_text r)); ("session_id", FText (turn_sessionId r))]
  ++ (if turn_previousText r is Some t then [("prev_res", FText t)] else [])
  ++ (if turn_previousMode r is Some m then [("prev_res_mode", FText m)] else [])
  ++ (if turn_file r is Some f then [("file", FFile f)] else [])
  ++ (if turn_docType r is Some d then [("doc_type", FText d)] else []).

Definition http_of (r : sendTurn) : http_request :=
  mkRequest apiUrl (BodyForm (form_of r)) RespJson.

(** [present o]: an optional text that, when present, is not empty. *)
Definition present (o : option string) : bool :=
  if o is Some t then negb (bool_decide (t = "")) else true.

(** [refines s c]: the component [s] holds the state of the controller
    [c]. *)
Record refines (s : component) (c : controller) : Prop := {
  ref_session : sessionId s = state_sessionId (session c);
  ref_text : prevRes s = opt_text (previousResponseText (session c));
  ref_mode : prevResMode s = opt_text (previousResponseMode (session c));
  ref_log : messages s = entry_of <$> log c;
  ref_loading : isLoading s = loading c;
}.

(** The events of a conversation, with the handler of the component and
    the operation of the specification for each. *)
Inductive chat_event : Type :=
| Typed (txt : string)
| Picked (doc : string)
| Submit (file : option File)
| Quick (reply : string)
| Success (props : list (string * value))
| Failure
| ResetTo (rnd : string).

Section simulation.
Context `{JP : JsonPlatform}.

Definition handle (e : chat_event) : handler :=
  match e with
  | Typed txt => modify (set_userMessage txt)
  | Picked doc => modify (set_selectedDocType doc)
  | Submit file => sendUserMessage file
  | Quick reply => handleQuickReply reply
  | Success props => sendUserMessage_next (VObj props)
  | Failure => sendUserMessage_error
  | ResetTo rnd => resetSession rnd
  end.

Definition spec_handle (e : chat_event) (s : component) (c : controller) : controller :=
  match e with
  | Typed _ | Picked _ => c
  | Submit file => (spec_submit (turn_of s file) c).1
  | Quick reply => (spec_submit (mkTurn (Text reply) None true) c).1
  | Success props =>
      spec_success (lookup_prop "response" props) (to_string (lookup_prop "mode" props)) c
  | Failure => spec_failure c
  | ResetTo rnd => spec_reset (generateSessionId rnd) c
  end.

(** The replies the server is expected to send: a payload the
    specification's algorithm covers, and a mode that is a string. *)
Definition expected (e : chat_event) : bool :=
  match e with
  | Success props =>
      well_shaped (lookup_prop "response" props) && is_string (lookup_prop "mode" props)
  | _ => true
  end.

(** A run of the component beside a run of the specification. *)
Fixpoint run_both (es : list chat_event) (s : component) (c : controller)
    : component * controller :=
  match es with
  | [] => (s, c)
  | e :: es' => run_both es' (exec (handle e) s) (spec_handle e s c)
  end.

End simulation.

(** ** Lemmas *)

Lemma valid_turn_accepted (s : component) (file : option File) :
  valid_turn (turn_of s file) = accepted s file.
Proof. unfold accepted. destruct file; simpl; [|by rewrite andb_true_r]. by rewrite andb_false_r. Qed.

Lemma entry_of_turn (s : component) (file : option File) :
  entry_of (turn_of s file) = user_entry s file.
Proof. by destruct file. Qed.

Lemma opt_text_truthy (o : option string) :
  present o = true -> truthy (opt_text o) = bool_decide (is_Some o).
Proof. destruct o as [t|]; simpl; [|done]. by intros ->. Qed.

(** The request of the component is the request of the specification. *)
Lemma sendMessage_http_of (r : sendTurn) :
  present (turn_previousText r) = true -> present (turn_previousMode r) = true ->
  present (turn_docType r) = true ->
  sendMessage (turn_text r) (turn_sessionId r) (opt_text (turn_previousText r))
    (opt_text (turn_previousMode r)) (turn_file r) (opt_text (turn_docType r))
  = http_of r.
Proof.
  destruct r as [txt sid [t|] [m|] [f|] [d|]]; simpl; intros Ht Hm Hd;
    unfold sendMessage, http_of, sendMessage_form, form_of, form_append_value; simpl;
    rewrite ?Ht, ?Hm, ?Hd; reflexivity.
Qed.

Section simulation_facts.
Context `{JP : JsonPlatform}.

Lemma refines_submit (s : component) (c : controller) (t : Turn) (file : option File) :
  refines s c -> entry_of t = user_entry s file ->
  refines (submitted s file) (mkController (session c) (log c ++ [t]) true).
Proof.
  intros [Hs Ht Hm Hl Hload] He. split; simpl; try done.
  by rewrite fmap_app, Hl, <- He.
Qed.

Lemma refines_input (s : component) (c : controller) (txt : string) :
  refines s c -> refines (set_userMessage txt s) c.
Proof. by intros []. Qed.

Lemma refines_start (rnd : string) :
  refines (exec (ngOnInit rnd) new_component) (spec_start (generateSessionId rnd)).
Proof. by split. Qed.

Lemma refines_success (s : component) (c : controller) (props : list (string * value)) :
  refines s c -> expected (Success props) = true ->
  refines (exec (sendUserMessage_next (VObj props)) s)
    (spec_handle (Success props) s c).
Proof.
  intros [Hs Ht Hm Hl Hload] [Hw Hmode]%andb_true_iff. unfold exec.
  rewrite (sendUserMessage_next_outcome s _ (lookup_prop "response" props)
             (VStr (spec_normalize (lookup_prop "response" props)))
             (lookup_prop "mode" props)); [|done| |done].
  2: { unfold normalize, spec_normalize. rewrite <- spec_step1_parse_outer.
       by apply handle_response_spec. }
  split; simpl; try done.
  - by destruct (lookup_prop "mode" props).
  - by rewrite fmap_app, Hl.
Qed.

End simulation_facts.

(** ** Theorems *)

Section simulation_theorems.
Context `{JP : JsonPlatform}.

(** One event: from related states, the handler of the component and the
    operation of the specification lead to related states. *)
Lemma handle_refines (e : chat_event) (s : component) (c : controller) :
  refines s c -> expected e = true ->
  refines (exec (handle e) s) (spec_handle e s c).
Proof.
  intros Hr He. destruct e as [txt|doc|file|reply|props| |rnd]; simpl handle.
  - by apply refines_input.
  - by destruct Hr.
  - unfold exec, spec_handle, spec_submit.
    rewrite sendUserMessage_outcome, valid_turn_accepted.
    destruct (accepted s file); [|done].
    apply refines_submit; [done|apply entry_of_turn].
  - unfold exec, spec_handle, spec_submit.
    rewrite handleQuickReply_outcome, sendUserMessage_outcome.
    rewrite <- (valid_turn_accepted (set_userMessage reply s) None). simpl turn_of.
    destruct (valid_turn _); [|by apply refines_input].
    by apply refines_submit; [apply refines_input|].
  - by apply refines_success.
  - destruct Hr as [Hs Ht Hm Hl Hload]. split; simpl; try done.
    by rewrite fmap_app, Hl.
  - by split.
Qed.

(** C12: the component refines the controller of the specification: from
    related states, along any sequence of events whose replies are those
    the server is expected to send, the handlers of the component and the
    operations the specification prescribes lead to related states: the
    same session identifier, context, log and loading flag. *)
Theorem conversation_refines (es : list chat_event) (s : component) (c : controller) :
  refines s c -> forallb expected es = true ->
  refines (run_both es s c).1 (run_both es s c).2.
Proof.
  revert s c. induction es as [|e es IH]; intros s c Hr; simpl; [done|].
  intros [He Hes]%andb_true_iff. apply IH; [|done]. by apply handle_refines.
Qed.

(** The request of a turn is the request the specification describes,
    provided no field that is present is empty. *)
Lemma turn_request_http_of (s : component) (c : controller) (file : option File) :
  refines s c ->
  present (previousResponseText (session c)) = true ->
  present (previousResponseMode (session c)) = true ->
  (is_Some file -> selectedDocType s <> "") ->
  turn_request s file = http_of (request_of (turn_of s file) (session c)).
Proof.
  intros [Hs Ht Hm Hl Hload] Hpt Hpm Hdoc.
  unfold turn_request. rewrite Hs, Ht, Hm.
  destruct file as [f|]; simpl.
  - rewrite <- sendMessage_http_of; simpl; try done.
    apply negb_true_iff, bool_decide_eq_false. by apply Hdoc.
  - by rewrite <- sendMessage_http_of.
Qed.

(** The request of an accepted submission is the request the
    specification describes, with the optional fields sent only if
    present, provided no field that is present is empty. *)
Theorem submit_request_refines (s : component) (c : controller) (file : option File) :
  refines s c -> accepted s file = true ->
  present (previousResponseText (session c)) = true ->
  present (previousResponseMode (session c)) = true ->
  (is_Some file -> selectedDocType s <> "") ->
  requests (effects (sendUserMessage file) s)
  = [http_of (request_of (turn_of s file) (session c))].
Proof.
  intros Hr Hacc Hpt Hpm Hdoc. unfold effects.
  rewrite sendUserMessage_outcome, Hacc. simpl. f_equal.
  by apply turn_request_http_of.
Qed.

(** Where the component and the specification part: a context that is
    present and empty is not sent by the component. *)
Theorem empty_context_not_sent (s : component) (c : controller) :
  refines s c -> accepted s None = true ->
  previousResponseText (session c) = Some "" ->
  requests (effects (sendUserMessage None) s)
  <> [http_of (request_of (turn_of s None) (session c))].
Proof.
  intros [Hs Ht Hm Hl Hload] Hacc Hpt. unfold effects.
  rewrite sendUserMessage_outcome, Hacc. simpl.
  unfold turn_request. rewrite Ht, Hpt. simpl.
  unfold sendMessage, http_of, sendMessage_form, form_of. simpl. rewrite Hpt.
  intros [= H]. revert H.
  destruct (truthy (prevResMode s)); simpl; intros [= ?].
Qed.

End simulation_theorems.

(** ** Witnesses *)

(** A conversation on the reference platform: a turn, its reply, a quick
    reply, a failure, a file, a reset. *)
Definition sample_conversation : list chat_event :=
  [Typed "hello"; Submit None;
   Success [("response", VStr (jq "{'response': '{\'message\':\'namaskar\'}'}"));
            ("mode", VStr "chat")];
   Quick "yes"; Failure; Picked "Aadhaar Card"; Submit (Some (mkFile "aadhaar.pdf" 1));
   Success [("response", VObj [("message", VStr "received")]); ("mode", VStr "upload")];
   ResetTo "0.zzzzzzzzzzzz"].

Lemma conversation_refines_witness :
  let s := exec (ngOnInit "0.4fzyo82mvyr") new_component in
  let c := spec_start (generateSessionId "0.4fzyo82mvyr") in
  refines (run_both (JP := RefJson) sample_conversation s c).1
    (run_both (JP := RefJson) sample_conversation s c).2.
Proof.
  apply (conversation_refines (JP := RefJson)); [apply refines_start|by vm_compute].
Defined.

Lemma submit_request_refines_witness :
  let s := set_userMessage "hello" (exec (ngOnInit "0.4fzyo82mvyr") new_component) in
  let c := spec_start (generateSessionId "0.4fzyo82mvyr") in
  requests (effects (sendUserMessage None) s)
  = [http_of (request_of (turn_of s None) (session c))].
Proof.
  apply (submit_request_refines _ (spec_start (generateSessionId "0.4fzyo82mvyr"))).
  - apply refines_input, refines_start.
  - by vm_compute.
  - done.
  - done.
  - by intros [? ?].
Defined.

Lemma empty_context_not_sent_witness :
  let s := set_prevRes (VStr "") (set_userMessage "hello" new_component) in
  let c := mkController (mkSessionState "" (Some "") None) [] false in
  requests (effects (sendUserMessage None) s)
  <> [http_of (request_of (turn_of s None) (session c))].
Proof. by apply empty_context_not_sent. Defined.
