(* ===== verification/Playback.v ===== *)
(** * Playback: playTextToSpeech

    [playTextToSpeech] (login.component.ts lines 227-252) stops the audio
    element the component holds, if any, and asks the speech service for
    the audio of a text.  Its [next] callback makes an object URL of the
    blob, creates an audio element, plays it and registers the [onended]
    handler; its [error] callback logs.  The references the platform hands
    back, the object URL and the new element, are arguments of the [next]
    callback. *)

From Stdlib Require Import String Lia.
From stdpp Require Import base tactics option list strings.
From S2P Require Import Prelude JsValue Transport Action Session.

(** ** Handlers *)

(** Lines 228-232: release the handle the component holds. *)
Definition stop_current : handler :=
  cur ← gets currentAudio;
  match cur with
  | Some a =>
      emit (AudioPause a);;
      modify (set_currentAudio None);;
      modify (set_isPlaying false)
  | None => mret tt
  end.

(** Lines 227-237 and 251: the synchronous part, up to the subscription. *)
Definition playTextToSpeech (speech : value) : handler :=
  stop_current;;
  emit (Subscribe (getAudio speech)).

(** Lines 243-246: the [onended] handler. *)
Definition onended : handler :=
  modify (set_isPlaying false);;
  modify (set_currentAudio None).

(** Lines 238-247: the [next] callback.  [u] is the URL [createObjectURL]
    returns and [a] the element [new Audio] creates. *)
Definition playTextToSpeech_next (b : blob) (u : object_url) (a : audio) : handler :=
  emit (CreateObjectURL b u);;
  emit (NewAudio a u);;
  modify (set_currentAudio (Some a));;
  emit (AudioPlay a);;
  modify (set_isPlaying true);;
  emit (SetOnEnded a).

(** Lines 248-250: the [error] callback. *)
Definition playTextToSpeech_error : handler :=
  emit (ConsoleError "Audio playback error" LogError).

Arguments playTextToSpeech : simpl never.
Arguments playTextToSpeech_next : simpl never.

(** ** The handle *)

(** The component holds a handle, and says so. *)
Definition handle_consistent (s : component) : bool :=
  bool_decide (isPlaying s = bool_decide (is_Some (currentAudio s))).

(** ** Lemmas *)

Lemma stop_current_outcome (s : component) :
  stop_current s
  = match currentAudio s with
    | Some a =>
        Outcome (set_isPlaying false (set_currentAudio None s)) [AudioPause a] (Normal tt)
    | None => Outcome s [] (Normal tt)
    end.
Proof. unfold stop_current. handler_simpl. by destruct (currentAudio s). Qed.

Lemma playTextToSpeech_outcome (speech : value) (s : component) :
  playTextToSpeech speech s
  = match currentAudio s with
    | Some a =>
        Outcome (set_isPlaying false (set_currentAudio None s))
          [AudioPause a; Subscribe (getAudio speech)] (Normal tt)
    | None => Outcome s [Subscribe (getAudio speech)] (Normal tt)
    end.
Proof.
  unfold playTextToSpeech. action_unfold. rewrite stop_current_outcome.
  by destruct (currentAudio s).
Qed.

Lemma playTextToSpeech_next_outcome (b : blob) (u : object_url) (a : audio)
    (s : component) :
  playTextToSpeech_next b u a s
  = Outcome (set_isPlaying true (set_currentAudio (Some a) s))
      [CreateObjectURL b u; NewAudio a u; AudioPlay a; SetOnEnded a] (Normal tt).
Proof. reflexivity. Qed.

(** ** Theorems *)

(** C8: [playTextToSpeech] releases the handle before it asks for new
    audio: the element the component held is paused, the handle is cleared,
    and one speech request for the text is sent; with no handle it only
    sends the request. *)
Theorem playTextToSpeech_releases (speech : value) (s : component) :
  let s' := exec (playTextToSpeech speech) s in
  currentAudio s' = None
  /\ (is_Some (currentAudio s) -> isPlaying s' = false)
  /\ effects (playTextToSpeech speech) s
     = (if currentAudio s is Some a then [AudioPause a] else [])
       ++ [Subscribe (getAudio speech)]
  /\ completes (playTextToSpeech speech) s = true.
Proof.
  unfold exec, effects, completes. rewrite playTextToSpeech_outcome.
  destruct (currentAudio s) eqn:E; simpl; [done|].
  by repeat split; [|intros []].
Qed.

(** When the audio arrives the component holds the new element, which
    is created on the object URL of the blob, played, and given the
    [onended] handler, in that order. *)
Theorem playTextToSpeech_next_acquires (b : blob) (u : object_url) (a : audio)
    (s : component) :
  let s' := exec (playTextToSpeech_next b u a) s in
  currentAudio s' = Some a /\ isPlaying s' = true
  /\ effects (playTextToSpeech_next b u a) s
     = [CreateObjectURL b u; NewAudio a u; AudioPlay a; SetOnEnded a].
Proof. done. Qed.

(** The arrival of audio does not look at the handle the component
    holds: no element is paused, so an element that is playing is
    overwritten and keeps playing. *)
Theorem playTextToSpeech_next_overwrites (b : blob) (u : object_url) (a a0 : audio)
    (s : component) :
  (AudioPause a0 ∉ effects (playTextToSpeech_next b u a) s)
  /\ currentAudio (exec (playTextToSpeech_next b u a) s) = Some a.
Proof.
  split; [|done]. unfold effects. rewrite playTextToSpeech_next_outcome.
  simpl. rewrite !not_elem_of_cons. by repeat split; [..|apply not_elem_of_nil].
Qed.

(** A failed speech request logs and changes nothing: no handle, no
    entry in the log. *)
Theorem playTextToSpeech_error_silent (s : component) :
  playTextToSpeech_error s
  = Outcome s [ConsoleError "Audio playback error" LogError] (Normal tt).
Proof. reflexivity. Qed.

(** Every playback handler keeps the flag [isPlaying] equal to the
    presence of a handle. *)
Theorem playback_handle_consistent (speech : value) (b : blob) (u : object_url)
    (a : audio) (s : component) :
  handle_consistent s = true ->
  handle_consistent (exec (playTextToSpeech speech) s) = true
  /\ handle_consistent (exec (playTextToSpeech_next b u a) s) = true
  /\ handle_consistent (exec onended s) = true
  /\ handle_consistent (exec playTextToSpeech_error s) = true.
Proof.
  intros H. unfold exec. rewrite playTextToSpeech_outcome.
  by destruct (currentAudio s) eqn:E.
Qed.

(** ** Witnesses *)

Lemma playback_handle_consistent_witness :
  let s := exec (playTextToSpeech_next 0 0 0) new_component in
  handle_consistent (exec (playTextToSpeech (VStr "namaskar")) s) = true
  /\ handle_consistent (exec (playTextToSpeech_next 1 1 1) s) = true
  /\ handle_consistent (exec onended s) = true
  /\ handle_consistent (exec playTextToSpeech_error s) = true.
Proof. by apply playback_handle_consistent. Defined.

(** ** Hints *)

#[export] Hint Rewrite stop_current_outcome playTextToSpeech_outcome
  playTextToSpeech_next_outcome : handlers.
