(* ===== verification/System.v ===== *)
(** * System: the component among its collaborators

    The component runs in a browser: the user acts on the page, the HTTP
    client delivers replies and failures some time after a request, and an
    audio element ends when its sound is over.  Each of these is an [event],
    and [step] runs the handler of the event on the [world]: the component,
    the requests in flight, the audio elements and the object URLs the
    handlers created, the scrolls they scheduled and the lines they logged.

    Execution is single-threaded: a handler runs to its end before the next
    event.  Nothing orders the replies: any request in flight may be
    answered next, and a reply may arrive after a reset. *)

From Stdlib Require Import String ZArith Lia.
From stdpp Require Import base tactics option list strings.
From S2P Require Import Prelude JsString JsValue Json Normalizer Transport.
From S2P Require Import Action Session Playback.

(** ** The world *)

Inductive audio_status : Type :=
| Playing
| Paused
| Ended.

#[export] Instance audio_status_eq_dec : EqDecision audio_status.
Proof. solve_decision. Defined.

(** An [HTMLAudioElement]: its source, its state, and whether the component
    gave it an [onended] handler. *)
Record audio_element : Type := mkAudio {
  src : object_url;
  status : audio_status;
  has_onended : bool;
}.

#[export] Instance audio_element_eq_dec : EqDecision audio_element.
Proof. solve_decision. Defined.

Record world : Type := mkWorld {
  this : component;
  chat_pending : list http_request;
  tts_pending : list http_request;
  audios : list audio_element;
  object_urls : list blob;
  scrolls : nat;
  console : list effect;
  uncaught : list js_error;
}.

#[export] Instance world_eq_dec : EqDecision world.
Proof. solve_decision. Defined.

Definition set_this (s : component) (w : world) : world :=
  mkWorld s (chat_pending w) (tts_pending w) (audios w) (object_urls w) (scrolls w)
    (console w) (uncaught w).

Definition set_chat_pending (l : list http_request) (w : world) : world :=
  mkWorld (this w) l (tts_pending w) (audios w) (object_urls w) (scrolls w)
    (console w) (uncaught w).

Definition set_tts_pending (l : list http_request) (w : world) : world :=
  mkWorld (this w) (chat_pending w) l (audios w) (object_urls w) (scrolls w)
    (console w) (uncaught w).

Definition set_audios (l : list audio_element) (w : world) : world :=
  mkWorld (this w) (chat_pending w) (tts_pending w) l (object_urls w) (scrolls w)
    (console w) (uncaught w).

Definition set_object_urls (l : list blob) (w : world) : world :=
  mkWorld (this w) (chat_pending w) (tts_pending w) (audios w) l (scrolls w)
    (console w) (uncaught w).

Definition set_scrolls (n : nat) (w : world) : world :=
  mkWorld (this w) (chat_pending w) (tts_pending w) (audios w) (object_urls w) n
    (console w) (uncaught w).

Definition set_console (l : list effect) (w : world) : world :=
  mkWorld (this w) (chat_pending w) (tts_pending w) (audios w) (object_urls w)
    (scrolls w) l (uncaught w).

Definition set_uncaught (l : list js_error) (w : world) : world :=
  mkWorld (this w) (chat_pending w) (tts_pending w) (audios w) (object_urls w)
    (scrolls w) (console w) l.

Definition set_status (st : audio_status) (el : audio_element) : audio_element :=
  mkAudio (src el) st (has_onended el).

(** [pause()] stops an element that is playing. *)
Definition pause (el : audio_element) : audio_element :=
  match status el with
  | Playing => set_status Paused el
  | _ => el
  end.

(** What the collaborators do with an effect.  An element that is told to
    play plays: the browser's refusal of [play()] is an event of [Page],
    which silences the element afterwards. *)
Definition apply_effect (w : world) (e : effect) : world :=
  match e with
  | ScrollToBottom => set_scrolls (S (scrolls w)) w
  | Subscribe r =>
      match req_response_type r with
      | RespJson => set_chat_pending (chat_pending w ++ [r]) w
      | RespBlob => set_tts_pending (tts_pending w ++ [r]) w
      end
  | ClickFileInput => w
  | ResetFileInput => w
  | ConsoleLog _ _ => set_console (console w ++ [e]) w
  | ConsoleError _ _ => set_console (console w ++ [e]) w
  | AudioPause a => set_audios (alter pause a (audios w)) w
  | CreateObjectURL b _ => set_object_urls (object_urls w ++ [b]) w
  | NewAudio _ u => set_audios (audios w ++ [mkAudio u Paused false]) w
  | AudioPlay a => set_audios (alter (set_status Playing) a (audios w)) w
  | SetOnEnded a =>
      set_audios (alter (fun el => mkAudio (src el) (status el) true) a (audios w)) w
  end.

(** [run h w]: the handler [h] runs on the component; its effects reach the
    collaborators in order; an exception it throws is reported and
    dropped. *)
Definition run (h : handler) (w : world) : world :=
  match h (this w) with
  | Outcome s es r =>
      let w' := foldl apply_effect (set_this s w) es in
      match r with
      | Normal _ => w'
      | Throw e => set_uncaught (uncaught w' ++ [e]) w'
      end
  end.

(** ** Events *)

Inductive event : Type :=
| Input (txt : string)
| Send
| QuickReply (reply : string)
| OpenUploader (doc : string)
| FilesSelected (files : option (list File))
| Reset (rnd : string)
| TogglePassword
| OpenLiveChat
| ToggleChatWindowSize
| Play (speech : value)
| ChatReply (i : nat) (res : value)
| ChatError (i : nat)
| TtsReply (i : nat) (b : blob)
| TtsError (i : nat)
| AudioEnded (a : audio).

Definition new_world : world :=
  {| this := new_component; chat_pending := []; tts_pending := []; audios := [];
     object_urls := []; scrolls := 0; console := []; uncaught := [] |}.

(** The world after the component is created and initialised. *)
Definition init (rnd : string) : world := run (ngOnInit rnd) new_world.

Section system.
Context `{JP : JsonPlatform}.

(** [step e w]: the world after the event [e], when [e] can happen in
    [w]: a reply answers a request in flight, and an element that ends was
    playing. *)
Definition step (e : event) (w : world) : option world :=
  match e with
  | Input txt => Some (run (modify (set_userMessage txt)) w)
  | Send => Some (run (sendUserMessage None) w)
  | QuickReply reply => Some (run (handleQuickReply reply) w)
  | OpenUploader doc => Some (run (openUploader doc) w)
  | FilesSelected files => Some (run (onFileSelected files) w)
  | Reset rnd => Some (run (resetSession rnd) w)
  | TogglePassword => Some (run togglePassword w)
  | OpenLiveChat => Some (run openLiveChat w)
  | ToggleChatWindowSize => Some (run toggleChatWindowSize w)
  | Play speech => Some (run (playTextToSpeech speech) w)
  | ChatReply i res =>
      _ ← chat_pending w !! i;
      Some (run (sendUserMessage_next res) (set_chat_pending (delete i (chat_pending w)) w))
  | ChatError i =>
      _ ← chat_pending w !! i;
      Some (run sendUserMessage_error (set_chat_pending (delete i (chat_pending w)) w))
  | TtsReply i b =>
      _ ← tts_pending w !! i;
      Some (run (playTextToSpeech_next b (length (object_urls w)) (length (audios w)))
              (set_tts_pending (delete i (tts_pending w)) w))
  | TtsError i =>
      _ ← tts_pending w !! i;
      Some (run playTextToSpeech_error (set_tts_pending (delete i (tts_pending w)) w))
  | AudioEnded a =>
      el ← audios w !! a;
      match status el with
      | Playing =>
          let w' := set_audios (<[a := set_status Ended el]> (audios w)) w in
          Some (if has_onended el then run onended w' else w')
      | _ => None
      end
  end.

(** [steps es w]: the events [es] one after the other. *)
Fixpoint steps (es : list event) (w : world) : option world :=
  match es with
  | [] => Some w
  | e :: es' => w' ← step e w; steps es' w'
  end.

(** The worlds the system can be in. *)
Inductive reachable : world -> Prop :=
| reachable_init (rnd : string) : reachable (init rnd)
| reachable_step (e : event) (w w' : world) :
    reachable w -> step e w = Some w' -> reachable w'.

(** The worlds reached when the user asks for speech only while no speech
    request is in flight. *)
Inductive sequential : world -> Prop :=
| sequential_init (rnd : string) : sequential (init rnd)
| sequential_step (e : event) (w w' : world) :
    sequential w -> step e w = Some w' ->
    (forall speech, e = Play speech -> tts_pending w = []) ->
    sequential w'.

(** [disciplined es w]: along [es] from [w], the user asks for speech only
    while no speech request is in flight. *)
Fixpoint disciplined (es : list event) (w : world) : bool :=
  match es with
  | [] => true
  | e :: es' =>
      (if e is Play _ then bool_decide (tts_pending w = []) else true)
      && match step e w with
         | Some w' => disciplined es' w'
         | None => false
         end
  end.

End system.

(** ** Observations *)

(** [sounds w a]: the element [a] is playing. *)
Definition sounds (w : world) (a : audio) : Prop :=
  exists el, audios w !! a = Some el /\ status el = Playing.

(** The number of elements that sound. *)
Definition sounding (w : world) : nat :=
  length (filter (fun el => status el = Playing) (audios w)).

(** The world after a chat handler: the component it leaves, the requests
    in flight with the new ones, the scrolls, the log lines and the
    exceptions it added.  The playback side is untouched. *)
Definition chat_step (w : world) (pend : list http_request) (s : component)
    (reqs : list http_request) (nscroll : nat) (logs : list effect)
    (errs : list js_error) : world :=
  mkWorld s (pend ++ reqs) (tts_pending w) (audios w) (object_urls w)
    (nscroll + scrolls w) (console w ++ logs) (uncaught w ++ errs).

(** The world after a playback handler.  The chat side is untouched. *)
Definition audio_step (w : world) (s : component) (tts : list http_request)
    (auds : list audio_element) (urls : list blob) (logs : list effect) : world :=
  mkWorld s (chat_pending w) tts auds urls (scrolls w) (console w ++ logs) (uncaught w).

Definition chat_error_log : effect := ConsoleError "Chat error:" LogError.

Definition audio_error_log : effect := ConsoleError "Audio playback error" LogError.

Section step_relation.
Context `{JP : JsonPlatform}.

(** The step relation, one rule for each way an event can go. *)
Inductive step_case : event -> world -> world -> Prop :=
| case_input w txt :
    step_case (Input txt) w
      (chat_step w (chat_pending w) (set_userMessage txt (this w)) [] 0 [] [])
| case_send_rejected w
    (Hacc : accepted (this w) None = false) :
    step_case Send w w
| case_send w
    (Hacc : accepted (this w) None = true) :
    step_case Send w
      (chat_step w (chat_pending w) (submitted (this w) None)
         [turn_request (this w) None] 1 [] [])
| case_quick_rejected w reply
    (Hacc : accepted (set_userMessage reply (this w)) None = false) :
    step_case (QuickReply reply) w
      (chat_step w (chat_pending w) (set_userMessage reply (this w)) [] 0 [] [])
| case_quick w reply
    (Hacc : accepted (set_userMessage reply (this w)) None = true) :
    step_case (QuickReply reply) w
      (chat_step w (chat_pending w) (submitted (set_userMessage reply (this w)) None)
         [turn_request (set_userMessage reply (this w)) None] 1 [] [])
| case_open_uploader w doc :
    step_case (OpenUploader doc) w
      (chat_step w (chat_pending w) (set_selectedDocType doc (this w)) [] 0 [] [])
| case_no_files w files
    (Hnone : if files is Some (_ :: _) then False else True) :
    step_case (FilesSelected files) w w
| case_files w f files :
    step_case (FilesSelected (Some (f :: files))) w
      (chat_step w (chat_pending w) (submitted (this w) (Some f))
         [turn_request (this w) (Some f)] 1
         [ConsoleLog "Document Type:" (LogValue (VStr (selectedDocType (this w))));
          ConsoleLog "Uploaded File:" (LogFile f)] [])
| case_reset w rnd :
    step_case (Reset rnd) w
      (chat_step w (chat_pending w) (exec (resetSession rnd) (this w)) [] 1 [] [])
| case_toggle_password w :
    step_case TogglePassword w
      (chat_step w (chat_pending w) (exec togglePassword (this w)) [] 0 [] [])
| case_open_live_chat w :
    step_case OpenLiveChat w
      (chat_step w (chat_pending w) (exec openLiveChat (this w)) [] 0 [] [])
| case_toggle_size w :
    step_case ToggleChatWindowSize w
      (chat_step w (chat_pending w) (exec toggleChatWindowSize (this w)) [] 0 [] [])
| case_reply w i res r botText mode
    (Hpend : chat_pending w !! i = Some r)
    (Hres : nullish res = false)
    (Hout : sendUserMessage_next res (this w)
            = Outcome (replied (this w) botText mode) [ScrollToBottom] (Normal tt)) :
    step_case (ChatReply i res) w
      (chat_step w (delete i (chat_pending w)) (replied (this w) botText mode) [] 1 [] [])
| case_reply_null w i res r
    (Hpend : chat_pending w !! i = Some r)
    (Hres : nullish res = true) :
    step_case (ChatReply i res) w
      (chat_step w (delete i (chat_pending w)) (set_isLoading false (this w)) [] 0 []
         [TypeError])
| case_chat_error w i r
    (Hpend : chat_pending w !! i = Some r) :
    step_case (ChatError i) w
      (chat_step w (delete i (chat_pending w)) (exec sendUserMessage_error (this w)) []
         1 [chat_error_log] [])
| case_play_idle w speech
    (Hcur : currentAudio (this w) = None) :
    step_case (Play speech) w
      (audio_step w (this w) (tts_pending w ++ [getAudio speech]) (audios w)
         (object_urls w) [])
| case_play_stop w speech a
    (Hcur : currentAudio (this w) = Some a) :
    step_case (Play speech) w
      (audio_step w (set_isPlaying false (set_currentAudio None (this w)))
         (tts_pending w ++ [getAudio speech]) (alter pause a (audios w))
         (object_urls w) [])
| case_tts_reply w i b r
    (Hpend : tts_pending w !! i = Some r) :
    step_case (TtsReply i b) w
      (audio_step w
         (set_isPlaying true (set_currentAudio (Some (length (audios w))) (this w)))
         (delete i (tts_pending w))
         (audios w ++ [mkAudio (length (object_urls w)) Playing true])
         (object_urls w ++ [b]) [])
| case_tts_error w i r
    (Hpend : tts_pending w !! i = Some r) :
    step_case (TtsError i) w
      (audio_step w (this w) (delete i (tts_pending w)) (audios w) (object_urls w)
         [audio_error_log])
| case_ended w a el
    (Hel : audios w !! a = Some el) (Hst : status el = Playing)
    (Hhandler : has_onended el = true) :
    step_case (AudioEnded a) w
      (audio_step w (set_currentAudio None (set_isPlaying false (this w)))
         (tts_pending w) (<[a := set_status Ended el]> (audios w)) (object_urls w) [])
| case_ended_silent w a el
    (Hel : audios w !! a = Some el) (Hst : status el = Playing)
    (Hhandler : has_onended el = false) :
    step_case (AudioEnded a) w
      (audio_step w (this w) (tts_pending w) (<[a := set_status Ended el]> (audios w))
         (object_urls w) []).

End step_relation.

(** ** Lemmas: the step function and the step relation *)

Lemma world_eta (w : world) :
  mkWorld (this w) (chat_pending w) (tts_pending w) (audios w) (object_urls w)
    (scrolls w) (console w) (uncaught w) = w.
Proof. by destruct w. Qed.

(** The new element is the last one: playing it and giving it a handler
    touch no other. *)
Lemma alter_new {A} (f : A -> A) (l : list A) (x : A) :
  alter f (length l) (l ++ [x]) = l ++ [f x].
Proof. induction l as [|y l IH]; simpl; [done|]. f_equal. apply IH. Qed.

(** [world_eq]: two worlds are the same, field by field. *)
Ltac world_eq :=
  unfold chat_step, audio_step, run; cbn;
  rewrite ?app_nil_r, ?alter_new, <- ?app_assoc; try done.

Section step_facts.
Context `{JP : JsonPlatform}.

Lemma run_outcome (h : handler) (w : world) (s : component) (es : list effect) :
  h (this w) = Outcome s es (Normal tt) ->
  run h w = foldl apply_effect (set_this s w) es.
Proof. unfold run. by intros ->. Qed.

Lemma run_send (w : world) (file : option File) :
  accepted (this w) file = true ->
  run (sendUserMessage file) w
  = chat_step w (chat_pending w) (submitted (this w) file)
      [turn_request (this w) file] 1 [] [].
Proof.
  intros H. erewrite run_outcome by (by rewrite sendUserMessage_outcome, H).
  unfold chat_step. by rewrite !app_nil_r.
Qed.

Lemma run_send_rejected (w : world) (file : option File) :
  accepted (this w) file = false -> run (sendUserMessage file) w = w.
Proof.
  intros H. erewrite run_outcome by (by rewrite sendUserMessage_outcome, H).
  apply world_eta.
Qed.

Lemma run_quick (w : world) (reply : string) :
  run (handleQuickReply reply) w
  = run (sendUserMessage None) (set_this (set_userMessage reply (this w)) w).
Proof. unfold run. simpl. by rewrite handleQuickReply_outcome. Qed.

Lemma step_case_eq (e : event) (w w1 w2 : world) :
  step_case e w w1 -> w1 = w2 -> step_case e w w2.
Proof. by intros H <-. Qed.

(** [by_rule c]: close a case of [step_sound] with the rule [c]. *)
Ltac by_rule c := eapply step_case_eq; [eapply c; eauto|world_eq].

(** Every step follows a rule. *)
Lemma step_sound (e : event) (w w' : world) :
  step e w = Some w' -> step_case e w w'.
Proof.
  destruct e; simpl; intros Hs; simplify_option_eq.
  - by_rule case_input.
  - destruct (accepted (this w) None) eqn:E.
    + rewrite run_send by done. by constructor.
    + rewrite run_send_rejected by done. by constructor.
  - rewrite run_quick.
    destruct (accepted (set_userMessage reply (this w)) None) eqn:E.
    + rewrite run_send by done. by_rule case_quick.
    + rewrite run_send_rejected by done. by_rule case_quick_rejected.
  - by_rule case_open_uploader.
  - unfold run. autorewrite with handlers.
    destruct files as [[|f files]|]; [|by_rule case_files|];
      by (eapply step_case_eq; [by apply case_no_files|symmetry; apply world_eta]).
  - by_rule case_reset.
  - by_rule case_toggle_password.
  - by_rule case_open_live_chat.
  - by_rule case_toggle_size.
  - unfold run. autorewrite with handlers.
    destruct (currentAudio (this w)) eqn:E;
      [by_rule case_play_stop|by_rule case_play_idle].
  - destruct (sendUserMessage_next_cases (this w) res) as [[Hn Hc]|(b & m & Hn & Hc)];
      unfold run; simpl; rewrite Hc; [by_rule case_reply_null|by_rule case_reply].
  - by_rule case_chat_error.
  - unfold run. autorewrite with handlers. by_rule case_tts_reply.
  - by_rule case_tts_error.
  - destruct (status _) eqn:Hst; simplify_eq.
    destruct (has_onended _) eqn:Hon; [by_rule case_ended|by_rule case_ended_silent].
Qed.

(** Every rule is a step. *)
Lemma step_complete (e : event) (w w' : world) :
  step_case e w w' -> step e w = Some w'.
Proof.
  destruct 1; unfold step; simplify_option_eq; f_equal;
    rewrite ?run_quick, ?run_send, ?run_send_rejected by done; try by world_eq.
  - unfold run. autorewrite with handlers.
    destruct files as [[|??]|]; try done; apply world_eta.
  - unfold run. autorewrite with handlers. world_eq.
  - unfold run. simpl. rewrite Hout. world_eq.
  - unfold run. simpl. rewrite sendUserMessage_next_throws by done. world_eq.
  - unfold run. autorewrite with handlers. rewrite Hcur. world_eq.
  - unfold run. autorewrite with handlers. rewrite Hcur. world_eq.
  - unfold run. autorewrite with handlers. world_eq.
  - rewrite Hst, Hhandler. f_equal. world_eq.
  - rewrite Hst, Hhandler. f_equal. world_eq.
Qed.

End step_facts.

(** [some_rule]: the step follows one of the rules, its premises among the
    hypotheses. *)
Ltac premise :=
  simpl; first [eassumption|done|by eapply sendUserMessage_next_uniform].

Ltac some_rule :=
  first
    [ eapply case_input; solve [premise]
    | eapply case_send_rejected; solve [premise]
    | eapply case_send; solve [premise]
    | eapply case_quick_rejected; solve [premise]
    | eapply case_quick; solve [premise]
    | eapply case_open_uploader; solve [premise]
    | eapply case_no_files; solve [premise]
    | eapply case_files; solve [premise]
    | eapply case_reset; solve [premise]
    | eapply case_toggle_password; solve [premise]
    | eapply case_open_live_chat; solve [premise]
    | eapply case_toggle_size; solve [premise]
    | eapply case_reply; solve [premise]
    | eapply case_reply_null; solve [premise]
    | eapply case_chat_error; solve [premise]
    | eapply case_play_idle; solve [premise]
    | eapply case_play_stop; solve [premise]
    | eapply case_tts_reply; solve [premise]
    | eapply case_tts_error; solve [premise]
    | eapply case_ended; solve [premise]
    | eapply case_ended_silent; solve [premise] ].

(** ** The run of the system *)

Section system_runs.
Context `{JP : JsonPlatform}.

#[export] Instance system_runs : Runs step steps.
Proof. by split. Qed.

Lemma steps_app (es1 es2 : list event) (w : world) :
  steps (es1 ++ es2) w = steps es1 w ≫= steps es2.
Proof. apply run_app. Qed.

(** The step function and the step relation are the same: an event
    takes a world to another exactly when one of the rules says so. *)
Theorem step_iff_case (e : event) (w w' : world) :
  step e w = Some w' <-> step_case e w w'.
Proof. split; [apply step_sound|apply step_complete]. Qed.

(** An event of the user can always happen; a reply or a failure can
    happen exactly when the request it answers is in flight, and an element
    can end exactly when it sounds. *)
Theorem step_enabled (e : event) (w : world) :
  is_Some (step e w)
  <-> match e with
      | ChatReply i _ | ChatError i => i < length (chat_pending w)
      | TtsReply i _ | TtsError i => i < length (tts_pending w)
      | AudioEnded a => sounds w a
      | _ => True
      end.
Proof.
  destruct e; simpl; try (split; [done|by eexists]);
    try (rewrite <- lookup_lt_is_Some; split;
         [intros [w' Hw]; by destruct (_ !! i)|intros [r ->]; by eexists]).
  unfold sounds. split.
  - intros [w' Hw]. destruct (audios w !! a) as [el|]; [|done]. simpl in Hw.
    exists el. by destruct (status el).
  - intros (el & -> & Hst). simpl. rewrite Hst. by eexists.
Qed.

End system_runs.
