(* ===== verification/Invariants.v ===== *)
(** * Invariants: what holds in every world the system reaches

    The invariants of the playback handle ([handle_inv]) and of the chat
    ([chat_inv]), the invariant of the runs with one speech request at a
    time ([single_inv]), the lemmas on the audio store they need, and the
    theorems that every reachable world satisfies them.  The sample
    worlds the witnesses of the development run on are defined here. *)

From Stdlib Require Import String ZArith Lia.
From stdpp Require Import base tactics option list strings.
From S2P Require Import Prelude JsString JsValue Json Normalizer Transport.
From S2P Require Import Action Session Playback System.

(** ** The invariants *)

(** [store_all P l]: every element of the store, with its reference,
    satisfies [P]. *)
Definition store_all {A} (P : nat -> A -> Prop) (l : list A) : Prop :=
  forall a el, l !! a = Some el -> P a el.

(** The handle: the flag says whether the component holds an element; the
    element it holds sounds; an element that sounds has the [onended]
    handler; every element has an object URL of its own, and none was
    released. *)
Record handle_inv (w : world) : Prop := {
  inv_flag : isPlaying (this w) = bool_decide (is_Some (currentAudio (this w)));
  inv_live : forall a, currentAudio (this w) = Some a -> sounds w a;
  inv_onended :
    store_all (fun _ el => status el = Playing -> has_onended el = true) (audios w);
  inv_urls : length (object_urls w) = length (audios w);
  inv_src : store_all (fun a el => src el = a) (audios w);
}.

(** The chat: while the loading flag is up a request is in flight; the log
    opens with an entry of the assistant; the session identifier is one the
    component drew. *)
Record chat_inv (w : world) : Prop := {
  inv_loading : isLoading (this w) = true -> chat_pending w <> [];
  inv_log : exists m rest, messages (this w) = m :: rest /\ isUser m = false;
  inv_session : exists rnd, sessionId (this w) = generateSessionId rnd;
}.

(** A request in flight is a chat request of the component: it goes to the
    chat router and carries a text and an identifier the component drew. *)
Definition chat_request (r : http_request) : Prop :=
  req_url r = apiUrl /\ req_response_type r = RespJson
  /\ exists fd txt rnd,
       req_body r = BodyForm fd
       /\ form_get "message" fd = Some (FText txt)
       /\ form_get "session_id" fd = Some (FText (generateSessionId rnd)).

(** With one speech request at a time, the element the component holds is
    the only one that sounds, and nothing sounds while a request is in
    flight. *)
Record single_inv (w : world) : Prop := {
  inv_only : forall a, sounds w a -> currentAudio (this w) = Some a;
  inv_waiting : tts_pending w = []
                \/ (currentAudio (this w) = None /\ exists r, tts_pending w = [r]);
}.

(** ** Lookups in the audio store *)

Lemma lookup_alter_inv {A} (f : A -> A) (l : list A) (i j : nat) (y : A) :
  alter f i l !! j = Some y ->
  exists x, l !! j = Some x /\ (y = x \/ (j = i /\ y = f x)).
Proof.
  rewrite list_lookup_alter. destruct (decide (i = j)) as [->|?].
  - destruct (l !! j) as [x|]; [|done]. intros [= <-]. eauto.
  - eauto.
Qed.

Lemma store_all_alter {A} (P : nat -> A -> Prop) (f : A -> A) (l : list A) (i : nat) :
  store_all P l -> (forall x, l !! i = Some x -> P i x -> P i (f x)) ->
  store_all P (alter f i l).
Proof.
  intros Hl Hf a y (x & Hx & [->|[-> ->]])%lookup_alter_inv; eauto.
Qed.

Lemma store_all_insert {A} (P : nat -> A -> Prop) (l : list A) (i : nat) (x : A) :
  store_all P l -> P i x -> store_all P (<[i := x]> l).
Proof.
  intros Hl Hx a y [(-> & <- & _)|[_ Hy]]%list_lookup_insert_Some; eauto.
Qed.

Lemma store_all_snoc {A} (P : nat -> A -> Prop) (l : list A) (x : A) :
  store_all P l -> P (length l) x -> store_all P (l ++ [x]).
Proof.
  intros Hl Hx a y [[_ Hy]|[-> <-]]%lookup_snoc_Some; eauto.
Qed.

Lemma status_pause (el : audio_element) : status (pause el) <> Playing.
Proof. unfold pause. by destruct (status el) eqn:E; simpl; rewrite ?E. Qed.

(** After [pause()] on the handle, the elements that sound are those that
    did, without the handle. *)
Lemma sounds_pause w s tts urls logs a b :
  sounds (audio_step w s tts (alter pause a (audios w)) urls logs) b ->
  sounds w b /\ b <> a.
Proof.
  intros (el & Hl & Hs). simpl in Hl.
  pose proof (lookup_alter_inv _ _ _ _ _ Hl) as (x & Hx & [->|[-> ->]]).
  - split; [by exists x|]. intros ->.
    rewrite list_lookup_alter, decide_True, Hx in Hl by done.
    simpl in Hl. injection Hl as Hp. rewrite <- Hp in Hs.
    by apply status_pause in Hs.
  - by apply status_pause in Hs.
Qed.

(** After an element ends, the elements that sound are those that did,
    without it. *)
Lemma sounds_ended w s tts urls logs a el b :
  sounds (audio_step w s tts (<[a := set_status Ended el]> (audios w)) urls logs) b ->
  sounds w b /\ b <> a.
Proof.
  intros (x & Hl & Hs). simpl in Hl.
  apply list_lookup_insert_Some in Hl as [(-> & <- & _)|[Hne Hl]]; [done|].
  split; [by exists x|done].
Qed.

(** After a new element plays, the elements that sound are those that did,
    and the new one. *)
Lemma sounds_new w s tts urls logs u b :
  sounds (audio_step w s tts (audios w ++ [mkAudio u Playing true]) urls logs) b ->
  sounds w b \/ b = length (audios w).
Proof.
  intros (x & Hl & Hs). simpl in Hl.
  apply lookup_snoc_Some in Hl as [[_ Hl]|[-> _]]; [left; by exists x|by right].
Qed.

(** ** The invariants hold in every world the system reaches *)

Lemma snoc_ne_nil {A} (l : list A) (x : A) : l ++ [x] <> [].
Proof. by destruct l. Qed.

Lemma head_snoc {A} (P : A -> Prop) (l : list A) (x : A) :
  (exists m rest, l = m :: rest /\ P m) ->
  exists m rest, l ++ [x] = m :: rest /\ P m.
Proof. intros (m & rest & -> & Hm). by exists m, (rest ++ [x]). Qed.

Section invariants.
Context `{JP : JsonPlatform}.

Lemma reachable_ind_case (P : world -> Prop) :
  (forall rnd, P (init rnd)) ->
  (forall e w w', reachable w -> P w -> step_case e w w' -> P w') ->
  forall w, reachable w -> P w.
Proof.
  intros Hinit Hstep w Hw. induction Hw as [rnd|e w w' Hw IH Hs]; [done|].
  eapply Hstep; eauto using step_sound.
Qed.

Lemma init_chat_inv (rnd : string) : chat_inv (init rnd).
Proof. split; [done|by eexists _, _|by eexists]. Qed.

Lemma step_chat_inv (e : event) (w w' : world) :
  step_case e w w' -> chat_inv w -> chat_inv w'.
Proof.
  intros Hc [Hl Hm Hs].
  destruct Hc; split; simpl; rewrite ?app_nil_r;
    try done; try (intros _; apply snoc_ne_nil);
    try (by apply head_snoc); try by eexists _, _.
  by eexists.
Qed.

Lemma init_handle_inv (rnd : string) : handle_inv (init rnd).
Proof. by split. Qed.

Lemma step_handle_inv (e : event) (w w' : world) :
  step_case e w w' -> handle_inv w -> handle_inv w'.
Proof.
  intros Hc [Hf Hlive Hon Hu Hsrc].
  destruct Hc; split; simpl; try done.
  - apply store_all_alter; [done|]. by intros x _ _ ?%status_pause.
  - by rewrite length_alter.
  - apply store_all_alter; [done|]. intros x _ <-. unfold pause. by destruct (status x).
  - intros ? [= <-]. eexists. split; [apply list_lookup_middle|]; done.
  - by apply (store_all_snoc _ _ _ Hon).
  - by rewrite !length_app, Hu.
  - by apply (store_all_snoc _ _ _ Hsrc).
  - by apply store_all_insert.
  - by rewrite length_insert.
  - apply store_all_insert; [done|]. exact (Hsrc _ _ Hel).
  - intros b Hb. by rewrite (Hon _ _ Hel Hst) in Hhandler.
  - by apply store_all_insert.
  - by rewrite length_insert.
  - apply store_all_insert; [done|]. exact (Hsrc _ _ Hel).
Qed.

Lemma init_single_inv (rnd : string) : single_inv (init rnd).
Proof. split; [|by left]. by intros a (el & Hel & _). Qed.

Lemma step_single_inv (e : event) (w w' : world) :
  step_case e w w' -> (forall speech, e = Play speech -> tts_pending w = []) ->
  single_inv w -> single_inv w'.
Proof.
  intros Hc Hseq [Honly Hwait].
  destruct Hc; split; try done; simpl.
  - right. split; [done|]. rewrite (Hseq _ eq_refl). by eexists.
  - intros b [Hb Hne]%sounds_pause. apply Honly in Hb. congruence.
  - right. split; [done|]. rewrite (Hseq _ eq_refl). by eexists.
  - intros c [Hc| ->]%sounds_new; [|done].
    destruct Hwait as [Hw|[Hcur _]]; [by rewrite Hw in Hpend|].
    apply Honly in Hc. congruence.
  - destruct Hwait as [Hw|[_ [r' Hw]]]; rewrite Hw in Hpend; [done|].
    left. rewrite Hw. by destruct i as [|[|i]].
  - destruct Hwait as [Hw|[Hcur [r' Hw]]]; rewrite Hw in Hpend; [done|].
    left. rewrite Hw. by destruct i as [|[|i]].
  - intros b [Hb Hne]%sounds_ended. apply Honly in Hb.
    assert (sounds w a) as Ha%Honly by (by exists el). congruence.
  - destruct Hwait as [?|[_ ?]]; [by left|by right].
  - intros b [Hb Hne]%sounds_ended. by apply Honly.
Qed.

End invariants.

(** ** Counting the elements that sound *)

Lemma filter_none {A} (P : A -> Prop) `{forall x, Decision (P x)} (l : list A) :
  (forall j y, l !! j = Some y -> ~ P y) -> filter P l = [].
Proof.
  induction l as [|x l IH]; intros Hl; [done|].
  rewrite filter_cons_False by apply (Hl 0 x eq_refl).
  apply IH. intros j y. apply (Hl (S j) y).
Qed.

Lemma filter_at_most_one {A} (P : A -> Prop) `{forall x, Decision (P x)} (l : list A) :
  (forall i j x y, l !! i = Some x -> l !! j = Some y -> P x -> P y -> i = j) ->
  length (filter P l) <= 1.
Proof.
  induction l as [|x l IH]; intros Hl; [simpl; lia|].
  destruct (decide (P x)) as [Hx|Hx].
  - rewrite filter_cons_True by done. rewrite filter_none; [done|].
    intros j y Hy HP. by specialize (Hl 0 (S j) x y eq_refl Hy Hx HP).
  - rewrite filter_cons_False by done. apply IH.
    intros i j y z Hy Hz HPy HPz.
    by specialize (Hl (S i) (S j) y z Hy Hz HPy HPz) as [= ->].
Qed.

Lemma sounding_at_most_one (w : world) :
  (forall a b, sounds w a -> sounds w b -> a = b) -> sounding w <= 1.
Proof.
  intros Hw. apply filter_at_most_one. intros i j x y Hx Hy Px Py.
  apply Hw; by eexists.
Qed.

Section system_facts.
Context `{JP : JsonPlatform}.

Lemma steps_reachable (es : list event) (w w' : world) :
  reachable w -> steps es w = Some w' -> reachable w'.
Proof.
  apply (run_preserves (steps := steps)). intros e s s' Hs He.
  by eapply reachable_step.
Qed.

Lemma steps_sequential (es : list event) (w w' : world) :
  sequential w -> disciplined es w = true -> steps es w = Some w' -> sequential w'.
Proof.
  revert w. induction es as [|e es IH]; intros w Hw; simpl.
  - by intros _ [= <-].
  - intros [He Hd]%andb_true_iff. destruct (step e w) as [w1|] eqn:E; [|done].
    simpl. apply IH; [|done]. eapply sequential_step; [done..|].
    intros speech ->. by apply bool_decide_eq_true in He.
Qed.

Lemma sequential_reachable (w : world) : sequential w -> reachable w.
Proof. induction 1; [constructor|by eapply reachable_step]. Qed.

Lemma reachable_chat_inv_all (w : world) : reachable w -> chat_inv w.
Proof.
  apply reachable_ind_case; [apply init_chat_inv|].
  intros e w1 w2 _ Hinv Hc. by eapply step_chat_inv.
Qed.

Lemma reachable_handle_inv_all (w : world) : reachable w -> handle_inv w.
Proof.
  apply reachable_ind_case; [apply init_handle_inv|].
  intros e w1 w2 _ Hinv Hc. by eapply step_handle_inv.
Qed.

Lemma turn_request_chat (s : component) (file : option File) (rnd : string) :
  sessionId s = generateSessionId rnd -> chat_request (turn_request s file).
Proof.
  intros Hs. split; [done|]. split; [done|]. eexists _, _, rnd.
  split; [done|]. rewrite <- Hs. unfold turn_request.
  apply sendMessage_form_required.
Qed.

Lemma step_chat_requests (e : event) (w w' : world) :
  step_case e w w' -> chat_inv w ->
  Forall chat_request (chat_pending w) -> Forall chat_request (chat_pending w').
Proof.
  intros Hc [_ _ [rnd Hs]] Hall.
  destruct Hc; simpl; rewrite ?app_nil_r; try done;
    try (by apply Forall_delete);
    apply Forall_app; (split; [done|]); apply Forall_singleton;
    by eapply turn_request_chat.
Qed.

(** The reply that is an object always goes through. *)
Lemma step_reply_object (i : nat) (props : list (string * value)) (w w' : world) :
  step (ChatReply i (VObj props)) w = Some w' ->
  exists botText,
    normalize (lookup_prop "response" props) = Normal botText
    /\ w' = chat_step w (delete i (chat_pending w))
              (replied (this w) botText (lookup_prop "mode" props)) [] 1 [] [].
Proof.
  destruct (handle_response_total (parse_outer (lookup_prop "response" props)))
    as [botText Hb].
  intros Hs. exists botText. split; [done|].
  unfold step in Hs. simplify_option_eq. unfold run. simpl.
  rewrite (sendUserMessage_next_outcome _ _ _ botText (lookup_prop "mode" props))
    by done.
  world_eq.
Qed.

End system_facts.

(** ** Theorems *)

Section invariant_theorems.
Context `{JP : JsonPlatform}.

(** C18: in every world the system reaches, the flag [isPlaying] says
    whether the component holds an element, the element it holds sounds,
    every element that sounds has the [onended] handler, and there is one
    object URL for each element ever created: none is released. *)
Theorem reachable_handle_inv (w : world) : reachable w -> handle_inv w.
Proof. apply reachable_handle_inv_all. Qed.

(** C23: in every world the system reaches, a raised loading flag means a
    request is in flight, the log opens with an entry of the assistant, and
    the session identifier is one [generateSessionId] made. *)
Theorem reachable_chat_inv (w : world) : reachable w -> chat_inv w.
Proof. apply reachable_chat_inv_all. Qed.

(** Every request in flight goes to the chat router and carries a text
    and a session identifier the component drew. *)
Theorem reachable_requests (w : world) :
  reachable w -> Forall chat_request (chat_pending w).
Proof.
  intros Hw. induction Hw as [rnd|e w w' Hw IH Hs]; [by constructor|].
  eapply step_chat_requests; eauto using step_sound, reachable_chat_inv_all.
Qed.

(** When the user asks for speech only while no speech request is in
    flight, at most one element sounds, and it is the one the component
    holds. *)
Theorem sequential_single_playback (w : world) :
  sequential w ->
  sounding w <= 1 /\ forall a, sounds w a -> currentAudio (this w) = Some a.
Proof.
  intros Hw. assert (single_inv w) as [Honly _].
  { induction Hw as [rnd|e w w' Hw IH Hs Hseq]; [apply init_single_inv|].
    eapply step_single_inv; eauto using step_sound. }
  split; [|done]. apply sounding_at_most_one.
  intros a b Ha%Honly Hb%Honly. congruence.
Qed.

End invariant_theorems.

(** ** Witnesses *)

(** Two turns in flight, on the reference platform. *)
Definition two_turns : list event := [Input "hello"; Send; Input "more"; Send].

Definition two_turns_world : world :=
  Eval vm_compute in
    default new_world (steps (JP := RefJson) two_turns (init "0.4fzyo82mvyr")).

(** Two requests for speech answered one after the other, then a third
    asked for. *)
Definition speech_in_turn : list event :=
  [Play (VStr "one"); TtsReply 0 7; Play (VStr "two"); TtsReply 0 8; Play (VStr "three")].

Definition speech_world : world :=
  Eval vm_compute in
    default new_world (steps (JP := RefJson) speech_in_turn (init "0.4fzyo82mvyr")).

Definition sample_reply : value :=
  VObj [("response", VStr "namaskar"); ("mode", VStr "chat")].

Lemma two_turns_reachable : reachable (JP := RefJson) two_turns_world.
Proof.
  apply (steps_reachable two_turns (init "0.4fzyo82mvyr")); [constructor|].
  by vm_compute.
Qed.

Lemma speech_world_sequential : sequential (JP := RefJson) speech_world.
Proof.
  apply (steps_sequential speech_in_turn (init "0.4fzyo82mvyr")); [constructor|..];
    by vm_compute.
Qed.

Lemma reachable_handle_inv_witness : handle_inv speech_world.
Proof.
  apply (reachable_handle_inv (JP := RefJson)).
  apply sequential_reachable, speech_world_sequential.
Defined.

Lemma reachable_chat_inv_witness : chat_inv two_turns_world.
Proof. apply (reachable_chat_inv (JP := RefJson)), two_turns_reachable. Defined.

Lemma reachable_requests_witness : Forall chat_request (chat_pending two_turns_world).
Proof. apply (reachable_requests (JP := RefJson)), two_turns_reachable. Defined.

Lemma sequential_single_playback_witness :
  sounding speech_world <= 1
  /\ forall a, sounds speech_world a -> currentAudio (this speech_world) = Some a.
Proof.
  apply (sequential_single_playback (JP := RefJson)), speech_world_sequential.
Defined.
