(* ===== verification/Behaviour.v ===== *)
(** * Behaviour: what a step and an order of steps do

    The effect of the events on the world, one theorem per fact the
    written specification states of a turn (an entry per submission and per
    resolution, the context kept by a failure, the log that only grows),
    and what the sources leave to the order of the events: replies win in
    the order of arrival, a reset cancels nothing, the loading flag is one
    for all turns, and two speech requests in flight give two elements
    that sound together, one of which nothing can stop. *)

From Stdlib Require Import String ZArith Lia.
From stdpp Require Import base tactics option list strings.
From S2P Require Import Prelude JsString JsValue Json Normalizer Transport.
From S2P Require Import Action Session Playback System Invariants.

(** What the playback theorems look at: the states of the elements, the handle
    and the flag. *)
Definition playback_view (w : world) : list audio_status * option audio * bool :=
  (status <$> audios w, currentAudio (this w), isPlaying (this w)).

(** ** Theorems *)

Section system_theorems.
Context `{JP : JsonPlatform}.

(** A quick reply is the input of the reply followed by a
    submission. *)
Theorem quick_reply_is_input_then_send (reply : string) (w : world) :
  step (QuickReply reply) w = steps [Input reply; Send] w.
Proof. simpl. by rewrite run_quick. Qed.

(** C25: the resolution of a turn, a reply with a body or a failure, takes
    one request out of flight and appends exactly one entry of the
    assistant. *)
Theorem resolution_appends_one (e : event) (w w' : world) :
  step e w = Some w' ->
  match e with
  | ChatReply _ res => nullish res = false
  | ChatError _ => True
  | _ => False
  end ->
  (exists m, messages (this w') = messages (this w) ++ [m] /\ isUser m = false)
  /\ S (length (chat_pending w')) = length (chat_pending w)
  /\ isLoading (this w') = false.
Proof.
  intros Hc%step_sound He.
  destruct Hc; try done; try congruence; simpl; rewrite app_nil_r;
    (split; [eexists; split; [reflexivity|done]|]); (split; [|done]);
    rewrite length_delete by (by eexists); apply lookup_lt_Some in Hpend; lia.
Qed.

(** A failed turn leaves the previous response, its mode and the
    session identifier as they were, whatever else is in flight. *)
Theorem failure_keeps_context (i : nat) (w w' : world) :
  step (ChatError i) w = Some w' ->
  context (this w') = context (this w)
  /\ sessionId (this w') = sessionId (this w)
  /\ last (messages (this w')) = Some (mkChatMessage (VStr apology) false None).
Proof.
  intros Hc%step_sound. inversion Hc; subst. simpl.
  by rewrite last_snoc.
Qed.

(** An accepted submission appends exactly one entry of the user and
    puts exactly one request in flight, built from the state at the time of
    the submission. *)
Theorem submission_appends_one (w w' : world) :
  step Send w = Some w' -> accepted (this w) None = true ->
  messages (this w') = messages (this w) ++ [user_entry (this w) None]
  /\ chat_pending w' = chat_pending w ++ [turn_request (this w) None]
  /\ isLoading (this w') = true.
Proof.
  intros Hc%step_sound Hacc. inversion Hc; subst; [congruence|done].
Qed.

(** The log only grows: every event but a reset leaves the entries
    that were there, in their order. *)
Theorem log_append_only (e : event) (w w' : world) :
  step e w = Some w' ->
  (exists rnd, e = Reset rnd) \/ messages (this w) `prefix_of` messages (this w').
Proof.
  intros Hc%step_sound.
  destruct Hc; simpl; try (by right); try (right; by apply prefix_app_r).
  left. by eexists.
Qed.

(** The session identifier changes at a reset and at no other
    event. *)
Theorem session_stable (e : event) (w w' : world) :
  step e w = Some w' ->
  sessionId (this w') = match e with
                        | Reset rnd => generateSessionId rnd
                        | _ => sessionId (this w)
                        end.
Proof. intros Hc%step_sound. by destruct Hc. Qed.

(** Chat and playback do not touch each other: a chat event leaves
    the handle, the audio elements, the object URLs and the speech requests
    as they were, and a playback event leaves the log, the input, the
    context, the loading flag and the chat requests as they were. *)
Theorem chat_playback_independent (e : event) (w w' : world) :
  step e w = Some w' ->
  match e with
  | Play _ | TtsReply _ _ | TtsError _ | AudioEnded _ =>
      messages (this w') = messages (this w)
      /\ userMessage (this w') = userMessage (this w)
      /\ context (this w') = context (this w)
      /\ sessionId (this w') = sessionId (this w)
      /\ isLoading (this w') = isLoading (this w)
      /\ chat_pending w' = chat_pending w
  | _ =>
      currentAudio (this w') = currentAudio (this w)
      /\ isPlaying (this w') = isPlaying (this w)
      /\ audios w' = audios w /\ object_urls w' = object_urls w
      /\ tts_pending w' = tts_pending w
  end.
Proof. intros Hc%step_sound. by destruct Hc. Qed.

(** C33: a reset cancels nothing: the requests in flight stay in flight,
    and the reply to a request of the old session is appended to the new
    log and becomes the context of the new session. *)
Theorem reset_keeps_requests (rnd : string) (i : nat) (props : list (string * value))
    (w w1 w2 : world) :
  step (Reset rnd) w = Some w1 ->
  step (ChatReply i (VObj props)) w1 = Some w2 ->
  chat_pending w1 = chat_pending w
  /\ exists botText,
       normalize (lookup_prop "response" props) = Normal botText
       /\ messages (this w2)
          = [mkChatMessage (VStr reset_notice) false None;
             mkChatMessage botText false None]
       /\ context (this w2) = (botText, lookup_prop "mode" props)
       /\ sessionId (this w2) = generateSessionId rnd.
Proof.
  intros H1%step_sound (botText & Hb & ->)%step_reply_object.
  inversion H1; subst. split; [simpl; by rewrite app_nil_r|].
  by exists botText.
Qed.

(** The context is the one of the reply that arrived last, in the
    order of arrival and not of submission. *)
Theorem last_arrival_wins (i j : nat) (p1 p2 : list (string * value))
    (w w1 w2 : world) :
  step (ChatReply i (VObj p1)) w = Some w1 ->
  step (ChatReply j (VObj p2)) w1 = Some w2 ->
  exists b1 b2,
    normalize (lookup_prop "response" p1) = Normal b1
    /\ normalize (lookup_prop "response" p2) = Normal b2
    /\ context (this w2) = (b2, lookup_prop "mode" p2)
    /\ messages (this w2)
       = messages (this w) ++ [mkChatMessage b1 false None; mkChatMessage b2 false None].
Proof.
  intros (b1 & Hb1 & ->)%step_reply_object (b2 & Hb2 & ->)%step_reply_object.
  exists b1, b2. repeat split; try done. simpl. by rewrite <- app_assoc.
Qed.

(** A reply without a body consumes its request and lowers the loading
    flag, then throws: the TypeError is uncaught, the log gains no entry
    and the context stays. *)
Theorem null_body_reply (i : nat) (res : value) (w w' : world) :
  step (ChatReply i res) w = Some w' -> nullish res = true ->
  uncaught w' = uncaught w ++ [TypeError]
  /\ messages (this w') = messages (this w)
  /\ context (this w') = context (this w)
  /\ isLoading (this w') = false
  /\ S (length (chat_pending w')) = length (chat_pending w).
Proof.
  intros Hc%step_sound Hres. inversion Hc; subst; [congruence|]. simpl.
  repeat split. rewrite app_nil_r, length_delete by (by eexists).
  apply lookup_lt_Some in Hpend. lia.
Qed.

(** No event releases an object URL or removes an audio element: both
    stores only grow. *)
Theorem stores_only_grow (e : event) (w w' : world) :
  step e w = Some w' ->
  object_urls w `prefix_of` object_urls w' /\ length (audios w) <= length (audios w').
Proof.
  intros Hc%step_sound.
  destruct Hc; simpl; rewrite ?length_alter, ?length_insert, ?length_app;
    (split; [try done; by apply prefix_app_r|lia]).
Qed.

End system_theorems.

(** ** Interleavings the sources allow *)

Section races.
Context `{JP : JsonPlatform}.

(** A blob that arrives is played in a new element, whatever the
    component held. *)
Lemma tts_reply_sounds (i : nat) (b : blob) (w w' : world) :
  step (TtsReply i b) w = Some w' ->
  audios w' = audios w ++ [mkAudio (length (object_urls w)) Playing true]
  /\ currentAudio (this w') = Some (length (audios w))
  /\ isPlaying (this w') = true.
Proof. intros Hc%step_sound. by inversion Hc. Qed.

Lemma sounds_app (w w' : world) (a : audio) (l : list audio_element) :
  audios w' = audios w ++ l -> sounds w a -> sounds w' a.
Proof.
  intros Ha (el & Hel & Hst). exists el. split; [|done].
  rewrite Ha. by apply lookup_app_l_Some.
Qed.

Lemma sounds_last (w w' : world) (el : audio_element) :
  audios w' = audios w ++ [el] -> status el = Playing -> sounds w' (length (audios w)).
Proof.
  intros Ha Hst. exists el. split; [|done]. rewrite Ha. by apply list_lookup_middle.
Qed.

(** C19: the race of the playback.  When two blobs arrive one after the
    other (two requests for speech were in flight at once), each is played
    in an element of its own and nothing is paused: the two elements sound
    together, and the component holds the second only. *)
Theorem playback_race (i j : nat) (b1 b2 : blob) (w w1 w2 : world) :
  step (TtsReply i b1) w = Some w1 -> step (TtsReply j b2) w1 = Some w2 ->
  sounds w2 (length (audios w)) /\ sounds w2 (S (length (audios w)))
  /\ currentAudio (this w2) = Some (S (length (audios w)))
  /\ 2 <= sounding w2.
Proof.
  intros (Ha1 & _)%tts_reply_sounds (Ha2 & Hc2 & _)%tts_reply_sounds.
  assert (length (audios w1) = S (length (audios w))) as Hlen
    by (rewrite Ha1, length_app; simpl; lia).
  rewrite Hlen in Hc2. repeat split; [| |done|].
  - eapply sounds_app; [done|]. by eapply sounds_last.
  - rewrite <- Hlen. by eapply sounds_last.
  - unfold sounding. rewrite Ha2, Ha1, !filter_app, !length_app. simpl. lia.
Qed.

(** No handler touches an element that sounds and that the component
    does not hold. *)
Lemma step_case_orphan (e : event) (w w' : world) (a : audio) :
  step_case e w w' -> sounds w a -> currentAudio (this w) <> Some a ->
  e <> AudioEnded a ->
  sounds w' a /\ currentAudio (this w') <> Some a.
Proof.
  intros Hc (el & Hel & Hst) Hcur He. unfold sounds.
  destruct Hc; simpl; try (split; [by exists el|done]).
  - split; [|done]. exists el. split; [|done].
    rewrite list_lookup_alter_ne; [done|congruence].
  - split.
    + exists el. split; [|done]. by apply lookup_app_l_Some.
    + apply lookup_lt_Some in Hel. intros [= <-]. lia.
  - split; [|done]. exists el. split; [|done].
    rewrite list_lookup_insert_ne; [done|congruence].
  - split; [|done]. exists el. split; [|done].
    rewrite list_lookup_insert_ne; [done|congruence].
Qed.

(** C31: the orphan.  An element that sounds and that the component does
    not hold (the first element of a race) cannot be stopped: whatever
    the user asks for and whatever arrives, it sounds until it ends by
    itself, and the component never holds it again. *)
Theorem playback_orphan (es : list event) (w w' : world) (a : audio) :
  sounds w a -> currentAudio (this w) <> Some a ->
  steps es w = Some w' -> AudioEnded a ∉ es ->
  sounds w' a /\ currentAudio (this w') <> Some a.
Proof.
  revert w. induction es as [|e es IH]; intros w Hs Hc; simpl; [by intros [= <-]|].
  destruct (step e w) as [w1|] eqn:He; [|done]. simpl.
  intros Hes [Hne Hnin]%not_elem_of_cons. apply step_sound in He.
  destruct (step_case_orphan e w w1 a He Hs Hc) as [Hs1 Hc1]; [done|].
  by apply (IH w1).
Qed.

(** The race from the start: two requests for speech, then the two
    blobs; the second element ends and a third request is made while the
    first element still sounds. *)
Theorem playback_race_trace (rnd : string) (x y z : value) (b1 b2 : blob) :
  playback_view <$> steps [Play x; Play y; TtsReply 0 b1; TtsReply 0 b2] (init rnd)
  = Some ([Playing; Playing], Some 1, true)
  /\ playback_view
     <$> steps [Play x; Play y; TtsReply 0 b1; TtsReply 0 b2; AudioEnded 1; Play z]
           (init rnd)
     = Some ([Playing; Ended], None, false).
Proof. by vm_compute. Qed.

(** One request for speech after the other: the element of the first
    is paused before the second is asked for, and one element sounds. *)
Theorem playback_in_turn (rnd : string) (x y : value) (b1 b2 : blob) :
  playback_view <$> steps [Play x; TtsReply 0 b1; Play y; TtsReply 0 b2] (init rnd)
  = Some ([Paused; Playing], Some 1, true).
Proof. by vm_compute. Qed.

(** With two turns in flight, the reply to one lowers the loading flag
    while the other request is still in flight. *)
Theorem loading_cleared_early (i : nat) (props : list (string * value)) (w w' : world) :
  step (ChatReply i (VObj props)) w = Some w' ->
  2 <= length (chat_pending w) ->
  isLoading (this w') = false /\ chat_pending w' <> [].
Proof.
  intros Hs Hlen. pose proof Hs as (botText & _ & ->)%step_reply_object.
  split; [done|]. simpl. rewrite app_nil_r. intros Hnil.
  apply (f_equal length) in Hnil. rewrite length_delete in Hnil; [simpl in Hnil; lia|].
  unfold step in Hs. by destruct (chat_pending w !! i).
Qed.

End races.

(** ** Witnesses *)

(** Two requests for speech in flight at once, and the world after the
    two blobs. *)
Definition racing_world : world :=
  Eval vm_compute in
    default new_world
      (steps (JP := RefJson) [Play (VStr "one"); Play (VStr "two")] (init "0.4fzyo82mvyr")).

Definition raced_world : world :=
  Eval vm_compute in
    default new_world (steps (JP := RefJson) [TtsReply 0 7; TtsReply 0 8] racing_world).

Lemma playback_race_witness :
  sounds raced_world 0 /\ sounds raced_world 1
  /\ currentAudio (this raced_world) = Some 1 /\ 2 <= sounding raced_world.
Proof.
  apply (playback_race (JP := RefJson) 0 0 7 8 racing_world
           (default new_world (step (JP := RefJson) (TtsReply 0 7) racing_world)));
    by vm_compute.
Defined.

Lemma playback_orphan_witness :
  let w' := default new_world
              (steps (JP := RefJson)
                 [AudioEnded 1; Play (VStr "three"); TtsReply 0 9; Input "hello"; Send]
                 raced_world) in
  sounds w' 0 /\ currentAudio (this w') <> Some 0.
Proof.
  apply (playback_orphan (JP := RefJson)
           [AudioEnded 1; Play (VStr "three"); TtsReply 0 9; Input "hello"; Send]
           raced_world).
  - by exists (mkAudio 0 Playing true).
  - by vm_compute.
  - by vm_compute.
  - rewrite !not_elem_of_cons. repeat split; try done. apply not_elem_of_nil.
Defined.

Lemma resolution_appends_one_witness :
  let w' := default new_world (step (JP := RefJson) (ChatReply 1 sample_reply) two_turns_world) in
  (exists m, messages (this w') = messages (this two_turns_world) ++ [m]
             /\ isUser m = false)
  /\ S (length (chat_pending w')) = length (chat_pending two_turns_world)
  /\ isLoading (this w') = false.
Proof.
  by apply (resolution_appends_one (JP := RefJson) (ChatReply 1 sample_reply)).
Defined.

Lemma failure_keeps_context_witness :
  let w' := default new_world (step (JP := RefJson) (ChatError 0) two_turns_world) in
  context (this w') = context (this two_turns_world)
  /\ sessionId (this w') = sessionId (this two_turns_world)
  /\ last (messages (this w')) = Some (mkChatMessage (VStr apology) false None).
Proof. by apply (failure_keeps_context (JP := RefJson) 0). Defined.

Lemma submission_appends_one_witness :
  let w := default new_world (step (JP := RefJson) (Input "again") two_turns_world) in
  let w' := default new_world (step (JP := RefJson) Send w) in
  messages (this w') = messages (this w) ++ [user_entry (this w) None]
  /\ chat_pending w' = chat_pending w ++ [turn_request (this w) None]
  /\ isLoading (this w') = true.
Proof. by apply (submission_appends_one (JP := RefJson)). Defined.

Lemma log_append_only_witness :
  let w' := default new_world (step (JP := RefJson) (ChatReply 0 sample_reply) two_turns_world) in
  (exists rnd, ChatReply 0 sample_reply = Reset rnd)
  \/ messages (this two_turns_world) `prefix_of` messages (this w').
Proof. by apply (log_append_only (JP := RefJson)). Defined.

Lemma session_stable_witness :
  let w' := default new_world (step (JP := RefJson) (Reset "0.zzzzzzzzzzzz") two_turns_world) in
  sessionId (this w') = generateSessionId "0.zzzzzzzzzzzz".
Proof. by apply (session_stable (JP := RefJson) (Reset "0.zzzzzzzzzzzz") two_turns_world). Defined.

Lemma chat_playback_independent_witness :
  let w' := default new_world (step (JP := RefJson) (TtsReply 0 9) speech_world) in
  messages (this w') = messages (this speech_world)
  /\ userMessage (this w') = userMessage (this speech_world)
  /\ context (this w') = context (this speech_world)
  /\ sessionId (this w') = sessionId (this speech_world)
  /\ isLoading (this w') = isLoading (this speech_world)
  /\ chat_pending w' = chat_pending speech_world.
Proof. by apply (chat_playback_independent (JP := RefJson) (TtsReply 0 9)). Defined.

Lemma reset_keeps_requests_witness :
  let w1 := default new_world (step (JP := RefJson) (Reset "0.zzzzzzzzzzzz") two_turns_world) in
  let w2 := default new_world (step (JP := RefJson) (ChatReply 0 sample_reply) w1) in
  chat_pending w1 = chat_pending two_turns_world
  /\ exists botText,
       normalize (JP := RefJson) (VStr "namaskar") = Normal botText
       /\ messages (this w2)
          = [mkChatMessage (VStr reset_notice) false None;
             mkChatMessage botText false None]
       /\ context (this w2) = (botText, VStr "chat")
       /\ sessionId (this w2) = generateSessionId "0.zzzzzzzzzzzz".
Proof.
  cbv zeta.
  eapply (reset_keeps_requests (JP := RefJson) "0.zzzzzzzzzzzz" 0
            [("response", VStr "namaskar"); ("mode", VStr "chat")] two_turns_world);
    by vm_compute.
Defined.

Lemma last_arrival_wins_witness :
  let p1 := [("response", VStr "second"); ("mode", VStr "b")] in
  let p2 := [("response", VStr "first"); ("mode", VStr "a")] in
  let w1 := default new_world (step (JP := RefJson) (ChatReply 1 (VObj p1)) two_turns_world) in
  let w2 := default new_world (step (JP := RefJson) (ChatReply 0 (VObj p2)) w1) in
  exists b1 b2,
    normalize (JP := RefJson) (VStr "second") = Normal b1
    /\ normalize (JP := RefJson) (VStr "first") = Normal b2
    /\ context (this w2) = (b2, VStr "a")
    /\ messages (this w2)
       = messages (this two_turns_world)
         ++ [mkChatMessage b1 false None; mkChatMessage b2 false None].
Proof.
  cbv zeta.
  eapply (last_arrival_wins (JP := RefJson) 1 0
            [("response", VStr "second"); ("mode", VStr "b")]
            [("response", VStr "first"); ("mode", VStr "a")] two_turns_world);
    by vm_compute.
Defined.

Lemma null_body_reply_witness :
  let w' := default new_world (step (JP := RefJson) (ChatReply 0 VNull) two_turns_world) in
  uncaught w' = uncaught two_turns_world ++ [TypeError]
  /\ messages (this w') = messages (this two_turns_world)
  /\ context (this w') = context (this two_turns_world)
  /\ isLoading (this w') = false
  /\ S (length (chat_pending w')) = length (chat_pending two_turns_world).
Proof. by apply (null_body_reply (JP := RefJson) 0 VNull). Defined.

Lemma stores_only_grow_witness :
  let w' := default new_world (step (JP := RefJson) (TtsReply 0 9) speech_world) in
  object_urls speech_world `prefix_of` object_urls w'
  /\ length (audios speech_world) <= length (audios w').
Proof. by apply (stores_only_grow (JP := RefJson) (TtsReply 0 9)). Defined.

Lemma loading_cleared_early_witness :
  let w' := default new_world (step (JP := RefJson) (ChatReply 0 sample_reply) two_turns_world) in
  isLoading (this w') = false /\ chat_pending w' <> [].
Proof.
  apply (loading_cleared_early (JP := RefJson) 0
           [("response", VStr "namaskar"); ("mode", VStr "chat")] two_turns_world);
    [done|simpl; lia].
Defined.
