(* ===== verification/Equivalence.v ===== *)
(** * Equivalence: the diagnostics do not matter

    Two worlds that differ only in the scrolls scheduled and the lines
    logged are equivalent, and every event takes equivalent worlds to
    equivalent worlds: nothing the component does depends on its output to
    the logging and scrolling collaborators. *)

From Stdlib Require Import String ZArith Lia.
From stdpp Require Import base tactics option list strings.
From S2P Require Import Prelude JsString JsValue Json Normalizer Transport.
From S2P Require Import Action Session Playback System Invariants.

Definition core (w : world) : world := set_console [] (set_scrolls 0 w).

#[export] Instance world_equiv : Equiv world := fun w1 w2 => core w1 = core w2.

#[export] Instance world_equivalence : Equivalence (≡@{world}).
Proof.
  unfold equiv, world_equiv. split.
  - by intros w.
  - by intros w1 w2.
  - intros w1 w2 w3. congruence.
Qed.

Lemma core_equiv (w : world) : core w ≡ w.
Proof. by destruct w. Qed.

Lemma apply_effect_equiv (e : effect) (w1 w2 : world) :
  w1 ≡ w2 -> apply_effect w1 e ≡ apply_effect w2 e.
Proof.
  unfold equiv, world_equiv, core. destruct w1, w2. simpl. intros [= -> -> -> -> -> ->].
  destruct e as [|r| | | | | | | | |]; try done. simpl. by destruct (req_response_type r).
Qed.

Lemma foldl_apply_effect_equiv (es : list effect) (w1 w2 : world) :
  w1 ≡ w2 -> foldl apply_effect w1 es ≡ foldl apply_effect w2 es.
Proof.
  revert w1 w2. induction es as [|e es IH]; intros w1 w2 Hw; simpl; [done|].
  by apply IH, apply_effect_equiv.
Qed.

Lemma equiv_fields (w1 w2 : world) :
  w1 ≡ w2 ->
  this w1 = this w2 /\ chat_pending w1 = chat_pending w2
  /\ tts_pending w1 = tts_pending w2 /\ audios w1 = audios w2
  /\ object_urls w1 = object_urls w2 /\ uncaught w1 = uncaught w2.
Proof.
  unfold equiv, world_equiv, core. destruct w1, w2. simpl. by intros [= -> -> -> -> -> ->].
Qed.

Lemma set_equiv (w1 w2 : world) :
  w1 ≡ w2 ->
  (forall s, set_this s w1 ≡ set_this s w2)
  /\ (forall l, set_chat_pending l w1 ≡ set_chat_pending l w2)
  /\ (forall l, set_tts_pending l w1 ≡ set_tts_pending l w2)
  /\ (forall l, set_audios l w1 ≡ set_audios l w2)
  /\ (forall l, set_uncaught l w1 ≡ set_uncaught l w2).
Proof.
  unfold equiv, world_equiv, core. destruct w1, w2. simpl.
  by intros [= -> -> -> -> -> ->].
Qed.

#[export] Instance run_proper (h : handler) : Proper ((≡) ==> (≡)) (run h).
Proof.
  intros w1 w2 Hw. unfold run.
  destruct (equiv_fields _ _ Hw) as (-> & _).
  destruct (h (this w2)) as [s es r].
  assert (foldl apply_effect (set_this s w1) es ≡ foldl apply_effect (set_this s w2) es)
    as Hf by by apply foldl_apply_effect_equiv, set_equiv.
  destruct r as [?|e]; simpl; [done|].
  destruct (equiv_fields _ _ Hf) as (_ & _ & _ & _ & _ & ->).
  by apply set_equiv.
Qed.

Section diagnostics.
Context `{JP : JsonPlatform}.

#[export] Instance step_proper (e : event) : Proper ((≡) ==> (≡)) (step e).
Proof.
  intros w1 w2 Hw.
  destruct (equiv_fields _ _ Hw) as (Ht & Hc & Hp & Ha & Hu & He).
  destruct (set_equiv _ _ Hw) as (Hst & Hsc & Hsp & Hsa & Hsu).
  destruct e; simpl; rewrite ?Hc, ?Hp, ?Ha, ?Hu;
    try (constructor; by apply run_proper);
    try (destruct (_ !! i); simpl; constructor; by apply run_proper).
  destruct (audios w2 !! a) as [el|]; simpl; [|constructor].
  destruct (status el); try constructor.
  destruct (has_onended el); [by apply run_proper|done].
Qed.

#[export] Instance steps_proper (es : list event) : Proper ((≡) ==> (≡)) (steps es).
Proof.
  induction es as [|e es IH]; intros w1 w2 Hw; simpl; [by constructor|].
  destruct (step_proper e _ _ Hw) as [w1' w2' Hw'|]; simpl; [by apply IH|constructor].
Qed.

(** The scrolls scheduled and the lines logged never matter: the same
    run from two worlds that differ only in them is enabled in both or in
    neither, and ends in worlds that again differ only in them: the same
    component, requests in flight, audio elements, object URLs and
    exceptions. *)
Theorem diagnostics_do_not_matter (es : list event) (w1 w2 : world) :
  w1 ≡ w2 -> steps es w1 ≡ steps es w2.
Proof. by intros ->. Qed.

End diagnostics.

Lemma diagnostics_do_not_matter_witness :
  steps (JP := RefJson) [Input "again"; Send; ChatError 0] (core two_turns_world)
  ≡ steps (JP := RefJson) [Input "again"; Send; ChatError 0] two_turns_world.
Proof. apply (diagnostics_do_not_matter (JP := RefJson)), core_equiv. Defined.
