(* ===== verification/Settle.v ===== *)
(** * Settle: the requests in flight can always settle

    From any world the requests in flight can all be resolved: the run
    that fails each of them is enabled, ends with nothing in flight and the
    loading flag lowered, and leaves one apology per chat request in the
    log.  The component never reaches a world in which a request can no
    longer be answered. *)

From Stdlib Require Import String ZArith Lia.
From stdpp Require Import base tactics option list strings.
From S2P Require Import Prelude JsString JsValue Json Normalizer Transport.
From S2P Require Import Action Session Playback System.

Section settle.
Context `{JP : JsonPlatform}.

Definition settle_chat (w : world) : list event :=
  replicate (length (chat_pending w)) (ChatError 0).

Definition settle_tts (w : world) : list event :=
  replicate (length (tts_pending w)) (TtsError 0).

Definition settle (w : world) : list event := settle_chat w ++ settle_tts w.

(** What a settled run leaves of the world [w] it started from. *)
Record settled (w w' : world) : Prop := {
  settled_chat : chat_pending w' = [];
  settled_tts : tts_pending w' = [];
  settled_loading : chat_pending w <> [] -> isLoading (this w') = false;
  settled_log :
    length (messages (this w')) = length (messages (this w)) + length (chat_pending w);
  settled_context : context (this w') = context (this w);
  settled_session : sessionId (this w') = sessionId (this w);
  settled_audios : audios w' = audios w
}.

Lemma settle_chat_steps (n : nat) (w : world) :
  length (chat_pending w) = n ->
  exists w', steps (replicate n (ChatError 0)) w = Some w'
    /\ chat_pending w' = [] /\ tts_pending w' = tts_pending w
    /\ (0 < n -> isLoading (this w') = false)
    /\ length (messages (this w')) = length (messages (this w)) + n
    /\ context (this w') = context (this w)
    /\ sessionId (this w') = sessionId (this w)
    /\ audios w' = audios w.
Proof.
  revert w. induction n as [|n IH]; intros w Hn.
  { exists w. apply nil_length_inv in Hn. repeat split; try done; lia. }
  destruct (chat_pending w) as [|r rest] eqn:E; [done|].
  pose proof (step_complete _ _ _ (case_chat_error w 0 r ltac:(by rewrite E))) as Hs.
  rewrite E in Hs. change (delete 0 (r :: rest)) with rest in Hs.
  destruct (IH (chat_step w rest (exec sendUserMessage_error (this w)) [] 1
                  [chat_error_log] []))
    as (w' & Hw' & Hc & Ht & Hl & Hm & Hx & Hi & Ha);
    [by simpl; rewrite length_app; injection Hn as <-; simpl; lia|].
  exists w'. cbn [replicate steps]. rewrite Hs. simpl. split; [done|].
  simpl in *. rewrite length_app in Hm. simpl in Hm.
  repeat split; try done; [|lia].
  intros _. destruct n; [|apply Hl; lia].
  simpl in Hw'. by injection Hw' as <-.
Qed.

Lemma settle_tts_steps (n : nat) (w : world) :
  length (tts_pending w) = n ->
  exists w', steps (replicate n (TtsError 0)) w = Some w'
    /\ tts_pending w' = [] /\ chat_pending w' = chat_pending w
    /\ this w' = this w /\ audios w' = audios w.
Proof.
  revert w. induction n as [|n IH]; intros w Hn.
  { exists w. by apply nil_length_inv in Hn. }
  destruct (tts_pending w) as [|r rest] eqn:E; [done|].
  pose proof (step_complete _ _ _ (case_tts_error w 0 r ltac:(by rewrite E))) as Hs.
  rewrite E in Hs. change (delete 0 (r :: rest)) with rest in Hs.
  destruct (IH (audio_step w (this w) rest (audios w) (object_urls w) [audio_error_log]))
    as (w' & Hw' & Ht & Hc & Hs' & Ha); [by injection Hn|].
  exists w'. cbn [replicate steps]. rewrite Hs. by simpl.
Qed.

(** C26: the requests in flight can always settle: from any world, failing
    every chat request and every speech request is an enabled run; it ends
    with nothing in flight, the loading flag lowered if a chat request was
    in flight, one apology in the log per chat request, and the context, the
    session identifier and the audio elements as they were. *)
Theorem requests_can_settle (w : world) :
  exists w', steps (settle w) w = Some w' /\ settled w w'.
Proof.
  destruct (settle_chat_steps _ w eq_refl) as (w1 & H1 & Hc & Ht & Hl & Hm & Hx & Hi & Ha).
  destruct (settle_tts_steps (length (tts_pending w)) w1 ltac:(by rewrite Ht))
    as (w2 & H2 & Ht2 & Hc2 & Hs2 & Ha2).
  exists w2. unfold settle, settle_chat, settle_tts. rewrite steps_app, H1. simpl.
  split; [done|]. split; rewrite ?Hs2; try congruence.
  intros Hne. apply Hl. destruct (chat_pending w); [done|simpl; lia].
Qed.

End settle.
