(* ===== verification/SystemRefinement.v ===== *)
(** * SystemRefinement: the system refines the specification

    [Controller] relates one handler of the component to one operation of
    the specification.  This file relates the whole system to it: the
    specification's controller together with the turns it has sent and not
    yet seen answered ([spec_system]), stepped by the events of [System]
    ([spec_step]).  User events and network callbacks map to the
    operations of section 4.2; the events of the playback side and of the
    page are stuttering steps.  The theorem is a forward simulation along
    every run whose replies are of the expected shape: the log, the
    session, the context, the loading flag and the requests in flight are
    those the specification prescribes. *)

From Stdlib Require Import String ZArith Lia.
From stdpp Require Import base tactics option list strings.
From S2P Require Import Prelude JsString JsValue Json Normalizer Transport Action Session.
From S2P Require Import Controller Playback System.

(** ** The specification as a system *)

(** The controller and the turns in flight. *)
Record spec_system : Type := mkSpecSystem {
  ctrl : controller;
  in_flight : list sendTurn;
}.

Definition spec_init (rnd : string) : spec_system :=
  mkSpecSystem (spec_start (generateSessionId rnd)) [].

(** A submission: validated, appended and sent (section 4.2). *)
Definition submit_to (t : Turn) (a : spec_system) : spec_system :=
  mkSpecSystem (spec_submit t (ctrl a)).1
    (in_flight a ++ option_list (spec_submit t (ctrl a)).2).

Section spec_system.
Context `{JP : JsonPlatform}.

(** What the specification does at an event of the system.  [s] is the
    page as the UI collaborator exposes it: the pending input and the
    selected document type.  No submission is cancelled (section 5): a
    reset leaves the turns in flight. *)
Definition spec_step (e : event) (s : component) (a : spec_system) : spec_system :=
  match e with
  | Send => submit_to (turn_of s None) a
  | QuickReply reply => submit_to (mkTurn (Text reply) None true) a
  | FilesSelected (Some (f :: _)) => submit_to (turn_of s (Some f)) a
  | Reset rnd => mkSpecSystem (spec_reset (generateSessionId rnd) (ctrl a)) (in_flight a)
  | ChatReply i (VObj props) =>
      mkSpecSystem
        (spec_success (lookup_prop "response" props) (to_string (lookup_prop "mode" props))
           (ctrl a))
        (delete i (in_flight a))
  | ChatError i => mkSpecSystem (spec_failure (ctrl a)) (delete i (in_flight a))
  | _ => a
  end.

(** The events the specification covers: a reply is an object whose
    payload the normalisation algorithm names, with a display text and a
    mode that are not empty; a file is sent with a document type. *)
Definition expected_at (e : event) (w : world) : bool :=
  match e with
  | ChatReply _ (VObj props) =>
      expected (Success props)
      && negb (bool_decide (spec_normalize (lookup_prop "response" props) = ""))
      && negb (bool_decide (to_string (lookup_prop "mode" props) = ""))
  | ChatReply _ _ => false
  | FilesSelected (Some (_ :: _)) => negb (bool_decide (selectedDocType (this w) = ""))
  | _ => true
  end.

(** A run of the specification beside a run of the system. *)
Fixpoint spec_steps (es : list event) (w : world) (a : spec_system) : spec_system :=
  match es with
  | [] => a
  | e :: es' =>
      match step e w with
      | Some w' => spec_steps es' w' (spec_step e (this w) a)
      | None => a
      end
  end.

(** [expected_run es w]: the run [es] from [w] is enabled and each of its
    events is expected where it happens. *)
Fixpoint expected_run (es : list event) (w : world) : bool :=
  match es with
  | [] => true
  | e :: es' =>
      expected_at e w
      && match step e w with
         | Some w' => expected_run es' w'
         | None => false
         end
  end.

End spec_system.

(** [sys_refines w a]: the world [w] holds the state of the specification
    [a]: the component is the controller, the requests in flight are the
    turns in flight, and the context, when present, is not empty. *)
Record sys_refines (w : world) (a : spec_system) : Prop := {
  sys_state : refines (this w) (ctrl a);
  sys_requests : chat_pending w = http_of <$> in_flight a;
  sys_text : present (previousResponseText (session (ctrl a))) = true;
  sys_mode : present (previousResponseMode (session (ctrl a))) = true;
}.

(** ** Lemmas *)

(** The playback fields and the toggles of the page are no part of the
    controller. *)
Lemma refines_frame (s s' : component) (c : controller) :
  refines s c ->
  sessionId s' = sessionId s -> prevRes s' = prevRes s -> prevResMode s' = prevResMode s ->
  messages s' = messages s -> isLoading s' = isLoading s ->
  refines s' c.
Proof. intros [] ?????. split; congruence. Qed.

(** The relation looks at the component and at the chat requests only. *)
Lemma sys_refines_ext (w w' : world) (a : spec_system) :
  sys_refines w a -> this w' = this w -> chat_pending w' = chat_pending w ->
  sys_refines w' a.
Proof. intros [Hr Hq Ht Hm] Hs Hp. split; congruence. Qed.

Lemma sys_refines_frame (w w' : world) (a : spec_system) :
  sys_refines w a -> chat_pending w' = chat_pending w ->
  sessionId (this w') = sessionId (this w) -> prevRes (this w') = prevRes (this w) ->
  prevResMode (this w') = prevResMode (this w) ->
  messages (this w') = messages (this w) -> isLoading (this w') = isLoading (this w) ->
  sys_refines w' a.
Proof.
  intros [Hr Hq Ht Hm] Hp ?????. split; try congruence. by eapply refines_frame.
Qed.

Lemma sys_refines_init (rnd : string) : sys_refines (init rnd) (spec_init rnd).
Proof. by split; [apply refines_start|..]. Qed.

Section simulation.
Context `{JP : JsonPlatform}.

Lemma sys_refines_submit (w : world) (a : spec_system) (file : option File) :
  sys_refines w a -> (is_Some file -> selectedDocType (this w) <> "") ->
  accepted (this w) file = true ->
  sys_refines
    (chat_step w (chat_pending w) (submitted (this w) file) [turn_request (this w) file]
       1 [] [])
    (submit_to (turn_of (this w) file) a).
Proof.
  intros [Hr Hq Ht Hm] Hdoc Hacc. unfold submit_to, spec_submit.
  rewrite valid_turn_accepted, Hacc. split; simpl; try done.
  - apply refines_submit; [done|apply entry_of_turn].
  - by rewrite Hq, fmap_app, (turn_request_http_of _ (ctrl a)).
Qed.

Lemma sys_refines_rejected (w : world) (a : spec_system) (file : option File) :
  sys_refines w a -> accepted (this w) file = false ->
  sys_refines w (submit_to (turn_of (this w) file) a).
Proof.
  intros [Hr Hq Ht Hm] Hacc. unfold submit_to, spec_submit.
  rewrite valid_turn_accepted, Hacc. split; simpl; try done.
  by rewrite app_nil_r.
Qed.

Lemma sys_refines_reply (w : world) (a : spec_system) (i : nat)
    (props : list (string * value)) (botText mode : value) :
  sys_refines w a -> expected_at (ChatReply i (VObj props)) w = true ->
  sendUserMessage_next (VObj props) (this w)
  = Outcome (replied (this w) botText mode) [ScrollToBottom] (Normal tt) ->
  sys_refines
    (chat_step w (delete i (chat_pending w)) (replied (this w) botText mode) [] 1 [] [])
    (spec_step (ChatReply i (VObj props)) (this w) a).
Proof.
  intros [Hr Hq Ht Hm] [[He Hn%negb_true_iff]%andb_true_iff Hmo%negb_true_iff]%andb_true_iff
    Hout.
  pose proof (refines_success _ _ props Hr He) as Hs. unfold exec in Hs. rewrite Hout in Hs.
  split; simpl; [done| |by rewrite Hn|by rewrite Hmo].
  by rewrite app_nil_r, Hq, list_fmap_delete.
Qed.

(** One event: a forward simulation step. *)
Lemma step_refines (e : event) (w w' : world) (a : spec_system) :
  sys_refines w a -> step e w = Some w' -> expected_at e w = true ->
  sys_refines w' (spec_step e (this w) a).
Proof.
  intros Hr Hs%step_sound He.
  destruct Hs; simpl spec_step;
    try (by eapply sys_refines_frame; [exact Hr|..]; simpl; rewrite ?app_nil_r).
  - by apply (sys_refines_rejected w a None).
  - by apply (sys_refines_submit w a None); [|intros [? [=]]|].
  - eapply (sys_refines_ext (set_this (set_userMessage reply (this w)) w));
      [|done|by simpl; rewrite app_nil_r].
    apply (sys_refines_rejected (set_this (set_userMessage reply (this w)) w) a None);
      [|done].
    by eapply sys_refines_frame.
  - pose proof (sys_refines_submit (set_this (set_userMessage reply (this w)) w) a None)
      as H. simpl in H. apply H; [by eapply sys_refines_frame|intros [? [=]]|done].
  - by destruct files as [[|??]|].
  - eapply sys_refines_ext; [apply (sys_refines_submit w a (Some f)); [done| |apply accepted_file]|done..].
    intros _. simpl in He. by apply negb_true_iff, bool_decide_eq_false in He.
  - destruct Hr as [Hr Hq Ht Hm]. by split; simpl; rewrite ?app_nil_r.
  - destruct res as [| | | | | |props]; try done. by apply sys_refines_reply.
  - by destruct res.
  - destruct Hr as [Hr Hq Ht Hm].
    split; simpl; rewrite ?app_nil_r, ?Hq, ?list_fmap_delete; try done.
    by apply (handle_refines Failure).
Qed.

End simulation.

(** ** Theorems *)

Section refinement.
Context `{JP : JsonPlatform}.

(** A run: the forward simulation along the events. *)
Lemma run_refines (es : list event) (w : world) (a : spec_system) :
  sys_refines w a -> expected_run es w = true ->
  exists w', steps es w = Some w' /\ sys_refines w' (spec_steps es w a).
Proof.
  revert w a. induction es as [|e es IH]; intros w a Hr; simpl; [by eauto|].
  intros [He Hes]%andb_true_iff. destruct (step e w) as [w1|] eqn:Hs; [|done].
  simpl. apply IH; [|done]. by apply step_refines.
Qed.

(** C13: the system refines the specification: along every run whose
    events are expected where they happen, from related states, the world
    and the specification stay related: the component holds the session,
    the context, the log and the loading flag of the controller, and the
    requests in flight are the turns the specification has in flight, in
    order.  The events of the playback side and of the page are stuttering
    steps of the specification. *)
Theorem system_refines (es : list event) (w : world) (a : spec_system) :
  sys_refines w a -> expected_run es w = true ->
  exists w', steps es w = Some w' /\ sys_refines w' (spec_steps es w a).
Proof. apply run_refines. Qed.

End refinement.

(** ** Witnesses *)

(** Two turns answered out of order while speech is fetched and played, a
    file turn that fails, and a reset with a request still in flight. *)
Definition sample_run : list event :=
  [Input "hello"; Send; Play (VStr "namaskar"); Input "again"; Send;
   ChatReply 1 (VObj [("response", VStr (jq "{'message': 'second'}")); ("mode", VStr "chat")]);
   TtsReply 0 7; OpenUploader "Aadhaar Card";
   FilesSelected (Some [mkFile "aadhaar.pdf" 1]); ChatError 1;
   ChatReply 0 (VObj [("response", VObj [("response", VStr "first")]); ("mode", VStr "form")]);
   QuickReply "yes"; Reset "0.zzzzzzzzzzzz"; AudioEnded 0].

Lemma system_refines_witness :
  exists w',
    steps (JP := RefJson) sample_run (init "0.4fzyo82mvyr") = Some w'
    /\ sys_refines w'
         (spec_steps (JP := RefJson) sample_run (init "0.4fzyo82mvyr")
            (spec_init "0.4fzyo82mvyr")).
Proof.
  apply (system_refines (JP := RefJson)); [apply sys_refines_init|by vm_compute].
Defined.
