(* ===== verification/PlaybackRefinement.v ===== *)
(** * PlaybackRefinement: the playback side refines the specification

    The written specification (sections 3 and 4.3) describes playback as a
    controller over one handle: [play] stops and releases the handle it
    holds and asks for audio; when the audio arrives playback begins and
    the handle is the new audio; when playback completes the handle is
    cleared; a failure creates no handle.  At most one audio stream exists
    because the state holds at most one handle.

    This file states that controller ([playback], [spec_play],
    [spec_begin], [spec_complete], [spec_fail]) and proves that the system
    refines it on the runs in which speech is asked for only while no
    speech request is in flight: the handle, the flag, the requests in
    flight and the elements that sound are those of the specification.
    Without that discipline the refinement fails ([playback_race] in
    [Behaviour]). *)

From Stdlib Require Import String ZArith Lia.
From stdpp Require Import base tactics option list strings.
From S2P Require Import Prelude JsString JsValue Json Normalizer Transport Action Session.
From S2P Require Import Playback System Invariants.

(** ** The playback controller of the specification *)

Record playback : Type := mkPlayback {
  held : option audio;
  fetching : list value;
}.

Definition playback_idle : playback := mkPlayback None [].

(** [play(text)]: stop the handle, ask for the audio of [text]. *)
Definition spec_play (text : value) (p : playback) : playback :=
  mkPlayback None (fetching p ++ [text]).

(** The audio of the request [i] arrives: playback begins, the handle is
    the new audio [a]. *)
Definition spec_begin (i : nat) (a : audio) (p : playback) : playback :=
  mkPlayback (Some a) (delete i (fetching p)).

(** The request [i] fails: no handle is created. *)
Definition spec_fail (i : nat) (p : playback) : playback :=
  mkPlayback (held p) (delete i (fetching p)).

(** The playback of [a] completes: the handle is cleared. *)
Definition spec_complete (a : audio) (p : playback) : playback :=
  if bool_decide (held p = Some a) then mkPlayback None (fetching p) else p.

(** What the specification does at an event of the system; the events of
    the chat and of the page are stuttering steps. *)
Definition spec_playback_step (e : event) (w : world) (p : playback) : playback :=
  match e with
  | Play text => spec_play text p
  | TtsReply i _ => spec_begin i (length (audios w)) p
  | TtsError i => spec_fail i p
  | AudioEnded a => spec_complete a p
  | _ => p
  end.

Section spec_playback.
Context `{JP : JsonPlatform}.

Fixpoint spec_playback_steps (es : list event) (w : world) (p : playback) : playback :=
  match es with
  | [] => p
  | e :: es' =>
      match step e w with
      | Some w' => spec_playback_steps es' w' (spec_playback_step e w p)
      | None => p
      end
  end.

End spec_playback.

(** [plays w p]: the world [w] holds the state of the playback controller
    [p]: the component holds the handle and says so, the requests in flight
    are those of the texts being fetched, and the elements that sound are
    exactly the handle. *)
Record plays (w : world) (p : playback) : Prop := {
  plays_handle : currentAudio (this w) = held p;
  plays_flag : isPlaying (this w) = bool_decide (is_Some (held p));
  plays_fetching : tts_pending w = getAudio <$> fetching p;
  plays_sound : forall a, sounds w a <-> held p = Some a;
}.

(** ** Lemmas *)

(** With the invariants of [Invariants], the handle and the requests decide
    the relation. *)
Lemma plays_intro (w : world) (p : playback) :
  handle_inv w -> single_inv w ->
  currentAudio (this w) = held p -> tts_pending w = getAudio <$> fetching p ->
  plays w p.
Proof.
  intros [Hf Hlive _ _ _] [Honly _] Hh Hq. split; try done.
  - by rewrite Hf, Hh.
  - intros a. rewrite <- Hh. split; auto.
Qed.

Lemma plays_init (rnd : string) : plays (init rnd) playback_idle.
Proof. by apply plays_intro; [apply init_handle_inv|apply init_single_inv|..]. Qed.

Section simulation.
Context `{JP : JsonPlatform}.

Lemma sequential_invs (w : world) : sequential w -> handle_inv w /\ single_inv w.
Proof.
  induction 1 as [rnd|e w w' Hw [Hh Hs] Hstep Hseq].
  - split; [apply init_handle_inv|apply init_single_inv].
  - apply step_sound in Hstep.
    split; [by eapply step_handle_inv|by eapply step_single_inv].
Qed.

(** The handle and the requests after a step are those of the
    specification. *)
Lemma step_plays_state (e : event) (w w' : world) (p : playback) :
  step_case e w w' -> handle_inv w -> single_inv w -> plays w p ->
  currentAudio (this w') = held (spec_playback_step e w p)
  /\ tts_pending w' = getAudio <$> fetching (spec_playback_step e w p).
Proof.
  intros Hc [_ _ Hon _ _] [Honly _] [Hh _ Hq _].
  destruct Hc; simpl; rewrite ?Hq, ?fmap_app, ?list_fmap_delete; try done.
  - unfold spec_complete. rewrite bool_decide_eq_true_2; [done|].
    rewrite <- Hh. apply Honly. by exists el.
  - by rewrite (Hon _ _ Hel Hst) in Hhandler.
Qed.

(** One event: a forward simulation step. *)
Lemma step_plays (e : event) (w w' : world) (p : playback) :
  sequential w -> (forall speech, e = Play speech -> tts_pending w = []) ->
  step e w = Some w' -> plays w p -> plays w' (spec_playback_step e w p).
Proof.
  intros Hw Hd Hs Hp.
  destruct (sequential_invs w Hw) as [Hh Hsi].
  destruct (sequential_invs w' (sequential_step _ _ _ Hw Hs Hd)) as [Hh' Hsi'].
  apply step_sound in Hs.
  destruct (step_plays_state e w w' p Hs Hh Hsi Hp) as [? ?].
  by apply plays_intro.
Qed.

End simulation.

(** ** Theorems *)

Section refinement.
Context `{JP : JsonPlatform}.

(** C14: the playback side refines the playback controller of the
    specification: along every run in which speech is asked for only while
    no speech request is in flight, the component holds the handle of the
    specification and says so, the speech requests in flight are those of
    the texts being fetched, and the elements that sound are exactly the
    handle: at most one stream.  The events of the chat are stuttering
    steps. *)
Theorem playback_refines (es : list event) (w w' : world) (p : playback) :
  sequential w -> plays w p -> disciplined es w = true -> steps es w = Some w' ->
  plays w' (spec_playback_steps es w p).
Proof.
  revert w p. induction es as [|e es IH]; intros w p Hw Hp; simpl.
  { by intros _ [= <-]. }
  intros [He Hd]%andb_true_iff. destruct (step e w) as [w1|] eqn:Hs; [|done]. simpl.
  assert (forall speech, e = Play speech -> tts_pending w = []) as Hseq.
  { intros speech ->. by apply bool_decide_eq_true in He. }
  apply IH; [by eapply sequential_step|by apply step_plays|done].
Qed.

End refinement.

(** ** Witnesses *)

Lemma playback_refines_witness :
  plays speech_world
    (spec_playback_steps (JP := RefJson) speech_in_turn (init "0.4fzyo82mvyr")
       playback_idle).
Proof.
  apply (playback_refines (JP := RefJson) speech_in_turn (init "0.4fzyo82mvyr"));
    [apply sequential_init|apply plays_init|by vm_compute|by vm_compute].
Defined.
