(* ===== verification/Page.v ===== *)
(** * Page: the view references, the scroll timers and the play promise

    [System] runs the handlers of the component and keeps what they asked
    of the collaborators.  This file adds what the browser does with three
    of those requests, on top of the [world]:

    - the two [@ViewChild] references of the component (lines 17 and 48):
      [fileInput] and [scrollContainer] are [undefined] until the view
      holds the element, and [ngOnInit] runs before that;
    - the timer [scrollToBottom] sets (lines 215-220): its callback runs
      later, outside the [try] of [scrollToBottom], reads the container
      and scrolls it to its bottom;
    - the promise [play()] returns (line 241), which the component drops:
      the browser may refuse to play, and then the element never sounds
      and never ends.

    A [page] is a world with the view references, the number of timers
    that have run and the errors nobody caught; [page_step] extends [step]
    with the events of the timers, of the view and of the promise. *)

From Stdlib Require Import String ZArith Lia.
From stdpp Require Import base tactics option list strings.
From S2P Require Import Prelude JsString JsValue Json Normalizer Transport Action Session.
From S2P Require Import Playback System Invariants.

(** ** The scroll container *)

(** The element behind [scrollContainer]: the height of its content, the
    height of its box and its position. *)
Record scroll_container : Type := mkContainer {
  scrollHeight : nat;
  clientHeight : nat;
  scrollTop : nat;
}.

#[export] Instance scroll_container_eq_dec : EqDecision scroll_container.
Proof. solve_decision. Defined.

(** The largest position: the content past the box. *)
Definition max_scroll (c : scroll_container) : nat := scrollHeight c - clientHeight c.

(** The [behavior] of a scroll: at once, or animated. *)
Inductive scroll_behavior : Type :=
| Auto
| Smooth.

(** [Element.scrollTo({ top, behavior })]: the position asked for, clamped
    to the scrollable range.  The page has no clock: [scrollTop] is the
    position the scroll ends at, which a [Smooth] scroll reaches through
    an animation and an [Auto] scroll at once. *)
Definition scrollTo (top : nat) (behavior : scroll_behavior) (c : scroll_container)
    : scroll_container :=
  mkContainer (scrollHeight c) (clientHeight c) (top `min` max_scroll c).

Definition at_bottom (c : scroll_container) : Prop := scrollTop c = max_scroll c.

(** Lines 215-220: the callback of the timer.  It reads
    [this.scrollContainer.nativeElement] twice; on [undefined] the first
    read throws. *)
Definition scroll_callback (view : option scroll_container)
    : completion (option scroll_container) :=
  match view with
  | None => Throw TypeError
  | Some c => Normal (Some (scrollTo (scrollHeight c) Smooth c))
  end.

(** ** The page *)

(** What nobody caught: an exception of a callback, or the rejection of
    the promise of [play()] on an element. *)
Inductive page_error : Type :=
| CallbackThrew (e : js_error)
| UnhandledRejection (a : audio).

#[export] Instance page_error_eq_dec : EqDecision page_error.
Proof. solve_decision. Defined.

Record page : Type := mkPage {
  world_of : world;
  scrollContainer : option scroll_container;
  fileInput : bool;
  fired : nat;
  page_errors : list page_error;
}.

(** The timers set and not yet run. *)
Definition pending_timers (p : page) : nat := scrolls (world_of p) - fired p.

Inductive page_event : Type :=
| Core (e : event)
| TimerFires
| ViewChanged (view : option scroll_container) (input : bool)
| PlayRejected (a : audio).

(** The page when the component is initialised: [ngOnInit] has run, the
    view is not there yet. *)
Definition page_init (rnd : string) : page := mkPage (init rnd) None false 0 [].

(** The browser refuses to play the element [a]: it does not sound. *)
Definition reject (a : audio) (w : world) : option world :=
  el ← audios w !! a;
  if decide (status el = Playing)
  then Some (set_audios (<[a := set_status Paused el]> (audios w)) w)
  else None.

Section page.
Context `{JP : JsonPlatform}.

(** [page_step e p]: the page after the event [e], when it can happen.
    - An event of [System] runs its handler; [openUploader] without the
      file input throws after it has stored the document type (line 68).
    - A timer runs when one is pending.
    - The view may change at any time: Angular renders or removes the
      elements, the browser lays the container out anew, the user
      scrolls.
    - A promise is rejected for an element that was told to play. *)
Definition page_step (e : page_event) (p : page) : option page :=
  match e with
  | Core e =>
      w' ← step e (world_of p);
      Some (mkPage w' (scrollContainer p) (fileInput p) (fired p)
              (page_errors p
               ++ if e is OpenUploader _
                  then (if fileInput p then [] else [CallbackThrew TypeError])
                  else []))
  | TimerFires =>
      if decide (fired p < scrolls (world_of p)) then
        Some match scroll_callback (scrollContainer p) with
             | Normal view =>
                 mkPage (world_of p) view (fileInput p) (S (fired p)) (page_errors p)
             | Throw err =>
                 mkPage (world_of p) (scrollContainer p) (fileInput p) (S (fired p))
                   (page_errors p ++ [CallbackThrew err])
             end
      else None
  | ViewChanged view input =>
      Some (mkPage (world_of p) view input (fired p) (page_errors p))
  | PlayRejected a =>
      w' ← reject a (world_of p);
      Some (mkPage w' (scrollContainer p) (fileInput p) (fired p)
              (page_errors p ++ [UnhandledRejection a]))
  end.

Fixpoint page_steps (es : list page_event) (p : page) : option page :=
  match es with
  | [] => Some p
  | e :: es' => p' ← page_step e p; page_steps es' p'
  end.

Inductive page_reachable : page -> Prop :=
| page_reachable_init (rnd : string) : page_reachable (page_init rnd)
| page_reachable_step (e : page_event) (p p' : page) :
    page_reachable p -> page_step e p = Some p' -> page_reachable p'.

End page.

(** ** A refused play *)

(** [was_refused errs a]: the play of the element [a] was refused. *)
Definition was_refused (errs : list page_error) (a : audio) : Prop :=
  UnhandledRejection a ∈ errs.

(** The events that leave the playback alone: every event but a request
    for speech, the arrival of a blob and the end of an element. *)
Definition leaves_playback (e : page_event) : bool :=
  match e with
  | Core (Play _) | Core (TtsReply _ _) | Core (AudioEnded _) => false
  | _ => true
  end.

(** [stuck p a]: the component holds the element [a] and says it is
    playing; the element is silent, and its refusal is among the errors
    nobody caught. *)
Record stuck (p : page) (a : audio) : Prop := {
  stuck_flag : isPlaying (this (world_of p)) = true;
  stuck_held : currentAudio (this (world_of p)) = Some a;
  stuck_silent : exists el, audios (world_of p) !! a = Some el /\ status el = Paused;
  stuck_refused : was_refused (page_errors p) a;
}.

(** ** The invariant of the page *)

(** No timer runs twice; the flag says whether the component holds an
    element, and that element exists; the invariant of the chat holds.
    That the element held sounds is no invariant of the page: see
    [play_rejected_stuck]. *)
Record page_inv (p : page) : Prop := {
  pi_timers : fired p <= scrolls (world_of p);
  pi_flag :
    isPlaying (this (world_of p))
    = bool_decide (is_Some (currentAudio (this (world_of p))));
  pi_held :
    forall a, currentAudio (this (world_of p)) = Some a ->
      a < length (audios (world_of p));
  pi_chat : chat_inv (world_of p);
}.

(** ** Lemmas *)

Lemma scrollTo_bottom (c : scroll_container) (b : scroll_behavior) :
  at_bottom (scrollTo (scrollHeight c) b c).
Proof. unfold at_bottom, scrollTo, max_scroll. simpl. lia. Qed.

Lemma alter_fixed {A} (f : A -> A) (l : list A) (i : nat) (x : A) :
  l !! i = Some x -> f x = x -> alter f i l = l.
Proof.
  intros Hl Hf. apply list_eq. intros j. rewrite list_lookup_alter.
  case_decide as Hij; [subst j|done]. by rewrite Hl; simpl; rewrite Hf.
Qed.

Lemma reject_Some (a : audio) (w w' : world) :
  reject a w = Some w' ->
  exists el, audios w !! a = Some el /\ status el = Playing
    /\ w' = set_audios (<[a := set_status Paused el]> (audios w)) w.
Proof.
  unfold reject. intros H. destruct (audios w !! a) as [el|]; [|done]. simpl in H.
  destruct (decide (status el = Playing)); [|done]. injection H as <-. eauto.
Qed.

Section step_facts.
Context `{JP : JsonPlatform}.

(** A handler asks for at most one scroll, and for one whenever it changes
    the log. *)
Lemma step_scrolls (e : event) (w w' : world) :
  step_case e w w' ->
  scrolls w <= scrolls w' <= S (scrolls w)
  /\ (messages (this w') <> messages (this w) -> scrolls w' = S (scrolls w)).
Proof. destruct 1; simpl; (split; [lia|done]). Qed.

Lemma step_flag (e : event) (w w' : world) :
  step_case e w w' ->
  isPlaying (this w) = bool_decide (is_Some (currentAudio (this w))) ->
  isPlaying (this w') = bool_decide (is_Some (currentAudio (this w'))).
Proof. by destruct 1. Qed.

Lemma step_held (e : event) (w w' : world) :
  step_case e w w' ->
  (forall a, currentAudio (this w) = Some a -> a < length (audios w)) ->
  forall a, currentAudio (this w') = Some a -> a < length (audios w').
Proof.
  destruct 1; simpl; intros Hw x Hx;
    rewrite ?length_alter, ?length_insert, ?length_app; simpl; auto; try done.
  injection Hx as <-. lia.
Qed.

Lemma page_inv_init (rnd : string) : page_inv (page_init rnd).
Proof. split; simpl; [lia|done|done|apply init_chat_inv]. Qed.

Lemma page_step_inv (e : page_event) (p p' : page) :
  page_step e p = Some p' -> page_inv p -> page_inv p'.
Proof.
  intros Hs [Ht Hf Hh Hc]. destruct e as [e| |view input|a]; simpl in Hs.
  - destruct (step e (world_of p)) as [w'|] eqn:He; [|done].
    injection Hs as <-. apply step_sound in He.
    pose proof (step_scrolls _ _ _ He) as [? _].
    split; simpl; [lia|by eapply step_flag|by eapply step_held|by eapply step_chat_inv].
  - destruct (decide _) as [Hlt|]; [|done]. injection Hs as <-.
    by destruct (scroll_callback _); split; simpl; try lia.
  - injection Hs as <-. by split.
  - destruct (reject a (world_of p)) as [w'|] eqn:Hr; [|done].
    injection Hs as <-. apply reject_Some in Hr as (el & Hel & Hst & ->).
    split; simpl; try done; [|by destruct Hc].
    intros x Hx. rewrite length_insert. auto.
Qed.

(** The events that leave the playback alone keep a refused element
    held. *)
Lemma step_leaves_playback (e : event) (w w' : world) :
  step_case e w w' -> leaves_playback (Core e) = true ->
  isPlaying (this w') = isPlaying (this w)
  /\ currentAudio (this w') = currentAudio (this w)
  /\ audios w' = audios w.
Proof. by destruct 1. Qed.

Lemma stuck_step (e : page_event) (p p' : page) (a : audio) :
  leaves_playback e = true -> stuck p a -> page_step e p = Some p' -> stuck p' a.
Proof.
  intros He [Hf Hh (el & Hel & Hst) Herr] Hs.
  destruct e as [e| |view input|b]; simpl in Hs.
  - destruct (step e (world_of p)) as [w'|] eqn:Hw; [|done]. injection Hs as <-.
    apply step_sound, step_leaves_playback in Hw as (Hf' & Hh' & Ha'); [|done].
    split; simpl; rewrite ?Hf', ?Hh', ?Ha'; eauto. apply elem_of_app. by left.
  - destruct (decide _); [|done]. injection Hs as <-.
    by destruct (scroll_callback _); split; simpl; eauto; apply elem_of_app; left.
  - injection Hs as <-. by split; eauto.
  - destruct (reject b (world_of p)) as [w'|] eqn:Hr; [|done]. injection Hs as <-.
    apply reject_Some in Hr as (elb & Hb & Hsb & ->).
    split; simpl; try done; [|apply elem_of_app; by left].
    exists el. split; [|done]. rewrite list_lookup_insert_ne; [done|]. congruence.
Qed.

(** The element a blob is played in can be refused, and is then held in
    silence. *)
Lemma tts_reply_refused (i : nat) (b : blob) (p p1 : page) :
  page_step (Core (TtsReply i b)) p = Some p1 ->
  exists p2, page_step (PlayRejected (length (audios (world_of p)))) p1 = Some p2
    /\ stuck p2 (length (audios (world_of p))).
Proof.
  intros Hs. cbn [page_step] in Hs.
  destruct (step (TtsReply i b) (world_of p)) as [w1|] eqn:Hw; [|done].
  injection Hs as <-. apply step_sound in Hw. inversion Hw; subst.
  eexists. split.
  { simpl. unfold reject. simpl. by rewrite list_lookup_middle. }
  split; simpl; [done|done| |apply elem_of_app; right; by apply list_elem_of_singleton].
  eexists. split; [apply list_lookup_insert_eq; rewrite length_app; simpl; lia|done].
Qed.

#[export] Instance page_runs : Runs page_step page_steps.
Proof. by split. Qed.

Lemma page_steps_inv (es : list page_event) (p p' : page) :
  page_inv p -> page_steps es p = Some p' -> page_inv p'.
Proof.
  apply (run_preserves (steps := page_steps)). intros e s s' Hs He.
  by eapply page_step_inv.
Qed.

Lemma page_steps_reachable (es : list page_event) (p p' : page) :
  page_reachable p -> page_steps es p = Some p' -> page_reachable p'.
Proof.
  apply (run_preserves (steps := page_steps)). intros e s s' Hs He.
  by eapply page_reachable_step.
Qed.

Lemma page_steps_app (es1 es2 : list page_event) (p : page) :
  page_steps (es1 ++ es2) p = page_steps es1 p ≫= page_steps es2.
Proof. apply run_app. Qed.

End step_facts.

(** ** Theorems *)

Section page_theorems.
Context `{JP : JsonPlatform}.

(** The invariant of the page holds in every page the system reaches,
    whatever the timers, the view and the play promises do: no timer has
    run that was not set, the flag [isPlaying] says whether the component
    holds an element, that element exists, a raised loading flag means a
    request is in flight, the log opens with an entry of the assistant and
    the session identifier is one the component drew. *)
Theorem reachable_page_inv (p : page) : page_reachable p -> page_inv p.
Proof.
  induction 1 as [rnd|e p p' _ IH Hs]; [apply page_inv_init|by eapply page_step_inv].
Qed.

(** A scroll is requested after every mutation of the log: an event
    of the system that changes the log sets exactly one timer more. *)
Theorem log_mutation_scrolls (e : event) (p p' : page) :
  page_inv p -> page_step (Core e) p = Some p' ->
  messages (this (world_of p')) <> messages (this (world_of p)) ->
  pending_timers p' = S (pending_timers p).
Proof.
  intros [Ht _ _ _] Hs Hm. simpl in Hs.
  destruct (step e (world_of p)) as [w'|] eqn:He; [|done]. injection Hs as <-.
  apply step_sound, step_scrolls in He as [_ He]. unfold pending_timers. simpl in *.
  rewrite He by done. lia.
Qed.

(** When a timer runs with the container in the view, the container is
    scrolled to the bottom of the content it has then; nothing else
    changes. *)
Theorem timer_scrolls_to_bottom (p p' : page) (c : scroll_container) :
  scrollContainer p = Some c -> page_step TimerFires p = Some p' ->
  exists c', scrollContainer p' = Some c' /\ at_bottom c'
    /\ scrollHeight c' = scrollHeight c /\ clientHeight c' = clientHeight c
    /\ world_of p' = world_of p /\ page_errors p' = page_errors p
    /\ fired p' = S (fired p).
Proof.
  intros Hc Hs. simpl in Hs. destruct (decide _); [|done]. rewrite Hc in Hs.
  injection Hs as <-. eexists. split; [done|]. by split; [apply scrollTo_bottom|].
Qed.

(** C28: the [try] of [scrollToBottom] catches nothing: [scrollToBottom]
    itself always completes, and when the timer runs while the container
    is not in the view, the callback throws a [TypeError] that nobody
    catches; the page stays as it is.  The timer [ngOnInit] sets is in that
    case if it runs before the view is rendered. *)
Theorem timer_without_view_throws (p : page) :
  scrollContainer p = None -> 0 < pending_timers p ->
  (forall s, completes scrollToBottom s = true)
  /\ page_step TimerFires p
     = Some (mkPage (world_of p) None (fileInput p) (S (fired p))
               (page_errors p ++ [CallbackThrew TypeError])).
Proof.
  intros Hc Ht. split; [done|]. unfold pending_timers in Ht. simpl.
  rewrite decide_True by lia. by rewrite Hc.
Qed.

Lemma drain_timers (n : nat) (p : page) (c : scroll_container) :
  scrollContainer p = Some c -> pending_timers p = n ->
  exists p' c', page_steps (replicate n TimerFires) p = Some p'
    /\ pending_timers p' = 0 /\ world_of p' = world_of p
    /\ page_errors p' = page_errors p
    /\ scrollContainer p' = Some c' /\ scrollHeight c' = scrollHeight c
    /\ (0 < n -> at_bottom c').
Proof.
  revert p c. induction n as [|n IH]; intros p c Hc Hn.
  { exists p, c. repeat split; try done. lia. }
  unfold pending_timers in Hn.
  destruct (page_step TimerFires p) as [p1|] eqn:Hs;
    [|by simpl in Hs; rewrite decide_True in Hs by lia].
  destruct (timer_scrolls_to_bottom p p1 c Hc Hs) as (c1 & Hc1 & Hb & Hh & _ & Hw & He & Hf).
  destruct (IH p1 c1 Hc1) as (p2 & c2 & Hs2 & Hp & Hw2 & He2 & Hc2 & Hh2 & Hb2).
  { unfold pending_timers. rewrite Hw, Hf. lia. }
  exists p2, c2. cbn [replicate page_steps]. rewrite Hs. simpl.
  repeat split; try congruence. intros _.
  destruct n; [|apply Hb2; lia]. simpl in Hs2. congruence.
Qed.

(** The timers can always run: with the container in the view, the
    pending timers run one after the other, none throws, and when at least
    one was pending the container ends at the bottom of its content.  With
    [log_mutation_scrolls]: after every mutation of the log the page can
    reach the bottom of the log. *)
Theorem timers_drain (p : page) (c : scroll_container) :
  scrollContainer p = Some c ->
  exists p' c', page_steps (replicate (pending_timers p) TimerFires) p = Some p'
    /\ pending_timers p' = 0 /\ world_of p' = world_of p
    /\ page_errors p' = page_errors p
    /\ scrollContainer p' = Some c' /\ scrollHeight c' = scrollHeight c
    /\ (0 < pending_timers p -> at_bottom c').
Proof. intros Hc. by apply drain_timers. Qed.

(** C29: after every mutation of the log the page reaches the bottom of
    the log: an event of the system that changes the log sets a timer, and
    with the container in the view the pending timers run one after the
    other, none throws, and the container ends at the bottom of its
    content, with no timer left and the world as the event left it. *)
Theorem log_mutation_reaches_bottom (e : event) (p p1 : page) (c : scroll_container) :
  page_inv p -> scrollContainer p = Some c ->
  page_step (Core e) p = Some p1 ->
  messages (this (world_of p1)) <> messages (this (world_of p)) ->
  pending_timers p1 = S (pending_timers p)
  /\ exists p2 c2,
       page_steps (replicate (pending_timers p1) TimerFires) p1 = Some p2
       /\ pending_timers p2 = 0 /\ world_of p2 = world_of p1
       /\ page_errors p2 = page_errors p1
       /\ scrollContainer p2 = Some c2 /\ at_bottom c2.
Proof.
  intros Hinv Hc Hs Hm.
  pose proof (log_mutation_scrolls e p p1 Hinv Hs Hm) as Hn. split; [done|].
  assert (scrollContainer p1 = Some c) as Hc1.
  { simpl in Hs. destruct (step e (world_of p)); [|done]. by injection Hs as <-. }
  destruct (timers_drain p1 c Hc1) as (p2 & c2 & H2 & Hp & Hw & He & Hc2 & _ & Hb).
  exists p2, c2. repeat split; try done. apply Hb. lia.
Qed.

(** C27: the promise of [play()] is dropped.  When a blob arrives, the
    next callback creates an element, holds it, plays it and raises
    [isPlaying] without waiting for the promise.  The browser can refuse
    that play, and from then on, along every run of events other than a
    new request for speech, another blob and the end of another element,
    the component says it is playing and holds the element, the element is
    silent, and the event that would lower the flag, its own end, cannot
    happen. *)
Theorem play_rejected_stuck (i : nat) (b : blob) (p p1 : page) :
  page_step (Core (TtsReply i b)) p = Some p1 ->
  let a := length (audios (world_of p)) in
  exists p2,
    page_step (PlayRejected a) p1 = Some p2
    /\ forall es p3,
         forallb leaves_playback es = true -> page_steps es p2 = Some p3 ->
         isPlaying (this (world_of p3)) = true
         /\ currentAudio (this (world_of p3)) = Some a
         /\ ~ sounds (world_of p3) a
         /\ page_step (Core (AudioEnded a)) p3 = None
         /\ was_refused (page_errors p3) a.
Proof.
  intros (p2 & Hs & Hr)%tts_reply_refused a. exists p2. split; [done|].
  intros es p3 Hes Hrun.
  assert (stuck p3 a) as [Hf Hh (el & Hel & Hst) Herr].
  { eapply (run_invariant (steps := page_steps) (fun q => stuck q a)); [|done..].
    intros e q q' He Hq Hq'. by eapply stuck_step. }
  repeat split; try done.
  - intros (x & Hx & Hp). congruence.
  - simpl. rewrite Hel. simpl. by rewrite Hst.
Qed.

(** The next call of [playTextToSpeech] ends that state: it pauses the
    silent element, clears the handle and lowers the flag, and sends a
    request for speech. *)
Theorem play_releases_stuck (speech : value) (p p' : page) (a : audio) :
  stuck p a -> page_step (Core (Play speech)) p = Some p' ->
  isPlaying (this (world_of p')) = false
  /\ currentAudio (this (world_of p')) = None
  /\ tts_pending (world_of p') = tts_pending (world_of p) ++ [getAudio speech]
  /\ audios (world_of p') = audios (world_of p).
Proof.
  intros [_ Hh (el & Hel & Hst) _] Hs. cbn [page_step] in Hs.
  destruct (step (Play speech) (world_of p)) as [w'|] eqn:Hw; [|done].
  injection Hs as <-. apply step_sound in Hw. inversion Hw; subst; [congruence|].
  simpl. repeat split. replace a0 with a by congruence.
  apply (alter_fixed _ _ _ el); [done|]. unfold pause. by rewrite Hst.
Qed.

(** [openUploader] without the file input in the view stores the document
    type and throws at the click. *)
Theorem openUploader_without_input (doc : string) (p : page) :
  fileInput p = false ->
  exists p', page_step (Core (OpenUploader doc)) p = Some p'
    /\ selectedDocType (this (world_of p')) = doc
    /\ page_errors p' = page_errors p ++ [CallbackThrew TypeError].
Proof. intros Hf. eexists. simpl. by rewrite Hf. Qed.

End page_theorems.

(** ** Witnesses *)

Definition sample_view : scroll_container := mkContainer 900 400 0.

(** The view is rendered, a turn is sent, speech is asked for and
    arrives. *)
Definition sample_events : list page_event :=
  [ViewChanged (Some sample_view) true; Core (Input "hello"); Core Send;
   Core (Play (VStr "namaskar")); Core (TtsReply 0 7)].

Definition sample_page : page :=
  Eval vm_compute in
    default (page_init "0.4fzyo82mvyr")
      (page_steps (JP := RefJson) sample_events (page_init "0.4fzyo82mvyr")).

Lemma sample_page_steps :
  page_steps (JP := RefJson) sample_events (page_init "0.4fzyo82mvyr") = Some sample_page.
Proof. by vm_compute. Qed.

Lemma sample_page_inv : page_inv sample_page.
Proof.
  eapply (page_steps_inv (JP := RefJson)); [apply page_inv_init|apply sample_page_steps].
Qed.

Lemma reachable_page_inv_witness : page_inv sample_page.
Proof.
  apply (reachable_page_inv (JP := RefJson)).
  eapply (page_steps_reachable (JP := RefJson));
    [apply page_reachable_init|apply sample_page_steps].
Defined.

Lemma log_mutation_scrolls_witness :
  let p' := default sample_page (page_step (JP := RefJson) (Core (ChatError 0)) sample_page) in
  pending_timers p' = S (pending_timers sample_page).
Proof.
  apply (log_mutation_scrolls (JP := RefJson) (ChatError 0));
    [apply sample_page_inv|by vm_compute|by vm_compute].
Defined.

Lemma timer_without_view_throws_witness :
  let p := page_init "0.4fzyo82mvyr" in
  (forall s, completes scrollToBottom s = true)
  /\ page_step (JP := RefJson) TimerFires p
     = Some (mkPage (world_of p) None (fileInput p) (S (fired p))
               (page_errors p ++ [CallbackThrew TypeError])).
Proof. apply (timer_without_view_throws (JP := RefJson)); [done|by vm_compute]. Defined.

Lemma timers_drain_witness :
  exists p' c',
    page_steps (JP := RefJson) (replicate (pending_timers sample_page) TimerFires) sample_page
    = Some p'
    /\ pending_timers p' = 0 /\ world_of p' = world_of sample_page
    /\ page_errors p' = page_errors sample_page
    /\ scrollContainer p' = Some c' /\ scrollHeight c' = scrollHeight sample_view
    /\ (0 < pending_timers sample_page -> at_bottom c').
Proof. by apply (timers_drain (JP := RefJson) sample_page sample_view). Defined.

(** The page before the blob arrives. *)
Definition waiting_page : page :=
  Eval vm_compute in
    default (page_init "0.4fzyo82mvyr")
      (page_steps (JP := RefJson) (take 4 sample_events) (page_init "0.4fzyo82mvyr")).

Lemma play_rejected_stuck_witness :
  exists p2,
    page_step (JP := RefJson) (PlayRejected 0) sample_page = Some p2
    /\ forall es p3,
         forallb leaves_playback es = true ->
         page_steps (JP := RefJson) es p2 = Some p3 ->
         isPlaying (this (world_of p3)) = true
         /\ currentAudio (this (world_of p3)) = Some 0
         /\ ~ sounds (world_of p3) 0
         /\ page_step (JP := RefJson) (Core (AudioEnded 0)) p3 = None
         /\ was_refused (page_errors p3) 0.
Proof. by apply (play_rejected_stuck (JP := RefJson) 0 7 waiting_page sample_page). Defined.

Lemma log_mutation_reaches_bottom_witness :
  let p1 := default sample_page (page_step (JP := RefJson) (Core (ChatError 0)) sample_page) in
  pending_timers p1 = S (pending_timers sample_page)
  /\ exists p2 c2,
       page_steps (JP := RefJson) (replicate (pending_timers p1) TimerFires) p1 = Some p2
       /\ pending_timers p2 = 0 /\ world_of p2 = world_of p1
       /\ page_errors p2 = page_errors p1
       /\ scrollContainer p2 = Some c2 /\ at_bottom c2.
Proof.
  apply (log_mutation_reaches_bottom (JP := RefJson) (ChatError 0) sample_page _ sample_view);
    [apply sample_page_inv|done|by vm_compute|by vm_compute].
Defined.
