(* ===== verification/Interleaving.v ===== *)
(** * Interleaving: the chat and the playback commute

    The handlers of the chat and those of the playback share the component
    and nothing else: the first read and write the log, the input, the
    session and the chat requests, the second the handle, the flag, the
    audio elements and the speech requests.  This file proves that an event
    of the one side and an event of the other commute: in either order
    they are enabled or not together and lead to the same world, up to the
    order of the lines in the console ([≡] of [Equivalence]).  Hence a run is
    determined by the order of the events of each side: the interleaving
    of the two sides does not matter. *)

From Stdlib Require Import String ZArith Lia.
From stdpp Require Import base tactics option list strings.
From S2P Require Import Prelude JsString JsValue Json Normalizer Transport Action Session.
From S2P Require Import Playback System Equivalence.

(** The events of the playback side; the others are events of the chat and
    of the page. *)
Definition playback_event (e : event) : bool :=
  match e with
  | Play _ | TtsReply _ _ | TtsError _ | AudioEnded _ => true
  | _ => false
  end.

(** ** Lemmas *)

Section commute.
Context `{JP : JsonPlatform}.

(** From one world, a step of each side: each can follow the other, and
    the two orders meet. *)
Lemma diamond (e1 e2 : event) (w w1 w2 : world) :
  playback_event e1 = false -> playback_event e2 = true ->
  step_case e1 w w1 -> step_case e2 w w2 ->
  exists w12 w21, step_case e2 w1 w12 /\ step_case e1 w2 w21 /\ w12 ≡ w21.
Proof.
  intros H1 H2 Hc1 Hc2.
  destruct Hc1; try done; destruct Hc2; try done;
    (eexists _, _; split; [some_rule|split; [some_rule|]]);
    unfold equiv, world_equiv, core, chat_step, audio_step; simpl;
    by rewrite ?app_nil_r.
Qed.

(** What an event of one side leaves of the other. *)
Lemma chat_frame (e : event) (w w' : world) :
  playback_event e = false -> step_case e w w' ->
  tts_pending w' = tts_pending w /\ audios w' = audios w.
Proof. intros He Hc. by destruct Hc. Qed.

Lemma playback_frame (e : event) (w w' : world) :
  playback_event e = true -> step_case e w w' -> chat_pending w' = chat_pending w.
Proof. intros He Hc. by destruct Hc. Qed.

(** An event of one side is enabled or not whatever the other side did. *)
Lemma playback_enabled (e1 e2 : event) (w w1 : world) :
  playback_event e1 = false -> playback_event e2 = true ->
  step e1 w = Some w1 -> step e2 w = None -> step e2 w1 = None.
Proof.
  intros H1 H2 Hs1%step_sound Hs2.
  destruct (chat_frame _ _ _ H1 Hs1) as [Ht Ha].
  apply eq_None_not_Some. rewrite step_enabled. apply eq_None_not_Some in Hs2.
  rewrite step_enabled in Hs2. unfold sounds in *. rewrite Ha.
  destruct e2; try done; by rewrite Ht.
Qed.

Lemma chat_enabled (e1 e2 : event) (w w2 : world) :
  playback_event e1 = false -> playback_event e2 = true ->
  step e2 w = Some w2 -> step e1 w = None -> step e1 w2 = None.
Proof.
  intros H1 H2 Hs2%step_sound Hs1.
  pose proof (playback_frame _ _ _ H2 Hs2) as Hp.
  apply eq_None_not_Some. rewrite step_enabled. apply eq_None_not_Some in Hs1.
  rewrite step_enabled in Hs1. destruct e1; try done; by rewrite Hp.
Qed.

(** Two events, one of each side, in either order. *)
Lemma swap (e1 e2 : event) (w : world) :
  playback_event e1 = false -> playback_event e2 = true ->
  step e1 w ≫= step e2 ≡ step e2 w ≫= step e1.
Proof.
  intros H1 H2.
  destruct (step e1 w) as [w1|] eqn:Hs1, (step e2 w) as [w2|] eqn:Hs2; simpl.
  - destruct (diamond e1 e2 w w1 w2) as (w12 & w21 & Hc12 & Hc21 & He);
      [done|done|by apply step_sound..|].
    rewrite (step_complete _ _ _ Hc12), (step_complete _ _ _ Hc21). by constructor.
  - by rewrite (playback_enabled e1 e2 w w1).
  - by rewrite (chat_enabled e1 e2 w w2).
  - done.
Qed.

End commute.

(** ** Theorems *)

Section interleaving.
Context `{JP : JsonPlatform}.

Lemma steps_cons_proper (e : event) (es es' : list event) :
  (forall w, steps es w ≡ steps es' w) ->
  forall w, steps (e :: es) w ≡ steps (e :: es') w.
Proof. intros H w. simpl. destruct (step e w); simpl; [apply H|done]. Qed.

(** In any run, an event of the chat or of the page next to an event of
    the playback can be swapped with it. *)
Lemma chat_playback_commute (es1 es2 : list event) (e1 e2 : event) (w : world) :
  playback_event e1 = false -> playback_event e2 = true ->
  steps (es1 ++ e1 :: e2 :: es2) w ≡ steps (es1 ++ e2 :: e1 :: es2) w.
Proof.
  intros H1 H2. rewrite !steps_app.
  destruct (steps es1 w) as [w0|]; [|done].
  change (steps (e1 :: e2 :: es2) w0 ≡ steps (e2 :: e1 :: es2) w0).
  assert (forall a b, steps (a :: b :: es2) w0 = (step a w0 ≫= step b) ≫= steps es2) as Heq.
  { intros a b. simpl. by destruct (step a w0). }
  rewrite !Heq. apply option_bind_proper; [apply steps_proper|by apply swap].
Qed.

(** An event of the playback moves behind the events of the chat that
    follow it. *)
Lemma playback_moves_back (e : event) (cs ps : list event) (w : world) :
  playback_event e = true -> Forall (fun c => playback_event c = false) cs ->
  steps (e :: cs ++ ps) w ≡ steps (cs ++ e :: ps) w.
Proof.
  intros He Hcs. revert w. induction Hcs as [|c cs Hc Hcs IH]; intros w; [done|].
  etrans; [symmetry; by apply (chat_playback_commute [] (cs ++ ps) c e)|].
  by apply steps_cons_proper.
Qed.

(** C24: the interleaving of the chat and of the playback does not
    matter: every run is enabled exactly when the run is that does its
    events of the chat and of the page first and its events of the playback
    after, each side in its own order, and ends in the same component,
    requests in flight, audio elements, object URLs and exceptions.  Only
    the order of the lines of the console may differ. *)
Theorem interleaving_irrelevant (es : list event) (w : world) :
  steps es w
  ≡ steps (filter (fun e => playback_event e = false) es
           ++ filter (fun e => playback_event e = true) es) w.
Proof.
  revert w. induction es as [|e es IH]; intros w; [done|].
  destruct (playback_event e) eqn:He.
  - rewrite filter_cons_False, filter_cons_True by (done || congruence).
    etrans; [by apply steps_cons_proper|].
    apply playback_moves_back; [done|]. apply Forall_forall. by intros c [? _]%list_elem_of_filter.
  - rewrite filter_cons_True, filter_cons_False by (done || congruence).
    by apply steps_cons_proper.
Qed.

End interleaving.
