(* ===== verification/Render.v ===== *)
(** * Render: the log as the page shows it

    [formatMessage] is a method for the template: the page shows the log by
    formatting the text of every entry (section 4.4 of the specification:
    formatting is applied at render time, never to the stored log).  This
    file composes the pieces: the log the handlers build, the values the
    normalisation puts in it and the formatter that reads them.

    - On the runs the specification covers the log holds strings only, and
      the render never throws: it is the markup of the turns of the
      specification.
    - A reply whose display value is no string (a number, an array, an
      object: the normalisation does not coerce it) makes the render throw
      a [TypeError], the formatter calling [replace] on it; the entry stays
      in the log, so the render throws until the session is reset.
    - The formatter escapes nothing: a text of the server without stars
      and newlines is the markup of its entry, tags included. *)

From Stdlib Require Import String ZArith Lia.
From stdpp Require Import base tactics option list strings.
From S2P Require Import Prelude JsString JsValue Json Normalizer Transport Format Action.
From S2P Require Import Session Controller Playback System SystemRefinement.
From S2P Require Import Invariants Behaviour.

(** ** The render *)

(** The markup of the entries, in order; the first entry that cannot be
    formatted ends the render with its exception. *)
Fixpoint render_all (l : list ChatMessage) : completion (list string) :=
  match l with
  | [] => Normal []
  | m :: rest =>
      let! markup := formatMessage_value (text m) in
      let! markups := render_all rest in
      Normal (markup :: markups)
  end.

Definition render (s : component) : completion (list string) :=
  render_all (messages s).

(** The markup of a turn of the specification. *)
Definition turn_markup (t : Turn) : string :=
  match content t with
  | Text s => formatMessage s
  | FileRef f => formatMessage (upload_text f (default "" (docType t)))
  end.

(** ** Lemmas *)

Lemma formatMessage_value_string (s : string) :
  formatMessage_value (VStr s) = Normal (formatMessage s).
Proof. unfold formatMessage_value, formatMessage. simpl. by destruct s. Qed.

(** The only exception of the formatter is the [TypeError] of a value
    without [replace]. *)
Lemma formatMessage_value_throws (v : value) (e : js_error) :
  formatMessage_value v = Throw e -> e = TypeError.
Proof.
  unfold formatMessage_value. destruct (negb (truthy v)); [done|].
  destruct v; by intros [= <-].
Qed.

Lemma formatMessage_value_bad (v : value) :
  truthy v = true -> is_string v = false -> formatMessage_value v = Throw TypeError.
Proof. unfold formatMessage_value. intros ->. by destruct v. Qed.

Lemma render_all_throws (l : list ChatMessage) (e : js_error) :
  render_all l = Throw e -> e = TypeError.
Proof.
  induction l as [|m l IH]; simpl; [done|].
  destruct (formatMessage_value (text m)) as [x|e'] eqn:Hm; simpl.
  - destruct (render_all l) as [xs|e'']; simpl; [done|]. intros [= <-]. by apply IH.
  - intros [= <-]. by eapply formatMessage_value_throws.
Qed.

(** An entry that cannot be formatted breaks the render of every log that
    holds it. *)
Lemma render_all_bad (l1 l2 : list ChatMessage) (m : ChatMessage) :
  formatMessage_value (text m) = Throw TypeError ->
  render_all (l1 ++ m :: l2) = Throw TypeError.
Proof.
  intros Hm. induction l1 as [|x l1 IH]; simpl; [by rewrite Hm|].
  destruct (formatMessage_value (text x)) as [y|e] eqn:Hx; simpl.
  - by rewrite IH.
  - f_equal. by eapply formatMessage_value_throws.
Qed.

Lemma render_all_prefix (l l' : list ChatMessage) :
  l `prefix_of` l' -> render_all l = Throw TypeError -> render_all l' = Throw TypeError.
Proof.
  intros [k ->]. revert k. induction l as [|x l IH]; intros k; simpl; [done|].
  destruct (formatMessage_value (text x)) as [y|e]; simpl; [|done].
  destruct (render_all l) as [ys|e] eqn:Hl; simpl; [done|].
  intros [= ->]. by rewrite IH.
Qed.

Lemma render_all_turns (log : list Turn) :
  render_all (entry_of <$> log) = Normal (turn_markup <$> log).
Proof.
  induction log as [|t log IH]; [done|]. rewrite !fmap_cons. cbn [render_all].
  assert (formatMessage_value (text (entry_of t)) = Normal (turn_markup t)) as ->.
  { unfold entry_of, turn_markup. destruct (content t); apply formatMessage_value_string. }
  by rewrite IH.
Qed.

Lemma render_all_snoc (l : list ChatMessage) (m : ChatMessage) (ms : list string)
    (x : string) :
  render_all l = Normal ms -> formatMessage_value (text m) = Normal x ->
  render_all (l ++ [m]) = Normal (ms ++ [x]).
Proof.
  revert ms. induction l as [|y l IH]; intros ms; simpl; [by intros [= <-] ->|].
  destruct (formatMessage_value (text y)) as [z|]; [|done]. simpl.
  destruct (render_all l) as [zs|]; [|done]. simpl. intros [= <-] Hx.
  by rewrite (IH zs).
Qed.

(** ** Theorems *)

Section render.
Context `{JP : JsonPlatform}.

(** On the runs the specification covers the render never throws:
    the page shows the markup of the turns of the specification's log, one
    per turn, in order. *)
Theorem render_expected (es : list event) (w : world) (a : spec_system) :
  sys_refines w a -> expected_run es w = true ->
  exists w', steps es w = Some w'
    /\ render (this w') = Normal (turn_markup <$> log (ctrl (spec_steps es w a))).
Proof.
  intros Hr He. destruct (run_refines es w a Hr He) as (w' & Hs & [[_ _ _ Hl _] _ _ _]).
  exists w'. split; [done|]. unfold render. rewrite Hl. apply render_all_turns.
Qed.

(** A render that throws keeps throwing until a reset: the log only
    grows. *)
Lemma render_persists (es : list event) (w w' : world) :
  Forall (fun e => forall rnd, e <> Reset rnd) es -> steps es w = Some w' ->
  render (this w) = Throw TypeError -> render (this w') = Throw TypeError.
Proof.
  intros Hes. revert w. induction Hes as [|e es He Hes IH]; intros w; simpl.
  { by intros [= <-]. }
  destruct (step e w) as [w1|] eqn:Hs; [|done]. simpl. intros Hrun Hw.
  apply (IH w1 Hrun). destruct (log_append_only _ _ _ Hs) as [[rnd ->]|Hp].
  - by destruct (He rnd).
  - by apply (render_all_prefix _ _ Hp).
Qed.

(** A reply whose display value is truthy and no string breaks the
    page: the value is stored in the log as it is, the render of the log
    throws a [TypeError], and it throws after every later run without a
    reset. *)
Theorem non_string_reply_breaks_render (i : nat) (props : list (string * value))
    (botText : value) (es : list event) (w w1 w2 : world) :
  normalize (lookup_prop "response" props) = Normal botText ->
  truthy botText = true -> is_string botText = false ->
  step (ChatReply i (VObj props)) w = Some w1 ->
  Forall (fun e => forall rnd, e <> Reset rnd) es -> steps es w1 = Some w2 ->
  last (text <$> messages (this w1)) = Some botText
  /\ render (this w1) = Throw TypeError
  /\ render (this w2) = Throw TypeError.
Proof.
  intros Hn Ht Hs Hstep Hes Hrun.
  destruct (step_reply_object _ _ _ _ Hstep) as (b & Hb & Hw1).
  assert (b = botText) as -> by congruence.
  assert (render (this w1) = Throw TypeError) as Hbad.
  { rewrite Hw1. apply render_all_bad. by apply formatMessage_value_bad. }
  split; [rewrite Hw1; simpl; rewrite fmap_app; apply last_snoc|].
  split; [done|]. by eapply render_persists.
Qed.

(** C30: the text of the server reaches the page as markup.  A reply whose
    [response] is a text with no star and no newline, and that is no text
    of an object, is appended to the render as it came: the formatter
    returns markup and escapes nothing, so the tags of the text are tags
    of the page. *)
Theorem reply_markup_verbatim (i : nat) (props : list (string * value)) (w w' : world)
    (t : string) (l : list string) :
  step (ChatReply i (VObj props)) w = Some w' ->
  lookup_prop "response" props = VStr t -> looks_like_object t = false ->
  has_byte 42 t = false -> has_byte 10 t = false ->
  render (this w) = Normal l ->
  render (this w') = Normal (l ++ [t]).
Proof.
  intros (botText & Hn & ->)%step_reply_object Hr Hobj Hstar Hnl Hl.
  rewrite Hr in Hn. unfold normalize in Hn.
  rewrite parse_outer_plain, handle_response_primitive in Hn by done.
  injection Hn as <-. unfold render. simpl.
  apply render_all_snoc; [done|]. simpl.
  by rewrite formatMessage_value_string, formatMessage_plain.
Qed.

End render.

(** ** Witnesses *)

Lemma render_expected_witness :
  exists w',
    steps (JP := RefJson) sample_run (init "0.4fzyo82mvyr") = Some w'
    /\ render (this w')
       = Normal (turn_markup
                 <$> log (ctrl (spec_steps (JP := RefJson) sample_run (init "0.4fzyo82mvyr")
                                   (spec_init "0.4fzyo82mvyr")))).
Proof.
  apply (render_expected (JP := RefJson)); [apply sys_refines_init|by vm_compute].
Defined.

(** A reply whose message is the number 5. *)
Definition numeric_reply : list (string * value) :=
  [("response", VObj [("message", VNum 5)]); ("mode", VStr "chat")].

Lemma non_string_reply_breaks_render_witness :
  let w1 := default new_world
              (step (JP := RefJson) (ChatReply 0 (VObj numeric_reply)) two_turns_world) in
  let w2 := default new_world (steps (JP := RefJson) [Input "hello"; Send; ChatError 0] w1) in
  last (text <$> messages (this w1)) = Some (VNum 5)
  /\ render (this w1) = Throw TypeError
  /\ render (this w2) = Throw TypeError.
Proof.
  cbv zeta.
  eapply (non_string_reply_breaks_render (JP := RefJson) 0 numeric_reply (VNum 5)
            [Input "hello"; Send; ChatError 0] two_turns_world);
    try by vm_compute.
  repeat constructor; by intros rnd.
Defined.

(** A reply whose text holds a tag. *)
Definition tagged_reply : list (string * value) :=
  [("response", VStr "<img src=x onerror=alert(1)>"); ("mode", VStr "chat")].

Lemma reply_markup_verbatim_witness :
  exists l,
    render (this two_turns_world) = Normal l
    /\ render (this (default new_world
                       (step (JP := RefJson) (ChatReply 0 (VObj tagged_reply))
                          two_turns_world)))
       = Normal (l ++ ["<img src=x onerror=alert(1)>"]).
Proof.
  eexists. split; [by vm_compute|].
  apply (reply_markup_verbatim (JP := RefJson) 0 tagged_reply two_turns_world);
    by vm_compute.
Defined.
