(* ===== verification/Wire.v ===== *)
(** * Wire: from the body of a response to the log

    [ChatService.sendMessage] posts with the response type [json]: the
    HTTP client hands the [next] callback the value it parsed from the text
    of the body, [null] for an empty body, and calls the [error] callback
    when the status is no success or the text is no JSON.  This file states
    that step ([http_body], [deliver]) and composes it with the system: the
    JSON text a server prints for a reply object reaches the log as the
    normalised payload; an empty body reaches the [next] callback as
    [null]. *)

From Stdlib Require Import String ZArith Lia.
From stdpp Require Import base tactics option list strings.
From S2P Require Import Prelude JsString JsValue Json Normalizer JsonRoundTrip Transport.
From S2P Require Import Action Session Playback System Invariants Behaviour.

Section wire.
Context `{JP : JsonPlatform}.

(** The value of a body, for a response of type [json]. *)
Definition http_body (body : string) : completion value :=
  if bool_decide (body = "") then Normal VNull else JSON_parse body.

(** The event that the response to the chat request [i] is: [ok] says
    whether the status is a success. *)
Definition deliver (i : nat) (ok : bool) (body : string) : event :=
  if ok
  then match http_body body with
       | Normal res => ChatReply i res
       | Throw _ => ChatError i
       end
  else ChatError i.

(** ** Lemmas *)

Lemma deliver_cases (i : nat) (ok : bool) (body : string) :
  (exists res, deliver i ok body = ChatReply i res) \/ deliver i ok body = ChatError i.
Proof.
  unfold deliver. destruct ok; [|by right].
  destruct (http_body body); [left; by eexists|by right].
Qed.

(** ** Theorems *)

(** Every response resolves its request: whatever the status and the
    text, the request leaves the flight and the loading flag is lowered. *)
Theorem deliver_resolves (i : nat) (ok : bool) (body : string) (w : world) :
  i < length (chat_pending w) ->
  exists w', step (deliver i ok body) w = Some w'
    /\ S (length (chat_pending w')) = length (chat_pending w)
    /\ isLoading (this w') = false.
Proof.
  intros Hi. apply lookup_lt_is_Some in Hi as [r Hr].
  assert (is_Some (step (deliver i ok body) w)) as [w' Hw].
  { apply step_enabled. apply lookup_lt_Some in Hr.
    by destruct (deliver_cases i ok body) as [[res ->]| ->]. }
  exists w'. split; [done|]. apply lookup_lt_Some in Hr as Hlt.
  destruct (deliver_cases i ok body) as [[res He]|He]; rewrite He in Hw;
    apply step_sound in Hw; inversion Hw; subst; simpl;
    rewrite app_nil_r, length_delete by (by eexists); (split; [lia|done]).
Qed.

(** A body that is no JSON text is a failure: the apology is appended and
    the context stays. *)
Theorem malformed_body_apology (i : nat) (body : string) (e : js_error) (w w' : world) :
  body <> "" -> JSON_parse body = Throw e ->
  step (deliver i true body) w = Some w' ->
  messages (this w') = messages (this w) ++ [mkChatMessage (VStr apology) false None]
  /\ context (this w') = context (this w).
Proof.
  intros Hb Hp. unfold deliver, http_body. rewrite bool_decide_eq_false_2, Hp by done.
  intros Hs%step_sound. by inversion Hs; subst.
Qed.

(** An empty body with a status of success reaches the [next] callback as
    [null]: the callback throws, no entry and no apology is appended, and
    the exception is uncaught. *)
Theorem empty_body_uncaught (i : nat) (w w' : world) :
  step (deliver i true "") w = Some w' ->
  deliver i true "" = ChatReply i VNull
  /\ uncaught w' = uncaught w ++ [TypeError]
  /\ messages (this w') = messages (this w).
Proof.
  intros Hs. split; [done|].
  by destruct (null_body_reply i VNull w w' Hs eq_refl) as (? & ? & _).
Qed.

End wire.

(** From the wire to the log: when the server answers the request
    [i] with the JSON text of an object, printed as [JSON.stringify] prints
    it, the [next] callback receives that object, and the log gains exactly
    one entry: the normalised value of its [response] field, which with the
    [mode] field becomes the context. *)
Theorem wire_reply_displayed (i : nat) (props : list (string * value)) (w w' : world) :
  canonical (VObj props) = true ->
  step (JP := RefJson) (deliver (JP := RefJson) i true (stringify_value (VObj props))) w
  = Some w' ->
  exists botText,
    normalize (JP := RefJson) (lookup_prop "response" props) = Normal botText
    /\ messages (this w') = messages (this w) ++ [mkChatMessage botText false None]
    /\ context (this w') = (botText, lookup_prop "mode" props)
    /\ chat_pending w' = delete i (chat_pending w).
Proof.
  intros Hc. unfold deliver, http_body.
  rewrite bool_decide_eq_false_2 by (by destruct props).
  change (JSON_parse (stringify_value (VObj props)))
    with (ref_parse (stringify_value (VObj props))).
  rewrite parse_stringify_value by done.
  intros (botText & Hb & ->)%step_reply_object. exists botText.
  split; [done|]. simpl. by rewrite app_nil_r.
Qed.

(** ** Witnesses *)

Lemma wire_reply_displayed_witness :
  let props := [("response", VObj [("message", VStr "namaskar")]); ("mode", VStr "chat")] in
  let w' := default new_world
              (step (JP := RefJson)
                 (deliver (JP := RefJson) 1 true (stringify_value (VObj props)))
                 two_turns_world) in
  exists botText,
    normalize (JP := RefJson) (lookup_prop "response" props) = Normal botText
    /\ messages (this w')
       = messages (this two_turns_world) ++ [mkChatMessage botText false None]
    /\ context (this w') = (botText, lookup_prop "mode" props)
    /\ chat_pending w' = delete 1 (chat_pending two_turns_world).
Proof.
  cbv zeta. eapply (wire_reply_displayed 1 _ two_turns_world); by vm_compute.
Defined.
