(* ===== verification/Accounting.v ===== *)
(** * Accounting: every turn of the user is answered, in flight or lost

    The written specification asks that each submission appends exactly one
    entry of the user at once and exactly one entry of the assistant when
    it resolves (section 8, item 1).  [Behaviour] proves this of each step; this
    file proves it of whole runs, as a conservation law: the entries of
    the user in the log, plus the greeting, are as many as the entries of
    the assistant, the requests in flight and the replies lost to an
    exception together.  Every event but a reset keeps the balance; a reset
    empties the log and leaves the requests in flight, whose replies then
    answer questions that are no longer in the log.

    The file also counts what a run adds to the world: the object URLs
    and the audio elements (one per blob, none released) and the bounds
    on the log, the requests and the scrolls. *)

From Stdlib Require Import String ZArith Lia.
From stdpp Require Import base tactics option list strings.
From S2P Require Import Prelude JsString JsValue Json Normalizer Transport Action Session.
From S2P Require Import Playback System Invariants.

(** ** What is counted *)

(** The entries of the user and those of the assistant in the log. *)
Definition user_turns (s : component) : nat :=
  length (filter (fun m => isUser m = true) (messages s)).

Definition assistant_turns (s : component) : nat :=
  length (filter (fun m => isUser m = false) (messages s)).

(** What stands for an entry of the assistant: an entry of the log, a
    request whose reply has not come, or a reply whose callback threw
    before it wrote the log. *)
Definition answers (w : world) : nat :=
  assistant_turns (this w) + length (chat_pending w) + length (uncaught w).

(** [balanced w]: the greeting and one answer for each turn of the user. *)
Definition balanced (w : world) : Prop := answers w = S (user_turns (this w)).

(** The answers that belong to no turn in the log. *)
Definition orphans (w : world) : nat := answers w - S (user_turns (this w)).

Definition is_reset (e : event) : bool := if e is Reset _ then true else false.

#[export] Instance balanced_dec (w : world) : Decision (balanced w).
Proof. unfold balanced. apply _. Defined.

(** ** Lemmas *)

Lemma user_turns_snoc (l : list ChatMessage) (m : ChatMessage) :
  length (filter (fun m => isUser m = true) (l ++ [m]))
  = length (filter (fun m => isUser m = true) l) + (if isUser m then 1 else 0).
Proof.
  rewrite filter_app, length_app. f_equal.
  rewrite filter_cons. by destruct (isUser m).
Qed.

Lemma assistant_turns_snoc (l : list ChatMessage) (m : ChatMessage) :
  length (filter (fun m => isUser m = false) (l ++ [m]))
  = length (filter (fun m => isUser m = false) l) + (if isUser m then 0 else 1).
Proof.
  rewrite filter_app, length_app. f_equal.
  rewrite filter_cons. by destruct (isUser m).
Qed.

Lemma turns_total (s : component) :
  user_turns s + assistant_turns s = length (messages s).
Proof.
  unfold user_turns, assistant_turns.
  induction (messages s) as [|m l IH]; [done|].
  rewrite !filter_cons. destruct (isUser m); simpl; lia.
Qed.

Section accounting.
Context `{JP : JsonPlatform}.

(** One rule at a time: what a step does to the two sides of the
    balance. *)
Lemma step_case_conserves (e : event) (w w' : world) :
  step_case e w w' -> is_reset e = false ->
  answers w' + user_turns (this w) = answers w + user_turns (this w').
Proof.
  intros Hc He. unfold answers, user_turns, assistant_turns.
  destruct Hc; try done; simpl;
    rewrite ?user_turns_snoc, ?assistant_turns_snoc, ?length_app, ?app_nil_r;
    simpl; try lia.
  all: try (rewrite length_delete by (by eexists); apply lookup_lt_Some in Hpend; lia).
Qed.

Lemma step_case_reset (rnd : string) (w w' : world) :
  step_case (Reset rnd) w w' ->
  user_turns (this w') = 0 /\ assistant_turns (this w') = 1
  /\ chat_pending w' = chat_pending w /\ uncaught w' = uncaught w.
Proof. intros Hc. inversion Hc; subst. simpl. by rewrite !app_nil_r. Qed.

Lemma init_balanced (rnd : string) : balanced (init rnd).
Proof. done. Qed.

Lemma step_balanced (e : event) (w w' : world) :
  step e w = Some w' -> is_reset e = false -> balanced w -> balanced w'.
Proof.
  intros Hc%step_sound He Hb. unfold balanced in *.
  pose proof (step_case_conserves e w w' Hc He). lia.
Qed.

Lemma steps_balanced (es : list event) (w w' : world) :
  forallb (fun e => negb (is_reset e)) es = true ->
  balanced w -> steps es w = Some w' -> balanced w'.
Proof.
  apply (run_invariant (steps := steps) balanced). intros e s s' He Hb Hs.
  eapply step_balanced; [done| |done]. by destruct (is_reset e).
Qed.

Lemma step_owed (e : event) (w w' : world) :
  step e w = Some w' ->
  S (user_turns (this w)) <= answers w -> S (user_turns (this w')) <= answers w'.
Proof.
  intros Hc%step_sound Hb. destruct (is_reset e) eqn:He.
  - destruct e; try done. destruct (step_case_reset _ _ _ Hc) as (Hu & Ha & _).
    unfold answers. lia.
  - pose proof (step_case_conserves e w w' Hc He). lia.
Qed.

End accounting.

(** ** Theorems *)

Section accounting_theorems.
Context `{JP : JsonPlatform}.

(** C20: conservation of turns.  Along a run without reset, from the
    initial world, the log holds the greeting and, for each entry of the
    user, one answer: an entry of the assistant, a request still in
    flight, or a reply whose callback threw (a body that is [null]).  No
    turn is answered twice and none is dropped, whatever the order in
    which the replies arrive. *)
Theorem turns_conserved (es : list event) (rnd : string) (w : world) :
  forallb (fun e => negb (is_reset e)) es = true ->
  steps es (init rnd) = Some w ->
  assistant_turns (this w) + length (chat_pending w) + length (uncaught w)
  = S (user_turns (this w)).
Proof. intros Hes Hs. by apply (steps_balanced es (init rnd) w). Qed.

(** Every event but a reset keeps the difference between the answers and
    the turns of the user, from any world. *)
Theorem step_conserves (e : event) (w w' : world) :
  step e w = Some w' -> is_reset e = false ->
  answers w' + user_turns (this w) = answers w + user_turns (this w').
Proof. intros Hc%step_sound. by apply step_case_conserves. Qed.

(** In every reachable world there are at least as many answers as the
    balance asks for: an entry of the user is never left without one. *)
Theorem reachable_answers (w : world) :
  reachable w -> S (user_turns (this w)) <= answers w.
Proof.
  induction 1 as [rnd|e w w' _ IH Hs]; [by rewrite init_balanced|].
  by apply (step_owed e w).
Qed.

(** A reset empties the log and cancels nothing: the requests in flight
    become answers to turns that are no longer in the log, and each of
    their replies will append an entry of the assistant that follows no
    entry of the user. *)
Theorem reset_orphans (rnd : string) (w w' : world) :
  step (Reset rnd) w = Some w' ->
  orphans w' = length (chat_pending w) + length (uncaught w).
Proof.
  intros Hc%step_sound. destruct (step_case_reset _ _ _ Hc) as (Hu & Ha & Hp & Hx).
  unfold orphans, answers. rewrite Hu, Ha, Hp, Hx. lia.
Qed.

(** When nothing is in flight and no reply was lost, a balanced log has
    one entry of the assistant for the greeting and one for each entry of
    the user. *)
Theorem quiescent_log (w : world) :
  balanced w -> chat_pending w = [] -> uncaught w = [] ->
  assistant_turns (this w) = S (user_turns (this w))
  /\ length (messages (this w)) = S (2 * user_turns (this w)).
Proof.
  unfold balanced, answers. intros Hb Hp Hu. rewrite Hp, Hu in Hb. simpl in Hb.
  pose proof (turns_total (this w)). lia.
Qed.

End accounting_theorems.

(** ** Growth: what a run can add to the world

    Every blob that arrives costs one object URL and one audio element,
    and no event gives one back; an event appends at most one entry to
    the log, puts at most one request in flight and schedules at most one
    scroll. *)

Definition speech_reply (e : event) : nat := if e is TtsReply _ _ then 1 else 0.

Lemma sum_list_ones {A} (l : list A) : sum_list ((fun _ => 1) <$> l) = length l.
Proof. induction l as [|x l IH]; [done|]. rewrite fmap_cons. simpl. by rewrite IH. Qed.

Section growth.
Context `{JP : JsonPlatform}.

Lemma step_case_growth (e : event) (w w' : world) :
  step_case e w w' ->
  length (object_urls w') = length (object_urls w) + speech_reply e
  /\ length (audios w') = length (audios w) + speech_reply e
  /\ length (messages (this w')) <= length (messages (this w)) + 1
  /\ length (chat_pending w') <= length (chat_pending w) + 1
  /\ scrolls w' <= scrolls w + 1.
Proof.
  destruct 1; simpl;
    rewrite ?length_app, ?length_alter, ?length_insert, ?length_delete by (by eexists);
    simpl; repeat split; lia.
Qed.

(** C32: the object URLs leak.  Along every run the object URLs and the
    audio elements are those of the start and one more of each for every
    blob that arrived: [createObjectURL] is called once per blob and no
    handler releases a URL or an element, whatever the component holds. *)
Theorem object_urls_leak (es : list event) (w w' : world) :
  steps es w = Some w' ->
  length (object_urls w') = length (object_urls w) + sum_list (speech_reply <$> es)
  /\ length (audios w') = length (audios w) + sum_list (speech_reply <$> es).
Proof.
  intros Hs. split.
  - revert es w w' Hs. apply (run_counts (steps := steps) (fun w => length (object_urls w))).
    intros e w w' Hc%step_sound. by destruct (step_case_growth e w w' Hc).
  - revert es w w' Hs. apply (run_counts (steps := steps) (fun w => length (audios w))).
    intros e w w' Hc%step_sound. by destruct (step_case_growth e w w' Hc) as (_ & ? & _).
Qed.

(** The log, the requests in flight and the scrolls grow by one per event
    at most. *)
Theorem growth_bounded (es : list event) (w w' : world) :
  steps es w = Some w' ->
  length (messages (this w')) <= length (messages (this w)) + length es
  /\ length (chat_pending w') <= length (chat_pending w) + length es
  /\ scrolls w' <= scrolls w + length es.
Proof.
  intros Hs. rewrite <- (sum_list_ones es). repeat split; revert es w w' Hs.
  - apply (run_grows (steps := steps) (fun w => length (messages (this w)))).
    intros e w w' Hc%step_sound. by destruct (step_case_growth e w w' Hc) as (_ & _ & ? & _).
  - apply (run_grows (steps := steps) (fun w => length (chat_pending w))).
    intros e w w' Hc%step_sound.
    by destruct (step_case_growth e w w' Hc) as (_ & _ & _ & ? & _).
  - apply (run_grows (steps := steps) scrolls).
    intros e w w' Hc%step_sound.
    by destruct (step_case_growth e w w' Hc) as (_ & _ & _ & _ & ?).
Qed.

End growth.

(** ** Witnesses *)

(** Two turns answered out of order, a quick reply whose reply has no
    body, a file turn that fails, speech in between, and a turn left in
    flight. *)
Definition conserved_run : list event :=
  [Input "hello"; Send; Input "again"; Send; ChatReply 1 sample_reply;
   Play (VStr "namaskar"); QuickReply "yes"; ChatReply 0 sample_reply;
   ChatReply 0 VNull; TtsReply 0 7; FilesSelected (Some [mkFile "aadhaar.pdf" 1]);
   ChatError 0; Input "last"; Send].

Definition conserved_world : world :=
  Eval vm_compute in
    default new_world (steps (JP := RefJson) conserved_run (init "0.4fzyo82mvyr")).

Lemma conserved_world_steps :
  steps (JP := RefJson) conserved_run (init "0.4fzyo82mvyr") = Some conserved_world.
Proof. by vm_compute. Qed.

Lemma turns_conserved_witness :
  assistant_turns (this conserved_world) + length (chat_pending conserved_world)
  + length (uncaught conserved_world)
  = S (user_turns (this conserved_world)).
Proof.
  apply (turns_conserved (JP := RefJson) conserved_run "0.4fzyo82mvyr");
    [done|apply conserved_world_steps].
Defined.

Lemma step_conserves_witness :
  let w' := default new_world (step (JP := RefJson) (ChatError 0) conserved_world) in
  answers w' + user_turns (this conserved_world)
  = answers conserved_world + user_turns (this w').
Proof. by apply (step_conserves (JP := RefJson) (ChatError 0)). Defined.

Lemma reachable_answers_witness :
  S (user_turns (this conserved_world)) <= answers conserved_world.
Proof.
  apply (reachable_answers (JP := RefJson)).
  apply (steps_reachable conserved_run (init "0.4fzyo82mvyr"));
    [constructor|apply conserved_world_steps].
Defined.

Lemma reset_orphans_witness :
  orphans (default new_world (step (JP := RefJson) (Reset "0.zzzzzzzzzzzz") conserved_world))
  = 2.
Proof.
  by apply (reset_orphans (JP := RefJson) "0.zzzzzzzzzzzz" conserved_world).
Defined.

Lemma quiescent_log_witness :
  assistant_turns (this (init "0.4fzyo82mvyr")) = 1
  /\ length (messages (this (init "0.4fzyo82mvyr"))) = 1.
Proof. by apply (quiescent_log (init "0.4fzyo82mvyr")). Defined.

Lemma object_urls_leak_witness :
  length (object_urls conserved_world) = 1 /\ length (audios conserved_world) = 1.
Proof.
  apply (object_urls_leak (JP := RefJson) conserved_run (init "0.4fzyo82mvyr")).
  apply conserved_world_steps.
Defined.

Lemma growth_bounded_witness :
  length (messages (this conserved_world)) <= 1 + 14
  /\ length (chat_pending conserved_world) <= 0 + 14
  /\ scrolls conserved_world <= 1 + 14.
Proof.
  apply (growth_bounded (JP := RefJson) conserved_run (init "0.4fzyo82mvyr")).
  apply conserved_world_steps.
Defined.
