(* ===== verification/Typing.v ===== *)
(** * Typing: when the declared types of the component hold at run time

    The component declares [text: string] for the entries of the log and
    [string | null] for [prevRes] and [prevResMode] (login.component.ts,
    lines 5 and 26-27), and [response: string | any], [mode: string] for the
    body of a reply (chat.service.ts, lines 5-8).  The compiler checks
    none of this against what the server sends: the reply callback stores
    whatever the normalisation returns.

    This file gives the exact condition: a boolean judgement on the payload
    ([typed_payload]) that holds exactly when the normalisation returns a
    string, and a judgement on events ([typed_event]) such that a step from
    a well-typed component leads to a well-typed component exactly when the
    event is well typed.  A well-typed log is what the formatter needs: in a
    reachable world the render completes exactly when the log is well
    typed. *)

From Stdlib Require Import String ZArith Lia.
From stdpp Require Import base tactics option list strings.
From S2P Require Import Prelude JsString JsValue Json Normalizer Transport Format Action.
From S2P Require Import Session Controller Playback System SystemRefinement Render.
From S2P Require Import Invariants.

(** ** The declared types *)

(** [string | null].  [undefined], which a reply without [mode] leaves in
    [prevResMode], is not of this type, though the transport treats it
    as [null]. *)
Definition nullable_string (v : value) : bool :=
  match v with
  | VStr _ | VNull => true
  | _ => false
  end.

(** [ChatMessage[]] with [text: string]. *)
Definition typed_log (l : list ChatMessage) : bool :=
  forallb (fun m => is_string (text m)) l.

(** The fields of the component that hold values of the server. *)
Definition typed (s : component) : bool :=
  typed_log (messages s) && nullable_string (prevRes s) && nullable_string (prevResMode s).

(** What every display value is, typed or not: a string, or a truthy value
    the normalisation passed on. *)
Definition displayable (v : value) : bool := is_string v || truthy v.

(** ** The judgement on payloads *)

Section judgement.
Context `{JP : JsonPlatform}.

(** The [message] of [v], where the code takes it when it is truthy, is a
    string. *)
Definition message_ok (v : value) : bool :=
  implb (truthy (prop_of "message" v)) (is_string (prop_of "message" v)).

(** The value of a truthy [response]: a text that holds no object, or an
    object whose [message] is [message_ok]; an object or an array is
    displayed as such unless it holds a [message] that is a string; a
    number and [true] are displayed as such. *)
Definition response_ok (c : value) : bool :=
  match c with
  | VStr s =>
      if looks_like_object s
      then match JSON_parse s with
           | Normal v => message_ok v
           | Throw _ => true
           end
      else true
  | _ => truthy (prop_of "message" c) && is_string (prop_of "message" c)
  end.

(** [typed_payload payload]: the payload, parsed when it is the text of an
    object, is no object, or an object whose [message] is falsy or a string
    and whose [response], when it is the one displayed, is
    [response_ok]. *)
Definition typed_payload (payload : value) : bool :=
  let v := parse_outer payload in
  negb (is_object v)
  || message_ok v
     && (truthy (prop_of "message" v)
         || negb (truthy (prop_of "response" v))
         || response_ok (prop_of "response" v)).

(** The body of a reply: the callback throws on [null] and [undefined]
    before it writes anything; otherwise it stores the display value of
    [response] and the value of [mode]. *)
Definition typed_reply (res : value) : bool :=
  match get_field res Response, get_field res Mode with
  | Normal responseObj, Normal mode => typed_payload responseObj && nullable_string mode
  | _, _ => true
  end.

Definition typed_event (e : event) : bool :=
  match e with
  | ChatReply _ res => typed_reply res
  | _ => true
  end.

End judgement.

(** ** Lemmas *)

Lemma typed_log_snoc (l : list ChatMessage) (m : ChatMessage) :
  typed_log (l ++ [m]) = typed_log l && is_string (text m).
Proof. unfold typed_log. rewrite forallb_app. simpl. by rewrite andb_true_r. Qed.

Lemma typed_log_Forall (l : list ChatMessage) :
  typed_log l = true <-> Forall (fun m => is_string (text m) = true) l.
Proof. apply forallb_Forall. Qed.

Lemma displayable_string (v : value) : is_string v = true -> displayable v = true.
Proof. unfold displayable. by intros ->. Qed.

#[export] Hint Resolve displayable_string : js.

Section judgement_facts.
Context `{JP : JsonPlatform}.

Lemma unwrap_inner_typed (c botText : value) :
  truthy c = true -> unwrap_inner c = Normal botText ->
  is_string botText = response_ok c /\ displayable botText = true.
Proof.
  intros Ht. destruct c as [| |b|n|s|items|props]; try done.
  - by intros [= <-].
  - by intros [= <-].
  - rewrite unwrap_inner_string. intros [= <-]. simpl. unfold message_ok, displayable.
    destruct (looks_like_object s); [|done].
    destruct (JSON_parse s) as [v|]; [|done].
    destruct (truthy (prop_of "message" v)) eqn:Hm; [|done]. simpl.
    rewrite Hm. by destruct (is_string _).
  - by intros [= <-].
  - rewrite unwrap_inner_object by done. unfold response_ok, displayable. simpl.
    destruct (truthy (lookup_prop "message" props)) eqn:Hm; intros [= <-]; [|done].
    rewrite Hm. by destruct (is_string _).
Qed.

Lemma handle_response_typed (v botText : value) :
  handle_response v = Normal botText ->
  is_string botText
  = negb (is_object v)
    || message_ok v
       && (truthy (prop_of "message" v)
           || negb (truthy (prop_of "response" v))
           || response_ok (prop_of "response" v))
  /\ displayable botText = true.
Proof.
  unfold message_ok. destruct (is_object v) eqn:Ho; simpl;
    [|rewrite handle_response_primitive by done; by intros [= <-]].
  destruct (truthy (prop_of "message" v)) eqn:Hm; simpl.
  { rewrite handle_response_message by done. intros [= <-].
    unfold displayable. rewrite Hm. by destruct (is_string _). }
  destruct (truthy (prop_of "response" v)) eqn:Hr; simpl.
  - rewrite handle_response_response by done. by apply unwrap_inner_typed.
  - rewrite handle_response_fallback by done. intros [= <-].
    pose proof (stringify_object v Ho) as Hs. unfold displayable. by rewrite Hs.
Qed.

End judgement_facts.

Section preservation.
Context `{JP : JsonPlatform}.

Lemma normalize_typed (payload botText : value) :
  normalize payload = Normal botText ->
  is_string botText = typed_payload payload /\ displayable botText = true.
Proof. apply handle_response_typed. Qed.

Lemma typed_replied (s : component) (botText mode : value) :
  typed s = true ->
  typed (replied s botText mode) = is_string botText && nullable_string mode.
Proof.
  unfold typed. simpl. rewrite typed_log_snoc. simpl.
  intros [[-> _]%andb_true_iff _]%andb_true_iff. by destruct botText.
Qed.

Lemma typed_reply_null (res : value) : nullish res = true -> typed_reply res = true.
Proof. by destruct res. Qed.

Lemma step_case_typed (e : event) (w w' : world) :
  step_case e w w' -> typed (this w) = true -> typed (this w') = typed_event e.
Proof.
  intros Hc Ht. destruct Hc; simpl; try done.
  all: try (unfold typed in *; simpl; rewrite ?typed_log_snoc; simpl;
            by rewrite ?andb_true_r).
  - destruct (sendUserMessage_next_inv _ _ _ _ Hout) as (responseObj & Hr & Hn & Hm).
    rewrite typed_replied by done. unfold typed_reply. rewrite Hr, Hm.
    by destruct (normalize_typed _ _ Hn) as [-> _].
  - by rewrite typed_reply_null.
Qed.

Lemma step_case_displayable (e : event) (w w' : world) :
  step_case e w w' ->
  Forall (fun m => displayable (text m) = true) (messages (this w)) ->
  Forall (fun m => displayable (text m) = true) (messages (this w')).
Proof.
  intros Hc Hd. destruct Hc; simpl; try done.
  all: try (apply Forall_app; split; [done|]).
  all: try by repeat constructor.
  destruct (sendUserMessage_next_inv _ _ _ _ Hout) as (responseObj & _ & Hn & _).
  repeat constructor. simpl. by destruct (normalize_typed _ _ Hn).
Qed.

End preservation.

(** The render of a log of displayable values completes exactly when the
    log is well typed, and then it is the markup of its texts. *)
Lemma render_all_typed (l : list ChatMessage) :
  Forall (fun m => displayable (text m) = true) l ->
  is_normal (render_all l) = typed_log l.
Proof.
  induction 1 as [|m l Hm _ IH]; [done|]. simpl.
  destruct (text m) as [| |b|n|s|items|props] eqn:E; try done.
  - by destruct b.
  - unfold displayable in Hm. simpl in Hm. unfold formatMessage_value. simpl.
    by rewrite Hm.
  - rewrite formatMessage_value_string. simpl. rewrite <- IH.
    by destruct (render_all l).
Qed.

Lemma render_all_markup (l : list ChatMessage) :
  typed_log l = true ->
  render_all l = Normal ((fun m => formatMessage (to_string (text m))) <$> l).
Proof.
  induction l as [|m l IH]; [done|]. simpl. intros [Hm Hl]%andb_true_iff.
  destruct (text m); try done. rewrite formatMessage_value_string. simpl.
  by rewrite IH.
Qed.

(** ** Theorems *)

Section typing_theorems.
Context `{JP : JsonPlatform}.

(** C16: the type of the display value.  The normalisation completes on
    every payload, and the value it returns is a string exactly when the
    payload is [typed_payload]; when it is no string it is a truthy value
    of the server (a number, [true], an array or an object), passed on as
    it came. *)
Theorem normalize_string_iff (payload : value) :
  exists botText,
    normalize payload = Normal botText
    /\ is_string botText = typed_payload payload
    /\ (is_string botText = false -> truthy botText = true).
Proof.
  destruct (handle_response_total (parse_outer payload)) as [botText Hn].
  exists botText. split; [done|].
  destruct (normalize_typed _ _ Hn) as [Hs Hd]. split; [done|].
  unfold displayable in Hd. intros Hf. by rewrite Hf in Hd.
Qed.

(** C15: preservation, exactly.  From a component whose fields have
    their declared types, an event leads to such a component exactly
    when it is well typed: every event of the user and of the playback
    is, and a reply is when its body is [typed_reply]. *)
Theorem step_typed (e : event) (w w' : world) :
  step e w = Some w' -> typed (this w) = true ->
  typed (this w') = typed_event e.
Proof. intros Hc%step_sound. by apply step_case_typed. Qed.

(** Along a run of well-typed events the declared types hold. *)
Theorem typed_run (es : list event) (w w' : world) :
  steps es w = Some w' -> typed (this w) = true ->
  forallb typed_event es = true -> typed (this w') = true.
Proof.
  intros Hs Ht Hes. revert Hes Ht Hs.
  apply (run_invariant (steps := steps) (fun w => typed (this w) = true)).
  intros e s s' He Ht Hs%step_sound. by rewrite (step_case_typed e s s'), He.
Qed.

(** A reset restores the declared types, whatever the component held. *)
Theorem reset_restores_typing (rnd : string) (w w' : world) :
  step (Reset rnd) w = Some w' -> typed (this w') = true.
Proof. intros Hc%step_sound. by inversion Hc. Qed.

(** Every entry of the log of a reachable world is a string or a truthy
    value. *)
Theorem reachable_displayable (w : world) :
  reachable w -> Forall (fun m => displayable (text m) = true) (messages (this w)).
Proof.
  induction 1 as [rnd|e w w' _ IH Hs%step_sound]; [by repeat constructor|].
  by apply (step_case_displayable e w).
Qed.

(** C22: a well-typed log is what the page needs.  In a reachable world
    the render of the log completes exactly when every entry is a string;
    one entry that is no string makes the render throw. *)
Theorem render_iff_typed (w : world) :
  reachable w ->
  is_normal (render (this w)) = typed_log (messages (this w)).
Proof. intros Hw. by apply render_all_typed, reachable_displayable. Qed.

(** The payloads the written specification covers are well typed. *)
Theorem well_shaped_typed (payload : value) :
  well_shaped payload = true -> typed_payload payload = true.
Proof.
  unfold well_shaped. rewrite spec_step1_parse_outer. intros Hw.
  pose proof (handle_response_spec _ Hw) as Hn.
  by destruct (normalize_typed payload _ Hn) as [<- _].
Qed.

(** The events the specification covers are well typed: the refinement of
    [SystemRefinement] runs inside the typed part of the system. *)
Theorem expected_typed (e : event) (w : world) :
  expected_at e w = true -> typed_event e = true.
Proof.
  destruct e as [| | | | | | | | | |i res| | | |]; try done.
  destruct res as [| | | | | |props]; try done. simpl.
  intros [[[Hw Hm]%andb_true_iff _]%andb_true_iff _]%andb_true_iff.
  unfold typed_reply. simpl. rewrite (well_shaped_typed _ Hw).
  by destruct (lookup_prop "mode" props).
Qed.

(** A request built from a well-typed context carries it as it is
    stored: [String] converts nothing, and only the empty text and [null]
    are left out. *)
Theorem typed_request_context (message sessionId : string) (prevRes prevResMode : value)
    (file : option File) (docType : value) :
  nullable_string prevRes = true ->
  form_get "prev_res"
    (sendMessage_form message sessionId prevRes prevResMode file docType)
  = match prevRes with
    | VStr t => if bool_decide (t = "") then None else Some (FText t)
    | _ => None
    end.
Proof.
  intros Hp. unfold sendMessage_form, form_append_value.
  destruct prevRes as [| | | |t| |]; try done; simpl;
    [destruct (truthy prevResMode), file, (truthy docType); reflexivity..|].
  case_bool_decide; simpl;
    destruct (truthy prevResMode), file, (truthy docType); reflexivity.
Qed.

End typing_theorems.

(** ** Examples and witnesses on the reference platform *)

(** The payloads of the specification (section 8, item 2) are well typed;
    a [message] or a [response] that is a number, an array or an object
    without [message] is not, and nor is the text of an object whose
    [message] is a number inside a [response]. *)
Theorem typed_payload_examples :
  Forall (fun p => typed_payload (JP := RefJson) p = true)
    [VStr (jq "{'message':'hi'}"); VStr (jq "{'response':'plain'}");
     VStr (jq "{'foo':'bar'}"); VStr "just text"; VStr ""; VNum 5; VNull; VUndefined;
     VObj [("message", VNum 0)]; VObj [("response", VObj [("message", VStr "ok")])]]
  /\ Forall (fun p => typed_payload (JP := RefJson) p = false)
       [VObj [("message", VNum 5)]; VObj [("response", VNum 5)];
        VObj [("response", VBool true)]; VObj [("response", VArr [VStr "a"])];
        VObj [("response", VObj [("text", VStr "a")])];
        VObj [("response", VStr (jq "{'message': 5}"))];
        VStr (jq "{'message': [1, 2]}")].
Proof. split; repeat constructor. Qed.

(** A reply whose [response] holds a number where the code looks for the
    text, and one whose [mode] is a number. *)
Definition number_reply : value := VObj numeric_reply.

Definition number_mode_reply : value := VObj [("response", VStr "ok"); ("mode", VNum 2)].

Lemma step_typed_witness :
  let after res :=
    default new_world (step (JP := RefJson) (ChatReply 0 res) two_turns_world) in
  typed (this (after sample_reply)) = true
  /\ typed (this (after number_reply)) = false
  /\ typed (this (after number_mode_reply)) = false.
Proof.
  cbv zeta. split; [|split].
  - apply (step_typed (JP := RefJson) (ChatReply 0 sample_reply) two_turns_world);
      by vm_compute.
  - apply (step_typed (JP := RefJson) (ChatReply 0 number_reply) two_turns_world);
      by vm_compute.
  - apply (step_typed (JP := RefJson) (ChatReply 0 number_mode_reply) two_turns_world);
      by vm_compute.
Defined.

Lemma typed_run_witness :
  typed (this (default new_world
                 (steps (JP := RefJson) sample_run (init "0.4fzyo82mvyr")))) = true.
Proof.
  apply (typed_run (JP := RefJson) sample_run (init "0.4fzyo82mvyr")); by vm_compute.
Defined.

Lemma render_iff_typed_witness :
  is_normal (render (this two_turns_world)) = typed_log (messages (this two_turns_world)).
Proof. apply (render_iff_typed (JP := RefJson)), two_turns_reachable. Defined.

Lemma well_shaped_typed_witness :
  typed_payload (JP := RefJson) (VStr (jq "{'response':'{\'message\':\'ok\'}'}")) = true.
Proof. by apply (well_shaped_typed (JP := RefJson)). Defined.

Lemma expected_typed_witness :
  typed_event (JP := RefJson) (ChatReply 0 sample_reply) = true.
Proof. by apply (expected_typed (JP := RefJson) _ two_turns_world). Defined.

Lemma reset_restores_typing_witness :
  typed (this (default new_world
                 (steps (JP := RefJson) [ChatReply 0 number_reply; Reset "0.zzzzzzzzzzzz"]
                    two_turns_world))) = true.
Proof.
  apply (reset_restores_typing (JP := RefJson) "0.zzzzzzzzzzzz"
           (default new_world (step (JP := RefJson) (ChatReply 0 number_reply) two_turns_world))).
  by vm_compute.
Defined.

Lemma reachable_displayable_witness :
  Forall (fun m => displayable (text m) = true) (messages (this two_turns_world)).
Proof. apply (reachable_displayable (JP := RefJson)), two_turns_reachable. Defined.

Lemma typed_request_context_witness :
  form_get "prev_res"
    (sendMessage_form "hello" "session_4fzyo82mv" (VStr "namaskar") VNull None VNull)
  = Some (FText "namaskar").
Proof. by apply (typed_request_context "hello" "session_4fzyo82mv" (VStr "namaskar")). Defined.
