(* ===== verification/Agreement.v ===== *)
(** * Agreement: where the source computes the text of the specification

    [Normalizer] proves that the normalisation returns the string of the
    specification on the payloads the server is expected to send.  This
    file delimits the agreement on all payloads.  The source differs from
    the written algorithm (section 4.1) in three ways: it returns the
    value it found without converting it to a string; it takes a
    [message] or a [response] when its value is truthy, the specification
    when the field is present; and it trims the text of a [response]
    before it looks for the brace, the specification does not.
    [divergent] names the payloads on which the last two matter; on every
    other payload the text [String] makes of the value the source
    returns is the text of the specification. *)

From Stdlib Require Import Ascii String ZArith Lia.
From stdpp Require Import base tactics option list strings.
From S2P Require Import Prelude JsString JsValue Json Normalizer Typing.

Section divergence.
Context `{JP : JsonPlatform}.

(** The field [k] of [v] is present and falsy: the empty string, [0],
    [false] or [null]. *)
Definition falsy_present (k : string) (v : value) : bool :=
  has_prop k v && negb (truthy (prop_of k v)).

(** The value of a truthy [response] on which the inner pass of the
    source and the unwrap pass of the specification part: a text that
    holds an object after leading white space only, whose [message] the
    source takes; a text that holds an object whose [message] is present
    and falsy; an object whose [message] is present and falsy. *)
Definition inner_divergent (r : value) : bool :=
  match r with
  | VStr s =>
      looks_like_object s
      && match JSON_parse s with
         | Normal p =>
             if startsWith s "{" then falsy_present "message" p
             else truthy (prop_of "message" p)
         | Throw _ => false
         end
  | _ => falsy_present "message" r
  end.

(** The payloads on which the source and the specification may part. *)
Definition divergent (payload : value) : bool :=
  let v := parse_outer payload in
  is_object v
  && (falsy_present "message" v
      || negb (has_prop "message" v)
         && (falsy_present "response" v
             || truthy (prop_of "response" v)
                && inner_divergent (prop_of "response" v))).

End divergence.

(** ** Lemmas *)

Section agreement_facts.
Context `{JP : JsonPlatform}.

Lemma startsWith_brace_looks (s : string) :
  startsWith s "{" = true -> looks_like_object s = true.
Proof.
  intros Hs. rewrite looks_like_object_trimStart.
  destruct s as [|c r]; [done|]. rewrite startsWith_cons in Hs.
  apply andb_true_iff in Hs as [<-%bool_decide_eq_true _].
  rewrite trimStart_not_ws by done. rewrite startsWith_cons, startsWith_nil. by case_bool_decide.
Qed.

Lemma falsy_present_false (k : string) (v x : value) :
  falsy_present k v = false ->
  (if has_prop k v then prop_of k v else x)
  = (if truthy (prop_of k v) then prop_of k v else x).
Proof.
  unfold falsy_present. destruct (has_prop k v) eqn:Hh; simpl.
  - by intros ->%negb_false_iff.
  - intros _. by rewrite prop_of_absent.
Qed.

(** Outside [inner_divergent] the two inner passes return the same
    value. *)
Lemma unwrap_inner_agrees (r : value) :
  truthy r = true -> inner_divergent r = false ->
  unwrap_inner r = Normal (spec_unwrap r).
Proof.
  intros Ht Hd. destruct r as [| |b|n|s|items|props]; try done.
  - rewrite unwrap_inner_string. simpl in *.
    destruct (looks_like_object s) eqn:Hl; simpl in Hd.
    + destruct (JSON_parse s) as [p|e]; [|by destruct (startsWith s "{")].
      destruct (startsWith s "{"); [by rewrite (falsy_present_false _ _ (VStr s) Hd)|].
      by rewrite Hd.
    + destruct (startsWith s "{") eqn:Hs; [|done].
      by rewrite (startsWith_brace_looks s Hs) in Hl.
  - rewrite unwrap_inner_object by done.
    by rewrite <- (falsy_present_false "message" (VObj props) (VObj props) Hd).
Qed.

Lemma handle_response_agrees (v : value) :
  is_object v
  && (falsy_present "message" v
      || negb (has_prop "message" v)
         && (falsy_present "response" v
             || truthy (prop_of "response" v)
                && inner_divergent (prop_of "response" v))) = false ->
  exists botText,
    handle_response v = Normal botText /\ to_string botText = to_string (spec_step2 v).
Proof.
  unfold spec_step2. destruct (is_object v) eqn:Ho; simpl;
    [|intros _; eexists; split; [by apply handle_response_primitive|done]].
  intros [Hm H]%orb_false_iff.
  destruct (has_prop "message" v) eqn:Hh.
  { unfold falsy_present in Hm. rewrite Hh in Hm. apply negb_false_iff in Hm.
    eexists. split; [by apply handle_response_message|done]. }
  simpl in H. apply orb_false_iff in H as [Hr H].
  assert (truthy (prop_of "message" v) = false) as Hfm by by rewrite prop_of_absent.
  destruct (truthy (prop_of "response" v)) eqn:Ht; simpl in H.
  - rewrite (truthy_has_prop _ _ Ht), handle_response_response by done.
    eexists. split; [by apply unwrap_inner_agrees|done].
  - unfold falsy_present in Hr. rewrite Ht, andb_true_r in Hr. rewrite Hr.
    eexists. split; [by apply handle_response_fallback|].
    pose proof (stringify_object v Ho). by destruct (JSON_stringify v).
Qed.

Lemma field_ok_not_falsy (k : string) (v : value) :
  field_ok k v = true -> falsy_present k v = false.
Proof.
  unfold field_ok, falsy_present. destruct (has_prop k v); simpl; [|done].
  by intros ->%plain_text_truthy.
Qed.

Lemma inner_ok_not_divergent (r : value) :
  inner_ok r = true -> inner_divergent r = false.
Proof.
  destruct r as [| | | |s| |]; try done. simpl.
  intros [[_ Hs%bool_decide_eq_true]%andb_true_iff Hp]%andb_true_iff.
  destruct (looks_like_object s) eqn:Hl; [|done]. simpl in *.
  destruct (JSON_parse s) as [p|]; [|done].
  rewrite looks_like_object_trimStart, Hs in Hl. rewrite Hl.
  by apply field_ok_not_falsy.
Qed.

End agreement_facts.

(** ** Theorems *)

Section agreement.
Context `{JP : JsonPlatform}.

(** C17: the source computes the text of the specification on every
    payload that is not [divergent], up to the conversion it leaves out:
    the value the normalisation returns, converted by [String], is the
    text the algorithm of section 4.1 computes; and it is that very
    string when the payload is well typed. *)
Theorem normalize_agrees (payload : value) :
  divergent payload = false ->
  exists botText,
    normalize payload = Normal botText
    /\ to_string botText = spec_normalize payload
    /\ (typed_payload payload = true -> botText = VStr (spec_normalize payload)).
Proof.
  intros Hd.
  destruct (handle_response_agrees (parse_outer payload) Hd) as (botText & Hn & Hs).
  unfold spec_normalize. rewrite spec_step1_parse_outer, <- Hs.
  exists botText. repeat split; [done|]. intros Ht.
  apply is_string_to_string. by destruct (normalize_typed payload botText Hn) as [-> _].
Qed.

(** The payloads the specification covers are not divergent. *)
Theorem well_shaped_not_divergent (payload : value) :
  well_shaped payload = true -> divergent payload = false.
Proof.
  unfold well_shaped, divergent. rewrite spec_step1_parse_outer.
  destruct (is_object (parse_outer payload)); [|done]. simpl.
  intros [Hm H]%andb_true_iff. rewrite (field_ok_not_falsy _ _ Hm). simpl.
  destruct (has_prop "message" _); [done|]. simpl in *.
  destruct (has_prop "response" (parse_outer payload)) eqn:Hr; simpl in H.
  - rewrite (inner_ok_not_divergent _ H), andb_false_r, orb_false_r.
    unfold falsy_present. by rewrite (inner_ok_truthy _ H), andb_false_r.
  - unfold falsy_present. by rewrite Hr, prop_of_absent.
Qed.

End agreement.

(** ** Examples and witnesses on the reference platform *)

(** [parts payload]: the text of the source and the text of the
    specification differ. *)
Definition parts (payload : value) : bool :=
  match normalize (JP := RefJson) payload with
  | Normal botText =>
      negb (bool_decide (to_string botText = spec_normalize (JP := RefJson) payload))
  | Throw _ => true
  end.

(** One payload for each way of [divergent]: a [message] that is
    present and empty; a [response] that is present and empty; a
    [response] whose text holds an object after a blank; one whose object
    has an empty [message]; a [response] that is an object whose
    [message] is [0]. *)
Theorem divergent_examples :
  Forall (fun p => divergent (JP := RefJson) p = true /\ parts p = true)
    [VObj [("message", VStr ""); ("response", VStr "text")];
     VObj [("response", VStr "")];
     VObj [("response", VStr (jq " {'message':'hi'}"))];
     VObj [("response", VStr (jq "{'message':''}"))];
     VObj [("response", VObj [("message", VNum 0)])]].
Proof. repeat constructor. Qed.

Lemma normalize_agrees_witness :
  exists botText,
    normalize (JP := RefJson) (VObj [("response", VStr (jq "{'message': 5}"))])
    = Normal botText
    /\ to_string botText = "5".
Proof.
  destruct (normalize_agrees (JP := RefJson)
              (VObj [("response", VStr (jq "{'message': 5}"))]) eq_refl)
    as (botText & Hn & Hs & _).
  by exists botText.
Defined.

Lemma well_shaped_not_divergent_witness :
  divergent (JP := RefJson) (VStr (jq "{'response':'{\'message\':\'ok\'}'}")) = false.
Proof. by apply (well_shaped_not_divergent (JP := RefJson)). Defined.
