(* ===== verification/PageRefinement.v ===== *)
(** * PageRefinement: the component cannot see a play that was refused

    [Page] lets the browser refuse to play an element (the promise of
    [play()] is rejected).  The component drops that promise, so nothing of
    the refusal reaches it.  This file proves it as a simulation: every run
    of the page, timers, changes of the view and refusals included, is
    matched by the run of [System] on the events of the handlers alone,
    and the two end in the same component, the same requests in flight and
    the same object URLs; the audio elements differ only in that an
    element the browser refused is silent on the page and sounds in the
    system.  Without refusals the two worlds are equal: the page adds
    nothing to what the handlers do.

    The simulation carries the invariants of [System] to the page, all but
    one: the element the component holds need not sound.  The invariant
    that takes its place ([refusal_inv]) says when it does: exactly when
    its play was not refused ([held_silent_iff_refused]). *)

From Stdlib Require Import String ZArith Lia.
From stdpp Require Import base tactics option list strings.
From S2P Require Import Prelude JsString JsValue Json Normalizer Transport Action Session.
From S2P Require Import Playback System Page Invariants.

(** ** The simulation relation *)

(** The events of the handlers in a run of the page. *)
Definition core_event (e : page_event) : list event :=
  if e is Core e' then [e'] else [].

Definition core_events (es : list page_event) : list event := es ≫= core_event.

Definition is_rejection (e : page_event) : bool :=
  if e is PlayRejected _ then true else false.

(** [silenced elp els]: the element of the page is the element of the
    system, or it is that element refused: silent where the other sounds. *)
Definition silenced (elp els : audio_element) : Prop :=
  src elp = src els /\ has_onended elp = has_onended els
  /\ (status elp = status els \/ (status elp = Paused /\ status els = Playing)).

(** [conceals wp ws]: the world of the page and the world of the system
    differ in refused elements only. *)
Record conceals (wp ws : world) : Prop := {
  same_world : ws = set_audios (audios ws) wp;
  same_elements : Forall2 silenced (audios wp) (audios ws);
}.

(** ** The invariant of the refusals *)

(** The element the component holds sounds unless its play was refused,
    and a refused element is silent. *)
Record refusal_inv (w : world) (errs : list page_error) : Prop := {
  held_or_refused :
    forall a, currentAudio (this w) = Some a -> sounds w a \/ was_refused errs a;
  refused_silent :
    forall a, was_refused errs a -> exists el, audios w !! a = Some el /\ status el <> Playing;
}.

(** An element that sounds has the [onended] handler. *)
Definition sounds_onended (w : world) : Prop :=
  store_all (fun _ el => status el = Playing -> has_onended el = true) (audios w).

(** ** Lemmas *)

Lemma silenced_refl (el : audio_element) : silenced el el.
Proof. repeat split. by left. Qed.

Lemma conceals_refl (w : world) : conceals w w.
Proof. split; [by destruct w|]. apply Forall2_same_length_lookup_2; [done|].
  intros i x y Hx Hy. rewrite Hx in Hy. injection Hy as <-. apply silenced_refl.
Qed.

Lemma silenced_pause (elp els : audio_element) :
  silenced elp els -> silenced (pause elp) (pause els).
Proof.
  destruct elp as [u st h], els as [u' st' h']. unfold silenced, pause. simpl.
  intros (-> & -> & [->|[-> ->]]); [destruct st'|]; simpl; auto.
Qed.

Lemma silenced_playing (elp els : audio_element) :
  silenced elp els -> status elp = Playing ->
  status els = Playing /\ has_onended els = has_onended elp
  /\ silenced (set_status Ended elp) (set_status Ended els)
  /\ silenced (set_status Paused elp) els.
Proof.
  intros (Hs & Hh & [He|[He _]]) Hp; [|congruence].
  rewrite <- He, Hp, Hh. unfold silenced. simpl. rewrite <- He, Hp. auto 10.
Qed.

Lemma conceals_intro (wp : world) (auds : list audio_element) (ws : world) :
  ws = set_audios auds wp -> Forall2 silenced (audios wp) auds -> conceals wp ws.
Proof. intros -> H. by split. Qed.

Section simulation.
Context `{JP : JsonPlatform}.

(** A step of the handlers on the page is a step of the system beside it. *)
Lemma step_case_conceals (e : event) (wp wp' : world) (auds : list audio_element) :
  step_case e wp wp' -> Forall2 silenced (audios wp) auds ->
  exists auds',
    step_case e (set_audios auds wp) (set_audios auds' wp')
    /\ Forall2 silenced (audios wp') auds'.
Proof.
  intros Hc Ha. pose proof (Forall2_length _ _ _ Ha) as Hlen.
  destruct Hc.
  all: try (exists auds; split; [eapply step_case_eq; [some_rule|done]|done]).
  - exists (alter pause a auds). split; [eapply step_case_eq; [some_rule|done]|].
    simpl. apply Forall2_alter; [done|]. intros x y _ _. apply silenced_pause.
  - exists (auds ++ [mkAudio (length (object_urls w)) Playing true]).
    split; [eapply step_case_eq; [some_rule|simpl; by rewrite Hlen]|].
    simpl. apply Forall2_app; [done|]. repeat constructor.
  - destruct (Forall2_lookup_l _ _ _ _ _ Ha Hel) as (els & Hels & Hsil).
    destruct (silenced_playing _ _ Hsil Hst) as (Hp & Hh & He & _).
    exists (<[a := set_status Ended els]> auds). split.
    + eapply step_case_eq; [eapply case_ended; simpl; [done|done|congruence]|done].
    + simpl. by apply Forall2_insert.
  - destruct (Forall2_lookup_l _ _ _ _ _ Ha Hel) as (els & Hels & Hsil).
    destruct (silenced_playing _ _ Hsil Hst) as (Hp & Hh & He & _).
    exists (<[a := set_status Ended els]> auds). split.
    + eapply step_case_eq; [eapply case_ended_silent; simpl; [done|done|congruence]|done].
    + simpl. by apply Forall2_insert.
Qed.

Lemma step_conceals (e : event) (wp wp' ws : world) :
  step e wp = Some wp' -> conceals wp ws ->
  exists ws', step e ws = Some ws' /\ conceals wp' ws'.
Proof.
  intros Hs%step_sound [Hw Ha].
  destruct (step_case_conceals e wp wp' (audios ws) Hs Ha) as (auds' & Hc & Ha').
  exists (set_audios auds' wp'). split; [rewrite Hw; by apply step_complete|].
  by eapply conceals_intro.
Qed.

(** A refusal changes the page and not the system beside it. *)
Lemma reject_conceals (a : audio) (wp wp' ws : world) :
  reject a wp = Some wp' -> conceals wp ws -> conceals wp' ws.
Proof.
  intros (el & Hel & Hst & ->)%reject_Some [Hw Ha].
  destruct (Forall2_lookup_l _ _ _ _ _ Ha Hel) as (els & Hels & Hsil).
  destruct (silenced_playing _ _ Hsil Hst) as (_ & _ & _ & Hp).
  split; [by rewrite Hw|]. simpl.
  rewrite <- (list_insert_id (audios ws) a els) by done. by apply Forall2_insert.
Qed.

Lemma page_step_conceals (e : page_event) (p p' : page) (ws : world) :
  page_step e p = Some p' -> conceals (world_of p) ws ->
  exists ws',
    steps (core_event e) ws = Some ws' /\ conceals (world_of p') ws'.
Proof.
  intros Hs Hc. destruct e as [e| |view input|a]; simpl in Hs.
  - destruct (step e (world_of p)) as [wp'|] eqn:He; [|done]. injection Hs as <-.
    destruct (step_conceals e _ _ ws He Hc) as (ws' & Hs' & Hc').
    exists ws'. simpl. by rewrite Hs'.
  - destruct (decide _); [|done]. injection Hs as <-. exists ws. split; [done|].
    by destruct (scroll_callback _).
  - injection Hs as <-. by exists ws.
  - destruct (reject a (world_of p)) as [wp'|] eqn:Hr; [|done]. injection Hs as <-.
    exists ws. split; [done|]. by eapply reject_conceals.
Qed.

End simulation.

(** What the relation keeps: everything the handlers read or write but the
    states of the elements. *)
Lemma conceals_fields (wp ws : world) :
  conceals wp ws ->
  this ws = this wp /\ chat_pending ws = chat_pending wp
  /\ tts_pending ws = tts_pending wp /\ object_urls ws = object_urls wp
  /\ uncaught ws = uncaught wp /\ length (audios ws) = length (audios wp).
Proof.
  intros [Hw Ha]. apply Forall2_length in Ha. rewrite Hw. by repeat split.
Qed.

(** ** Theorems *)

Section page_refinement.
Context `{JP : JsonPlatform}.

(** The page refines the system, and a refused play is invisible to
    the component.  Beside every run of the page (handlers, timers,
    changes of the view, refusals of [play()]) the system runs the events
    of the handlers alone; that run is enabled, and it ends in a world
    that differs from the world of the page in refused elements only:
    the same component, the same requests, the same object URLs. *)
Theorem rejection_invisible (es : list page_event) (p p' : page) (ws : world) :
  page_steps es p = Some p' -> conceals (world_of p) ws ->
  exists ws', steps (core_events es) ws = Some ws' /\ conceals (world_of p') ws'.
Proof.
  intros Hs Hc. revert es p p' ws Hc Hs.
  apply (run_simulation (steps := page_steps) (steps' := steps)
           (fun p ws => conceals (world_of p) ws) core_event).
  intros e p p' ws Hc Hs. by apply (page_step_conceals e p).
Qed.

(** Every component of a reachable page is the component of a reachable
    world of the system: what [Invariants] proves of the component in every
    reachable world holds on the page. *)
Theorem page_component_reachable (p : page) :
  page_reachable p -> exists ws, reachable ws /\ conceals (world_of p) ws.
Proof.
  induction 1 as [rnd|e p p' _ (ws & Hr & Hc) Hs].
  { exists (init rnd). split; [constructor|apply conceals_refl]. }
  destruct (page_step_conceals e p p' ws Hs Hc) as (ws' & Hs' & Hc').
  exists ws'. split; [|done]. by eapply steps_reachable.
Qed.

(** Without a refusal the page adds nothing to the world: its run is the
    run of the system on the events of the handlers. *)
Theorem page_steps_core (es : list page_event) (p p' : page) :
  forallb (fun e => negb (is_rejection e)) es = true ->
  page_steps es p = Some p' ->
  steps (core_events es) (world_of p) = Some (world_of p').
Proof.
  revert p. induction es as [|e es IH]; intros p; simpl; [by intros _ [= <-]|].
  intros [He Hes]%andb_true_iff.
  destruct (page_step e p) as [p1|] eqn:Hs; [|done]. simpl. intros Hp.
  specialize (IH p1 Hes Hp). destruct e as [e| |view input|a]; simpl in *; try done.
  - destruct (step e (world_of p)) as [w1|]; [|done]. by injection Hs as <-.
  - destruct (decide _); [|done]. injection Hs as <-.
    by destruct (scroll_callback _).
  - by injection Hs as <-.
Qed.

(** Every run of the system is a run of the page, whatever the view. *)
Theorem system_runs_on_page (es : list event) (p : page) (w' : world) :
  steps es (world_of p) = Some w' ->
  exists p', page_steps (Core <$> es) p = Some p' /\ world_of p' = w'
    /\ scrollContainer p' = scrollContainer p /\ fired p' = fired p.
Proof.
  revert p. induction es as [|e es IH]; intros p; simpl.
  { intros [= <-]. by exists p. }
  destruct (step e (world_of p)) as [w1|] eqn:He; [|done]. simpl. intros Hs.
  by apply (IH (mkPage w1 _ _ _ _)).
Qed.

End page_refinement.

(** ** When the element held is silent *)

Lemma was_refused_callback (errs : list page_error) (e : js_error) (a : audio) :
  was_refused (errs ++ [CallbackThrew e]) a <-> was_refused errs a.
Proof.
  unfold was_refused. rewrite elem_of_app, list_elem_of_singleton.
  split; [by intros [?|?]|by left].
Qed.

Lemma insert_lookup_ne {A} (l : list A) (a b : nat) (x y : A) :
  a <> b -> l !! a = Some x -> <[b := y]> l !! a = Some x.
Proof. intros Hne Hl. by rewrite list_lookup_insert_ne. Qed.

Lemma insert_lookup_eq {A} (l : list A) (a : nat) (x y : A) :
  l !! a = Some x -> <[a := y]> l !! a = Some y.
Proof. intros Hl. apply list_lookup_insert_eq. by eapply lookup_lt_Some. Qed.

Section refusal.
Context `{JP : JsonPlatform}.

Lemma step_refusal_inv (e : event) (w w' : world) (errs : list page_error) :
  step_case e w w' -> sounds_onended w -> refusal_inv w errs -> refusal_inv w' errs.
Proof.
  intros Hc Hon [Hh Hr]. destruct Hc; split; simpl; try done.
  - intros b (x & Hx & Hst)%Hr. rewrite list_lookup_alter.
    case_decide as Hab; [subst b|by exists x].
    exists (pause x). split; [by apply fmap_Some_2|apply status_pause].
  - intros ? [= <-]. left. eexists. split; [by apply list_lookup_middle|done].
  - intros a (x & Hx & Hst)%Hr. exists x. split; [by apply lookup_app_l_Some|done].
  - intros b (x & Hx & Hst')%Hr. destruct (decide (b = a)) as [->|?].
    + eexists. split; [by eapply insert_lookup_eq|done].
    + exists x. split; [by apply insert_lookup_ne|done].
  - by rewrite (Hon _ _ Hel Hst) in Hhandler.
  - by rewrite (Hon _ _ Hel Hst) in Hhandler.
Qed.

Lemma page_step_refusal_inv (e : page_event) (p p' : page) :
  page_step e p = Some p' -> sounds_onended (world_of p) ->
  refusal_inv (world_of p) (page_errors p) -> refusal_inv (world_of p') (page_errors p').
Proof.
  intros Hs Hon Hinv. destruct e as [e| |view input|b]; simpl in Hs.
  - destruct (step e (world_of p)) as [w'|] eqn:He; [|done]. injection Hs as <-.
    apply step_sound in He. destruct (step_refusal_inv _ _ _ _ He Hon Hinv) as [Hh Hr].
    simpl. destruct e; rewrite ?app_nil_r; try done.
    destruct (fileInput p); rewrite ?app_nil_r; [done|].
    split; intros a; rewrite was_refused_callback; auto.
  - destruct (decide _); [|done]. injection Hs as <-. destruct Hinv as [Hh Hr].
    destruct (scroll_callback _); [done|]. simpl.
    split; intros a; rewrite was_refused_callback; auto.
  - by injection Hs as <-.
  - destruct (reject b (world_of p)) as [w'|] eqn:Hr; [|done]. injection Hs as <-.
    apply reject_Some in Hr as (el & Hel & Hst & ->). destruct Hinv as [Hh Hr].
    split; simpl; unfold was_refused; intros a.
    + intros [(x & Hx & Hp)|Hx]%Hh; [|right; apply elem_of_app; by left].
      destruct (decide (a = b)) as [->|?].
      * right. apply elem_of_app. right. by apply list_elem_of_singleton.
      * left. exists x. split; [by apply insert_lookup_ne|done].
    + rewrite elem_of_app, list_elem_of_singleton. intros [Ha|[= ->]].
      * apply Hr in Ha as (x & Hx & Hp). exists x.
        split; [apply insert_lookup_ne; [congruence|done]|done].
      * eexists. split; [by eapply insert_lookup_eq|done].
Qed.

(** The elements that sound on a page the system reaches have the handler:
    they have it in the world beside the page. *)
Lemma reachable_sounds_onended (p : page) :
  page_reachable p -> sounds_onended (world_of p).
Proof.
  intros (ws & Hr & [Hw Ha])%page_component_reachable a el Hel Hst.
  destruct (Forall2_lookup_l _ _ _ _ _ Ha Hel) as (els & Hels & Hsil).
  destruct (silenced_playing _ _ Hsil Hst) as (Hp & Hh & _). rewrite <- Hh.
  by eapply (inv_onended _ (reachable_handle_inv_all ws Hr)).
Qed.

Lemma reachable_refusal_inv (p : page) :
  page_reachable p -> refusal_inv (world_of p) (page_errors p).
Proof.
  induction 1 as [rnd|e p p' Hp IH Hs].
  - split; [done|]. by intros a ?%elem_of_nil.
  - eapply page_step_refusal_inv; eauto using reachable_sounds_onended.
Qed.

(** C21: on every page the system reaches, a component that holds an
    element says it is playing, and the element sounds exactly when its
    play was not refused: [playTextToSpeech] clears the handle when it
    pauses, the [onended] handler clears it when the element ends, and
    nothing else silences an element; only the promise of [play()], which
    the next callback drops, can leave the component with a silent
    element. *)
Theorem held_silent_iff_refused (p : page) (a : audio) :
  page_reachable p -> currentAudio (this (world_of p)) = Some a ->
  isPlaying (this (world_of p)) = true
  /\ (sounds (world_of p) a <-> UnhandledRejection a ∉ page_errors p).
Proof.
  intros Hp Ha. destruct (reachable_refusal_inv p Hp) as [Hh Hr].
  split; [by rewrite (pi_flag _ (reachable_page_inv p Hp)), Ha|]. split.
  - intros (el & Hel & Hst) (x & Hx & Hn)%Hr. congruence.
  - intros Hn. by destruct (Hh a Ha).
Qed.

End refusal.

(** ** Witnesses *)

(** The sample page, the play refused, and the next request for speech. *)
Definition refused_run : list page_event :=
  sample_events ++ [PlayRejected 0; TimerFires; Core (Play (VStr "again"))].

Lemma rejection_invisible_witness :
  exists ws',
    steps (JP := RefJson) (core_events refused_run) (init "0.4fzyo82mvyr") = Some ws'
    /\ conceals
         (world_of (default sample_page
                      (page_steps (JP := RefJson) refused_run (page_init "0.4fzyo82mvyr"))))
         ws'.
Proof.
  apply (rejection_invisible (JP := RefJson) refused_run (page_init "0.4fzyo82mvyr"));
    [by vm_compute|apply conceals_refl].
Defined.

Lemma page_component_reachable_witness :
  exists ws, reachable (JP := RefJson) ws /\ conceals (world_of sample_page) ws.
Proof.
  apply (page_component_reachable (JP := RefJson)).
  eapply (page_steps_reachable (JP := RefJson));
    [apply page_reachable_init|apply sample_page_steps].
Defined.

Lemma page_steps_core_witness :
  steps (JP := RefJson) (core_events sample_events) (init "0.4fzyo82mvyr")
  = Some (world_of sample_page).
Proof.
  apply (page_steps_core (JP := RefJson) sample_events (page_init "0.4fzyo82mvyr"));
    [done|apply sample_page_steps].
Defined.

Lemma system_runs_on_page_witness :
  exists p', page_steps (JP := RefJson) (Core <$> two_turns) sample_page = Some p'
    /\ world_of p'
       = default new_world (steps (JP := RefJson) two_turns (world_of sample_page))
    /\ scrollContainer p' = scrollContainer sample_page /\ fired p' = fired sample_page.
Proof. apply (system_runs_on_page (JP := RefJson)). by vm_compute. Defined.

(** The sample page after the browser refused the play and a timer ran. *)
Definition refused_events : list page_event :=
  sample_events ++ [PlayRejected 0; TimerFires].

Definition refused_page : page :=
  Eval vm_compute in
    default sample_page
      (page_steps (JP := RefJson) refused_events (page_init "0.4fzyo82mvyr")).

Lemma refused_page_steps :
  page_steps (JP := RefJson) refused_events (page_init "0.4fzyo82mvyr") = Some refused_page.
Proof. by vm_compute. Qed.

Lemma held_silent_iff_refused_witness :
  isPlaying (this (world_of refused_page)) = true
  /\ (sounds (world_of refused_page) 0 <-> UnhandledRejection 0 ∉ page_errors refused_page).
Proof.
  apply (held_silent_iff_refused (JP := RefJson)); [|done].
  eapply (page_steps_reachable (JP := RefJson));
    [apply page_reachable_init|apply refused_page_steps].
Defined.
